(** * Resumable, rate-limited guild migration: a shallow embedding

    The development follows the JavaScript sources of the verification bot:

    - [utils/rateLimiter.js]   : [sleep], [RateLimiter], [retryWithBackoff]
    - [utils/constants.js]     : policy constants and outcome tags
    - [database/queries/users.js] : the SQL queries, as functions on tables
    - [services/oauth.js]      : [refreshToken], [ensureFreshToken], [addUserToGuild]
    - [services/migration.js]  : [processSingleUser], [executeMigration]
    - [bot/events/messageCreate.js] : the [?pull] command
    - [services/migration.js]  : [createProgressBar]
    - [web/routes/oauth.js]    : the callback, [assignVerifiedRoles], [escapeHtml]
    - [database/queries/users.js] : the queries on verified users and OAuth states
    - [database/migrate.js]    : [runMigrations]
    - [bot/events/messageCreate.js] : [execute], the mass ban command
    - [bot/events/guildMemberAdd.js], [bot/commands/verify.js] : the handlers

    Asynchronous functions are written in a state-and-exception monad: a
    computation takes the store and returns either a thrown value or a result,
    together with the store as the computation left it (a JavaScript exception
    does not roll the database back).  Everything the environment decides (HTTP
    responses, database faults, the clock, random numbers) is read from an
    explicit [World] oracle. *)

From Stdlib Require Import String Ascii List Bool Arith ZArith QArith Qminmax Lia Permutation.
From Stdlib Require Import Qpower DecimalString Sorted.
From Stdlib Require Floats Uint63.
Import ListNotations.

Local Close Scope Q_scope.
Local Open Scope string_scope.
Local Open Scope list_scope.
Local Open Scope nat_scope.

Set Implicit Arguments.

(* ================================================================== *)
(** * JavaScript values and exceptions *)
(* ================================================================== *)

(** A thrown value.  Every [throw] of the sources throws an [Error] object,
    of which only [message] is ever read; [retryWithBackoff] can in addition
    throw its uninitialised [lastError], which is [undefined]. *)
Inductive Thrown : Type :=
| JsError (message : string)
| JsUndefined.

Definition Exc (A : Type) : Type := (Thrown + A)%type.

(** [err.message]: reading a property of [undefined] is a [TypeError]. *)
Definition message_of (err : Thrown) : Exc string :=
  match err with
  | JsError m => inr m
  | JsUndefined =>
      inl (JsError "Cannot read properties of undefined (reading 'message')")
  end.

(** Truthiness of a nullable string: [null], [undefined] and [''] are falsy. *)
Definition truthy (v : option string) : bool :=
  match v with
  | Some s => negb (String.eqb s "")
  | None => false
  end.

(** [a || b] on nullable strings. *)
Definition js_or (a b : option string) : option string :=
  if truthy a then a else b.

(** [haystack.includes(needle)]. *)
Definition includes (needle haystack : string) : bool :=
  match index 0 needle haystack with
  | Some _ => true
  | None => false
  end.

(** The state-and-exception monad of asynchronous code over a store [S]. *)
Definition M (S A : Type) : Type := S -> Exc A * S.

Definition ret {S A} (a : A) : M S A := fun s => (inr a, s).

Definition throw {S A} (e : Thrown) : M S A := fun s => (inl e, s).

Definition bind {S A B} (c : M S A) (k : A -> M S B) : M S B :=
  fun s =>
    match c s with
    | (inr a, s') => k a s'
    | (inl e, s') => (inl e, s')
    end.

(** [try { c } catch (err) { ... }], reified: the outcome of [c] as a value. *)
Definition try_catch {S A} (c : M S A) : M S (Exc A) :=
  fun s => let (r, s') := c s in (inr r, s').

Definition lift_exc {S A} (r : Exc A) : M S A := fun s => (r, s).

Declare Scope js_scope.
Delimit Scope js_scope with js.
Notation "x <- c ;; k" := (bind c (fun x => k))
  (at level 61, c at next level, right associativity) : js_scope.
Notation "c ;; k" := (bind c (fun _ => k))
  (at level 61, right associativity) : js_scope.
Local Open Scope js_scope.

(* ================================================================== *)
(** * utils/rateLimiter.js : RateLimiter *)
(* ================================================================== *)

Module RateLimiter.

Local Open Scope Z_scope.

(** The wall clock, in milliseconds.  [lag k] is the non-negative time that
    passes, beyond what the program asked for, before its [k]-th observation
    of the clock ([Date.now()] or the wake-up after a [sleep]): downstream
    work between two [acquire] calls, scheduling latency, timer lateness.
    A timer never fires early. *)
Record Clock : Type := {
  time : Z;
  lag : nat -> N;
  seen : nat
}.

Definition advance (by_ms : Z) (c : Clock) : Clock :=
  {| time := time c + by_ms + Z.of_N (lag c (seen c));
     lag := lag c;
     seen := S (seen c) |}.

(** [Date.now()] *)
Definition Date_now (c : Clock) : Z * Clock :=
  let c' := advance 0 c in (time c', c').

(** [await sleep(ms)] *)
Definition sleep (ms : Z) (c : Clock) : Clock := advance ms c.

(** [Math.ceil(a / b)] on integers, for a positive [b]. *)
Definition ceil_div (a b : Z) : Z := - ((- a) / b).

(** The limiter object.  A queued resolver is identified by the ticket of
    the [acquire] call that pushed it. *)
Record t : Type := {
  minInterval : Z;
  burstSize : Z;
  lastRequestTime : Z;
  queue : list nat;
  processing : bool
}.

(** [new RateLimiter({ requestsPerSecond, burstSize })] *)
Definition new (requestsPerSecond burst : Z) : t :=
  {| minInterval := ceil_div 1000 requestsPerSecond;
     burstSize := burst;
     lastRequestTime := 0;
     queue := [];
     processing := false |}.

(** The [while (this.queue.length > 0)] loop of [_process], over the queue
    as it stands: each turn reads the clock, sleeps for what is left of the
    interval, stamps [lastRequestTime] and resolves the head of the queue.
    Returns the last stamp, the clock and the (ticket, release time) pairs. *)
Fixpoint drain (q : list nat) (interval last : Z) (c : Clock)
  : Z * Clock * list (nat * Z) :=
  match q with
  | [] => (last, c, [])
  | resolve :: q' =>
      let (now, c1) := Date_now c in
      let elapsed := now - last in
      let waitTime := Z.max 0 (interval - elapsed) in
      let c2 := if 0 <? waitTime then sleep waitTime c1 else c1 in
      let (stamp, c3) := Date_now c2 in
      let '(last', c', rel) := drain q' interval stamp c3 in
      (last', c', (resolve, stamp) :: rel)
  end.

(** [_process()] *)
Definition _process (l : t) (c : Clock) : t * Clock * list (nat * Z) :=
  if processing l then (l, c, [])
  else
    let '(last, c', rel) := drain (queue l) (minInterval l) (lastRequestTime l) c in
    ({| minInterval := minInterval l;
        burstSize := burstSize l;
        lastRequestTime := last;
        queue := [];
        processing := false |}, c', rel).

(** [acquire()]: push a resolver and run [_process]. *)
Definition acquire (ticket : nat) (l : t) (c : Clock) : t * Clock * list (nat * Z) :=
  _process {| minInterval := minInterval l;
              burstSize := burstSize l;
              lastRequestTime := lastRequestTime l;
              queue := queue l ++ [ticket];
              processing := processing l |} c.

(** [n] sequential calls, each awaited before the next is made; the result
    is the list of release times in call order. *)
Fixpoint acquire_seq (n ticket : nat) (l : t) (c : Clock) : list Z :=
  match n with
  | O => []
  | S n' =>
      let '(l', c', rel) := acquire ticket l c in
      map snd rel ++ acquire_seq n' (S ticket) l' c'
  end.

(** The same [n] calls on the wall clock: the time the clock shows when each
    awaited call resolves, in call order, and the clock after the last. *)
Fixpoint resolved_at (n ticket : nat) (l : t) (c : Clock) : list Z * Clock :=
  match n with
  | O => ([], c)
  | S n' =>
      let '(l', c', rel) := acquire ticket l c in
      let (rest, c_end) := resolved_at n' (S ticket) l' c' in
      (time c' :: rest, c_end)
  end.

(** Consecutive elements of a list of times are at least [gap] apart. *)
Fixpoint spaced (gap : Z) (ts : list Z) : Prop :=
  match ts with
  | [] => True
  | t0 :: rest =>
      match rest with
      | [] => True
      | t1 :: _ => gap <= t1 - t0
      end /\ spaced gap rest
  end.

(** Consecutive releases are at least [1000 / rate] milliseconds apart, the
    rate being in releases per second: [rate * (t1 - t0) >= 1000]. *)
Fixpoint apart_by_rate (rate : Z) (ts : list Z) : Prop :=
  match ts with
  | [] => True
  | t0 :: rest =>
      match rest with
      | [] => True
      | t1 :: _ => 1000 <= rate * (t1 - t0)
      end /\ apart_by_rate rate rest
  end.

(** The limiter as it is between two awaited [acquire] calls. *)
Definition idle (l : t) : Prop := queue l = [] /\ processing l = false.

End RateLimiter.

(* ================================================================== *)
(** * utils/rateLimiter.js : retryWithBackoff *)
(* ================================================================== *)

Module Retry.

Section WithStore.

Variables S A : Type.

(** [await sleep(ms)] on the store at hand. *)
Variable sleep : Q -> S -> S.

(** [Math.random()] as drawn in the catch block of the given attempt. *)
Variable random : nat -> Q.

Record Options : Type := {
  maxAttempts : nat;
  baseDelay : Q;
  maxDelay : Q;
  factor : Q;
  onRetry : option (Thrown -> nat -> Q -> M S unit);
  retryOn : Thrown -> bool
}.

(** [Math.min(baseDelay * Math.pow(factor, attempt - 1), maxDelay)] *)
Definition backoff_delay (o : Options) (attempt : nat) : Q :=
  Qmin (baseDelay o * Qpower (factor o) (Z.of_nat (attempt - 1))) (maxDelay o).

(** [delay * (0.5 + Math.random() * 0.5)] *)
Definition jittered (o : Options) (attempt : nat) : Q :=
  (backoff_delay o attempt * ((1 # 2) + random attempt * (1 # 2)))%Q.

(** What the catch block does once it has decided to retry: the log line
    reads [err.message], the optional [onRetry] callback runs, then the
    executor sleeps. *)
Definition pause (o : Options) (err : Thrown) (attempt : nat) : M S unit :=
  _ <- lift_exc (message_of err) ;;
  _ <- match onRetry o with
       | Some callback => callback err attempt (jittered o attempt)
       | None => ret tt
       end ;;
  fun s => (inr tt, sleep (jittered o attempt) s).

(** The [for (let attempt = 1; attempt <= maxAttempts; attempt++)] loop;
    [remaining] counts the iterations still allowed, [calls] lists the
    attempt numbers [fn] has been invoked with. *)
Fixpoint attempts_from (fn : nat -> M S A) (o : Options)
         (remaining attempt : nat) (lastError : Thrown) (calls : list nat)
  : S -> (Exc A * S) * list nat :=
  fun s =>
    match remaining with
    | O => ((inl lastError, s), calls)
    | Datatypes.S remaining' =>
        match fn attempt s with
        | (inr v, s1) => ((inr v, s1), calls ++ [attempt])
        | (inl err, s1) =>
            if (attempt =? maxAttempts o) || negb (retryOn o err)
            then ((inl err, s1), calls ++ [attempt])
            else
              match pause o err attempt s1 with
              | (inr _, s2) =>
                  attempts_from fn o remaining' (Datatypes.S attempt) err
                                (calls ++ [attempt]) s2
              | (inl thrown, s2) => ((inl thrown, s2), calls ++ [attempt])
              end
        end
    end.

(** [retryWithBackoff(fn, options)] *)
Definition retryWithBackoff (fn : nat -> M S A) (o : Options) : M S A :=
  fun s => fst (attempts_from fn o (maxAttempts o) 1 JsUndefined [] s).

(** The attempt numbers [fn] was invoked with, in order. *)
Definition invocations (fn : nat -> M S A) (o : Options) (s : S) : list nat :=
  snd (attempts_from fn o (maxAttempts o) 1 JsUndefined [] s).


End WithStore.

End Retry.

(* ================================================================== *)
(** * utils/constants.js and config/index.js *)
(* ================================================================== *)

Module Constants.

(** [GUILD_JOIN_DELAY_MS] *)
Definition GUILD_JOIN_DELAY_MS : Q := 150%Q.

(** [TOKEN_REFRESH_BUFFER_SECONDS] *)
Definition TOKEN_REFRESH_BUFFER_SECONDS : Z := 3600%Z.

(** [MIGRATION_STATUS] *)
Definition ADDED : string := "added".
Definition ALREADY_IN : string := "already_in_server".
Definition FAILED : string := "failed".
Definition SKIPPED_MANUAL : string := "skipped_manual".
Definition TOKEN_REVOKED : string := "token_revoked".
Definition REFRESH_FAILED : string := "refresh_failed".

End Constants.

(** [config.migration] and [config.discord.ownerIds], as parsed from the
    process environment. *)
Record Config : Type := {
  concurrency : Z;
  retryAttempts : nat;
  progressInterval : nat;
  ownerIds : list string
}.

(* ================================================================== *)
(** * The environment *)
(* ================================================================== *)

(** The calls that leave the process and can reject: one SQL statement per
    query function of [database/queries/users.js], and the Discord messages
    of the migration service.  Within one invocation of the engine each is
    issued at most once. *)
Inductive Op : Type :=
| GetIncompleteMigrationRun
| GetProcessedUsersForRun
| GetAllVerifiedUsers
| CreateMigrationRun
| CompleteMigrationRun
| FailMigrationRun
| WriteAuditLog (action : string)
| LogMigrationUser (discordId : string)
| UpdateTokens (discordId : string)
| MarkTokenRevoked (discordId : string)
| ChannelSend (title : string)
| StatusMessageEdit (processed : nat)
| MessageReply.

(** An HTTP exchange through [undici]'s [request]: either the request itself
    rejects, or a status code arrives together with what
    [response.body.json()] gives (a rejection message, or the parsed body). *)
Inductive HttpReply (B : Type) : Type :=
| NetworkError (message : string)
| Reply (statusCode : Z) (json : string + B).

Arguments NetworkError {B} message.
Arguments Reply {B} statusCode json.

(** Body of the OAuth2 token endpoint's reply. *)
Record TokenBody : Type := {
  body_access_token : option string;
  body_refresh_token : option string;
  body_expires_in : Z;
  body_error : option string;
  body_error_description : option string
}.

(** Body of the guild-member endpoint's reply; [stringified] is what
    [JSON.stringify] makes of it. *)
Record MemberBody : Type := {
  body_retry_after : option Q;
  body_message : option string;
  stringified : string
}.

Record World : Type := {
  (** [Some m]: the call rejects with [Error(m)]. *)
  fault : Op -> option string;
  (** [NOW()] as evaluated by the statement. *)
  sql_now : Op -> Z;
  (** The [k]-th reading of the JavaScript clock (ms since the epoch) while
      the given user is being handled. *)
  wall_clock : string -> nat -> Z;
  (** Reply of the token endpoint to a refresh grant for the given
      (decrypted) refresh token. *)
  token_endpoint : option string -> HttpReply TokenBody;
  (** Reply of [PUT /guilds/{guild}/members/{user}] to the [n]-th attempt. *)
  members_endpoint : string -> string -> nat -> HttpReply MemberBody;
  (** AES-256-GCM under the configured key, on non-empty payloads.  The
      decipher gives the plaintext, or throws [Error(m)] ([inl m]) on a
      payload that is malformed or fails authentication. *)
  cipher : string -> string;
  decipher : string -> string + string;
  (** [Math.random()] in the retry executor, per user and attempt. *)
  Math_random : string -> nat -> Q;
  (** [client.guilds.cache.get(id)]: the guild's name when the bot is in it. *)
  guilds_cache : string -> option string
}.

(* ================================================================== *)
(** * database/migrations/001_initial.sql : the tables *)
(* ================================================================== *)

Record VerifiedUser : Type := {
  discord_id : string;
  access_token : option string;
  refresh_token : option string;
  token_expires_at : option Z;
  manually_verified : bool;
  verified_at : Z;
  token_revoked : bool;
  revoked_at : option Z
}.

Record MigrationRun : Type := {
  run_id : nat;
  target_guild_id : string;
  initiated_by : string;
  started_at : Z;
  completed_at : option Z;
  total_users : nat;
  added_count : nat;
  already_in_count : nat;
  failed_count : nat;
  skipped_manual : nat;
  token_revoked_count : nat;
  status : string;
  error_message : option string
}.

Record MigrationUserLog : Type := {
  migration_run_id : nat;
  log_discord_id : string;
  log_status : string;
  log_error_message : option string;
  attempted_at : Z
}.

Record AuditEntry : Type := {
  audit_action : string;
  actor_id : string;
  target_id : string;
  audit_run_id : nat
}.

Record Database : Type := {
  verified_users : list VerifiedUser;
  migration_runs : list MigrationRun;
  migration_runs_id_seq : nat;          (* last value of the SERIAL sequence *)
  migration_user_log : list MigrationUserLog;
  audit_log : list AuditEntry
}.

(** The counters of [executeMigration]. *)
Record Counts : Type := {
  added : nat;
  alreadyIn : nat;
  failed : nat;
  skippedManual : nat;
  tokenRevoked : nat;
  total : nat
}.

(** What the process does to the outside, in order. *)
Inductive Event : Type :=
| EvTokenRequest (refreshToken : option string)
| EvMemberPut (guildId userId : string) (accessToken : option string)
| EvAcquire
| EvSleep (ms : Q)
| EvResumeNotice (runId alreadyProcessed : nat)
| EvStartNotice (totalVerified toProcess runId : nat)
| EvProgress (processed percentage : nat) (counts : Counts)
| EvFinalSummary (counts : Counts) (totalVerified runId : nat)
| EvFailedUsers (ids : list string)
| EvFailedTooMany (howMany runId : nat)
| EvReply (text : string).

Record Store : Type := {
  db : Database;
  trace : list Event
}.

Definition JS : Type -> Type := M Store.

Definition emit (e : Event) : JS unit :=
  fun s => (inr tt, {| db := db s; trace := trace s ++ [e] |}).

Definition sleep (ms : Q) (s : Store) : Store :=
  {| db := db s; trace := trace s ++ [EvSleep ms] |}.

(** [db.query]: the statement either rejects, leaving the tables as they
    were, or takes effect as a whole. *)
Definition query {A} (w : World) (op : Op) (run : Database -> A * Database) : JS A :=
  fun s =>
    match fault w op with
    | Some m => (inl (JsError m), s)
    | None => let (a, d) := run (db s) in (inr a, {| db := d; trace := trace s |})
    end.

(** [Map]: keys in order of first insertion, each with its last value. *)
Module JsMap.

Definition t : Type := list (string * string).

Definition has (k : string) (m : t) : bool :=
  existsb (fun kv => String.eqb (fst kv) k) m.

Definition get (k : string) (m : t) : option string :=
  match find (fun kv => String.eqb (fst kv) k) m with
  | Some kv => Some (snd kv)
  | None => None
  end.

Definition set (k v : string) (m : t) : t :=
  if has k m
  then map (fun kv => if String.eqb (fst kv) k then (k, v) else kv) m
  else m ++ [(k, v)].

(** [new Map(entries)] *)
Definition of_entries (entries : list (string * string)) : t :=
  fold_left (fun m kv => set (fst kv) (snd kv) m) entries [].

Definition size (m : t) : nat := length m.

End JsMap.

(* ================================================================== *)
(** * database/queries/users.js *)
(* ================================================================== *)

Module userQueries.

Local Open Scope Z_scope.

Definition set_users (d : Database) (us : list VerifiedUser) : Database :=
  {| verified_users := us;
     migration_runs := migration_runs d;
     migration_runs_id_seq := migration_runs_id_seq d;
     migration_user_log := migration_user_log d;
     audit_log := audit_log d |}.

Definition set_runs (d : Database) (rs : list MigrationRun) (seq : nat) : Database :=
  {| verified_users := verified_users d;
     migration_runs := rs;
     migration_runs_id_seq := seq;
     migration_user_log := migration_user_log d;
     audit_log := audit_log d |}.

Definition set_user_log (d : Database) (l : list MigrationUserLog) : Database :=
  {| verified_users := verified_users d;
     migration_runs := migration_runs d;
     migration_runs_id_seq := migration_runs_id_seq d;
     migration_user_log := l;
     audit_log := audit_log d |}.

Definition set_audit_log (d : Database) (l : list AuditEntry) : Database :=
  {| verified_users := verified_users d;
     migration_runs := migration_runs d;
     migration_runs_id_seq := migration_runs_id_seq d;
     migration_user_log := migration_user_log d;
     audit_log := l |}.

(** [ORDER BY verified_at ASC], as a stable insertion sort. *)
Fixpoint insert_by_verified_at (u : VerifiedUser) (sorted : list VerifiedUser)
  : list VerifiedUser :=
  match sorted with
  | [] => [u]
  | v :: rest =>
      if verified_at v <=? verified_at u
      then v :: insert_by_verified_at u rest
      else u :: sorted
  end.

Definition order_by_verified_at (rows : list VerifiedUser) : list VerifiedUser :=
  fold_left (fun sorted u => insert_by_verified_at u sorted) rows [].

(** [SELECT * FROM verified_users WHERE token_revoked = FALSE
     ORDER BY verified_at ASC] *)
Definition select_all_verified (d : Database) : list VerifiedUser :=
  order_by_verified_at (filter (fun u => negb (token_revoked u)) (verified_users d)).

Definition getAllVerifiedUsers (w : World) : JS (list VerifiedUser) :=
  query w GetAllVerifiedUsers (fun d => (select_all_verified d, d)).

(** [UPDATE verified_users SET access_token = $2, refresh_token = $3,
     token_expires_at = $4 WHERE discord_id = $1] *)
Definition update_tokens (discordId : string) (accessToken refreshToken : option string)
           (tokenExpiresAt : Z) (u : VerifiedUser) : VerifiedUser :=
  if String.eqb (discord_id u) discordId
  then {| discord_id := discord_id u;
          access_token := accessToken;
          refresh_token := refreshToken;
          token_expires_at := Some tokenExpiresAt;
          manually_verified := manually_verified u;
          verified_at := verified_at u;
          token_revoked := token_revoked u;
          revoked_at := revoked_at u |}
  else u.

Definition updateTokens (w : World) (discordId : string)
           (accessToken refreshToken : option string) (tokenExpiresAt : Z) : JS unit :=
  query w (UpdateTokens discordId)
        (fun d => (tt, set_users d (map (update_tokens discordId accessToken refreshToken
                                                       tokenExpiresAt)
                                        (verified_users d)))).

(** [UPDATE verified_users SET token_revoked = TRUE, revoked_at = NOW(),
     access_token = NULL, refresh_token = NULL WHERE discord_id = $1] *)
Definition mark_revoked (discordId : string) (now : Z) (u : VerifiedUser) : VerifiedUser :=
  if String.eqb (discord_id u) discordId
  then {| discord_id := discord_id u;
          access_token := None;
          refresh_token := None;
          token_expires_at := token_expires_at u;
          manually_verified := manually_verified u;
          verified_at := verified_at u;
          token_revoked := true;
          revoked_at := Some now |}
  else u.

Definition markTokenRevoked (w : World) (discordId : string) : JS unit :=
  query w (MarkTokenRevoked discordId)
        (fun d => (tt, set_users d (map (mark_revoked discordId
                                                      (sql_now w (MarkTokenRevoked discordId)))
                                        (verified_users d)))).

(** [INSERT INTO migration_runs (target_guild_id, initiated_by, total_users)
     VALUES ($1, $2, $3) RETURNING *]; the other columns take their
    defaults. *)
Definition createMigrationRun (w : World) (targetGuildId initiatedBy : string)
           (totalUsers : nat) : JS MigrationRun :=
  query w CreateMigrationRun
        (fun d =>
           let row := {| run_id := S (migration_runs_id_seq d);
                         target_guild_id := targetGuildId;
                         initiated_by := initiatedBy;
                         started_at := sql_now w CreateMigrationRun;
                         completed_at := None;
                         total_users := totalUsers;
                         added_count := 0;
                         already_in_count := 0;
                         failed_count := 0;
                         skipped_manual := 0;
                         token_revoked_count := 0;
                         status := "running";
                         error_message := None |} in
           (row, set_runs d (migration_runs d ++ [row]) (S (migration_runs_id_seq d)))).

(** [UPDATE migration_runs SET completed_at = NOW(), status = 'completed',
     added_count = $2, already_in_count = $3, failed_count = $4,
     skipped_manual = $5, token_revoked_count = $6 WHERE id = $1] *)
Definition complete_run (runId : nat) (now : Z) (counts : Counts) (r : MigrationRun)
  : MigrationRun :=
  if Nat.eqb (run_id r) runId
  then {| run_id := run_id r;
          target_guild_id := target_guild_id r;
          initiated_by := initiated_by r;
          started_at := started_at r;
          completed_at := Some now;
          total_users := total_users r;
          added_count := added counts;
          already_in_count := alreadyIn counts;
          failed_count := failed counts;
          skipped_manual := skippedManual counts;
          token_revoked_count := tokenRevoked counts;
          status := "completed";
          error_message := error_message r |}
  else r.

Definition completeMigrationRun (w : World) (runId : nat) (counts : Counts) : JS unit :=
  query w CompleteMigrationRun
        (fun d => (tt, set_runs d (map (complete_run runId (sql_now w CompleteMigrationRun)
                                                     counts)
                                       (migration_runs d))
                                (migration_runs_id_seq d))).

(** [UPDATE migration_runs SET completed_at = NOW(), status = 'failed',
     error_message = $2 WHERE id = $1] *)
Definition fail_run (runId : nat) (now : Z) (errorMessage : string) (r : MigrationRun)
  : MigrationRun :=
  if Nat.eqb (run_id r) runId
  then {| run_id := run_id r;
          target_guild_id := target_guild_id r;
          initiated_by := initiated_by r;
          started_at := started_at r;
          completed_at := Some now;
          total_users := total_users r;
          added_count := added_count r;
          already_in_count := already_in_count r;
          failed_count := failed_count r;
          skipped_manual := skipped_manual r;
          token_revoked_count := token_revoked_count r;
          status := "failed";
          error_message := Some errorMessage |}
  else r.

Definition failMigrationRun (w : World) (runId : nat) (errorMessage : string) : JS unit :=
  query w FailMigrationRun
        (fun d => (tt, set_runs d (map (fail_run runId (sql_now w FailMigrationRun)
                                                 errorMessage)
                                       (migration_runs d))
                                (migration_runs_id_seq d))).

(** [INSERT INTO migration_user_log (migration_run_id, discord_id, status,
     error_message) VALUES ($1, $2, $3, $4)] *)
Definition logMigrationUser (w : World) (migrationRunId : nat) (discordId status : string)
           (errorMessage : option string) : JS unit :=
  query w (LogMigrationUser discordId)
        (fun d =>
           (tt, set_user_log d
                  (migration_user_log d ++
                   [{| migration_run_id := migrationRunId;
                       log_discord_id := discordId;
                       log_status := status;
                       log_error_message := errorMessage;
                       attempted_at := sql_now w (LogMigrationUser discordId) |}]))).

(** [SELECT discord_id, status FROM migration_user_log
     WHERE migration_run_id = $1] *)
Definition select_processed (migrationRunId : nat) (d : Database)
  : list (string * string) :=
  map (fun r => (log_discord_id r, log_status r))
      (filter (fun r => Nat.eqb (migration_run_id r) migrationRunId)
              (migration_user_log d)).

Definition getProcessedUsersForRun (w : World) (migrationRunId : nat) : JS JsMap.t :=
  query w GetProcessedUsersForRun
        (fun d => (JsMap.of_entries (select_processed migrationRunId d), d)).

(** [ORDER BY started_at DESC LIMIT 1]: the row started last, the earliest
    such row of the table on a tie. *)
Definition latest_started (rows : list MigrationRun) : option MigrationRun :=
  fold_left (fun best r =>
               match best with
               | None => Some r
               | Some b => if started_at b <? started_at r then Some r else Some b
               end) rows None.

(** [SELECT * FROM migration_runs WHERE target_guild_id = $1
     AND status = 'running' ORDER BY started_at DESC LIMIT 1] *)
Definition select_incomplete (targetGuildId : string) (d : Database)
  : option MigrationRun :=
  latest_started
    (filter (fun r => String.eqb (target_guild_id r) targetGuildId
                      && String.eqb (status r) "running")
            (migration_runs d)).

Definition getIncompleteMigrationRun (w : World) (targetGuildId : string)
  : JS (option MigrationRun) :=
  query w GetIncompleteMigrationRun (fun d => (select_incomplete targetGuildId d, d)).

(** [INSERT INTO audit_log (action, actor_id, target_id, details)
     VALUES ($1, $2, $3, $4)]; of the details only the run id is kept. *)
Definition writeAuditLog (w : World) (action actorId targetId : string) (runId : nat)
  : JS unit :=
  query w (WriteAuditLog action)
        (fun d => (tt, set_audit_log d
                         (audit_log d ++ [{| audit_action := action;
                                             actor_id := actorId;
                                             target_id := targetId;
                                             audit_run_id := runId |}]))).

End userQueries.

(* ================================================================== *)
(** * services/encryption.js, services/oauth.js *)
(* ================================================================== *)

Module encryption.

(** [encrypt(plaintext)]: [null] for a falsy plaintext. *)
Definition encrypt (w : World) (plaintext : option string) : option string :=
  if truthy plaintext then option_map (cipher w) plaintext else None.

(** [decrypt(encryptedPayload)]: [null] for a falsy payload; on any other
    payload the plaintext, unless the decipher throws. *)
Definition decrypt (w : World) (encryptedPayload : option string) : Exc (option string) :=
  match encryptedPayload with
  | Some payload =>
      if truthy (Some payload)
      then match decipher w payload with
           | inl m => inl (JsError m)
           | inr plaintext => inr (Some plaintext)
           end
      else inr None
  | None => inr None
  end.

End encryption.

Module oauthService.

Local Open Scope Z_scope.

Record NewTokens : Type := {
  accessToken : option string;
  refreshToken_ : option string;
  expiresIn : Z
}.

(** A value inside a template literal. *)
Definition interpolate (v : option string) : string :=
  match v with
  | Some s => s
  | None => "undefined"
  end.

(** [refreshToken(encryptedRefreshToken)] *)
Definition refreshToken (w : World) (encryptedRefreshToken : option string)
  : JS NewTokens :=
  decryptedRefresh <- lift_exc (encryption.decrypt w encryptedRefreshToken) ;;
  emit (EvTokenRequest decryptedRefresh) ;;
  match token_endpoint w decryptedRefresh with
  | NetworkError m => throw (JsError m)
  | Reply statusCode (inl m) => throw (JsError m)
  | Reply statusCode (inr data) =>
      if negb (statusCode =? 200)
      then throw (JsError ("Token refresh failed: " ++
                           interpolate (js_or (body_error_description data)
                                              (body_error data))))
      else ret {| accessToken := body_access_token data;
                  refreshToken_ := body_refresh_token data;
                  expiresIn := body_expires_in data |}
  end.

(** [new Date(user.token_expires_at).getTime()]: the epoch for [null]. *)
Definition expiry_ms (user : VerifiedUser) : Z :=
  match token_expires_at user with
  | Some t => t
  | None => 0
  end.

(** The test of the catch block of [ensureFreshToken]. *)
Definition grant_is_invalid (message : string) : bool :=
  includes "invalid_grant" message || includes "revoked" message.

(** The [try] block of [ensureFreshToken]: the refresh exchange, then the
    new encrypted pair and expiry are stored. *)
Definition refresh_and_store (w : World) (user : VerifiedUser) : JS (option string) :=
  newTokens <- refreshToken w (refresh_token user) ;;
  let encryptedAccess := encryption.encrypt w (accessToken newTokens) in
  let encryptedRefresh := encryption.encrypt w (refreshToken_ newTokens) in
  let newExpiresAt := wall_clock w (discord_id user) 1 + expiresIn newTokens * 1000 in
  userQueries.updateTokens w (discord_id user) encryptedAccess encryptedRefresh
                           newExpiresAt ;;
  ret (accessToken newTokens).

(** [expiresAt.getTime() - now.getTime() > bufferMs] *)
Definition still_fresh (w : World) (user : VerifiedUser) : bool :=
  Constants.TOKEN_REFRESH_BUFFER_SECONDS * 1000
  <? expiry_ms user - wall_clock w (discord_id user) 0.

(** [ensureFreshToken(user)] *)
Definition ensureFreshToken (w : World) (user : VerifiedUser) : JS (option string) :=
  if still_fresh w user
  then lift_exc (encryption.decrypt w (access_token user))
  else
    outcome <- try_catch (refresh_and_store w user) ;;
    match outcome with
    | inr token => ret token
    | inl err =>
        message <- lift_exc (message_of err) ;;
        if grant_is_invalid message
        then userQueries.markTokenRevoked w (discord_id user) ;;
             throw (JsError "TOKEN_REVOKED")
        else throw err
    end.

Record JoinResult : Type := {
  join_status : string;
  retryAfter : Q;
  join_statusCode : option Z;
  join_error : option string
}.

(** [JSON.stringify({ message: 'Unknown error' })] *)
Definition unknown_error_json : string :=
  let q := String (ascii_of_nat 34) EmptyString in
  "{" ++ q ++ "message" ++ q ++ ":" ++ q ++ "Unknown error" ++ q ++ "}".

(** [data.retry_after || 5] *)
Definition retry_after_or_5 (data : MemberBody) : Q :=
  match body_retry_after data with
  | Some q => if Qeq_bool q 0 then 5%Q else q
  | None => 5%Q
  end.

(** [addUserToGuild(guildId, userId, accessToken)]; [n] selects the reply
    of the endpoint to this, the [n]-th, request for the user. *)
Definition addUserToGuild (w : World) (guildId userId : string)
           (token : option string) (n : nat) : JS JoinResult :=
  emit (EvMemberPut guildId userId token) ;;
  match members_endpoint w guildId userId n with
  | NetworkError m => throw (JsError m)
  | Reply statusCode json =>
      if statusCode =? 201
      then ret {| join_status := "added"; retryAfter := 0%Q;
                  join_statusCode := None; join_error := None |}
      else if statusCode =? 204
      then ret {| join_status := "already_in_server"; retryAfter := 0%Q;
                  join_statusCode := None; join_error := None |}
      else if statusCode =? 429
      then match json with
           | inl m => throw (JsError m)
           | inr data =>
               ret {| join_status := "rate_limited"; retryAfter := retry_after_or_5 data;
                      join_statusCode := None; join_error := None |}
           end
      else
        let errorData :=
          match json with
          | inl _ => {| body_retry_after := None;
                        body_message := Some "Unknown error";
                        stringified := unknown_error_json |}
          | inr data => data
          end in
        ret {| join_status := "failed"; retryAfter := 0%Q;
               join_statusCode := Some statusCode;
               join_error := js_or (body_message errorData)
                                   (Some (stringified errorData)) |}
  end.

End oauthService.

(* ================================================================== *)
(** * services/migration.js *)
(* ================================================================== *)

Module migrationService.

Import Constants.

(** [counts.field++] *)
Definition incr_added (c : Counts) : Counts :=
  {| added := S (added c); alreadyIn := alreadyIn c; failed := failed c;
     skippedManual := skippedManual c; tokenRevoked := tokenRevoked c; total := total c |}.
Definition incr_alreadyIn (c : Counts) : Counts :=
  {| added := added c; alreadyIn := S (alreadyIn c); failed := failed c;
     skippedManual := skippedManual c; tokenRevoked := tokenRevoked c; total := total c |}.
Definition incr_failed (c : Counts) : Counts :=
  {| added := added c; alreadyIn := alreadyIn c; failed := S (failed c);
     skippedManual := skippedManual c; tokenRevoked := tokenRevoked c; total := total c |}.
Definition incr_skippedManual (c : Counts) : Counts :=
  {| added := added c; alreadyIn := alreadyIn c; failed := failed c;
     skippedManual := S (skippedManual c); tokenRevoked := tokenRevoked c; total := total c |}.
Definition incr_tokenRevoked (c : Counts) : Counts :=
  {| added := added c; alreadyIn := alreadyIn c; failed := failed c;
     skippedManual := skippedManual c; tokenRevoked := S (tokenRevoked c); total := total c |}.

(** The options of the join call's [retryWithBackoff]. *)
Definition join_retry_options (cfg : Config) : Retry.Options Store :=
  {| Retry.maxAttempts := retryAttempts cfg;
     Retry.baseDelay := 2000%Q;
     Retry.maxDelay := 60000%Q;
     Retry.factor := 2%Q;
     Retry.onRetry := None;
     Retry.retryOn := fun err =>
                        match err with
                        | JsError m => String.eqb m "RATE_LIMITED"
                        | JsUndefined => false
                        end |}.

(** The operation handed to [retryWithBackoff]. *)
Definition join_attempt (w : World) (targetGuildId discordId : string)
           (token : option string) (attempt : nat) : JS oauthService.JoinResult :=
  joinResult <- oauthService.addUserToGuild w targetGuildId discordId token attempt ;;
  if String.eqb (oauthService.join_status joinResult) "rate_limited"
  then
    let waitMs := ((oauthService.retryAfter joinResult + (1 # 2)) * 1000)%Q in
    (fun s => (inr tt, sleep waitMs s)) ;;
    throw (JsError "RATE_LIMITED")
  else ret joinResult.

(** [processSingleUser(user, targetGuildId, migrationRunId, rateLimiter)];
    the limiter, a pure scheduling primitive, shows as an [EvAcquire]. *)
Definition processSingleUser (w : World) (cfg : Config) (user : VerifiedUser)
           (targetGuildId : string) (migrationRunId : nat) : JS string :=
  let discordId := discord_id user in
  if manually_verified user && negb (truthy (access_token user))
  then
    userQueries.logMigrationUser w migrationRunId discordId SKIPPED_MANUAL
      (Some "No OAuth tokens — manually verified only") ;;
    ret SKIPPED_MANUAL
  else if token_revoked user
  then
    userQueries.logMigrationUser w migrationRunId discordId TOKEN_REVOKED
      (Some "Token previously revoked") ;;
    ret TOKEN_REVOKED
  else
    fresh <- try_catch (oauthService.ensureFreshToken w user) ;;
    match fresh with
    | inl err =>
        message <- lift_exc (message_of err) ;;
        if String.eqb message "TOKEN_REVOKED"
        then
          userQueries.logMigrationUser w migrationRunId discordId TOKEN_REVOKED
            (Some "Token revoked during refresh") ;;
          ret TOKEN_REVOKED
        else
          userQueries.logMigrationUser w migrationRunId discordId REFRESH_FAILED
            (Some message) ;;
          ret REFRESH_FAILED
    | inr token =>
        emit EvAcquire ;;
        result <- Retry.retryWithBackoff sleep (Math_random w discordId)
                    (join_attempt w targetGuildId discordId token)
                    (join_retry_options cfg) ;;
        userQueries.logMigrationUser w migrationRunId discordId
          (oauthService.join_status result)
          (js_or (oauthService.join_error result) None) ;;
        (fun s => (inr tt, sleep GUILD_JOIN_DELAY_MS s)) ;;
        ret (oauthService.join_status result)
    end.

(** The [switch (result)] of the loop. *)
Definition tally (result : string) (user : VerifiedUser)
           (acc : Counts * list string) : Counts * list string :=
  let (counts, failedUsers) := acc in
  if String.eqb result ADDED then (incr_added counts, failedUsers)
  else if String.eqb result ALREADY_IN then (incr_alreadyIn counts, failedUsers)
  else if String.eqb result SKIPPED_MANUAL then (incr_skippedManual counts, failedUsers)
  else if String.eqb result TOKEN_REVOKED || String.eqb result REFRESH_FAILED
  then (incr_tokenRevoked counts, failedUsers)
  else (incr_failed counts, failedUsers ++ [discord_id user]).

(** The [switch (status)] that adds back the counts of a resumed run. *)
Definition add_back (counts : Counts) (entry : string * string) : Counts :=
  let status := snd entry in
  if String.eqb status ADDED then incr_added counts
  else if String.eqb status ALREADY_IN then incr_alreadyIn counts
  else if String.eqb status SKIPPED_MANUAL then incr_skippedManual counts
  else if String.eqb status TOKEN_REVOKED || String.eqb status REFRESH_FAILED
  then incr_tokenRevoked counts
  else incr_failed counts.

(** A count as a JavaScript number, a binary64 float: exact below [2^53],
    which a count that grows by one cannot leave. *)
Definition Number_of (n : nat) : PrimFloat.float :=
  PrimFloat.of_uint63 (Uint63.of_Z (Z.of_nat n)).

(** [Math.round(x)] for a finite [x]: the integer closest to [x], the
    greater of the two when [x] lies half-way. *)
Definition Math_round (x : PrimFloat.float) : Z :=
  match FloatOps.Prim2SF x with
  | SpecFloat.S754_finite negative m e =>
      let mantissa := if negative then Z.neg m else Z.pos m in
      if (0 <=? e)%Z then Z.shiftl mantissa e
      else ((2 * mantissa + 2 ^ (- e)) / 2 ^ (1 - e))%Z
  | _ => 0%Z
  end.

(** [total > 0 ? Math.round((processed / total) * 100) : 0]: the quotient
    and the product are rounded to binary64 one after the other, so 23 of 40
    is 57 percent. *)
Definition percentage (processed total : nat) : nat :=
  if total =? 0 then 0
  else Z.to_nat (Math_round (PrimFloat.mul (PrimFloat.div (Number_of processed)
                                                          (Number_of total))
                                           (Number_of 100))).
Arguments percentage : simpl never.

(** [sendProgressUpdate]: a failed edit is logged and swallowed. *)
Definition sendProgressUpdate (w : World) (counts : Counts) (processed : nat) : JS unit :=
  match fault w (StatusMessageEdit processed) with
  | Some _ => ret tt
  | None => emit (EvProgress processed (percentage processed (total counts)) counts)
  end.

(** [processed % progressInterval === 0 || processed === usersToProcess.length];
    a remainder by zero is [NaN]. *)
Definition progress_due (cfg : Config) (processed toProcess : nat) : bool :=
  (negb (progressInterval cfg =? 0) && (processed mod progressInterval cfg =? 0))
  || (processed =? toProcess).

(** The [if] that closes the body of the loop. *)
Definition progress_step (w : World) (cfg : Config) (counts : Counts)
           (processed toProcess : nat) : JS unit :=
  if progress_due cfg processed toProcess
  then sendProgressUpdate w counts processed
  else ret tt.

(** The [for (const user of usersToProcess)] loop; [toProcess] is
    [usersToProcess.length]. *)
Fixpoint processUsers (w : World) (cfg : Config) (targetGuildId : string)
         (migrationRunId toProcess : nat) (users : list VerifiedUser)
         (processed : nat) (acc : Counts * list string)
  : JS (Counts * list string) :=
  match users with
  | [] => ret acc
  | user :: rest =>
      let processed := S processed in
      outcome <- try_catch (processSingleUser w cfg user targetGuildId migrationRunId) ;;
      acc <- match outcome with
             | inr result => ret (tally result user acc)
             | inl err =>
                 let acc' := (incr_failed (fst acc), snd acc ++ [discord_id user]) in
                 _ <- lift_exc (message_of err) ;;
                 ret acc'
             end ;;
      progress_step w cfg (fst acc) processed toProcess ;;
      processUsers w cfg targetGuildId migrationRunId toProcess rest processed acc
  end.

(** [channel.send(...)] of the embed with the given title. *)
Definition channel_send (w : World) (title : string) (e : Event) : JS unit :=
  match fault w (ChannelSend title) with
  | Some m => throw (JsError m)
  | None => emit e
  end.

(** What steps 2 and 3 of [executeMigration] leave in its local variables. *)
Record Resolved : Type := {
  migrationRun : MigrationRun;
  alreadyProcessed : JsMap.t;
  allUsers : list VerifiedUser;
  usersToProcess : list VerifiedUser
}.

(** Steps 1 to 4 of [executeMigration]: validation, the check for an
    interrupted run, the fetch of the verified users, the run record, the
    audit entry and the start notice. *)
Definition resolve (w : World) (targetGuildId initiatedBy : string) : JS Resolved :=
  match guilds_cache w targetGuildId with
  | None => throw (JsError ("Bot is not in guild `" ++ targetGuildId ++
                            "`. Invite the bot first, then retry."))
  | Some _ =>
      existingRun <- userQueries.getIncompleteMigrationRun w targetGuildId ;;
      already <- match existingRun with
                 | Some run =>
                     m <- userQueries.getProcessedUsersForRun w (run_id run) ;;
                     channel_send w "🔄 Resuming Interrupted Migration"
                                  (EvResumeNotice (run_id run) (JsMap.size m)) ;;
                     ret m
                 | None => ret []
                 end ;;
      users <- userQueries.getAllVerifiedUsers w ;;
      if length users =? 0
      then throw (JsError "No verified users found in the database.")
      else
        let toProcess :=
          if 0 <? JsMap.size already
          then filter (fun u => negb (JsMap.has (discord_id u) already)) users
          else users in
        run <- match existingRun with
               | Some run => ret run
               | None => userQueries.createMigrationRun w targetGuildId initiatedBy
                                                        (length users)
               end ;;
        userQueries.writeAuditLog w "migration_start" initiatedBy targetGuildId
                                  (run_id run) ;;
        channel_send w "🚀 Migration Started"
                     (EvStartNotice (length users) (length toProcess) (run_id run)) ;;
        ret {| migrationRun := run; alreadyProcessed := already;
               allUsers := users; usersToProcess := toProcess |}
  end.

Definition initial_counts (toProcess : nat) : Counts :=
  {| added := 0; alreadyIn := 0; failed := 0; skippedManual := 0; tokenRevoked := 0;
     total := toProcess |}.

(** Step 5 of [executeMigration]. *)
Definition process (w : World) (cfg : Config) (targetGuildId : string) (r : Resolved)
  : JS (Counts * list string) :=
  processUsers w cfg targetGuildId (run_id (migrationRun r))
               (length (usersToProcess r)) (usersToProcess r) 0
               (initial_counts (length (usersToProcess r)), []).

(** The counts handed to [completeMigrationRun]. *)
Definition merged_counts (counts : Counts) (already : JsMap.t) : Counts :=
  if 0 <? JsMap.size already then fold_left add_back already counts else counts.

(** Step 6 of [executeMigration]. *)
Definition finalize (w : World) (targetGuildId initiatedBy : string) (r : Resolved)
           (acc : Counts * list string) : JS unit :=
  let counts := merged_counts (fst acc) (alreadyProcessed r) in
  let failedUsers := snd acc in
  let runId := run_id (migrationRun r) in
  userQueries.completeMigrationRun w runId counts ;;
  userQueries.writeAuditLog w "migration_complete" initiatedBy targetGuildId runId ;;
  channel_send w "✅ Migration Complete"
               (EvFinalSummary counts (length (allUsers r)) runId) ;;
  if (0 <? length failedUsers) && (length failedUsers <=? 50)
  then channel_send w "❌ Failed Users" (EvFailedUsers failedUsers)
  else if 50 <? length failedUsers
  then channel_send w "❌ Failed Users" (EvFailedTooMany (length failedUsers) runId)
  else ret tt.

(** [executeMigration(client, channel, targetGuildId, initiatedBy)] *)
Definition executeMigration (w : World) (cfg : Config)
           (targetGuildId initiatedBy : string) : JS unit :=
  r <- resolve w targetGuildId initiatedBy ;;
  acc <- process w cfg targetGuildId r ;;
  finalize w targetGuildId initiatedBy r acc.

(** The process is killed once the loop has handled the first [k] of the
    users it had to process: the tables stay as they are at that point. *)
Definition interrupted (w : World) (cfg : Config) (targetGuildId initiatedBy : string)
           (k : nat) : JS Resolved :=
  r <- resolve w targetGuildId initiatedBy ;;
  processUsers w cfg targetGuildId (run_id (migrationRun r))
               (length (usersToProcess r)) (firstn k (usersToProcess r)) 0
               (initial_counts (length (usersToProcess r)), []) ;;
  ret r.

End migrationService.

(* ================================================================== *)
(** * bot/events/messageCreate.js : the ?pull command *)
(* ================================================================== *)

Module messageCreate.

Definition is_digit (c : ascii) : bool :=
  let n := nat_of_ascii c in (48 <=? n) && (n <=? 57).

Fixpoint all_digits (s : string) : bool :=
  match s with
  | EmptyString => true
  | String c rest => is_digit c && all_digits rest
  end.

(** [/^\d{17,20}$/.test(id)] *)
Definition is_snowflake (id : string) : bool :=
  all_digits id && (17 <=? String.length id) && (String.length id <=? 20).

(** [message.reply(text)] *)
Definition reply (w : World) (text : string) : JS unit :=
  match fault w MessageReply with
  | Some m => throw (JsError m)
  | None => emit (EvReply text)
  end.

(** The [if (command === '?pull')] branch of [execute(message)]. *)
Definition pull (w : World) (cfg : Config) (authorId : string) (args : list string)
  : JS unit :=
  if negb (existsb (String.eqb authorId) (ownerIds cfg)) then ret tt
  else
    match args with
    | [] => reply w "❌ **Usage:** `?pull <newGuildId>`"
    | targetGuildId :: _ =>
        if negb (is_snowflake targetGuildId)
        then reply w "❌ **Invalid guild ID.** Must be a valid Discord snowflake."
        else
          outcome <- try_catch (migrationService.executeMigration w cfg targetGuildId
                                                                 authorId) ;;
          match outcome with
          | inr _ => ret tt
          | inl err =>
              message <- lift_exc (message_of err) ;;
              (* [message.reply(...).catch(() => {})] *)
              _ <- try_catch (reply w ("❌ **Migration failed:** " ++ message)) ;;
              ret tt
          end
    end.

End messageCreate.

(* ================================================================== *)
(** * Scenarios *)
(* ================================================================== *)

Module Scenario.

Local Open Scope Z_scope.

Definition cfg : Config :=
  {| concurrency := 5; retryAttempts := 3; progressInterval := 25;
     ownerIds := ["100000000000000001"] |}.

Definition guild : string := "200000000000000002".
Definition owner : string := "100000000000000001".

Definition user (id : string) (access refresh : option string) (expires : option Z)
           (manual : bool) (verified : Z) (revoked : bool) : VerifiedUser :=
  {| discord_id := id; access_token := access; refresh_token := refresh;
     token_expires_at := expires; manually_verified := manual;
     verified_at := verified; token_revoked := revoked; revoked_at := None |}.

(** A: a credential that stays valid for two more hours. *)
Definition A : VerifiedUser :=
  user "A" (Some "enc:tokA") (Some "enc:refA") (Some 7200000) false 1 false.
(** B: manually authorized, no credential. *)
Definition B : VerifiedUser := user "B" None None None true 2 false.
(** C: revoked, credentials cleared. *)
Definition C : VerifiedUser := user "C" None None None false 3 true.
(** D: like A. *)
Definition D : VerifiedUser :=
  user "D" (Some "enc:tokD") (Some "enc:refD") (Some 7200000) false 4 false.
(** E: a credential that expires within the hour. *)
Definition E : VerifiedUser :=
  user "E" (Some "enc:tokE") (Some "enc:refE") (Some 1800000) false 5 false.

Definition database (users : list VerifiedUser) : Database :=
  {| verified_users := users; migration_runs := []; migration_runs_id_seq := 0%nat;
     migration_user_log := []; audit_log := [] |}.

Definition fresh (users : list VerifiedUser) : Store :=
  {| db := database users; trace := [] |}.

Definition no_body : MemberBody :=
  {| body_retry_after := None; body_message := None; stringified := "{}" |}.

(** A world in which nothing fails, the clock stands at 0 and every join
    is answered with 201. *)
Definition calm : World :=
  {| fault := fun _ => None;
     sql_now := fun _ => 0;
     wall_clock := fun _ _ => 0;
     token_endpoint := fun _ => NetworkError "unreachable";
     members_endpoint := fun _ _ _ => Reply 201 (inr no_body);
     cipher := fun s => ("enc:" ++ s)%string;
     decipher := fun s => inr (substring 4 (String.length s - 4) s);
     Math_random := fun _ _ => 0%Q;
     guilds_cache := fun g => if String.eqb g guild then Some "New Guild" else None |}.

Definition with_members (w : World)
           (endpoint : string -> string -> nat -> HttpReply MemberBody) : World :=
  {| fault := fault w; sql_now := sql_now w; wall_clock := wall_clock w;
     token_endpoint := token_endpoint w; members_endpoint := endpoint;
     cipher := cipher w; decipher := decipher w; Math_random := Math_random w;
     guilds_cache := guilds_cache w |}.

Definition with_token_endpoint (w : World)
           (endpoint : option string -> HttpReply TokenBody) : World :=
  {| fault := fault w; sql_now := sql_now w; wall_clock := wall_clock w;
     token_endpoint := endpoint; members_endpoint := members_endpoint w;
     cipher := cipher w; decipher := decipher w; Math_random := Math_random w;
     guilds_cache := guilds_cache w |}.

(** The member endpoint answers 429 to every request for [who]. *)
Definition rate_limiting (who : string) : World :=
  with_members calm
    (fun _ userId _ =>
       if String.eqb userId who
       then Reply 429 (inr {| body_retry_after := Some 1%Q; body_message := None;
                              stringified := "{}" |})
       else Reply 201 (inr no_body)).

Definition with_fault (w : World) (faults : Op -> option string) : World :=
  {| fault := faults; sql_now := sql_now w; wall_clock := wall_clock w;
     token_endpoint := token_endpoint w; members_endpoint := members_endpoint w;
     cipher := cipher w; decipher := decipher w; Math_random := Math_random w;
     guilds_cache := guilds_cache w |}.

(** The statement that completes the run is rejected by the database. *)
Definition failing_finalize : World :=
  with_fault calm (fun op => match op with
                             | CompleteMigrationRun => Some "connection terminated"
                             | _ => None
                             end).

(** The token endpoint answers every refresh grant with [invalid_grant]. *)
Definition denying : World :=
  with_token_endpoint calm
    (fun _ => Reply 400 (inr {| body_access_token := None; body_refresh_token := None;
                                body_expires_in := 0; body_error := Some "invalid_grant";
                                body_error_description := None |})).

(** No attempt is allowed to the join call ([MIGRATION_RETRY_ATTEMPTS=0]). *)
Definition cfg_no_attempt : Config :=
  {| concurrency := 5; retryAttempts := 0; progressInterval := 25;
     ownerIds := ["100000000000000001"] |}.

(** The store that a first invocation over A and D leaves when the process
    is killed after A has been handled, as the next process finds it. *)
Definition after_interruption : Store :=
  {| db := db (snd (migrationService.interrupted calm cfg guild owner 1 (fresh [A; D])));
     trace := [] |}.

(** The pairs (principal, outcome) of an item log. *)
Definition outcomes (log : list MigrationUserLog) : list (string * string) :=
  map (fun row => (log_discord_id row, log_status row)) log.

(** A clock that starts at 7 ms and runs 3 ms late at every observation. *)
Definition late_clock : RateLimiter.Clock :=
  {| RateLimiter.time := 7; RateLimiter.lag := fun _ => 3%N; RateLimiter.seen := 0%nat |}.





(** No stored payload passes authentication: the decipher throws on each. *)
Definition corrupted : World :=
  {| fault := fault calm; sql_now := sql_now calm; wall_clock := wall_clock calm;
     token_endpoint := token_endpoint calm; members_endpoint := members_endpoint calm;
     cipher := cipher calm;
     decipher := fun _ => inl "Unsupported state or unable to authenticate data";
     Math_random := Math_random calm; guilds_cache := guilds_cache calm |}.

(** The description Discord gives with [invalid_grant]: the name of the
    parameter stands between double quotes. *)
Definition invalid_refresh_token : string :=
  let q := String (ascii_of_nat 34) EmptyString in
  "Invalid " ++ q ++ "refresh_token" ++ q ++ " in request.".

(** The token endpoint answers every refresh grant with [invalid_grant] and
    the description of the error. *)
Definition describing : World :=
  with_token_endpoint calm
    (fun _ => Reply 400 (inr {| body_access_token := None; body_refresh_token := None;
                                body_expires_in := 0; body_error := Some "invalid_grant";
                                body_error_description := Some invalid_refresh_token |})).

(** The request to the token endpoint fails on the way: the certificate of
    the server has been revoked. *)
Definition mistrusting : World :=
  with_token_endpoint calm (fun _ => NetworkError "certificate revoked").

End Scenario.

(* ================================================================== *)
(** * Observations on stores and traces *)
(* ================================================================== *)

Module Observe.

(** The number of refresh exchanges with the token endpoint in a trace. *)
Definition token_requests (t : list Event) : nat :=
  length (filter (fun e => match e with EvTokenRequest _ => true | _ => false end) t).

(** The rows of a table that carry the given user id. *)
Definition rows_of (id : string) (users : list VerifiedUser) : list VerifiedUser :=
  filter (fun u => String.eqb (discord_id u) id) users.

(** Everything but [verified_users] is the same in both databases. *)
Definition same_bookkeeping (d d' : Database) : Prop :=
  migration_runs d' = migration_runs d
  /\ migration_runs_id_seq d' = migration_runs_id_seq d
  /\ migration_user_log d' = migration_user_log d
  /\ audit_log d' = audit_log d.

(** Row by row, the second table has the ids of the first, and differs from
    it at most in the rows whose id satisfies [P]. *)
Definition only_touches (P : string -> Prop) (us us' : list VerifiedUser) : Prop :=
  Forall2 (fun v v' => discord_id v' = discord_id v
                       /\ (~ P (discord_id v) -> v' = v)) us us'.

(** The row that the pre-check of [processSingleUser] writes for a principal
    whose [token_revoked] flag is set. *)
Definition precheck_row (row : MigrationUserLog) : Prop :=
  log_status row = Constants.TOKEN_REVOKED
  /\ log_error_message row = Some "Token previously revoked".

(** The statuses in which a join can end. *)
Definition join_outcome (status : string) : Prop :=
  status = "added" \/ status = "already_in_server" \/ status = "failed".

(** What one call of [processSingleUser] for [user] under run [rid] may do
    to the tables, given its outcome: the run table, its sequence and the
    audit log stay; of [verified_users] only the rows of that user change;
    and the item log gains exactly one row, carrying the returned status,
    when the call returns, and none when it throws. *)
Definition item_effect (rid : nat) (user : VerifiedUser) (d : Database)
           (r : Exc string) (d' : Database) : Prop :=
  migration_runs d' = migration_runs d
  /\ migration_runs_id_seq d' = migration_runs_id_seq d
  /\ audit_log d' = audit_log d
  /\ only_touches (eq (discord_id user)) (verified_users d) (verified_users d')
  /\ match r with
     | inr status =>
         exists row,
           migration_user_log d' = migration_user_log d ++ [row]
           /\ migration_run_id row = rid
           /\ log_discord_id row = discord_id user
           /\ log_status row = status
           /\ (token_revoked user = false -> ~ precheck_row row)
     | inl _ => migration_user_log d' = migration_user_log d
     end.

(** The outcomes that the engine tallies as revoked. *)
Definition revoked_like (status : string) : bool :=
  String.eqb status Constants.TOKEN_REVOKED || String.eqb status Constants.REFRESH_FAILED.

Definition count_revoked_like (statuses : list string) : nat :=
  length (filter revoked_like statuses).

(** The five persisted counters together. *)
Definition tallied (c : Counts) : nat :=
  added c + alreadyIn c + failed c + skippedManual c + tokenRevoked c.

(** The principals that the item log holds for a run, in order of logging. *)
Definition logged_ids (rid : nat) (d : Database) : list string :=
  map fst (userQueries.select_processed rid d).

(** The candidates that the item log of a run does not hold yet, in the
    order in which the candidate provider returns them. *)
Definition pending (rid : nat) (d : Database) : list VerifiedUser :=
  filter (fun u => negb (existsb (fun kv => String.eqb (fst kv) (discord_id u))
                                 (userQueries.select_processed rid d)))
         (userQueries.select_all_verified d).

(** For every run, a principal appears at most once in the item log. *)
Definition at_most_once (d : Database) : Prop :=
  forall rid, NoDup (logged_ids rid d).

(** What the schema guarantees: [discord_id] is the primary key of
    [verified_users], run ids come from the sequence, and the item log refers
    to runs that exist (so not to ids that the sequence has yet to give). *)
Definition well_formed (d : Database) : Prop :=
  NoDup (map discord_id (verified_users d))
  /\ Forall (fun run => run_id run <= migration_runs_id_seq d) (migration_runs d)
  /\ Forall (fun row => migration_run_id row <= migration_runs_id_seq d)
            (migration_user_log d).

(** In world [w], processing [user] ends with an outcome, not an exception. *)
Definition returns (w : World) (cfg : Config) (guildId : string) (rid : nat)
           (user : VerifiedUser) : Prop :=
  forall s, exists status,
      fst (migrationService.processSingleUser w cfg user guildId rid s) = inr status.

End Observe.

(* ================================================================== *)
(** * The statements under test that the code does not meet *)
(* ================================================================== *)

Module Stated.

Import migrationService.

(** When [executeMigration] throws although a run record exists, every row
    of that run is marked [failed] with the message of the error. *)
Definition aborted_run_is_failed (w : World) (cfg : Config)
           (targetGuildId authorId : string) (s : Store) : Prop :=
  forall r s0 message s1,
    resolve w targetGuildId authorId s = (inr r, s0) ->
    executeMigration w cfg targetGuildId authorId s = (inl (JsError message), s1) ->
    forall run,
      In run (migration_runs (db (snd (messageCreate.pull w cfg authorId [targetGuildId] s)))) ->
      run_id run = run_id (migrationRun r) ->
      status run = "failed" /\ error_message run = Some message.

(** A full run over the store ends with a completed run whose counters are
    added 1, already-in 0, skipped-manual 1, token-revoked 1, failed 0. *)
Definition end_to_end_counts (w : World) (cfg : Config)
           (targetGuildId authorId : string) (s : Store) : Prop :=
  exists run,
    In run (migration_runs (db (snd (executeMigration w cfg targetGuildId authorId s))))
    /\ status run = "completed"
    /\ added_count run = 1
    /\ already_in_count run = 0
    /\ skipped_manual run = 1
    /\ token_revoked_count run = 1
    /\ failed_count run = 0.


(** A credential that expires beyond the buffer is returned without a
    refresh call; one within the buffer triggers exactly one refresh call. *)
Definition refresh_is_buffered (w : World) (user : VerifiedUser) (s : Store) : Prop :=
  (oauthService.still_fresh w user = true ->
   exists credential,
     oauthService.ensureFreshToken w user s = (inr credential, s))
  /\ (oauthService.still_fresh w user = false ->
      Observe.token_requests (trace (snd (oauthService.ensureFreshToken w user s)))
      = Datatypes.S (Observe.token_requests (trace s))).

End Stated.

(* ================================================================== *)
(** * Invocations of the engine, one after the other *)
(* ================================================================== *)

Module Invocations.

(** How an invocation ends: it runs to its end (it returns or throws), or
    the process is killed once the loop has handled [k] principals. *)
Inductive Ending : Type :=
| Completes
| Killed (k : nat).

(** One invocation of [executeMigration]: the world it meets, the
    configuration of its process, its arguments and its ending. *)
Record Invocation : Type := {
  world : World;
  config : Config;
  targetGuildId : string;
  initiatedBy : string;
  ending : Ending
}.

(** The store that the invocation leaves. *)
Definition invoke (i : Invocation) (s : Store) : Store :=
  match ending i with
  | Completes =>
      snd (migrationService.executeMigration (world i) (config i) (targetGuildId i)
                                             (initiatedBy i) s)
  | Killed k =>
      snd (migrationService.interrupted (world i) (config i) (targetGuildId i)
                                        (initiatedBy i) k s)
  end.

(** Invocations that do not overlap: each starts on the store that the one
    before it has left. *)
Definition invoke_all (invocations : list Invocation) (s : Store) : Store :=
  fold_left (fun s' i => invoke i s') invocations s.

End Invocations.

(* ================================================================== *)
(** * Further observations *)
(* ================================================================== *)

Module Measure.

(** The status of the row logged last for a principal under a run. *)
Definition last_outcome (rid : nat) (id : string) (d : Database) : option string :=
  option_map log_status
             (find (fun row => Nat.eqb (migration_run_id row) rid
                               && String.eqb (log_discord_id row) id)
                   (rev (migration_user_log d))).

(** The number of join requests ([PUT /guilds/{guild}/members/{user}]) in a
    trace. *)
Definition member_puts (t : list Event) : nat :=
  length (filter (fun e => match e with EvMemberPut _ _ _ => true | _ => false end) t).

(** The runs of a guild that are still [running]. *)
Definition running_for (guildId : string) (d : Database) : list MigrationRun :=
  filter (fun run => String.eqb (target_guild_id run) guildId
                     && String.eqb (status run) "running")
         (migration_runs d).

(** The order of [ORDER BY verified_at ASC]. *)
Definition by_time (u v : VerifiedUser) : Prop := (verified_at u <= verified_at v)%Z.

(** The trace has grown by at most [puts] join requests and [grants] token
    requests. *)
Definition grows_by (puts grants : nat) (t t' : list Event) : Prop :=
  exists added,
    t' = t ++ added
    /\ member_puts added <= puts
    /\ Observe.token_requests added <= grants.

End Measure.

(* ================================================================== *)
(** * web/routes/oauth.js : escapeHtml *)
(* ================================================================== *)

Module oauthRoutes.

(** The five characters of the pattern: ampersand, less-than, greater-than,
    double quote and apostrophe. *)
Definition amp : ascii := "&"%char.
Definition lt : ascii := "<"%char.
Definition gt : ascii := ">"%char.
Definition quot : ascii := ascii_of_nat 34.
Definition apos : ascii := "'"%char.

(** [map[c]], for a character that the pattern matches. *)
Definition entity (c : ascii) : option string :=
  if Ascii.eqb c amp then Some "&amp;"
  else if Ascii.eqb c lt then Some "&lt;"
  else if Ascii.eqb c gt then Some "&gt;"
  else if Ascii.eqb c quot then Some "&quot;"
  else if Ascii.eqb c apos then Some "&#039;"
  else None.

(** [str.replace(pattern, (c) => map[c])], the pattern being global. *)
Fixpoint escapeHtml (str : string) : string :=
  match str with
  | EmptyString => EmptyString
  | String c rest =>
      match entity c with
      | Some replacement => (replacement ++ escapeHtml rest)%string
      | None => String c (escapeHtml rest)
      end
  end.

End oauthRoutes.

(* ================================================================== *)
(** * services/migration.js : createProgressBar *)
(* ================================================================== *)

Module progressBar.

(** [`${n}`] for a non-negative integer. *)
Definition decimal (n : nat) : string := NilEmpty.string_of_uint (Nat.to_uint n).

(** [cell.repeat(count)] for a non-negative count. *)
Fixpoint repeat_cell (cell : string) (count : nat) : string :=
  match count with
  | O => EmptyString
  | S count' => (cell ++ repeat_cell cell count')%string
  end.

(** The two cells of the bar. *)
Definition full : string := "█".
Definition hollow : string := "░".

(** [Math.round(percentage / 5)]: a fifth of an integer is never half-way
    between two integers. *)
Definition fifth (percentage : nat) : nat := (percentage + 2) / 5.

(** [createProgressBar(percentage)], for the non-negative integers that
    [sendProgressUpdate] passes; [String.prototype.repeat] throws a
    [RangeError] on a negative count. *)
Definition createProgressBar (percentage : nat) : Exc string :=
  let filled := fifth percentage in
  if 20 <? filled
  then inl (JsError ("Invalid count value: -" ++ decimal (filled - 20))%string)
  else inr ("[" ++ repeat_cell full filled ++ repeat_cell hollow (20 - filled) ++ "] "
            ++ decimal percentage ++ "%")%string.

(** [bar.startsWith(cell)] *)
Fixpoint starts_with (cell bar : string) : bool :=
  match cell, bar with
  | EmptyString, _ => true
  | String a cell', String b bar' => Ascii.eqb a b && starts_with cell' bar'
  | String _ _, EmptyString => false
  end.

(** The number of occurrences of a cell in a bar. *)
Fixpoint count_cells (cell bar : string) : nat :=
  match bar with
  | EmptyString => 0
  | String _ rest => (if starts_with cell bar then 1 else 0) + count_cells cell rest
  end.

End progressBar.

(* ================================================================== *)
(** * database/queries/users.js : verified users and OAuth states *)
(* ================================================================== *)

Module verifiedUsers.

Local Open Scope Z_scope.

(** A row of [verified_users] with all its columns: those that the
    migration reads, and the profile columns beside them. *)
Record Account : Type := {
  principal : VerifiedUser;
  username : option string;
  discriminator : option string;
  scopes : option string;
  updated_at : Z
}.

(** A row of [oauth_states]. *)
Record OAuthState : Type := {
  state : string;
  state_discord_id : option string;
  state_guild_id : option string;
  created_at : Z;
  expires_at : Z;
  used : bool
}.

Record Tables : Type := {
  accounts : list Account;
  oauth_states : list OAuthState
}.

(** The statements of this part of [users.js]. *)
Inductive Statement : Type :=
| UpsertVerifiedUser (discordId : string)
| ManuallyVerifyUser (discordId : string)
| GetVerifiedUser (discordId : string)
| GetOAuthVerifiedUsers
| CountVerifiedUsers
| IsUserVerified (discordId : string)
| CreateOAuthState (state : string)
| ConsumeOAuthState (state : string)
| CleanupExpiredStates.

(** The database server as a call finds it: a statement can be rejected
    ([Some m]: the call throws [Error(m)] and the tables stay as they are),
    and [NOW()] is the time of the statement. *)
Record Postgres : Type := {
  rejects : Statement -> option string;
  NOW : Z
}.

Definition DB : Type -> Type := M Tables.

Definition statement {A} (pg : Postgres) (st : Statement) (run : Tables -> A * Tables)
  : DB A :=
  fun t =>
    match rejects pg st with
    | Some m => (inl (JsError m), t)
    | None => let (a, t') := run t in (inr a, t')
    end.

Definition set_accounts (t : Tables) (rows : list Account) : Tables :=
  {| accounts := rows; oauth_states := oauth_states t |}.

Definition set_states (t : Tables) (rows : list OAuthState) : Tables :=
  {| accounts := accounts t; oauth_states := rows |}.

Definition account_id (a : Account) : string := discord_id (principal a).

Definition has_id (discordId : string) (a : Account) : bool :=
  String.eqb (account_id a) discordId.

(** The parameters of [upsertVerifiedUser]. *)
Record Verification : Type := {
  discordId : string;
  new_username : option string;
  new_discriminator : option string;
  accessToken : option string;
  refreshToken : option string;
  tokenExpiresAt : Z;
  new_scopes : option string
}.

(** The row that the [INSERT] of [upsertVerifiedUser] proposes, which is
    also the row that [ON CONFLICT ... DO UPDATE] leaves: every column is
    set, [updated_at] by its default or by the trigger. *)
Definition verified_row (now : Z) (v : Verification) : Account :=
  {| principal := {| discord_id := discordId v;
                     access_token := accessToken v;
                     refresh_token := refreshToken v;
                     token_expires_at := Some (tokenExpiresAt v);
                     manually_verified := false;
                     verified_at := now;
                     token_revoked := false;
                     revoked_at := None |};
     username := new_username v;
     discriminator := new_discriminator v;
     scopes := new_scopes v;
     updated_at := now |}.

(** [INSERT INTO verified_users (...) VALUES (...)
     ON CONFLICT (discord_id) DO UPDATE SET ... RETURNING *] *)
Definition upsert (now : Z) (v : Verification) (rows : list Account) : list Account :=
  if existsb (has_id (discordId v)) rows
  then map (fun a => if has_id (discordId v) a then verified_row now v else a) rows
  else rows ++ [verified_row now v].

Definition upsertVerifiedUser (pg : Postgres) (v : Verification) : DB Account :=
  statement pg (UpsertVerifiedUser (discordId v))
            (fun t => (verified_row (NOW pg) v,
                       set_accounts t (upsert (NOW pg) v (accounts t)))).

(** The row that the [INSERT] of [manuallyVerifyUser] creates: the columns
    it does not name take their defaults. *)
Definition manual_row (now : Z) (id : string) : Account :=
  {| principal := {| discord_id := id;
                     access_token := None;
                     refresh_token := None;
                     token_expires_at := None;
                     manually_verified := true;
                     verified_at := now;
                     token_revoked := false;
                     revoked_at := None |};
     username := None;
     discriminator := None;
     scopes := None;
     updated_at := now |}.

(** [DO UPDATE SET manually_verified = TRUE, verified_at = NOW()] *)
Definition mark_manual (now : Z) (a : Account) : Account :=
  {| principal := {| discord_id := discord_id (principal a);
                     access_token := access_token (principal a);
                     refresh_token := refresh_token (principal a);
                     token_expires_at := token_expires_at (principal a);
                     manually_verified := true;
                     verified_at := now;
                     token_revoked := token_revoked (principal a);
                     revoked_at := revoked_at (principal a) |};
     username := username a;
     discriminator := discriminator a;
     scopes := scopes a;
     updated_at := now |}.

(** [INSERT INTO verified_users (discord_id, manually_verified, verified_at)
     VALUES ($1, TRUE, NOW()) ON CONFLICT (discord_id) DO UPDATE SET
     manually_verified = TRUE, verified_at = NOW() RETURNING *] *)
Definition verify_manually (now : Z) (id : string) (rows : list Account) : list Account :=
  if existsb (has_id id) rows
  then map (fun a => if has_id id a then mark_manual now a else a) rows
  else rows ++ [manual_row now id].

Definition manuallyVerifyUser (pg : Postgres) (id : string) : DB (option Account) :=
  statement pg (ManuallyVerifyUser id)
            (fun t =>
               let rows := verify_manually (NOW pg) id (accounts t) in
               (find (has_id id) rows, set_accounts t rows)).

(** [SELECT * FROM verified_users WHERE discord_id = $1], [rows[0] || null] *)
Definition getVerifiedUser (pg : Postgres) (id : string) : DB (option Account) :=
  statement pg (GetVerifiedUser id) (fun t => (find (has_id id) (accounts t), t)).

(** [ORDER BY verified_at ASC] on full rows, as [userQueries] has it on the
    columns of the migration. *)
Fixpoint insert_by_verified_at (a : Account) (sorted : list Account) : list Account :=
  match sorted with
  | [] => [a]
  | b :: rest =>
      if verified_at (principal b) <=? verified_at (principal a)
      then b :: insert_by_verified_at a rest
      else a :: sorted
  end.

Definition order_by_verified_at (rows : list Account) : list Account :=
  fold_left (fun sorted a => insert_by_verified_at a sorted) rows [].

(** [SELECT * FROM verified_users WHERE manually_verified = FALSE
     AND token_revoked = FALSE ORDER BY verified_at ASC] *)
Definition getOAuthVerifiedUsers (pg : Postgres) : DB (list Account) :=
  statement pg GetOAuthVerifiedUsers
            (fun t => (order_by_verified_at
                         (filter (fun a => negb (manually_verified (principal a))
                                           && negb (token_revoked (principal a)))
                                 (accounts t)), t)).

(** [SELECT COUNT( * ) as total FROM verified_users WHERE token_revoked = FALSE],
    [parseInt(rows[0].total, 10)] *)
Definition countVerifiedUsers (pg : Postgres) : DB nat :=
  statement pg CountVerifiedUsers
            (fun t => (length (filter (fun a => negb (token_revoked (principal a)))
                                      (accounts t)), t)).

(** [SELECT 1 FROM verified_users WHERE discord_id = $1 AND token_revoked = FALSE],
    [rows.length > 0] *)
Definition isUserVerified (pg : Postgres) (id : string) : DB bool :=
  statement pg (IsUserVerified id)
            (fun t => (existsb (fun a => has_id id a && negb (token_revoked (principal a)))
                               (accounts t), t)).

(** [INTERVAL '10 minutes'], in milliseconds. *)
Definition TEN_MINUTES : Z := 600000.

(** The message of the unique violation on the primary key of
    [oauth_states]. *)
Definition duplicate_state : string :=
  let q := String (ascii_of_nat 34) EmptyString in
  ("duplicate key value violates unique constraint " ++ q ++ "oauth_states_pkey" ++ q)%string.

(** [INSERT INTO oauth_states (state, discord_id, guild_id) VALUES ($1, $2, $3)];
    [created_at], [expires_at] and [used] take their defaults, and [state] is
    the primary key. *)
Definition createOAuthState (pg : Postgres) (st : string) (discordId guildId : option string)
  : DB unit :=
  fun t =>
    match rejects pg (CreateOAuthState st) with
    | Some m => (inl (JsError m), t)
    | None =>
        if existsb (fun row => String.eqb (state row) st) (oauth_states t)
        then (inl (JsError duplicate_state), t)
        else (inr tt,
              set_states t (oauth_states t ++
                            [{| state := st;
                                state_discord_id := discordId;
                                state_guild_id := guildId;
                                created_at := NOW pg;
                                expires_at := NOW pg + TEN_MINUTES;
                                used := false |}]))
    end.

(** [WHERE state = $1 AND used = FALSE AND expires_at > NOW()] *)
Definition consumable (now : Z) (st : string) (row : OAuthState) : bool :=
  String.eqb (state row) st && negb (used row) && (now <? expires_at row).

Definition mark_used (row : OAuthState) : OAuthState :=
  {| state := state row;
     state_discord_id := state_discord_id row;
     state_guild_id := state_guild_id row;
     created_at := created_at row;
     expires_at := expires_at row;
     used := true |}.

(** [UPDATE oauth_states SET used = TRUE WHERE state = $1 AND used = FALSE
     AND expires_at > NOW() RETURNING *], [rows[0] || null] *)
Definition consumeOAuthState (pg : Postgres) (st : string) : DB (option OAuthState) :=
  statement pg (ConsumeOAuthState st)
            (fun t =>
               (option_map mark_used (find (consumable (NOW pg) st) (oauth_states t)),
                set_states t (map (fun row => if consumable (NOW pg) st row
                                              then mark_used row else row)
                                  (oauth_states t)))).

(** [DELETE FROM oauth_states WHERE expires_at < NOW() OR used = TRUE] *)
Definition stale (now : Z) (row : OAuthState) : bool :=
  (expires_at row <? now) || used row.

(** [SELECT cleanup_expired_oauth_states() as count]: the function of
    [001_initial.sql] deletes the stale rows and returns how many they
    were. *)
Definition cleanupExpiredStates (pg : Postgres) : DB nat :=
  statement pg CleanupExpiredStates
            (fun t => (length (filter (stale (NOW pg)) (oauth_states t)),
                       set_states t (filter (fun row => negb (stale (NOW pg) row))
                                            (oauth_states t)))).

(** The primary keys hold. *)
Definition keyed (t : Tables) : Prop :=
  NoDup (map account_id (accounts t)) /\ NoDup (map state (oauth_states t)).

(** The table of the migration engine shows the same principals. *)
Definition shows (d : Database) (t : Tables) : Prop :=
  verified_users d = map principal (accounts t).

End verifiedUsers.

(* ================================================================== *)
(** * database/migrate.js : runMigrations *)
(* ================================================================== *)

Module migrate.

(** What [runMigrations] asks of the pool, the client and the file system. *)
Inductive Step : Type :=
| Connect
| CreateTable
| SelectExecuted
| ReadDir
| ReadFile (file : string)
| Begin (file : string)
| Script (file : string)
| Insert (file : string)
| Commit (file : string)
| Rollback (file : string).

(** The environment of one call: a step can fail ([Some m]: it throws
    [Error(m)]); the names in the migrations directory, the text of each
    file, and [Array.prototype.sort] on names. *)
Record Environment : Type := {
  fails : Step -> option string;
  readdir : list string;
  contents : string -> string;
  sort : list string -> list string
}.

(** The database as far as the migrations go: the [filename] column of
    [_migrations] in the order of [id] ([None] while the table does not
    exist), and the scripts whose effects are committed. *)
Record Db : Type := {
  _migrations : option (list string);
  schema : list string
}.

Record State : Type := {
  database : Db;
  (** how often [client.release()] has been called *)
  released : nat;
  (** the files whose script has been sent to the server *)
  sent : list string
}.

Definition IO : Type -> Type := M State.

Definition step (env : Environment) (st : Step) : IO unit :=
  fun s =>
    match fails env st with
    | Some m => (inl (JsError m), s)
    | None => (inr tt, s)
    end.

(** [f.endsWith(suffix)] *)
Definition endsWith (suffix f : string) : bool :=
  (String.length suffix <=? String.length f)
  && String.eqb (substring (String.length f - String.length suffix) (String.length suffix) f)
                suffix.

(** The files of the loop: [readdirSync(dir).filter(...).sort()]. *)
Definition files (env : Environment) : list string :=
  sort env (filter (endsWith ".sql") (readdir env)).

Definition recorded (d : Db) : list string :=
  match _migrations d with
  | Some names => names
  | None => []
  end.

(** The state once [_migrations] exists. *)
Definition created (s : State) : State :=
  {| database := {| _migrations := Some (recorded (database s));
                    schema := schema (database s) |};
     released := released s;
     sent := sent s |}.

(** [CREATE TABLE IF NOT EXISTS _migrations (...)] *)
Definition create_table (env : Environment) : IO unit :=
  step env CreateTable ;;
  fun s => (inr tt, {| database := {| _migrations := Some (recorded (database s));
                                      schema := schema (database s) |};
                       released := released s;
                       sent := sent s |}).

(** [SELECT filename FROM _migrations ORDER BY id] *)
Definition select_executed (env : Environment) : IO (list string) :=
  step env SelectExecuted ;;
  fun s => (inr (recorded (database s)), s).

(** The message of the violation of [UNIQUE (filename)]. *)
Definition duplicate_filename : string :=
  let q := String (ascii_of_nat 34) EmptyString in
  ("duplicate key value violates unique constraint " ++ q ++ "_migrations_filename_key"
   ++ q)%string.

(** The [try] block of the loop: the script, the [INSERT INTO _migrations]
    and the [COMMIT].  The effects of a transaction show in the database
    when it commits. *)
Definition transaction (env : Environment) (file sql : string) : IO unit :=
  (fun s => (inr tt, {| database := database s; released := released s;
                        sent := sent s ++ [file] |})) ;;
  step env (Script file) ;;
  (fun s => if existsb (String.eqb file) (recorded (database s))
            then (inl (JsError duplicate_filename), s)
            else step env (Insert file) s) ;;
  step env (Commit file) ;;
  fun s => (inr tt, {| database := {| _migrations := Some (recorded (database s) ++ [file]);
                                      schema := schema (database s) ++ [sql] |};
                       released := released s;
                       sent := sent s |}).

(** The body of the loop for a file that is not in [executedSet]. *)
Definition apply_file (env : Environment) (file : string) : IO unit :=
  step env (ReadFile file) ;;
  let sql := contents env file in
  step env (Begin file) ;;
  outcome <- try_catch (transaction env file sql) ;;
  match outcome with
  | inr _ => ret tt
  | inl err =>
      step env (Rollback file) ;;
      _ <- lift_exc (message_of err) ;;
      throw err
  end.

(** [for (const file of files)] *)
Fixpoint apply_all (env : Environment) (executedSet : list string) (todo : list string)
  : IO unit :=
  match todo with
  | [] => ret tt
  | file :: rest =>
      (if existsb (String.eqb file) executedSet then ret tt else apply_file env file) ;;
      apply_all env executedSet rest
  end.

(** [runMigrations()] *)
Definition runMigrations (env : Environment) : IO unit :=
  step env Connect ;;
  outcome <- try_catch (create_table env ;;
                        executed <- select_executed env ;;
                        step env ReadDir ;;
                        apply_all env executed (files env)) ;;
  (* finally *)
  (fun s => (inr tt, {| database := database s; released := S (released s);
                        sent := sent s |})) ;;
  lift_exc outcome.

(** The files that a call has to apply: those of the loop that the table
    does not hold. *)
Definition pending (env : Environment) (d : Db) : list string :=
  filter (fun file => negb (existsb (String.eqb file) (recorded d))) (files env).

(** Every script that took effect is recorded, and nothing else is. *)
Definition consistent (env : Environment) (d : Db) : Prop :=
  schema d = map (contents env) (recorded d).

End migrate.

(* ================================================================== *)
(** * bot/events/messageCreate.js : the mass ban command and [execute] *)
(* ================================================================== *)

Module guildMessage.

(** A member of the guild of the message: its id and the ids in
    [member.roles.cache]. *)
Record GuildMember : Type := {
  member_id : string;
  member_roles : list string
}.

(** The messages of the command, by their template and its parameters, in
    the order of the source: usage, invalid role id, role not found, no
    permission to ban, nobody has the role, the request to confirm,
    cancelled, timed out, starting and finished. *)
Inductive Notice : Type :=
| Usage
| InvalidRole
| RoleNotFound
| CannotBan
| Nobody (roleId : string)
| Confirm (total : nat) (roleId : string)
| Cancelled
| TimedOut
| Starting (total : nat) (roleId : string)
| Finished (success total failed : nat) (roleId : string).

(** The guild as the command finds it, and how Discord answers:
    - [guild.ownerId] and [client.user.id];
    - [guild.roles.cache]: the ids of the roles, with their names;
    - [guild.members.me]: [None] when absent, else whether it holds
      [BanMembers];
    - [guild.members.cache] before the call of [fetch], and what
      [guild.members.fetch()] does: it throws, or leaves the cache as given;
    - [channel.awaitMessages]: it rejects ([None]) or resolves with the
      first message collected ([Some None] when there is none), of which
      [content.trim().toUpperCase()] is given;
    - [member.ban()]: resolves ([None]) or throws;
    - a [message.reply] or a [channel.send] can reject. *)
Record Discord : Type := {
  ownerId : string;
  botId : string;
  roles_cache : list (string * string);
  me : option bool;
  members_cache : list GuildMember;
  members_fetch : Thrown + list GuildMember;
  awaitMessages : option (option string);
  ban : string -> option Thrown;
  say_fails : Notice -> option string
}.

(** What the command leaves behind: the members banned, the messages sent,
    both in order, and the number of pauses of 250 ms. *)
Record Channel : Type := {
  banned : list string;
  said : list Notice;
  pauses : nat
}.

Definition Bot : Type -> Type := M Channel.

(** [message.reply(...)] and [message.channel.send(...)] *)
Definition say (d : Discord) (n : Notice) : Bot unit :=
  fun ch =>
    match say_fails d n with
    | Some m => (inl (JsError m), ch)
    | None => (inr tt, {| banned := banned ch; said := said ch ++ [n]; pauses := pauses ch |})
    end.

(** [await sleep(250)] *)
Definition pause : Bot unit :=
  fun ch => (inr tt, {| banned := banned ch; said := said ch; pauses := S (pauses ch) |}).

(** [await member.ban({ reason })] *)
Definition ban_member (d : Discord) (id : string) : Bot unit :=
  fun ch =>
    match ban d id with
    | Some err => (inl err, ch)
    | None => (inr tt, {| banned := banned ch ++ [id]; said := said ch; pauses := pauses ch |})
    end.

(** [m.roles.cache.has(role.id)] *)
Definition has_role (roleId : string) (m : GuildMember) : bool :=
  existsb (String.eqb roleId) (member_roles m).

(** [guild.roles.cache.get(roleId)] *)
Fixpoint get_role (roleId : string) (roles : list (string * string)) : option string :=
  match roles with
  | [] => None
  | (id, name) :: rest => if String.eqb id roleId then Some name else get_role roleId rest
  end.

(** [for (const member of membersWithRole.values())] *)
Fixpoint ban_each (d : Discord) (members : list GuildMember) (success failed : nat)
  : Bot (nat * nat) :=
  match members with
  | [] => ret (success, failed)
  | member :: rest =>
      if String.eqb (member_id member) (ownerId d) then ban_each d rest success failed
      else if String.eqb (member_id member) (botId d) then ban_each d rest success failed
      else
        outcome <- try_catch (ban_member d (member_id member)) ;;
        match outcome with
        | inr _ => pause ;; ban_each d rest (S success) failed
        | inl err =>
            _ <- lift_exc (message_of err) ;;
            pause ;; ban_each d rest success (S failed)
        end
  end.

(** The member cache after the [try] around [guild.members.fetch()]; the
    [catch] block reads [err.message]. *)
Definition prefetch (d : Discord) : Bot (list GuildMember) :=
  match members_fetch d with
  | inr members => ret members
  | inl err => _ <- lift_exc (message_of err) ;; ret (members_cache d)
  end.

(** The [try] block of the confirmation: [true] when the command goes on. *)
Definition confirmation (d : Discord) : Bot bool :=
  match awaitMessages d with
  | None => throw JsUndefined
  | Some response =>
      match response with
      | None => say d Cancelled ;; ret false
      | Some text =>
          if negb (String.eqb text "CONFIRM") then say d Cancelled ;; ret false
          else ret true
      end
  end.

(** The [if (command === '?adamlikesboys')] branch of [execute(message)]. *)
Definition massBan (d : Discord) (isOwner isStaff hasAdminPerms : bool) (args : list string)
  : Bot unit :=
  if negb isOwner && negb isStaff && negb hasAdminPerms then ret tt
  else
    match args with
    | [] => say d Usage
    | roleId :: _ =>
        if String.eqb roleId "" then say d Usage
        else if negb (messageCreate.is_snowflake roleId) then say d InvalidRole
        else
          match get_role roleId (roles_cache d) with
          | None => say d RoleNotFound
          | Some _ =>
              match me d with
              | None | Some false => say d CannotBan
              | Some true =>
                  members <- prefetch d ;;
                  let membersWithRole := filter (has_role roleId) members in
                  let total := length membersWithRole in
                  if Nat.eqb total 0 then say d (Nobody roleId)
                  else
                    say d (Confirm total roleId) ;;
                    confirmed <- try_catch (confirmation d) ;;
                    match confirmed with
                    | inl _ => say d TimedOut
                    | inr false => ret tt
                    | inr true =>
                        say d (Starting total roleId) ;;
                        counts <- ban_each d membersWithRole 0 0 ;;
                        say d (Finished (fst counts) total (snd counts) roleId)
                    end
              end
          end
    end.

(** The members that the command can reach: the cache after the fetch. *)
Definition reachable (d : Discord) : list GuildMember :=
  match members_fetch d with
  | inr members => members
  | inl _ => members_cache d
  end.

(** [message.member]: its role ids and whether it holds [Administrator]. *)
Record Author : Type := {
  roles : list string;
  administrator : bool
}.

(** The message: [author.bot], [author.id], whether [guild] is set, the
    [content], its first word in lower case ([command]), the words after it
    ([args]), and [member]. *)
Record Message : Type := {
  author_bot : bool;
  author_id : string;
  in_guild : bool;
  content : string;
  command : string;
  args : list string;
  member : option Author
}.

(** [message.content.startsWith('?')] *)
Definition has_prefix (text : string) : bool :=
  match text with
  | String c _ => Ascii.eqb c "?"%char
  | EmptyString => false
  end.

(** [!!member && member.roles.cache.some((role) =>
     config.discord.staffRoleIds.includes(role.id))]: [config/index.js]
    defines no [staffRoleIds], so that the callback, which [some] calls on
    the first role, reads a property of [undefined]. *)
Definition isStaff (member : option Author) : Exc bool :=
  match member with
  | None => inr false
  | Some author =>
      match roles author with
      | [] => inr false
      | _ :: _ => inl (JsError "Cannot read properties of undefined (reading 'includes')")
      end
  end.

(** [!!member && member.permissions.has(Administrator)] *)
Definition hasAdminPerms (member : option Author) : bool :=
  match member with
  | None => false
  | Some author => administrator author
  end.

(** The handler works on the store of the migration and on the channel. *)
Definition Handler : Type -> Type := M (Store * Channel).

Definition on_store {A} (c : JS A) : Handler A :=
  fun s => let (r, st) := c (fst s) in (r, (st, snd s)).

Definition on_channel {A} (c : Bot A) : Handler A :=
  fun s => let (r, ch) := c (snd s) in (r, (fst s, ch)).

(** [execute(message)] *)
Definition execute (w : World) (cfg : Config) (d : Discord) (msg : Message) : Handler unit :=
  if author_bot msg then ret tt
  else if negb (in_guild msg) then ret tt
  else if negb (has_prefix (content msg)) then ret tt
  else
    let isOwner := existsb (String.eqb (author_id msg)) (ownerIds cfg) in
    staff <- lift_exc (isStaff (member msg)) ;;
    let admin := hasAdminPerms (member msg) in
    if String.eqb (command msg) "?pull"
    then on_store (messageCreate.pull w cfg (author_id msg) (args msg))
    else if String.eqb (command msg) "?adamlikesboys"
    then on_channel (massBan d isOwner staff admin (args msg))
    else ret tt.

End guildMessage.

(* ================================================================== *)
(** * web/routes/oauth.js : the callback; bot/events : guildMemberAdd *)
(* ================================================================== *)

Module oauthCallback.

Import verifiedUsers.

Local Open Scope Z_scope.

(** [config.discord] and [config.oauth], as far as these handlers read
    them; [oauth_scopes] is [config.oauth.scopes.join(' ')]. *)
Record Settings : Type := {
  mainGuildId : string;
  verifiedRoleId : string;
  unverifiedRoleId : option string;
  oauth_scopes : string
}.

(** A value of [req.query].  The query parser of express gives a string for
    a key that occurs once, and an array or an object for a key that is
    repeated or written with brackets.  Of an array or object the handler
    uses two texts: [String(v)], in a template and in [URLSearchParams], and
    the text that node-postgres sends for it as the parameter of a
    statement. *)
Inductive QueryValue : Type :=
| Text (s : string)
| Structured (shown sent : string).

(** [req.query] *)
Record Query : Type := {
  query_code : option QueryValue;
  query_state : option QueryValue;
  query_error : option QueryValue;
  query_error_description : option QueryValue
}.

(** Truthiness of a query value: arrays and objects are truthy. *)
Definition present (v : option QueryValue) : bool :=
  match v with
  | Some (Text s) => truthy (Some s)
  | Some (Structured _ _) => true
  | None => false
  end.

(** [String(v)] *)
Definition shown_as (v : option QueryValue) : string :=
  match v with
  | Some (Text s) => s
  | Some (Structured shown _) => shown
  | None => "undefined"
  end.

(** The value as the parameter of a statement. *)
Definition sent_as (v : QueryValue) : string :=
  match v with
  | Text s => s
  | Structured _ sent => sent
  end.

(** [state.substring(0, 8)]: arrays and objects have no such method. *)
Definition substring_0_8 (v : QueryValue) : Exc string :=
  match v with
  | Text s => inr (substring 0 8 s)
  | Structured _ _ => inl (JsError "state.substring is not a function")
  end.

(** The body of the token endpoint's reply to the code grant. *)
Record Grant : Type := {
  grant : TokenBody;
  grant_scope : option string
}.

(** The body of [GET /users/@me]. *)
Record UserBody : Type := {
  body_id : string;
  body_username : option string;
  body_discriminator : option string
}.

(** What [fetchUserInfo] returns. *)
Record UserInfo : Type := {
  id : string;
  info_username : option string;
  info_discriminator : option string
}.

(** A call of [member.roles.add] or [member.roles.remove]. *)
Inductive RoleCall : Type :=
| RoleAdd (userId roleId : string)
| RoleRemove (userId roleId : string).

(** An HTTP request to Discord. *)
Inductive Request : Type :=
| TokenExchange (code : string)
| UsersMe (accessToken : option string).

(** A row of [audit_log] as the callback writes it. *)
Record Audit : Type := {
  action : string;
  actor : string;
  target : string;
  details_username : option string;
  details_guildId : option string
}.

(** What the handlers find outside the process:
    - the database server at the statement that consumes the state and at
      the later statement that stores the account;
    - the replies of Discord to the code grant and to [GET /users/@me];
    - [Date.now()] after the two requests;
    - whether the [INSERT INTO audit_log] is rejected;
    - [getClient()] being set, the main guild being in the cache,
      [guild.members.fetch(userId)] (it throws, or gives the member with the
      ids in [member.roles.cache]), and whether a role call is rejected;
    - the cipher of the [World]. *)
Record Web : Type := {
  world : World;
  consuming : Postgres;
  storing : Postgres;
  token_exchange : string -> HttpReply Grant;
  users_me : option string -> HttpReply UserBody;
  Date_now : Z;
  audit_rejects : option string;
  client : bool;
  guild_cached : bool;
  members_fetch : string -> string + list string;
  role_rejects : RoleCall -> option string
}.

(** What the handlers leave behind. *)
Record Site : Type := {
  tables : Tables;
  audits : list Audit;
  requests : list Request;
  role_calls : list RoleCall
}.

Definition Visit : Type -> Type := M Site.

Definition with_tables (site : Site) (t : Tables) : Site :=
  {| tables := t; audits := audits site; requests := requests site;
     role_calls := role_calls site |}.

Definition on_tables {A} (c : DB A) : Visit A :=
  fun site =>
    let (r, t) := c (tables site) in (r, with_tables site t).

Definition send_request (r : Request) : Visit unit :=
  fun site => (inr tt, {| tables := tables site; audits := audits site;
                          requests := requests site ++ [r];
                          role_calls := role_calls site |}).

(** [await member.roles.add(...)], [await member.roles.remove(...)] *)
Definition role_call (web : Web) (call : RoleCall) : Visit unit :=
  fun site =>
    match role_rejects web call with
    | Some m => (inl (JsError m), site)
    | None => (inr tt, {| tables := tables site; audits := audits site;
                          requests := requests site;
                          role_calls := role_calls site ++ [call] |})
    end.

(** [exchangeCode(code)] of [services/oauth.js] *)
Definition exchangeCode (web : Web) (code : string) : Visit Grant :=
  send_request (TokenExchange code) ;;
  match token_exchange web code with
  | NetworkError m => throw (JsError m)
  | Reply statusCode (inl m) => throw (JsError m)
  | Reply statusCode (inr data) =>
      if negb (statusCode =? 200)
      then throw (JsError ("Token exchange failed: " ++
                           oauthService.interpolate
                             (js_or (body_error_description (grant data))
                                    (body_error (grant data)))))
      else ret data
  end.

(** [fetchUserInfo(accessToken)] of [services/oauth.js] *)
Definition fetchUserInfo (web : Web) (accessToken : option string) : Visit UserInfo :=
  send_request (UsersMe accessToken) ;;
  match users_me web accessToken with
  | NetworkError m => throw (JsError m)
  | Reply statusCode (inl m) => throw (JsError m)
  | Reply statusCode (inr data) =>
      if negb (statusCode =? 200)
      then throw (JsError "Failed to fetch user info")
      else ret {| id := body_id data;
                  info_username := body_username data;
                  info_discriminator := js_or (body_discriminator data) (Some "0") |}
  end.

(** [writeAuditLog('oauth_verify', id, id, { username, guildId })] *)
Definition writeAuditLog (web : Web) (entry : Audit) : Visit unit :=
  fun site =>
    match audit_rejects web with
    | Some m => (inl (JsError m), site)
    | None => (inr tt, {| tables := tables site; audits := audits site ++ [entry];
                          requests := requests site; role_calls := role_calls site |})
    end.

(** [member.roles.cache.has(roleId)] *)
Definition holds (roleId : string) (roles : list string) : bool :=
  existsb (String.eqb roleId) roles.

(** [assignVerifiedRoles(userId)] *)
Definition assignVerifiedRoles (cfg : Settings) (web : Web) (userId : string) : Visit unit :=
  outcome <- try_catch
    (if negb (client web) then ret tt
     else if negb (guild_cached web) then ret tt
     else
       match members_fetch web userId with
       | inl _ => ret tt
       | inr roles =>
           (if truthy (Some (verifiedRoleId cfg)) && negb (holds (verifiedRoleId cfg) roles)
            then role_call web (RoleAdd userId (verifiedRoleId cfg))
            else ret tt) ;;
           match unverifiedRoleId cfg with
           | Some unverified =>
               if truthy (Some unverified) && holds unverified roles
               then role_call web (RoleRemove userId unverified)
               else ret tt
           | None => ret tt
           end
       end) ;;
  match outcome with
  | inr _ => ret tt
  | inl err => _ <- lift_exc (message_of err) ;; ret tt
  end.

(** The pages, by the text that is put into the template; [escapeHtml] reads
    [str.replace], which throws on [undefined]. *)
Inductive Page : Type :=
| SuccessPage (username : string)
| ErrorPage (message : string).

Definition renderSuccessPage (username : option string) : Exc Page :=
  match username with
  | Some name => inr (SuccessPage (oauthRoutes.escapeHtml name))
  | None => inl (JsError "Cannot read properties of undefined (reading 'replace')")
  end.

Definition renderErrorPage (message : string) : Page :=
  ErrorPage (oauthRoutes.escapeHtml message).

Record Response : Type := {
  status : Z;
  page : Page
}.

Definition expired : string :=
  "Verification link expired or already used. Please try again.".

Definition failed : string :=
  "Verification failed. Please try again or contact an administrator.".

(** The [try] block of the callback. *)
Definition verify (cfg : Settings) (web : Web) (code state : QueryValue) : Visit Response :=
  stateRecord <- on_tables (consumeOAuthState (consuming web) (sent_as state)) ;;
  match stateRecord with
  | None =>
      _ <- lift_exc (substring_0_8 state) ;;
      ret {| status := 400; page := renderErrorPage expired |}
  | Some record =>
      tokens <- exchangeCode web (shown_as (Some code)) ;;
      userInfo <- fetchUserInfo web (body_access_token (grant tokens)) ;;
      let encryptedAccess :=
        encryption.encrypt (world web) (body_access_token (grant tokens)) in
      let encryptedRefresh :=
        encryption.encrypt (world web) (body_refresh_token (grant tokens)) in
      let tokenExpiresAt := Date_now web + body_expires_in (grant tokens) * 1000 in
      on_tables (upsertVerifiedUser (storing web)
                   {| discordId := id userInfo;
                      new_username := info_username userInfo;
                      new_discriminator := info_discriminator userInfo;
                      accessToken := encryptedAccess;
                      refreshToken := encryptedRefresh;
                      tokenExpiresAt := tokenExpiresAt;
                      new_scopes := js_or (grant_scope tokens) (Some (oauth_scopes cfg)) |}) ;;
      writeAuditLog web {| action := "oauth_verify";
                           actor := id userInfo;
                           target := id userInfo;
                           details_username := info_username userInfo;
                           details_guildId := state_guild_id record |} ;;
      assignVerifiedRoles cfg web (id userInfo) ;;
      page <- lift_exc (renderSuccessPage (info_username userInfo)) ;;
      ret {| status := 200; page := page |}
  end.

(** [router.get('/callback', ...)] *)
Definition callback (cfg : Settings) (web : Web) (q : Query) : Visit Response :=
  if present (query_error q)
  then ret {| status := 400;
              page := renderErrorPage
                        ("Verification cancelled: " ++
                         shown_as (if present (query_error_description q)
                                   then query_error_description q
                                   else query_error q)) |}
  else
    match query_code q, query_state q with
    | Some code, Some state =>
        if negb (present (Some code)) || negb (present (Some state))
        then ret {| status := 400; page := renderErrorPage "Invalid callback parameters." |}
        else
          outcome <- try_catch (verify cfg web code state) ;;
          match outcome with
          | inr response => ret response
          | inl err =>
              _ <- lift_exc (message_of err) ;;
              ret {| status := 500; page := renderErrorPage failed |}
          end
    | _, _ => ret {| status := 400; page := renderErrorPage "Invalid callback parameters." |}
    end.

(** [execute(member)] of the [guildMemberAdd] event: [guildId] is
    [member.guild.id], [userId] is [member.user.id] and [pg] is the database
    server at the query. *)
Definition guildMemberAdd (cfg : Settings) (pg : Postgres) (web : Web)
           (guildId userId : string) : Visit unit :=
  if negb (String.eqb guildId (mainGuildId cfg)) then ret tt
  else
    outcome <- try_catch
      (isVerified <- on_tables (isUserVerified pg userId) ;;
       if isVerified : bool
       then
         if truthy (Some (verifiedRoleId cfg))
         then role_call web (RoleAdd userId (verifiedRoleId cfg))
         else ret tt
       else
         match unverifiedRoleId cfg with
         | Some unverified =>
             if truthy (Some unverified)
             then role_call web (RoleAdd userId unverified)
             else ret tt
         | None => ret tt
         end) ;;
    match outcome with
    | inr _ => ret tt
    | inl err => _ <- lift_exc (message_of err) ;; ret tt
    end.

End oauthCallback.

(* ================================================================== *)
(** * bot/commands/verify.js : the [/verify] command *)
(* ================================================================== *)

Module verifyCommand.

Import verifiedUsers oauthCallback.

Local Open Scope Z_scope.

(** The replies of the command, by their template and its parameters:
    restricted to staff, the deferral, invalid user id, already verified
    (with the kind of verification and the time in seconds), manually
    verified (with the line on the role) and verification failed (with
    [err.message]). *)
Inductive Reply : Type :=
| Restricted
| Deferred
| InvalidUserId (userId : string)
| AlreadyVerified (userId : string) (manually : bool) (seconds : Z)
| ManuallyVerified (userId roleStatus : string)
| VerificationFailed (message : string).

(** The interaction: [interaction.user.id], whether [interaction.member] is
    set, [options.getString('userid').trim()], [interaction.guildId], and
    whether a reply is rejected. *)
Record Interaction : Type := {
  user_id : string;
  has_member : bool;
  userid : string;
  interaction_guildId : option string;
  reply_rejects : Reply -> option string
}.

Record Desk : Type := {
  site : Site;
  replies : list Reply
}.

Definition Command : Type -> Type := M Desk.

(** [interaction.reply], [interaction.deferReply], [interaction.editReply] *)
Definition respond (i : Interaction) (r : Reply) : Command unit :=
  fun desk =>
    match reply_rejects i r with
    | Some m => (inl (JsError m), desk)
    | None => (inr tt, {| site := site desk; replies := replies desk ++ [r] |})
    end.

Definition on_site {A} (c : Visit A) : Command A :=
  fun desk => let (r, s) := c (site desk) in (r, {| site := s; replies := replies desk |}).

(** [interaction.member && config.discord.staffRoleIds.some(...)]:
    [config/index.js] defines no [staffRoleIds]. *)
Definition isStaff (i : Interaction) : Exc bool :=
  if has_member i
  then inl (JsError "Cannot read properties of undefined (reading 'some')")
  else inr false.

(** The three lines on the role; each starts with a line feed. *)
Definition role_assigned : string :=
  String (ascii_of_nat 10) "✅ Verified role assigned.".

Definition not_in_server : string :=
  String (ascii_of_nat 10) "⚠️ User not in server — role will be assigned when they join.".

Definition could_not_assign : string :=
  String (ascii_of_nat 10) "⚠️ Could not assign role: ".

(** The inner [try] of the command, around [assignVerifiedRoles]. *)
Definition roleStatus (cfg : Settings) (web : Web) (userId : string) : Command string :=
  outcome <- try_catch (on_site (assignVerifiedRoles cfg web userId)) ;;
  match outcome with
  | inr _ => ret role_assigned
  | inl err =>
      message <- lift_exc (message_of err) ;;
      if includes "Unknown Member" message || includes "not found" message
      then ret not_in_server
      else ret (could_not_assign ++ message)%string
  end.

(** The statements of the outer [try] block once the user is known not to
    be verified, up to the reply that the block returns. *)
Definition record_manual (cfg : Settings) (marking : Postgres) (web : Web)
           (i : Interaction) (userId : string) : Command Reply :=
  on_site (on_tables (manuallyVerifyUser marking userId)) ;;
  on_site (writeAuditLog web {| action := "manual_verify";
                                actor := user_id i;
                                target := userId;
                                details_username := None;
                                details_guildId := interaction_guildId i |}) ;;
  status <- roleStatus cfg web userId ;;
  ret (ManuallyVerified userId status).

(** The outer [try] block, up to the reply that it returns without awaiting
    it; [looking] and [marking] are the database server at the two
    statements. *)
Definition mark_verified (cfg : Settings) (looking marking : Postgres) (web : Web)
           (i : Interaction) (userId : string) : Command Reply :=
  existingUser <- on_site (on_tables (getVerifiedUser looking userId)) ;;
  match existingUser with
  | Some existing =>
      if negb (token_revoked (principal existing))
      then ret (AlreadyVerified userId (manually_verified (principal existing))
                                (verified_at (principal existing) / 1000))
      else record_manual cfg marking web i userId
  | None => record_manual cfg marking web i userId
  end.

(** [execute(interaction)] *)
Definition execute (ownerIds : list string) (cfg : Settings) (looking marking : Postgres)
           (web : Web) (i : Interaction) : Command unit :=
  let isOwner := existsb (String.eqb (user_id i)) ownerIds in
  staff <- lift_exc (isStaff i) ;;
  if negb isOwner && negb staff then respond i Restricted
  else
    respond i Deferred ;;
    let userId := userid i in
    if negb (messageCreate.is_snowflake userId) then respond i (InvalidUserId userId)
    else
      outcome <- try_catch (mark_verified cfg looking marking web i userId) ;;
      match outcome with
      | inr reply => respond i reply
      | inl err =>
          message <- lift_exc (message_of err) ;;
          respond i (VerificationFailed message)
      end.

End verifyCommand.

(* ================================================================== *)
(** * Sample inputs for the further properties *)
(* ================================================================== *)

Module Samples.

Local Open Scope Z_scope.

(** A limiter of five releases per second with three callers queued. *)
Definition crowded : RateLimiter.t :=
  {| RateLimiter.minInterval := 200; RateLimiter.burstSize := 1;
     RateLimiter.lastRequestTime := 0; RateLimiter.queue := [7%nat; 8%nat; 9%nat];
     RateLimiter.processing := false |}.

(** A clock that stands at one second. *)
Definition one_second : RateLimiter.Clock :=
  {| RateLimiter.time := 1000; RateLimiter.lag := fun _ => 2%N; RateLimiter.seen := 0%nat |}.


(** The body of a successful refresh grant. *)
Definition granted : TokenBody :=
  {| body_access_token := Some "tokE2"; body_refresh_token := Some "refE2";
     body_expires_in := 604800; body_error := None; body_error_description := None |}.

(** The token endpoint answers every refresh grant with a new pair. *)
Definition granting : World :=
  Scenario.with_token_endpoint Scenario.calm (fun _ => Reply 200 (inr granted)).

Definition pg : verifiedUsers.Postgres :=
  {| verifiedUsers.rejects := fun _ => None; verifiedUsers.NOW := 1000 |}.

(** The database server twenty minutes later. *)
Definition pg_later : verifiedUsers.Postgres :=
  {| verifiedUsers.rejects := fun _ => None; verifiedUsers.NOW := 1201000 |}.

Definition account (u : VerifiedUser) : verifiedUsers.Account :=
  {| verifiedUsers.principal := u;
     verifiedUsers.username := Some "someone";
     verifiedUsers.discriminator := Some "0";
     verifiedUsers.scopes := Some "identify guilds.join";
     verifiedUsers.updated_at := verified_at u |}.

Definition oauth_state (st : string) (expires : Z) (is_used : bool)
  : verifiedUsers.OAuthState :=
  {| verifiedUsers.state := st;
     verifiedUsers.state_discord_id := Some "A";
     verifiedUsers.state_guild_id := Some Scenario.guild;
     verifiedUsers.created_at := expires - verifiedUsers.TEN_MINUTES;
     verifiedUsers.expires_at := expires;
     verifiedUsers.used := is_used |}.

(** Accounts of A (valid), B (manual) and C (revoked); one state that is
    live at [NOW pg], one that is used and one that has expired. *)
Definition tables : verifiedUsers.Tables :=
  {| verifiedUsers.accounts := [account Scenario.A; account Scenario.B; account Scenario.C];
     verifiedUsers.oauth_states :=
       [oauth_state "live" 5000 false; oauth_state "spent" 5000 true;
        oauth_state "old" 10 false] |}.

(** C verifies again through OAuth. *)
Definition verification : verifiedUsers.Verification :=
  {| verifiedUsers.discordId := "C";
     verifiedUsers.new_username := Some "carol";
     verifiedUsers.new_discriminator := Some "0";
     verifiedUsers.accessToken := Some "enc:tokC";
     verifiedUsers.refreshToken := Some "enc:refC";
     verifiedUsers.tokenExpiresAt := 604801000;
     verifiedUsers.new_scopes := Some "identify guilds.join" |}.

Fixpoint insert_name (name : string) (sorted : list string) : list string :=
  match sorted with
  | [] => [name]
  | other :: rest =>
      if String.leb name other then name :: sorted else other :: insert_name name rest
  end.

(** A migrations directory with two scripts and a file that is none. *)
Definition directory : migrate.Environment :=
  {| migrate.fails := fun _ => None;
     migrate.readdir := ["002_indexes.sql"; "README.md"; "001_initial.sql"];
     migrate.contents := fun file => ("-- " ++ file)%string;
     migrate.sort := fun names => fold_right insert_name [] names |}.

(** The same directory when the second script is refused by the server. *)
Definition broken_directory : migrate.Environment :=
  {| migrate.fails := fun st => match st with
                                | migrate.Script "002_indexes.sql" => Some "syntax error"
                                | _ => None
                                end;
     migrate.readdir := migrate.readdir directory;
     migrate.contents := migrate.contents directory;
     migrate.sort := migrate.sort directory |}.

(** A database before its first migration. *)
Definition blank : migrate.State :=
  {| migrate.database := {| migrate._migrations := None; migrate.schema := [] |};
     migrate.released := 0;
     migrate.sent := [] |}.

(** The configuration of the roles. *)
Definition settings : oauthCallback.Settings :=
  {| oauthCallback.mainGuildId := Scenario.guild;
     oauthCallback.verifiedRoleId := "500000000000000005";
     oauthCallback.unverifiedRoleId := Some "600000000000000006";
     oauthCallback.oauth_scopes := "identify guilds.join" |}.

(** The profile that Discord returns for the access token. *)
Definition profile : oauthCallback.UserBody :=
  {| oauthCallback.body_id := "E";
     oauthCallback.body_username := Some "eve <3";
     oauthCallback.body_discriminator := None |}.

(** Discord grants the code and knows the user, who is in the main guild
    with the unverified role. *)
Definition discord : oauthCallback.Web :=
  {| oauthCallback.world := Scenario.calm;
     oauthCallback.consuming := pg;
     oauthCallback.storing := pg;
     oauthCallback.token_exchange :=
       fun _ => Reply 200 (inr {| oauthCallback.grant := granted;
                                  oauthCallback.grant_scope := None |});
     oauthCallback.users_me := fun _ => Reply 200 (inr profile);
     oauthCallback.Date_now := 1000;
     oauthCallback.audit_rejects := None;
     oauthCallback.client := true;
     oauthCallback.guild_cached := true;
     oauthCallback.members_fetch := fun _ => inr ["600000000000000006"];
     oauthCallback.role_rejects := fun _ => None |}.

(** The same, but the code grant is refused. *)
Definition refusing : oauthCallback.Web :=
  {| oauthCallback.world := Scenario.calm;
     oauthCallback.consuming := pg;
     oauthCallback.storing := pg;
     oauthCallback.token_exchange :=
       fun _ => Reply 400 (inr {| oauthCallback.grant :=
                                    {| body_access_token := None;
                                       body_refresh_token := None;
                                       body_expires_in := 0;
                                       body_error := Some "invalid_grant";
                                       body_error_description := None |};
                                  oauthCallback.grant_scope := None |});
     oauthCallback.users_me := fun _ => Reply 200 (inr profile);
     oauthCallback.Date_now := 1000;
     oauthCallback.audit_rejects := None;
     oauthCallback.client := true;
     oauthCallback.guild_cached := true;
     oauthCallback.members_fetch := fun _ => inr ["600000000000000006"];
     oauthCallback.role_rejects := fun _ => None |}.

(** The callback request for the live state. *)
Definition request : oauthCallback.Query :=
  {| oauthCallback.query_code := Some (oauthCallback.Text "abc");
     oauthCallback.query_state := Some (oauthCallback.Text "live");
     oauthCallback.query_error := None;
     oauthCallback.query_error_description := None |}.


Definition visited : oauthCallback.Site :=
  {| oauthCallback.tables := tables;
     oauthCallback.audits := [];
     oauthCallback.requests := [];
     oauthCallback.role_calls := [] |}.

(** A user with a snowflake for an id, revoked. *)
Definition banished : string := "300000000000000003".

(** The owner runs [/verify] for that user outside a guild. *)
Definition interaction : verifyCommand.Interaction :=
  {| verifyCommand.user_id := Scenario.owner;
     verifyCommand.has_member := false;
     verifyCommand.userid := banished;
     verifyCommand.interaction_guildId := None;
     verifyCommand.reply_rejects := fun _ => None |}.

Definition desk : verifyCommand.Desk :=
  {| verifyCommand.site :=
       {| oauthCallback.tables :=
            {| verifiedUsers.accounts :=
                 [account Scenario.A;
                  account (Scenario.user banished None None None false 3 true)];
               verifiedUsers.oauth_states := [] |};
          oauthCallback.audits := [];
          oauthCallback.requests := [];
          oauthCallback.role_calls := [] |};
     verifyCommand.replies := [] |}.

End Samples.

(* ================================================================== *)
(** * Properties of the rate limiter *)
(* ================================================================== *)

Section RateLimiterFacts.

Import RateLimiter.
Local Open Scope Z_scope.

Lemma advance_waits (ms : Z) (c : Clock) : time c + ms <= time (advance ms c).
Proof.
  unfold advance; cbn. pose proof (N2Z.is_nonneg (lag c (seen c))). lia.
Qed.

Lemma ceil_div_covers (a b : Z) : 0 < b -> a <= b * ceil_div a b.
Proof.
  intros Hb. unfold ceil_div.
  pose proof (Z.mul_div_le (- a) b Hb). lia.
Qed.

(** One turn of the loop stamps a release at least one interval after the
    previous stamp, whatever the clock showed. *)
Lemma drain_one (ticket : nat) (interval last : Z) (c : Clock) :
  exists stamp c',
    drain [ticket] interval last c = (stamp, c', [(ticket, stamp)])
    /\ last + interval <= stamp.
Proof.
  cbn [drain]. unfold Date_now, sleep.
  set (c1 := advance 0 c).
  set (waitTime := Z.max 0 (interval - (time c1 - last))).
  destruct (0 <? waitTime) eqn:Hw.
  - eexists _, _. split; [reflexivity|].
    apply Z.ltb_lt in Hw.
    pose proof (advance_waits waitTime c1).
    pose proof (advance_waits 0 (advance waitTime c1)).
    subst waitTime. lia.
  - eexists _, _. split; [reflexivity|].
    apply Z.ltb_ge in Hw.
    pose proof (advance_waits 0 c1).
    subst waitTime. lia.
Qed.

Lemma acquire_idle (ticket : nat) (l : t) (c : Clock) :
  idle l ->
  exists stamp l' c',
    acquire ticket l c = (l', c', [(ticket, stamp)])
    /\ idle l'
    /\ minInterval l' = minInterval l
    /\ lastRequestTime l' = stamp
    /\ lastRequestTime l + minInterval l <= stamp.
Proof.
  intros [Hq Hp]. unfold acquire, _process. cbn. rewrite Hp, Hq. cbn [app].
  destruct (drain_one ticket (minInterval l) (lastRequestTime l) c)
    as (stamp & c' & Hd & Hle).
  rewrite Hd. eexists _, _, _. split; [reflexivity|].
  repeat split; auto.
Qed.

Lemma acquire_seq_spaced (n ticket : nat) (l : t) (c : Clock) :
  idle l ->
  let ts := acquire_seq n ticket l c in
  length ts = n
  /\ spaced (minInterval l) ts
  /\ match ts with
     | [] => True
     | t0 :: _ => lastRequestTime l + minInterval l <= t0
     end.
Proof.
  revert ticket l c. induction n as [|n IH]; intros ticket l c Hidle; cbn.
  - auto.
  - destruct (acquire_idle ticket c Hidle) as (stamp & l' & c' & Ha & Hidle' & Hmin & Hlast & Hle).
    rewrite Ha. cbn.
    destruct (IH (S ticket) l' c' Hidle') as (Hlen & Hsp & Hhd).
    rewrite Hmin, Hlast in *.
    split; [now rewrite Hlen|]. split; [|exact Hle].
    split; [|exact Hsp].
    destruct (acquire_seq n (S ticket) l' c'); [exact I|]. lia.
Qed.

Lemma spaced_span (gap : Z) (ts : list Z) :
  spaced gap ts -> ts <> [] ->
  gap * (Z.of_nat (length ts) - 1) <= last ts 0 - hd 0 ts.
Proof.
  induction ts as [|t0 rest IH]; intros Hsp Hne; [congruence|].
  destruct rest as [|t1 rest'].
  - cbn. lia.
  - destruct Hsp as [Hgap Hrest].
    specialize (IH Hrest ltac:(discriminate)).
    change (last (t0 :: t1 :: rest') 0) with (last (t1 :: rest') 0).
    cbn [hd] in *. cbn [length] in *. lia.
Qed.

Lemma spaced_apart (rate gap : Z) (ts : list Z) :
  1000 <= rate * gap -> 0 < rate -> spaced gap ts -> apart_by_rate rate ts.
Proof.
  intros Hrate Hpos. induction ts as [|t0 rest IH]; cbn; [auto|].
  intros [Hgap Hrest]. split; [|auto].
  destruct rest; [exact I|]. nia.
Qed.

(** An awaited call on an idle limiter resolves at the time of its stamp:
    that is what the clock shows then, and it is not before the call. *)
Lemma acquire_idle_clock (ticket : nat) (l : t) (c : Clock) :
  idle l ->
  exists stamp l' c',
    acquire ticket l c = (l', c', [(ticket, stamp)])
    /\ idle l'
    /\ time c' = stamp
    /\ time c <= stamp.
Proof.
  intros [Hq Hp]. unfold acquire, _process. cbn. rewrite Hp, Hq. cbn [app drain].
  unfold Date_now, sleep.
  set (c1 := advance 0 c).
  set (waitTime := Z.max 0 (minInterval l - (time c1 - lastRequestTime l))).
  pose proof (advance_waits 0 c) as H1. fold c1 in H1.
  destruct (0 <? waitTime) eqn:Hw.
  - eexists _, _, _. split; [reflexivity|].
    apply Z.ltb_lt in Hw.
    pose proof (advance_waits waitTime c1).
    pose proof (advance_waits 0 (advance waitTime c1)).
    repeat split; auto. lia.
  - eexists _, _, _. split; [reflexivity|].
    pose proof (advance_waits 0 c1).
    repeat split; auto. lia.
Qed.

Lemma last_default (ts : list Z) (d d' : Z) : ts <> [] -> last ts d = last ts d'.
Proof.
  induction ts as [|t0 [|t1 rest] IH]; intros Hne; [congruence | reflexivity |].
  apply IH. discriminate.
Qed.

(** The release stamps are the readings of the wall clock at which the calls
    resolve; the clock never runs back, and after the last call it shows the
    last stamp. *)
Lemma resolved_at_stamps (n ticket : nat) (l : t) (c : Clock) :
  idle l ->
  fst (resolved_at n ticket l c) = acquire_seq n ticket l c
  /\ time (snd (resolved_at n ticket l c)) = last (acquire_seq n ticket l c) (time c)
  /\ time c <= hd (time c) (acquire_seq n ticket l c).
Proof.
  revert ticket l c. induction n as [|n IH]; intros ticket l c Hidle; cbn [resolved_at acquire_seq].
  - cbn. repeat split; lia.
  - destruct (acquire_idle_clock ticket c Hidle) as (stamp & l' & c' & Ha & Hidle' & Hnow & Hle).
    rewrite Ha. cbn [map snd app].
    destruct (IH (S ticket) l' c' Hidle') as (Hfst & Hend & _).
    destruct (resolved_at n (S ticket) l' c') as [rest c_end]. cbn [fst snd] in *.
    rewrite Hfst, Hend, Hnow. cbn [hd].
    repeat split; [|exact Hle].
    destruct (acquire_seq n (S ticket) l' c') as [|t1 ts]; [reflexivity|].
    change (last (stamp :: t1 :: ts) (time c)) with (last (t1 :: ts) (time c)).
    apply last_default. discriminate.
Qed.

(** C2. Rate bound: with a configured rate of [R] requests per second
    ([R >= 1]) and a clock on which no timer fires early, [N >= 1] sequential
    [acquire()] calls are released one by one, consecutive releases at least
    [1000 / R] milliseconds apart whatever time the caller spends between the
    calls, so that the [N] releases span at least [(N - 1) / R] seconds:
    [R * (last - first) >= 1000 * (N - 1)] in milliseconds.  The release
    stamps are wall-clock times: each is what the clock shows when its call
    resolves, the first is not before the first call is made, and the clock
    shows the last when the last call has resolved; so at least
    [(N - 1) / R] seconds pass on the wall clock between the first call and
    the resolution of the last. *)
Theorem rate_bound (R burst : Z) (N : nat) (c : Clock) :
  0 < R -> (1 <= N)%nat ->
  let releases := acquire_seq N 0 (new R burst) c in
  let (resolutions, c_end) := resolved_at N 0 (new R burst) c in
  length releases = N
  /\ apart_by_rate R releases
  /\ 1000 * (Z.of_nat N - 1) <= R * (last releases 0 - hd 0 releases)
  /\ resolutions = releases
  /\ time c <= hd 0 releases
  /\ time c_end = last releases 0
  /\ 1000 * (Z.of_nat N - 1) <= R * (time c_end - time c).
Proof.
  intros HR HN releases.
  assert (Hidle : idle (new R burst)) by (split; reflexivity).
  destruct (acquire_seq_spaced N 0 c Hidle) as (Hlen & Hsp & _).
  destruct (resolved_at_stamps N 0 c Hidle) as (Hstamps & Hend & Hstart).
  destruct (resolved_at N 0 (new R burst) c) as [resolutions c_end].
  cbn [fst snd] in Hstamps, Hend.
  fold releases in Hlen, Hsp, Hstamps, Hend, Hstart.
  pose proof (ceil_div_covers 1000 HR) as Hceil.
  change (minInterval (new R burst)) with (ceil_div 1000 R) in Hsp.
  assert (Hne : releases <> []) by (intro E; rewrite E in Hlen; cbn in Hlen; lia).
  pose proof (spaced_span _ Hsp Hne) as Hspan. rewrite Hlen in Hspan.
  rewrite (last_default (time c) 0 Hne) in Hend.
  assert (Hhd : hd (time c) releases = hd 0 releases)
    by (destruct releases; [congruence | reflexivity]).
  rewrite Hhd in Hstart.
  split; [exact Hlen|]. split; [eapply spaced_apart; eauto|].
  split; [nia|]. split; [exact Hstamps|]. split; [exact Hstart|].
  split; [exact Hend|]. nia.
Qed.

(** The bound at work: five requests per second, three calls, a clock that
    starts at 7 ms and adds 3 ms of latency at every observation.  The calls
    resolve at 206, 412 and 618 ms on that clock. *)
Lemma rate_bound_witness :
  acquire_seq 3 0 (new 5 1) Scenario.late_clock = [206; 412; 618]
  /\ fst (resolved_at 3 0 (new 5 1) Scenario.late_clock) = [206; 412; 618]
  /\ time (snd (resolved_at 3 0 (new 5 1) Scenario.late_clock)) = 618
  /\ 1000 * (Z.of_nat 3 - 1)
     <= 5 * (time (snd (resolved_at 3 0 (new 5 1) Scenario.late_clock))
             - time Scenario.late_clock).
Proof.
  pose proof (@rate_bound 5 1 3 Scenario.late_clock eq_refl (le_S _ _ (le_S _ _ (le_n 1))))
    as Hbound.
  cbv zeta in Hbound.
  destruct (resolved_at 3 0 (new 5 1) Scenario.late_clock) as [resolutions c_end] eqn:Hrun.
  destruct Hbound as (_ & _ & _ & Hstamps & _ & Hend & Hspan).
  cbn [fst snd].
  split; [reflexivity|]. split; [now rewrite Hstamps|]. split; [now rewrite Hend|].
  exact Hspan.
Defined.

End RateLimiterFacts.

(* ================================================================== *)
(** * Properties of the retry executor *)
(* ================================================================== *)

Section RetryFacts.

Import Retry.

Variables S A : Type.
Variable sleep : Q -> S -> S.
Variable random : nat -> Q.
Variable fn : nat -> M S A.
Variable o : Options S.





End RetryFacts.

(** Without an [onRetry] callback, the pause after an [Error] is the sleep. *)
Lemma pause_default (S : Type) (sleep : Q -> S -> S) (random : nat -> Q)
      (o : Retry.Options S) (m : string) (attempt : nat) (s : S) :
  Retry.onRetry o = None ->
  Retry.pause sleep random o (JsError m) attempt s
  = (inr tt, sleep (Retry.jittered random o attempt) s).
Proof. intros H. unfold Retry.pause, bind, lift_exc, ret. cbn. now rewrite H. Qed.



(* ================================================================== *)
(** * Properties of the token lifecycle *)
(* ================================================================== *)

(** Unfolds the monad. *)
Ltac js_unfold :=
  unfold bind, ret, throw, try_catch, lift_exc, emit, query in *.

(** Splits on an innermost [match] or [if] scrutinee of the goal. *)
Ltac is_innermost scrutinee :=
  lazymatch scrutinee with
  | context [match _ with _ => _ end] => fail
  | _ => idtac
  end.

Ltac split_match :=
  match goal with
  | |- context [match ?scrutinee with _ => _ end] =>
      is_innermost scrutinee; destruct scrutinee eqn:?
  end.

Lemma bind_run (S A B : Type) (c : M S A) (k : A -> M S B) (s : S) :
  bind c k s = match c s with
               | (inr a, s') => k a s'
               | (inl e, s') => (inl e, s')
               end.
Proof. reflexivity. Qed.

Lemma try_catch_run (S A : Type) (c : M S A) (s : S) :
  try_catch c s = (inr (fst (c s)), snd (c s)).
Proof. unfold try_catch. now destruct (c s). Qed.

Section OAuthFacts.

Import oauthService Observe.
Local Open Scope Z_scope.

Variable w : World.

Lemma query_outcome (A : Type) (op : Op) (run : Database -> A * Database) (s : Store) :
  (exists m, fault w op = Some m /\ query w op run s = (inl (JsError m), s))
  \/ (fault w op = None
      /\ query w op run s
         = (inr (fst (run (db s))), {| db := snd (run (db s)); trace := trace s |})).
Proof.
  unfold query. destruct (fault w op) as [m|].
  - left. eauto.
  - right. split; [reflexivity|]. now destruct (run (db s)).
Qed.

(** What [decrypt] throws is an [Error]. *)
Lemma decrypt_throws_errors (payload : option string) :
  encryption.decrypt w payload <> inl JsUndefined.
Proof.
  unfold encryption.decrypt. destruct payload as [text|]; [|discriminate].
  destruct (truthy (Some text)); [|discriminate].
  destruct (decipher w text); discriminate.
Qed.

(** The refresh exchange is one request to the token endpoint, made once the
    stored refresh token has been decrypted; it leaves the tables alone and
    throws [Error] objects only. *)
Lemma refreshToken_effect (encrypted : option string) (s : Store) :
  db (snd (refreshToken w encrypted s)) = db s
  /\ match encryption.decrypt w encrypted with
     | inr refresh =>
         trace (snd (refreshToken w encrypted s)) = trace s ++ [EvTokenRequest refresh]
     | inl err => refreshToken w encrypted s = (inl err, s)
     end
  /\ fst (refreshToken w encrypted s) <> inl JsUndefined.
Proof.
  unfold refreshToken. rewrite bind_run. unfold lift_exc at 1.
  pose proof (decrypt_throws_errors encrypted) as Herror.
  destruct (encryption.decrypt w encrypted) as [err|refresh] eqn:Edecrypt.
  - cbn. split; [reflexivity|]. split; [reflexivity|].
    intros [= ->]. now apply Herror.
  - js_unfold. cbn.
    repeat split_match; cbn; repeat split; auto; discriminate.
Qed.

(** The [try] block of [ensureFreshToken]: one request when the refresh
    token decrypts, none when it does not; when the block throws, the tables
    are as they were. *)
Lemma refresh_and_store_effect (user : VerifiedUser) (s : Store) :
  match encryption.decrypt w (refresh_token user) with
  | inr refresh =>
      trace (snd (refresh_and_store w user s)) = trace s ++ [EvTokenRequest refresh]
  | inl err => refresh_and_store w user s = (inl err, s)
  end
  /\ (forall e, fst (refresh_and_store w user s) = inl e ->
                db (snd (refresh_and_store w user s)) = db s /\ e <> JsUndefined).
Proof.
  unfold refresh_and_store. rewrite bind_run.
  destruct (refreshToken_effect (refresh_token user) s) as (Hdb & Htr & Hun).
  destruct (refreshToken w (refresh_token user) s) as [[e|tokens] s1] eqn:Erefresh;
    cbn [fst snd] in *.
  - split.
    + destruct (encryption.decrypt w (refresh_token user));
        [now injection Htr as -> -> | exact Htr].
    + intros e' [= <-]. split; [exact Hdb|]. congruence.
  - assert (Hasked : match encryption.decrypt w (refresh_token user) with
                     | inr refresh => trace s1 = trace s ++ [EvTokenRequest refresh]
                     | inl _ => False
                     end).
    { destruct (encryption.decrypt w (refresh_token user)); [discriminate Htr | exact Htr]. }
    rewrite bind_run. unfold userQueries.updateTokens, query.
    destruct (fault w (UpdateTokens (discord_id user))) as [m|]; cbn.
    + split.
      * destruct (encryption.decrypt w (refresh_token user)); [contradiction | exact Hasked].
      * intros e' [= <-]. split; [exact Hdb|]. discriminate.
    + split; [|discriminate].
      destruct (encryption.decrypt w (refresh_token user)); [contradiction | exact Hasked].
Qed.

(** The catch block of [ensureFreshToken] sends nothing. *)
Lemma ensureFreshToken_trace (user : VerifiedUser) (s : Store) :
  still_fresh w user = false ->
  trace (snd (ensureFreshToken w user s)) = trace (snd (refresh_and_store w user s)).
Proof.
  intros Hdue. unfold ensureFreshToken. rewrite Hdue, bind_run, try_catch_run.
  destruct (refresh_and_store w user s) as [[e|token] s1]; cbn [fst snd]; [|reflexivity].
  unfold userQueries.markTokenRevoked. js_unfold.
  destruct e; cbn; [|reflexivity].
  repeat split_match; cbn; auto; try congruence.
Qed.

(** C4. Refresh buffering.  [TOKEN_REFRESH_BUFFER_SECONDS] is 3600.  When the
    stored expiry lies more than that many seconds after the time of the call,
    [ensureFreshToken] makes no request and leaves the store as it is: it
    returns the decrypted stored access token, or else throws the error of
    the decipher when the stored token does not decrypt.  When the expiry is
    within the buffer or past and the stored refresh token decrypts,
    [ensureFreshToken] makes exactly one refresh request to the token
    endpoint, with the decrypted token, whatever its outcome; when the stored
    refresh token does not decrypt it makes no request at all, and throws the
    error of the decipher with the store untouched unless that error reads
    as an invalid grant. *)
Theorem refresh_buffering (user : VerifiedUser) (s : Store) :
  Constants.TOKEN_REFRESH_BUFFER_SECONDS = 3600
  /\ (Constants.TOKEN_REFRESH_BUFFER_SECONDS * 1000
      < expiry_ms user - wall_clock w (discord_id user) 0 ->
      ensureFreshToken w user s = (encryption.decrypt w (access_token user), s))
  /\ (expiry_ms user - wall_clock w (discord_id user) 0
      <= Constants.TOKEN_REFRESH_BUFFER_SECONDS * 1000 ->
      match encryption.decrypt w (refresh_token user) with
      | inr refresh =>
          token_requests (trace (snd (ensureFreshToken w user s)))
          = S (token_requests (trace s))
          /\ trace (snd (ensureFreshToken w user s)) = trace s ++ [EvTokenRequest refresh]
      | inl err =>
          trace (snd (ensureFreshToken w user s)) = trace s
          /\ forall m, err = JsError m -> grant_is_invalid m = false ->
                       ensureFreshToken w user s = (inl err, s)
      end).
Proof.
  split; [reflexivity|]. split.
  - intros Hfresh. unfold ensureFreshToken, still_fresh.
    apply Z.ltb_lt in Hfresh. now rewrite Hfresh.
  - intros Hdue.
    assert (Hdue' : still_fresh w user = false) by (now apply Z.ltb_ge).
    pose proof (ensureFreshToken_trace user s Hdue') as Htrace.
    destruct (refresh_and_store_effect user s) as (Htr & _).
    destruct (encryption.decrypt w (refresh_token user)) as [err|refresh].
    + rewrite Htr in Htrace. split; [exact Htrace|].
      intros m -> Hother. unfold ensureFreshToken.
      rewrite Hdue', bind_run, try_catch_run, Htr. cbn [fst snd].
      rewrite bind_run. cbn. now rewrite Hother.
    + rewrite Htr in Htrace. split; [|exact Htrace].
      rewrite Htrace. unfold token_requests. rewrite filter_app, length_app. cbn. lia.
Qed.

(** The catch block of [ensureFreshToken].  Let the [try] block (the
    refresh exchange and the storing of its result) throw an error with
    message [m]; the tables are then as they were before the call.  If [m]
    reads as an invalid grant (it contains [invalid_grant] or [revoked]) and
    the revoking [UPDATE] goes through, every stored row of the principal has
    [token_revoked] set and both tokens cleared, nothing else changes, and
    the call throws [TOKEN_REVOKED].  For any other failure the call throws
    the error unchanged (the engine records it as [refresh_failed]) and the
    stored state is untouched. *)
Theorem refresh_failure_handling (user : VerifiedUser) (s s1 : Store) (m : string) :
  still_fresh w user = false ->
  refresh_and_store w user s = (inl (JsError m), s1) ->
  db s1 = db s
  /\ (grant_is_invalid m = true ->
      fault w (MarkTokenRevoked (discord_id user)) = None ->
      exists s2,
        ensureFreshToken w user s = (inl (JsError "TOKEN_REVOKED"), s2)
        /\ same_bookkeeping (db s) (db s2)
        /\ verified_users (db s2)
           = map (userQueries.mark_revoked (discord_id user)
                    (sql_now w (MarkTokenRevoked (discord_id user))))
                 (verified_users (db s))
        /\ Forall (fun u => token_revoked u = true
                            /\ access_token u = None /\ refresh_token u = None)
                  (rows_of (discord_id user) (verified_users (db s2)))
        /\ length (rows_of (discord_id user) (verified_users (db s2)))
           = length (rows_of (discord_id user) (verified_users (db s))))
  /\ (grant_is_invalid m = false ->
      ensureFreshToken w user s = (inl (JsError m), s1)
      /\ db (snd (ensureFreshToken w user s)) = db s).
Proof.
  intros Hdue Hbody.
  destruct (refresh_and_store_effect user s) as (_ & Hfail).
  rewrite Hbody in Hfail. destruct (Hfail _ eq_refl) as (Hdb & _). cbn in Hdb.
  split; [exact Hdb|]. split.
  - intros Hinv Hok.
    unfold ensureFreshToken. rewrite Hdue. rewrite bind_run, try_catch_run, Hbody.
    cbn [fst snd]. rewrite bind_run. cbn. rewrite Hinv.
    unfold userQueries.markTokenRevoked, bind, query, throw. rewrite Hok. cbn.
    eexists. split; [reflexivity|]. cbn. rewrite Hdb.
    split; [repeat split|]. split; [reflexivity|].
    set (mark := userQueries.mark_revoked _ _).
    split.
    + unfold rows_of. apply Forall_forall. intros u Hu.
      apply filter_In in Hu. destruct Hu as [Hin Hid].
      apply in_map_iff in Hin. destruct Hin as (v & <- & _).
      subst mark. unfold userQueries.mark_revoked in *.
      destruct (String.eqb (discord_id v) (discord_id user)) eqn:Hv; cbn; auto.
      congruence.
    + unfold rows_of. clear. induction (verified_users (db s)) as [|v vs IH]; cbn; [reflexivity|].
      subst mark. unfold userQueries.mark_revoked at 1.
      destruct (String.eqb (discord_id v) (discord_id user)) eqn:Hv; cbn; rewrite Hv; cbn;
        now rewrite IH.
  - intros Hother.
    assert (E : ensureFreshToken w user s = (inl (JsError m), s1)).
    { unfold ensureFreshToken. rewrite Hdue. rewrite bind_run, try_catch_run, Hbody.
      cbn [fst snd]. rewrite bind_run. cbn. rewrite Hother. reflexivity. }
    split; [exact E|]. now rewrite E.
Qed.

(** C5, where the code leaves it.  A refresh is due, and the provider
    refuses the grant: the token endpoint answers with a status other than
    200 and a body whose [error] is [invalid_grant], with a non-empty
    [error_description] that holds neither [invalid_grant] nor [revoked].
    The message of the error is built from the description alone, so the
    catch block does not recognise the signal: the principal is not revoked,
    no table changes, the one request is all that happened, and the call
    throws the refresh error (which the engine records as [refresh_failed])
    instead of [TOKEN_REVOKED]. *)
Theorem described_invalid_grant_is_not_revoked
        (user : VerifiedUser) (s : Store) (refresh : option string)
        (statusCode : Z) (data : TokenBody) (description : string) :
  still_fresh w user = false ->
  encryption.decrypt w (refresh_token user) = inr refresh ->
  token_endpoint w refresh = Reply statusCode (inr data) ->
  statusCode <> 200 ->
  body_error data = Some "invalid_grant" ->
  body_error_description data = Some description ->
  description <> EmptyString ->
  grant_is_invalid ("Token refresh failed: " ++ description) = false ->
  ensureFreshToken w user s
  = (inl (JsError ("Token refresh failed: " ++ description)),
     {| db := db s; trace := trace s ++ [EvTokenRequest refresh] |}).
Proof.
  intros Hdue Hdecrypt Hreply Hstatus Herror Hdescription Hshown Hunseen.
  assert (Hbody : refresh_and_store w user s
                  = (inl (JsError ("Token refresh failed: " ++ description)),
                     {| db := db s; trace := trace s ++ [EvTokenRequest refresh] |})).
  { unfold refresh_and_store, refreshToken.
    rewrite !bind_run, Hdecrypt. cbn [lift_exc fst snd].
    unfold emit. cbn [fst snd]. rewrite Hreply.
    apply Z.eqb_neq in Hstatus. rewrite Hstatus. cbn [negb].
    rewrite Hdescription. unfold js_or, truthy.
    destruct description as [|a rest]; [now contradiction Hshown|]. reflexivity. }
  unfold ensureFreshToken.
  rewrite Hdue, bind_run, try_catch_run, Hbody. cbn [fst snd].
  rewrite bind_run. cbn [lift_exc message_of fst snd]. now rewrite Hunseen.
Qed.

End OAuthFacts.

(* ================================================================== *)
(** * What processing one principal does to the tables *)
(* ================================================================== *)

Section ItemFacts.

Import oauthService migrationService Observe.

Variable w : World.
Variable cfg : Config.

Lemma only_touches_refl (P : string -> Prop) (us : list VerifiedUser) :
  only_touches P us us.
Proof. induction us; constructor; auto. Qed.

Lemma only_touches_map (P : string -> Prop) (f : VerifiedUser -> VerifiedUser)
      (us : list VerifiedUser) :
  (forall v, discord_id (f v) = discord_id v) ->
  (forall v, ~ P (discord_id v) -> f v = v) ->
  only_touches P us (map f us).
Proof. intros Hid Hoff. induction us; cbn; constructor; auto. Qed.

Lemma only_touches_trans (P : string -> Prop) (us us' us'' : list VerifiedUser) :
  only_touches P us us' -> only_touches P us' us'' -> only_touches P us us''.
Proof.
  intros H. revert us''. induction H as [|v v' us us' [Hid Hoff] _ IH]; intros us'' H2.
  - inversion H2. constructor.
  - inversion H2 as [|? v'' ? us3 [Hid' Hoff'] Hrest]; subst.
    constructor; [|now apply IH]. split; [congruence|].
    intros HP. pose proof (Hoff HP) as E. subst v'. auto.
Qed.

Lemma only_touches_weaken (P Q : string -> Prop) (us us' : list VerifiedUser) :
  (forall id, P id -> Q id) -> only_touches P us us' -> only_touches Q us us'.
Proof.
  intros HPQ H. induction H as [|v v' us us' [Hid Hoff] _ IH]; constructor; auto.
  split; auto.
Qed.

Lemma update_tokens_touch (id : string) (a r : option string) (t : Z) (us : list VerifiedUser) :
  only_touches (eq id) us (map (userQueries.update_tokens id a r t) us).
Proof.
  apply only_touches_map; intros v; unfold userQueries.update_tokens;
    destruct (String.eqb (discord_id v) id) eqn:E; auto.
  intros H. apply String.eqb_eq in E. now elim H.
Qed.

Lemma mark_revoked_touch (id : string) (t : Z) (us : list VerifiedUser) :
  only_touches (eq id) us (map (userQueries.mark_revoked id t) us).
Proof.
  apply only_touches_map; intros v; unfold userQueries.mark_revoked;
    destruct (String.eqb (discord_id v) id) eqn:E; auto.
  intros H. apply String.eqb_eq in E. now elim H.
Qed.

(** [ensureFreshToken] writes to the rows of its user only, and throws
    [Error] objects only. *)
Lemma ensureFreshToken_effect (user : VerifiedUser) (s : Store) :
  same_bookkeeping (db s) (db (snd (ensureFreshToken w user s)))
  /\ only_touches (eq (discord_id user)) (verified_users (db s))
                  (verified_users (db (snd (ensureFreshToken w user s))))
  /\ fst (ensureFreshToken w user s) <> inl JsUndefined.
Proof.
  unfold ensureFreshToken. destruct (still_fresh w user).
  - cbn. repeat split; auto using only_touches_refl. apply decrypt_throws_errors.
  - rewrite bind_run, try_catch_run.
    unfold refresh_and_store. rewrite bind_run.
    destruct (refreshToken_effect w (refresh_token user) s) as (Hdb & _ & Hun).
    destruct (refreshToken w (refresh_token user) s) as [[e|tokens] s1]; cbn [fst snd] in *.
    + destruct e as [m|]; [|congruence].
      rewrite bind_run. cbn [lift_exc message_of].
      destruct (grant_is_invalid m).
      * unfold userQueries.markTokenRevoked. rewrite bind_run. unfold query, throw.
        destruct (fault w (MarkTokenRevoked (discord_id user))); cbn; rewrite Hdb;
          repeat split; auto using only_touches_refl, mark_revoked_touch; discriminate.
      * cbn. rewrite Hdb. repeat split; auto using only_touches_refl. discriminate.
    + rewrite bind_run. unfold userQueries.updateTokens, query.
      destruct (fault w (UpdateTokens (discord_id user))) as [m|]; cbn [fst snd].
      * rewrite bind_run. cbn [lift_exc message_of].
        destruct (grant_is_invalid m).
        -- unfold userQueries.markTokenRevoked. rewrite bind_run. unfold query, throw.
           destruct (fault w (MarkTokenRevoked (discord_id user))); cbn; rewrite Hdb;
             repeat split; auto using only_touches_refl, mark_revoked_touch; discriminate.
        -- cbn. rewrite Hdb. repeat split; auto using only_touches_refl. discriminate.
      * cbn. rewrite Hdb. repeat split; auto using update_tokens_touch. discriminate.
Qed.

(** One join attempt leaves the tables alone, throws [Error] objects only,
    and returns one of three statuses. *)
Lemma join_attempt_effect (guildId id : string) (token : option string) (n : nat)
      (s : Store) :
  db (snd (join_attempt w guildId id token n s)) = db s
  /\ fst (join_attempt w guildId id token n s) <> inl JsUndefined
  /\ (forall v, fst (join_attempt w guildId id token n s) = inr v ->
                join_outcome (join_status v)).
Proof.
  unfold join_attempt, addUserToGuild, join_outcome. js_unfold. cbn.
  repeat split_match; cbn; repeat split; auto; try discriminate; try congruence;
    intros v [= <-]; cbn; auto.
Qed.

(** So does the whole retried join, except that without any attempt allowed
    it throws its uninitialised [lastError]. *)
Lemma join_retry_effect (guildId id : string) (token : option string)
      (remaining attempt : nat) (lastError : Thrown) (calls : list nat) (s : Store) :
  let run := Retry.attempts_from sleep (Math_random w id)
               (join_attempt w guildId id token) (join_retry_options cfg)
               remaining attempt lastError calls s in
  db (snd (fst run)) = db s
  /\ (fst (fst run) = inl JsUndefined -> lastError = JsUndefined /\ remaining = 0)
  /\ (forall v, fst (fst run) = inr v -> join_outcome (join_status v)).
Proof.
  revert attempt lastError calls s.
  induction remaining as [|remaining IH]; intros attempt lastError calls s; cbn.
  - split; auto. split; [intros [= ->]; auto | discriminate].
  - destruct (join_attempt_effect guildId id token attempt s) as (Hdb & Hun & Hout).
    destruct (join_attempt w guildId id token attempt s) as [[e|v] s1]; cbn [fst snd] in *.
    + destruct e as [m|]; [|congruence].
      destruct ((attempt =? retryAttempts cfg) || negb (String.eqb m "RATE_LIMITED")).
      * cbn. split; auto. split; discriminate.
      * unfold Retry.pause. cbn.
        match goal with
        | |- context [Retry.attempts_from _ _ _ _ remaining ?a ?e ?c ?s2] =>
            destruct (IH a e c s2) as (IHdb & IHun & IHout)
        end.
        split; [now rewrite IHdb|]. split; [|exact IHout].
        intros H. apply IHun in H. destruct H. discriminate.
    + cbn. split; auto. split; [discriminate|]. intros v' [= <-]. auto.
Qed.

(** The value thrown by the retried join is [undefined] only if no attempt
    is allowed at all. *)
Lemma join_retry_undefined (guildId id : string) (token : option string) (s : Store) :
  fst (Retry.retryWithBackoff sleep (Math_random w id)
         (join_attempt w guildId id token) (join_retry_options cfg) s) = inl JsUndefined ->
  retryAttempts cfg = 0.
Proof.
  unfold Retry.retryWithBackoff. intros H.
  now apply join_retry_effect in H.
Qed.

(** Writing the item-log row and returning its status, from tables that so
    far differ from [d0] in the rows of the user only. *)
Lemma log_then (rid : nat) (user : VerifiedUser) (status : string)
      (detail : option string) (k : JS string) (d0 : Database) (s : Store) :
  (forall s', fst (k s') = inr status /\ db (snd (k s')) = db s') ->
  (token_revoked user = false ->
   ~ (status = Constants.TOKEN_REVOKED /\ detail = Some "Token previously revoked")) ->
  same_bookkeeping d0 (db s) ->
  only_touches (eq (discord_id user)) (verified_users d0) (verified_users (db s)) ->
  item_effect rid user d0
    (fst ((userQueries.logMigrationUser w rid (discord_id user) status detail ;; k) s))
    (db (snd ((userQueries.logMigrationUser w rid (discord_id user) status detail ;; k) s))).
Proof.
  intros Hk Hdetail (Hruns & Hseq & Hlog & Haudit) Husers.
  rewrite bind_run. unfold userQueries.logMigrationUser, query.
  destruct (fault w (LogMigrationUser (discord_id user))) as [m|]; cbn [fst snd].
  - repeat split; auto.
  - match goal with |- context [k ?s1] => destruct (Hk s1) as (Hr & Hd) end.
    destruct (k _) as [r s2]; cbn [fst snd] in *. subst r. rewrite Hd. cbn.
    repeat split; auto.
    eexists. split; [now rewrite Hlog|]. cbn. auto.
Qed.

(** The tables after [processSingleUser], given its outcome. *)
Lemma processSingleUser_effect (user : VerifiedUser) (guildId : string) (rid : nat)
      (s : Store) :
  item_effect rid user (db s)
    (fst (processSingleUser w cfg user guildId rid s))
    (db (snd (processSingleUser w cfg user guildId rid s))).
Proof.
  assert (Hsame : same_bookkeeping (db s) (db s)) by (repeat split).
  assert (Hret : forall status (s' : Store),
             fst (@ret Store string status s') = inr status
             /\ db (snd (@ret Store string status s')) = db s')
    by (intros; split; reflexivity).
  unfold processSingleUser.
  destruct (manually_verified user && negb (truthy (access_token user))).
  { apply log_then; [apply Hret | | exact Hsame | apply only_touches_refl].
    intros _ [[=] _]. }
  destruct (token_revoked user) eqn:Hrev.
  { apply log_then; [apply Hret | | exact Hsame | apply only_touches_refl].
    congruence. }
  rewrite bind_run, try_catch_run.
  destruct (ensureFreshToken_effect user s) as (Hbk & Htouch & Hun).
  destruct (ensureFreshToken w user s) as [[err|token] s1]; cbn [fst snd] in *.
  - destruct err as [m|]; [|congruence].
    rewrite bind_run. cbn [lift_exc message_of].
    destruct (String.eqb m "TOKEN_REVOKED").
    + apply log_then; [apply Hret | | exact Hbk | exact Htouch].
      intros _ [_ [=]].
    + apply log_then; [apply Hret | | exact Hbk | exact Htouch].
      intros _ [[=] _].
  - rewrite bind_run. cbn [emit fst snd].
    rewrite bind_run.
    match goal with
    | |- context [Retry.retryWithBackoff ?sl ?rnd ?fn ?o ?s2] =>
        pose proof (join_retry_effect guildId (discord_id user) token
                      (Retry.maxAttempts o) 1 JsUndefined [] s2) as (Hdb & _ & Hout);
        change (fst (Retry.attempts_from sl rnd fn o (Retry.maxAttempts o) 1 JsUndefined [] s2))
          with (Retry.retryWithBackoff sl rnd fn o s2) in Hdb, Hout;
        destruct (Retry.retryWithBackoff sl rnd fn o s2) as [[e|result] s3]
    end; cbn [fst snd db] in *.
    + destruct Hbk as (? & ? & ? & ?). rewrite Hdb. repeat split; auto.
    + apply log_then.
      * intros s'. rewrite bind_run. cbn. auto.
      * intros _ [E _]. destruct (Hout _ eq_refl) as [H|[H|H]]; rewrite H in E; discriminate.
      * rewrite Hdb. exact Hbk.
      * now rewrite Hdb.
Qed.

End ItemFacts.

(* ================================================================== *)
(** * What the loop does to the tables and to the counters *)
(* ================================================================== *)

Section LoopFacts.

Import oauthService migrationService Observe.

Variable w : World.
Variable cfg : Config.

Lemma tally_counts (result : string) (user : VerifiedUser) (acc : Counts * list string) :
  tokenRevoked (fst (tally result user acc))
  = tokenRevoked (fst acc) + (if revoked_like result then 1 else 0)
  /\ tallied (fst (tally result user acc)) = S (tallied (fst acc))
  /\ total (fst (tally result user acc)) = total (fst acc).
Proof.
  destruct acc as [c f]. unfold tally, revoked_like, tallied.
  destruct (String.eqb result Constants.ADDED) eqn:E1;
    [apply String.eqb_eq in E1; subst; cbn; repeat split; lia|].
  destruct (String.eqb result Constants.ALREADY_IN) eqn:E2;
    [apply String.eqb_eq in E2; subst; cbn; repeat split; lia|].
  destruct (String.eqb result Constants.SKIPPED_MANUAL) eqn:E3;
    [apply String.eqb_eq in E3; subst; cbn; repeat split; lia|].
  destruct (String.eqb result Constants.TOKEN_REVOKED
            || String.eqb result Constants.REFRESH_FAILED); cbn; repeat split; lia.
Qed.

Lemma add_back_counts (c : Counts) (entry : string * string) :
  tokenRevoked (add_back c entry)
  = tokenRevoked c + (if revoked_like (snd entry) then 1 else 0)
  /\ tallied (add_back c entry) = S (tallied c)
  /\ total (add_back c entry) = total c.
Proof.
  unfold add_back, revoked_like, tallied.
  destruct (String.eqb (snd entry) Constants.ADDED) eqn:E1;
    [apply String.eqb_eq in E1; rewrite E1; cbn; repeat split; lia|].
  destruct (String.eqb (snd entry) Constants.ALREADY_IN) eqn:E2;
    [apply String.eqb_eq in E2; rewrite E2; cbn; repeat split; lia|].
  destruct (String.eqb (snd entry) Constants.SKIPPED_MANUAL) eqn:E3;
    [apply String.eqb_eq in E3; rewrite E3; cbn; repeat split; lia|].
  destruct (String.eqb (snd entry) Constants.TOKEN_REVOKED
            || String.eqb (snd entry) Constants.REFRESH_FAILED); cbn; repeat split; lia.
Qed.

Lemma sendProgressUpdate_effect (counts : Counts) (processed : nat) (s : Store) :
  fst (sendProgressUpdate w counts processed s) = inr tt
  /\ db (snd (sendProgressUpdate w counts processed s)) = db s.
Proof.
  unfold sendProgressUpdate.
  destruct (fault w (StatusMessageEdit processed)); cbn; auto.
Qed.

(** The loop over [users]: what it leaves in the tables, and how the
    counters it returns relate to the rows it has written. *)
Lemma processUsers_effect (guildId : string) (rid toProcess : nat)
      (users : list VerifiedUser) (processed : nat) (acc : Counts * list string)
      (s : Store) :
  let run := processUsers w cfg guildId rid toProcess users processed acc s in
  migration_runs (db (snd run)) = migration_runs (db s)
  /\ migration_runs_id_seq (db (snd run)) = migration_runs_id_seq (db s)
  /\ audit_log (db (snd run)) = audit_log (db s)
  /\ only_touches (fun id => In id (map discord_id users))
                  (verified_users (db s)) (verified_users (db (snd run)))
  /\ fst run <> inl JsUndefined
  /\ exists rows,
      migration_user_log (db (snd run)) = migration_user_log (db s) ++ rows
      /\ Forall (fun row => migration_run_id row = rid
                            /\ In (log_discord_id row) (map discord_id users)) rows
      /\ (NoDup (map discord_id users) -> NoDup (map log_discord_id rows))
      /\ (Forall (fun u => token_revoked u = false) users ->
          Forall (fun row => ~ precheck_row row) rows)
      /\ (forall acc', fst run = inr acc' ->
            tokenRevoked (fst acc')
            = tokenRevoked (fst acc) + count_revoked_like (map log_status rows)
            /\ tallied (fst acc') = tallied (fst acc) + length users
            /\ total (fst acc') = total (fst acc)).
Proof.
  revert processed acc s.
  induction users as [|user rest IH]; intros processed acc s; cbn zeta.
  - cbn [processUsers ret fst snd length map].
    split; [reflexivity|]. split; [reflexivity|]. split; [reflexivity|].
    split; [apply only_touches_refl|]. split; [discriminate|].
    exists []. rewrite app_nil_r.
    split; [reflexivity|]. split; [constructor|]. split; [constructor|].
    split; [constructor|].
    intros acc' [= <-]. cbn. repeat split; lia.
  - cbn [processUsers]. rewrite bind_run, try_catch_run.
    pose proof (processSingleUser_effect w cfg user guildId rid s)
      as (Hruns & Hseq & Haudit & Htouch & Hlog).
    destruct (processSingleUser w cfg user guildId rid s) as [outcome s1];
      cbn [fst snd] in *.
    (* the counters after the switch, or after the catch block *)
    set (step := match outcome with
                 | inr result => ret (tally result user acc)
                 | inl err =>
                     _ <- lift_exc (message_of err) ;;
                     ret (incr_failed (fst acc), snd acc ++ [discord_id user])
                 end).
    rewrite bind_run.
    assert (Hstep : snd (step s1) = s1
                    /\ fst (step s1) <> inl JsUndefined
                    /\ forall acc1, fst (step s1) = inr acc1 ->
                         tokenRevoked (fst acc1)
                         = tokenRevoked (fst acc)
                           + match outcome with
                             | inr result => if revoked_like result then 1 else 0
                             | inl _ => 0
                             end
                         /\ tallied (fst acc1) = S (tallied (fst acc))
                         /\ total (fst acc1) = total (fst acc)).
    { subst step. destruct outcome as [err|result].
      - destruct err as [m|]; cbn.
        + split; auto. split; [discriminate|]. intros acc1 [= <-]. cbn.
          unfold tallied. cbn. repeat split; lia.
        + split; auto. split; [discriminate|]. discriminate.
      - cbn. split; auto. split; [discriminate|]. intros acc1 [= <-].
        apply tally_counts. }
    destruct Hstep as (Hs1 & Hstep_un & Hstep).
    destruct (step s1) as [[e|acc1] s1'] eqn:Hrun; cbn [fst snd] in *; subst s1'.
    + (* the catch block itself threw *)
      split; [exact Hruns|]. split; [exact Hseq|]. split; [exact Haudit|].
      split.
      { eapply only_touches_weaken; [|exact Htouch]. intros id <-. now left. }
      split; [exact Hstep_un|].
      destruct outcome as [err|result]; [|subst step; discriminate].
      exists []. rewrite app_nil_r.
      split; [exact Hlog|]. split; [constructor|]. split; [constructor|].
      split; [constructor|]. discriminate.
    + rewrite bind_run.
      match goal with
      | |- context [match ?p s1 with pair _ _ => _ end] => set (progress := p)
      end.
      assert (Hprog : fst (progress s1) = inr tt /\ db (snd (progress s1)) = db s1).
      { subst progress. unfold progress_step.
        destruct (progress_due cfg (S processed) toProcess);
          [apply sendProgressUpdate_effect | cbn; auto]. }
      destruct Hprog as (Hp1 & Hp2). clearbody progress.
      destruct (progress s1) as [r s2]; cbn [fst snd] in Hp1, Hp2. subst r.
      specialize (IH (S processed) acc1 s2).
      cbn zeta in IH.
      destruct IH as (IHruns & IHseq & IHaudit & IHtouch & IHun & rows & IHlog & IHrows
                      & IHnodup & IHpre & IHcounts).
      rewrite Hp2 in *.
      split; [congruence|]. split; [congruence|]. split; [congruence|].
      split.
      { eapply only_touches_trans.
        - eapply only_touches_weaken; [|exact Htouch]. intros id <-. now left.
        - eapply only_touches_weaken; [|exact IHtouch]. intros id H. now right. }
      split; [exact IHun|].
      specialize (Hstep acc1 eq_refl). destruct Hstep as (Hrev1 & Htal1 & Htot1).
      destruct outcome as [err|result].
      * (* no row for this user *)
        exists rows. rewrite IHlog, Hlog.
        split; [reflexivity|]. split.
        { eapply Forall_impl; [|exact IHrows]. cbn. intros row [? ?]. auto. }
        split.
        { intros Hnd. apply IHnodup. now inversion Hnd. }
        split.
        { intros Hall. apply IHpre. now inversion Hall. }
        intros acc' Hacc'. destruct (IHcounts acc' Hacc') as (Hc1 & Hc2 & Hc3).
        cbn [length]. repeat split; lia.
      * destruct Hlog as (row & Hlog & Hrid & Hid & Hstatus & Hpre).
        exists (row :: rows). rewrite IHlog, Hlog, <- app_assoc.
        split; [reflexivity|]. split.
        { constructor; [split; [exact Hrid | left; now rewrite Hid]|].
          eapply Forall_impl; [|exact IHrows]. cbn. intros r [? ?]. auto. }
        split.
        { intros Hnd. inversion Hnd as [|? ? Hnotin Hnd']; subst. cbn.
          constructor; [|now apply IHnodup].
          rewrite Hid. intros Hin. apply Hnotin.
          apply in_map_iff in Hin. destruct Hin as (r & Hr & Hin).
          rewrite Forall_forall in IHrows. destruct (IHrows r Hin) as [_ H].
          now rewrite Hr in H. }
        split.
        { intros Hall. inversion Hall; subst. constructor; [auto|]. now apply IHpre. }
        intros acc' Hacc'. destruct (IHcounts acc' Hacc') as (Hc1 & Hc2 & Hc3).
        unfold count_revoked_like in *. cbn [map filter length].
        rewrite Hstatus. destruct (revoked_like result); cbn [length]; repeat split; lia.
Qed.

End LoopFacts.

(* ================================================================== *)
(** * What resolving and finalizing a run do to the tables *)
(* ================================================================== *)

Section EngineFacts.

Import oauthService migrationService Observe.

Variable w : World.
Variable cfg : Config.

Lemma channel_send_effect (title : string) (e : Event) (s : Store) :
  db (snd (channel_send w title e s)) = db s
  /\ fst (channel_send w title e s) <> inl JsUndefined.
Proof.
  unfold channel_send. destruct (fault w (ChannelSend title)); cbn; split; auto; discriminate.
Qed.

(** Steps 1 to 4: the users and the item log are only read; the run table
    keeps its rows and gains at most one, in state [running]; the run handed
    to the loop is in the table, and the users handed to it are the verified
    users not yet in the item log of that run. *)
Lemma resolve_effect (guildId initiatedBy : string) (s : Store) :
  let run := resolve w guildId initiatedBy s in
  verified_users (db (snd run)) = verified_users (db s)
  /\ migration_user_log (db (snd run)) = migration_user_log (db s)
  /\ (exists created,
        migration_runs (db (snd run)) = migration_runs (db s) ++ created
        /\ Forall (fun row => status row = "running"
                              /\ run_id row <= migration_runs_id_seq (db (snd run)))
                  created)
  /\ migration_runs_id_seq (db s) <= migration_runs_id_seq (db (snd run))
  /\ fst run <> inl JsUndefined
  /\ (forall r, fst run = inr r ->
        In (migrationRun r) (migration_runs (db (snd run)))
        /\ allUsers r = userQueries.select_all_verified (db s)
        /\ usersToProcess r
           = (if 0 <? JsMap.size (alreadyProcessed r)
              then filter (fun u => negb (JsMap.has (discord_id u) (alreadyProcessed r)))
                          (allUsers r)
              else allUsers r)
        /\ match userQueries.select_incomplete guildId (db s) with
           | Some existing =>
               migrationRun r = existing
               /\ alreadyProcessed r
                  = JsMap.of_entries (userQueries.select_processed (run_id existing) (db s))
               /\ migration_runs (db (snd run)) = migration_runs (db s)
           | None =>
               alreadyProcessed r = []
               /\ migration_runs (db (snd run)) = migration_runs (db s) ++ [migrationRun r]
               /\ run_id (migrationRun r) = S (migration_runs_id_seq (db s))
               /\ status (migrationRun r) = "running"
               /\ target_guild_id (migrationRun r) = guildId
           end).
Proof.
  cbn zeta. unfold resolve.
  destruct (guilds_cache w guildId) as [name|].
  2:{ cbn. repeat split; auto; try discriminate.
      exists []. rewrite app_nil_r. split; [reflexivity|constructor]. }
  unfold userQueries.getIncompleteMigrationRun, userQueries.getProcessedUsersForRun,
    userQueries.getAllVerifiedUsers, userQueries.createMigrationRun,
    userQueries.writeAuditLog, channel_send, query.
  js_unfold. destruct s as [d t]. cbn [db trace fst snd].
  assert (Hthrow : forall m (t' : list Event),
             let run := (@inl Thrown Resolved (JsError m), {| db := d; trace := t' |}) in
             verified_users (db (snd run)) = verified_users d
             /\ migration_user_log (db (snd run)) = migration_user_log d
             /\ (exists created,
                   migration_runs (db (snd run)) = migration_runs d ++ created
                   /\ Forall (fun row => status row = "running"
                                         /\ run_id row <= migration_runs_id_seq (db (snd run)))
                             created)
             /\ migration_runs_id_seq d <= migration_runs_id_seq (db (snd run))
             /\ fst run <> inl JsUndefined
             /\ (forall r, fst run = inr r ->
                   In (migrationRun r) (migration_runs (db (snd run)))
                   /\ allUsers r = userQueries.select_all_verified d
                   /\ usersToProcess r
                      = (if 0 <? JsMap.size (alreadyProcessed r)
                         then filter (fun u => negb (JsMap.has (discord_id u)
                                                               (alreadyProcessed r)))
                                     (allUsers r)
                         else allUsers r)
                   /\ match userQueries.select_incomplete guildId d with
                      | Some existing =>
                          migrationRun r = existing
                          /\ alreadyProcessed r
                             = JsMap.of_entries
                                 (userQueries.select_processed (run_id existing) d)
                          /\ migration_runs (db (snd run)) = migration_runs d
                      | None =>
                          alreadyProcessed r = []
                          /\ migration_runs (db (snd run))
                             = migration_runs d ++ [migrationRun r]
                          /\ run_id (migrationRun r) = S (migration_runs_id_seq d)
                          /\ status (migrationRun r) = "running"
                          /\ target_guild_id (migrationRun r) = guildId
                      end)).
  { intros m t'. cbn. repeat split; auto; try discriminate.
    exists []. rewrite app_nil_r. split; [reflexivity|constructor]. }
  destruct (fault w GetIncompleteMigrationRun); [apply Hthrow|].
  destruct (userQueries.select_incomplete guildId d) as [existing|] eqn:Hinc.
  - destruct (fault w GetProcessedUsersForRun); [apply Hthrow|].
    destruct (fault w (ChannelSend "🔄 Resuming Interrupted Migration")); [apply Hthrow|].
    destruct (fault w GetAllVerifiedUsers); [apply Hthrow|].
    cbn [fst snd db trace].
    destruct (length (userQueries.select_all_verified d) =? 0); [apply Hthrow|].
    destruct (fault w (WriteAuditLog "migration_start")); [apply Hthrow|].
    cbn [fst snd db trace].
    destruct (fault w (ChannelSend "🚀 Migration Started")).
    { cbn. repeat split; auto; try discriminate.
      exists []. rewrite app_nil_r. split; [reflexivity|constructor]. }
    cbn. split; auto. split; auto.
    split; [exists []; rewrite app_nil_r; split; [reflexivity|constructor]|].
    split; [auto|].
    split; [discriminate|]. intros r [= <-]. cbn.
    split.
    { unfold userQueries.select_incomplete, userQueries.latest_started in Hinc.
      assert (Hin : forall rows best r0,
                 fold_left (fun best r =>
                              match best with
                              | None => Some r
                              | Some b => if (started_at b <? started_at r)%Z then Some r else Some b
                              end) rows best = Some r0 ->
                 In r0 rows \/ best = Some r0).
      { induction rows as [|x rows IHrows]; cbn; intros best r0 H; auto.
        apply IHrows in H. destruct H as [H|H]; auto.
        destruct best as [b|]; [destruct (started_at b <? started_at x)%Z|]; inversion H; auto. }
      apply Hin in Hinc. destruct Hinc as [H|H]; [|discriminate].
      apply filter_In in H. tauto. }
    repeat split; auto.
  - destruct (fault w GetAllVerifiedUsers); [apply Hthrow|].
    cbn [fst snd db trace].
    destruct (length (userQueries.select_all_verified d) =? 0); [apply Hthrow|].
    destruct (fault w CreateMigrationRun); [apply Hthrow|].
    cbn [fst snd db trace].
    assert (Hcreated : forall row seq,
               status row = "running" -> run_id row = seq ->
               Forall (fun r => status r = "running" /\ run_id r <= seq) [row]).
    { intros row seq H1 H2. constructor; [split; [exact H1 | lia]|constructor]. }
    destruct (fault w (WriteAuditLog "migration_start")).
    { cbn. repeat split; auto; try discriminate.
      eexists [_]. split; [reflexivity|]. now apply Hcreated. }
    cbn [fst snd db trace].
    destruct (fault w (ChannelSend "🚀 Migration Started")).
    { cbn. repeat split; auto; try discriminate.
      eexists [_]. split; [reflexivity|]. now apply Hcreated. }
    cbn. split; auto. split; auto.
    split; [eexists [_]; split; [reflexivity|]; now apply Hcreated|].
    split; [auto|].
    split; [discriminate|]. intros r [= <-]. cbn.
    split; [apply in_or_app; right; now left|].
    repeat split; auto.
Qed.

(** Step 6: the users and the item log are not written; the rows of the run
    are completed with the merged counts as soon as [completeMigrationRun]
    goes through; no row is marked [failed]. *)
Lemma finalize_effect (guildId initiatedBy : string) (r : Resolved)
      (acc : Counts * list string) (s : Store) :
  let run := finalize w guildId initiatedBy r acc s in
  verified_users (db (snd run)) = verified_users (db s)
  /\ migration_user_log (db (snd run)) = migration_user_log (db s)
  /\ migration_runs_id_seq (db (snd run)) = migration_runs_id_seq (db s)
  /\ fst run <> inl JsUndefined
  /\ match fault w CompleteMigrationRun with
     | Some _ => migration_runs (db (snd run)) = migration_runs (db s)
     | None =>
         migration_runs (db (snd run))
         = map (userQueries.complete_run (run_id (migrationRun r))
                  (sql_now w CompleteMigrationRun)
                  (merged_counts (fst acc) (alreadyProcessed r)))
               (migration_runs (db s))
     end.
Proof.
  cbn zeta. unfold finalize.
  unfold userQueries.completeMigrationRun, userQueries.writeAuditLog, channel_send, query.
  js_unfold. destruct s as [d t]. cbn [db trace fst snd].
  destruct (fault w CompleteMigrationRun).
  { cbn. repeat split; auto; discriminate. }
  cbn [fst snd db trace].
  destruct (fault w (WriteAuditLog "migration_complete")).
  { cbn. repeat split; auto; discriminate. }
  cbn [fst snd db trace].
  destruct (fault w (ChannelSend "✅ Migration Complete")).
  { cbn. repeat split; auto; discriminate. }
  cbn [fst snd db trace].
  destruct ((0 <? length (snd acc)) && (length (snd acc) <=? 50)).
  { destruct (fault w (ChannelSend "❌ Failed Users")); cbn; repeat split; auto; discriminate. }
  destruct (50 <? length (snd acc)).
  { destruct (fault w (ChannelSend "❌ Failed Users")); cbn; repeat split; auto; discriminate. }
  cbn. repeat split; auto; discriminate.
Qed.

End EngineFacts.

(* ================================================================== *)
(** * The engine as a whole *)
(* ================================================================== *)

Section RunFacts.

Import oauthService migrationService Observe.

Variable w : World.
Variable cfg : Config.

(** The three phases of [executeMigration], with the stores between them. *)
Lemma executeMigration_phases (guildId initiatedBy : string) (s : Store) :
  executeMigration w cfg guildId initiatedBy s
  = match resolve w guildId initiatedBy s with
    | (inl e, s1) => (inl e, s1)
    | (inr r, s1) =>
        match process w cfg guildId r s1 with
        | (inl e, s2) => (inl e, s2)
        | (inr acc, s2) => finalize w guildId initiatedBy r acc s2
        end
    end.
Proof.
  unfold executeMigration. rewrite bind_run.
  destruct (resolve w guildId initiatedBy s) as [[e|r] s1]; [reflexivity|].
  now rewrite bind_run.
Qed.

Lemma complete_run_not_failed (rid : nat) (now : Z) (counts : Counts) (row : MigrationRun) :
  status (userQueries.complete_run rid now counts row) = "failed" ->
  userQueries.complete_run rid now counts row = row.
Proof.
  unfold userQueries.complete_run. destruct (run_id row =? rid); [discriminate|reflexivity].
Qed.

(** Whatever happens, [executeMigration] only appends to the item log, marks
    no run as failed, and throws [Error] objects only. *)
Lemma executeMigration_effect (guildId initiatedBy : string) (s : Store) :
  let out := executeMigration w cfg guildId initiatedBy s in
  (exists rows, migration_user_log (db (snd out)) = migration_user_log (db s) ++ rows)
  /\ (forall run, In run (migration_runs (db (snd out))) -> status run = "failed" ->
                  In run (migration_runs (db s)))
  /\ fst out <> inl JsUndefined.
Proof.
  cbn zeta. rewrite executeMigration_phases.
  pose proof (resolve_effect w guildId initiatedBy s) as Hres. cbn zeta in Hres.
  destruct Hres as (_ & Hlog1 & (created & Hruns1 & Hcreated) & _ & Hun1 & _).
  assert (Hold : forall run, In run (migration_runs (db s) ++ created) ->
                             status run = "failed" -> In run (migration_runs (db s))).
  { intros run Hin Hst. apply in_app_or in Hin. destruct Hin as [H|H]; [exact H|].
    rewrite Forall_forall in Hcreated. apply Hcreated in H. destruct H. congruence. }
  destruct (resolve w guildId initiatedBy s) as [[e|r] s1]; cbn [fst snd] in *.
  { split; [exists []; now rewrite app_nil_r, Hlog1|]. split; [|congruence].
    rewrite Hruns1. exact Hold. }
  unfold process.
  pose proof (processUsers_effect w cfg guildId (run_id (migrationRun r))
                (length (usersToProcess r)) (usersToProcess r) 0
                (initial_counts (length (usersToProcess r)), []) s1) as Hloop.
  cbn zeta in Hloop.
  destruct Hloop as (Hruns2 & _ & _ & _ & Hun2 & rows & Hlog2 & _).
  destruct (processUsers _ _ _ _ _ _ _ _ s1) as [[e|acc] s2]; cbn [fst snd] in *.
  { split; [exists rows; now rewrite Hlog2, Hlog1|]. split; [|congruence].
    rewrite Hruns2, Hruns1. exact Hold. }
  pose proof (finalize_effect w guildId initiatedBy r acc s2) as Hfin. cbn zeta in Hfin.
  destruct Hfin as (_ & Hlog3 & _ & Hun3 & Hruns3).
  split; [exists rows; now rewrite Hlog3, Hlog2, Hlog1|]. split; [|exact Hun3].
  intros run Hin Hst. apply Hold; [|exact Hst]. rewrite <- Hruns1, <- Hruns2.
  destruct (fault w CompleteMigrationRun); [now rewrite <- Hruns3|].
  rewrite Hruns3 in Hin. apply in_map_iff in Hin. destruct Hin as (row & Heq & Hin).
  subst run. now rewrite (complete_run_not_failed _ _ _ _ Hst).
Qed.

(** C7 (as the code has it).  An exception that escapes [executeMigration]
    is caught by the [?pull] handler, which answers with the message of the
    error and returns normally.  [failMigrationRun] is never invoked: whatever
    happens in the command, no run is newly marked [failed] (an aborted run
    keeps the status it had, [running] unless it had been completed), and the
    item log keeps every entry it had, in place. *)
Theorem engine_error_is_reported_not_recorded
        (authorId : string) (args : list string) (s : Store) :
  let out := messageCreate.pull w cfg authorId args s in
  (exists rows, migration_user_log (db (snd out)) = migration_user_log (db s) ++ rows)
  /\ (forall run, In run (migration_runs (db (snd out))) -> status run = "failed" ->
                  In run (migration_runs (db s)))
  /\ (forall targetGuildId rest err s1,
        existsb (String.eqb authorId) (ownerIds cfg) = true ->
        args = targetGuildId :: rest ->
        messageCreate.is_snowflake targetGuildId = true ->
        executeMigration w cfg targetGuildId authorId s = (inl err, s1) ->
        exists message,
          err = JsError message
          /\ fst out = inr tt
          /\ db (snd out) = db s1
          /\ trace (snd out)
             = trace s1 ++ match fault w MessageReply with
                           | Some _ => []
                           | None => [EvReply ("❌ **Migration failed:** " ++ message)]
                           end).
Proof.
  cbn zeta.
  assert (Hreply : forall text s', db (snd (messageCreate.reply w text s')) = db s').
  { intros text s'. unfold messageCreate.reply. now destruct (fault w MessageReply). }
  assert (Hkeep : (exists rows, migration_user_log (db (snd (messageCreate.pull w cfg authorId args s)))
                                = migration_user_log (db s) ++ rows)
                  /\ (forall run,
                        In run (migration_runs (db (snd (messageCreate.pull w cfg authorId args s)))) ->
                        status run = "failed" -> In run (migration_runs (db s)))).
  { assert (Hnone : (exists rows, migration_user_log (db s) = migration_user_log (db s) ++ rows)
                    /\ (forall run, In run (migration_runs (db s)) -> status run = "failed" ->
                                    In run (migration_runs (db s)))).
    { split; [exists []; now rewrite app_nil_r | auto]. }
    unfold messageCreate.pull.
    destruct (existsb (String.eqb authorId) (ownerIds cfg)); cbn [negb]; [|exact Hnone].
    destruct args as [|targetGuildId rest]; [now rewrite Hreply|].
    destruct (messageCreate.is_snowflake targetGuildId); cbn [negb]; [|now rewrite Hreply].
    rewrite bind_run, try_catch_run.
    pose proof (executeMigration_effect targetGuildId authorId s) as Heff.
    cbn zeta in Heff. destruct Heff as (Hlog & Hruns & Hun).
    destruct (executeMigration w cfg targetGuildId authorId s) as [[err|[]] s1];
      cbn [fst snd] in *; [|split; assumption].
    destruct err as [message|]; [|congruence].
    rewrite bind_run. cbn [lift_exc message_of].
    rewrite bind_run, try_catch_run. cbn [fst snd ret]. rewrite Hreply.
    split; assumption. }
  destruct Hkeep as (Hlog & Hruns).
  split; [exact Hlog|]. split; [exact Hruns|].
  intros targetGuildId rest err s1 Howner -> Hsnow Hexec.
  pose proof (executeMigration_effect targetGuildId authorId s) as Heff.
  cbn zeta in Heff. destruct Heff as (_ & _ & Hun). rewrite Hexec in Hun. cbn in Hun.
  destruct err as [message|]; [|congruence].
  exists message. split; [reflexivity|].
  unfold messageCreate.pull. rewrite Howner, Hsnow. cbn [negb].
  rewrite bind_run, try_catch_run, Hexec. cbn [fst snd].
  rewrite bind_run. cbn [lift_exc message_of].
  rewrite bind_run, try_catch_run. unfold messageCreate.reply.
  destruct (fault w MessageReply); cbn; rewrite ?app_nil_r; auto.
Qed.

End RunFacts.

(* ================================================================== *)
(** * The candidates and the counters *)
(* ================================================================== *)

Section CandidateFacts.

Import oauthService migrationService Observe.

Variable w : World.
Variable cfg : Config.

Lemma insert_by_verified_at_perm (u : VerifiedUser) (sorted : list VerifiedUser) :
  Permutation (userQueries.insert_by_verified_at u sorted) (u :: sorted).
Proof.
  induction sorted as [|v rest IH]; cbn; [reflexivity|].
  destruct (verified_at v <=? verified_at u)%Z; [|reflexivity].
  rewrite IH. apply perm_swap.
Qed.

Lemma order_by_verified_at_perm (rows : list VerifiedUser) :
  Permutation (userQueries.order_by_verified_at rows) rows.
Proof.
  unfold userQueries.order_by_verified_at.
  assert (H : forall acc, Permutation
                            (fold_left (fun sorted u => userQueries.insert_by_verified_at u sorted)
                                       rows acc)
                            (rows ++ acc)).
  { induction rows as [|u rows IH]; intros acc; cbn; [reflexivity|].
    rewrite IH, insert_by_verified_at_perm. symmetry. apply Permutation_middle. }
  rewrite H. now rewrite app_nil_r.
Qed.

(** The candidate provider returns exactly the rows whose [token_revoked]
    flag is clear. *)
Lemma select_all_verified_spec (d : Database) (u : VerifiedUser) :
  In u (userQueries.select_all_verified d)
  <-> In u (verified_users d) /\ token_revoked u = false.
Proof.
  unfold userQueries.select_all_verified. split.
  - intros H. apply (Permutation_in _ (order_by_verified_at_perm _)) in H.
    apply filter_In in H. destruct H as [H1 H2]. split; [exact H1|].
    now destruct (token_revoked u).
  - intros [H1 H2].
    apply (Permutation_in _ (Permutation_sym (order_by_verified_at_perm _))).
    apply filter_In. split; [exact H1|]. now rewrite H2.
Qed.

Lemma usersToProcess_candidates (guildId initiatedBy : string) (s : Store)
      (r : Resolved) (s1 : Store) :
  resolve w guildId initiatedBy s = (inr r, s1) ->
  Forall (fun u => token_revoked u = false /\ In u (verified_users (db s)))
         (usersToProcess r).
Proof.
  intros Hres.
  pose proof (resolve_effect w guildId initiatedBy s) as H. cbn zeta in H.
  rewrite Hres in H. cbn [fst snd] in H.
  destruct H as (_ & _ & _ & _ & _ & H). destruct (H r eq_refl) as (_ & Hall & Hproc & _).
  apply Forall_forall. intros u Hu. rewrite Hproc in Hu.
  assert (Hin : In u (allUsers r)).
  { destruct (0 <? JsMap.size (alreadyProcessed r)); [|exact Hu].
    apply filter_In in Hu. tauto. }
  rewrite Hall in Hin. apply select_all_verified_spec in Hin. tauto.
Qed.

(** C9.  The candidate provider [getAllVerifiedUsers] returns exactly the
    stored principals with [token_revoked = FALSE].  Hence every principal
    that [executeMigration] hands to [processSingleUser] has the flag clear,
    the pre-check branch for an already revoked principal is never taken (no
    row of the item log comes from it), every row a run adds to the item log
    belongs to a principal that was not revoked when the run started, and,
    ids being unique, a principal revoked at that time gets no row at all. *)
Theorem revoked_principals_are_never_candidates (guildId initiatedBy : string) (s : Store) :
  (forall u, In u (userQueries.select_all_verified (db s))
             <-> In u (verified_users (db s)) /\ token_revoked u = false)
  /\ (forall r s1, resolve w guildId initiatedBy s = (inr r, s1) ->
        Forall (fun u => token_revoked u = false /\ In u (verified_users (db s)))
               (usersToProcess r))
  /\ exists rows,
      migration_user_log (db (snd (executeMigration w cfg guildId initiatedBy s)))
      = migration_user_log (db s) ++ rows
      /\ Forall (fun row => ~ precheck_row row) rows
      /\ Forall (fun row => exists u, In u (verified_users (db s))
                                      /\ token_revoked u = false
                                      /\ discord_id u = log_discord_id row) rows
      /\ (NoDup (map discord_id (verified_users (db s))) ->
          forall v, In v (verified_users (db s)) -> token_revoked v = true ->
                    Forall (fun row => log_discord_id row <> discord_id v) rows).
Proof.
  split; [apply select_all_verified_spec|].
  split; [apply usersToProcess_candidates|].
  assert (Hunique : forall rows,
             Forall (fun row => exists u, In u (verified_users (db s))
                                          /\ token_revoked u = false
                                          /\ discord_id u = log_discord_id row) rows ->
             NoDup (map discord_id (verified_users (db s))) ->
             forall v, In v (verified_users (db s)) -> token_revoked v = true ->
                       Forall (fun row => log_discord_id row <> discord_id v) rows).
  { intros rows Hrows Hnd v Hv Hrev. eapply Forall_impl; [|exact Hrows].
    cbn. intros row (u & Hu & Hclear & Hid) Heq.
    assert (u = v); [|congruence].
    clear - Hnd Hu Hv Hid Heq. rewrite <- Hid in Heq.
    induction (verified_users (db s)) as [|x xs IH]; [contradiction|].
    cbn in Hnd. inversion Hnd as [|? ? Hnot Hnd']; subst.
    destruct Hu as [->|Hu], Hv as [->|Hv]; auto.
    - exfalso. apply Hnot. rewrite Heq. now apply in_map.
    - exfalso. apply Hnot. rewrite <- Heq. now apply in_map. }
  rewrite executeMigration_phases.
  pose proof (resolve_effect w guildId initiatedBy s) as Hres. cbn zeta in Hres.
  destruct Hres as (_ & Hlog1 & _).
  pose proof (usersToProcess_candidates guildId initiatedBy s) as Hcand.
  destruct (resolve w guildId initiatedBy s) as [[e|r] s1]; cbn [fst snd] in *.
  { exists []. rewrite app_nil_r. split; [exact Hlog1|].
    split; [constructor|]. split; [constructor|]. intros; constructor. }
  specialize (Hcand r s1 eq_refl).
  unfold process.
  pose proof (processUsers_effect w cfg guildId (run_id (migrationRun r))
                (length (usersToProcess r)) (usersToProcess r) 0
                (initial_counts (length (usersToProcess r)), []) s1) as Hloop.
  cbn zeta in Hloop.
  destruct Hloop as (_ & _ & _ & _ & _ & rows & Hlog2 & Hrows & _ & Hpre & _).
  assert (Hfrom : Forall (fun row => exists u, In u (verified_users (db s))
                                               /\ token_revoked u = false
                                               /\ discord_id u = log_discord_id row) rows).
  { eapply Forall_impl; [|exact Hrows]. cbn. intros row [_ Hin].
    apply in_map_iff in Hin. destruct Hin as (u & Hid & Hu).
    rewrite Forall_forall in Hcand. destruct (Hcand u Hu). eauto. }
  assert (Hclear : Forall (fun row => ~ precheck_row row) rows).
  { apply Hpre. eapply Forall_impl; [|exact Hcand]. cbn. tauto. }
  destruct (processUsers _ _ _ _ _ _ _ _ s1) as [[e|acc] s2]; cbn [fst snd] in *.
  { exists rows. rewrite Hlog2, Hlog1. auto. }
  pose proof (finalize_effect w guildId initiatedBy r acc s2) as Hfin. cbn zeta in Hfin.
  destruct Hfin as (_ & Hlog3 & _).
  exists rows. rewrite Hlog3, Hlog2, Hlog1. auto.
Qed.

Lemma fold_add_back (already : JsMap.t) (c : Counts) :
  tokenRevoked (fold_left add_back already c)
  = tokenRevoked c + count_revoked_like (map snd already)
  /\ tallied (fold_left add_back already c) = tallied c + length already
  /\ total (fold_left add_back already c) = total c.
Proof.
  revert c. induction already as [|entry rest IH]; intros c; cbn [fold_left].
  - unfold count_revoked_like. cbn. repeat split; lia.
  - destruct (IH (add_back c entry)) as (H1 & H2 & H3).
    destruct (add_back_counts c entry) as (A1 & A2 & A3).
    rewrite H1, H2, H3, A1, A2, A3.
    unfold count_revoked_like. cbn [map filter length].
    destruct (revoked_like (snd entry)); cbn [length]; repeat split; lia.
Qed.

Lemma merged_counts_spec (c : Counts) (already : JsMap.t) :
  tokenRevoked (merged_counts c already)
  = tokenRevoked c + count_revoked_like (map snd already)
  /\ tallied (merged_counts c already) = tallied c + JsMap.size already.
Proof.
  unfold merged_counts, JsMap.size.
  destruct already as [|entry rest]; [cbn; unfold count_revoked_like; cbn; lia|].
  cbn [length Nat.ltb Nat.leb].
  destruct (fold_add_back (entry :: rest) c) as (H1 & H2 & _). auto.
Qed.

(** C10.  An outcome [refresh_failed] is tallied exactly like [token_revoked]:
    by the switch of the loop and by the switch that adds back the item log
    of a resumed run, both increment [tokenRevoked] and nothing else.  So when
    the loop has run to its end and [completeMigrationRun] goes through, the
    run is stored as [completed] with a [token_revoked_count] that is the
    number of entries [token_revoked] or [refresh_failed], of the resumed
    item log and of the rows written by this pass together; and the stored
    counters are five (added, already-in, failed, skipped-manual,
    token-revoked), which together account for every processed principal:
    there is no separate count of refresh failures. *)
Theorem refresh_failed_is_counted_as_token_revoked
        (guildId initiatedBy : string) (s : Store) :
  (forall user acc,
     tally Constants.REFRESH_FAILED user acc = (incr_tokenRevoked (fst acc), snd acc)
     /\ tally Constants.TOKEN_REVOKED user acc = (incr_tokenRevoked (fst acc), snd acc))
  /\ (forall counts id,
        add_back counts (id, Constants.REFRESH_FAILED) = incr_tokenRevoked counts
        /\ add_back counts (id, Constants.TOKEN_REVOKED) = incr_tokenRevoked counts)
  /\ (forall r s1 acc s2,
        resolve w guildId initiatedBy s = (inr r, s1) ->
        process w cfg guildId r s1 = (inr acc, s2) ->
        fault w CompleteMigrationRun = None ->
        exists rows,
          migration_user_log (db (snd (executeMigration w cfg guildId initiatedBy s)))
          = migration_user_log (db s) ++ rows
          /\ (exists run,
                In run (migration_runs
                          (db (snd (executeMigration w cfg guildId initiatedBy s))))
                /\ run_id run = run_id (migrationRun r))
          /\ forall run,
              In run (migration_runs
                        (db (snd (executeMigration w cfg guildId initiatedBy s)))) ->
              run_id run = run_id (migrationRun r) ->
              status run = "completed"
              /\ token_revoked_count run
                 = count_revoked_like (map snd (alreadyProcessed r))
                   + count_revoked_like (map log_status rows)
              /\ added_count run + already_in_count run + failed_count run
                 + skipped_manual run + token_revoked_count run
                 = JsMap.size (alreadyProcessed r) + length (usersToProcess r)).
Proof.
  split; [intros user [c f]; split; reflexivity|].
  split; [intros counts id; split; reflexivity|].
  intros r s1 acc s2 Hres Hproc Hok.
  rewrite executeMigration_phases, Hres, Hproc.
  pose proof (resolve_effect w guildId initiatedBy s) as Hr. cbn zeta in Hr.
  rewrite Hres in Hr. cbn [fst snd] in Hr.
  destruct Hr as (_ & Hlog1 & _ & _ & _ & Hr). destruct (Hr r eq_refl) as (Hin & _).
  pose proof (processUsers_effect w cfg guildId (run_id (migrationRun r))
                (length (usersToProcess r)) (usersToProcess r) 0
                (initial_counts (length (usersToProcess r)), []) s1) as Hloop.
  cbn zeta in Hloop. unfold process in Hproc. rewrite Hproc in Hloop. cbn [fst snd] in Hloop.
  destruct Hloop as (Hruns2 & _ & _ & _ & _ & rows & Hlog2 & _ & _ & _ & Hcounts).
  destruct (Hcounts acc eq_refl) as (Hrev & Htal & _).
  pose proof (finalize_effect w guildId initiatedBy r acc s2) as Hfin. cbn zeta in Hfin.
  rewrite Hok in Hfin. destruct Hfin as (_ & Hlog3 & _ & _ & Hruns3).
  destruct (merged_counts_spec (fst acc) (alreadyProcessed r)) as (Hm1 & Hm2).
  exists rows. split; [now rewrite Hlog3, Hlog2, Hlog1|].
  rewrite Hruns3, Hruns2. split.
  - exists (userQueries.complete_run (run_id (migrationRun r))
              (sql_now w CompleteMigrationRun)
              (merged_counts (fst acc) (alreadyProcessed r)) (migrationRun r)).
    split; [now apply in_map|].
    unfold userQueries.complete_run. now destruct (run_id (migrationRun r) =? _).
  - intros run Hrun Hid. apply in_map_iff in Hrun. destruct Hrun as (row & <- & _).
    unfold userQueries.complete_run in *.
    destruct (run_id row =? run_id (migrationRun r)) eqn:E.
    + cbn. split; [reflexivity|]. split.
      * rewrite Hm1, Hrev. cbn. lia.
      * unfold tallied in Hm2, Htal. cbn in Htal. lia.
    + apply Nat.eqb_neq in E. contradiction.
Qed.

End CandidateFacts.

(* ================================================================== *)
(** * Runs in which nothing fails *)
(* ================================================================== *)

Section HappyPath.

Import oauthService migrationService Observe.

Variable w : World.
Variable cfg : Config.

Hypothesis no_fault : forall op, fault w op = None.

Lemma query_ok (A : Type) (op : Op) (run : Database -> A * Database) (s : Store) :
  query w op run s = (inr (fst (run (db s))), {| db := snd (run (db s)); trace := trace s |}).
Proof. unfold query. rewrite no_fault. now destruct (run (db s)). Qed.

(** A manually verified principal without a token is logged as skipped,
    without any request. *)
Lemma processSingleUser_skips (user : VerifiedUser) (guildId : string) (rid : nat)
      (s : Store) :
  manually_verified user = true -> truthy (access_token user) = false ->
  processSingleUser w cfg user guildId rid s
  = (inr Constants.SKIPPED_MANUAL,
     {| db := userQueries.set_user_log (db s)
                (migration_user_log (db s) ++
                 [{| migration_run_id := rid;
                     log_discord_id := discord_id user;
                     log_status := Constants.SKIPPED_MANUAL;
                     log_error_message := Some "No OAuth tokens — manually verified only";
                     attempted_at := sql_now w (LogMigrationUser (discord_id user)) |}]);
        trace := trace s |}).
Proof.
  intros Hmanual Hnone. unfold processSingleUser. rewrite Hmanual, Hnone. cbn [andb negb].
  rewrite bind_run. unfold userQueries.logMigrationUser. rewrite query_ok. reflexivity.
Qed.

(** A principal whose token is still fresh and decrypts, and whose first
    join attempt is answered with 201, is added and logged as such. *)
Lemma processSingleUser_adds (user : VerifiedUser) (guildId : string) (rid : nat)
      (token : option string) (body : string + MemberBody) (s : Store) :
  manually_verified user && negb (truthy (access_token user)) = false ->
  token_revoked user = false ->
  still_fresh w user = true ->
  encryption.decrypt w (access_token user) = inr token ->
  1 <= retryAttempts cfg ->
  members_endpoint w guildId (discord_id user) 1 = Reply 201 body ->
  processSingleUser w cfg user guildId rid s
  = (inr Constants.ADDED,
     {| db := userQueries.set_user_log (db s)
                (migration_user_log (db s) ++
                 [{| migration_run_id := rid;
                     log_discord_id := discord_id user;
                     log_status := Constants.ADDED;
                     log_error_message := None;
                     attempted_at := sql_now w (LogMigrationUser (discord_id user)) |}]);
        trace := trace s ++ [EvAcquire;
                             EvMemberPut guildId (discord_id user) token;
                             EvSleep Constants.GUILD_JOIN_DELAY_MS] |}).
Proof.
  intros Hmanual Hrevoked Hfresh Hdecrypts Hattempts Hjoin.
  unfold processSingleUser. rewrite Hmanual, Hrevoked.
  rewrite bind_run, try_catch_run. unfold ensureFreshToken. rewrite Hfresh.
  unfold lift_exc at 1. rewrite Hdecrypts. cbn [ret fst snd]. rewrite bind_run. cbn [emit].
  rewrite bind_run. unfold Retry.retryWithBackoff.
  cbn [Retry.maxAttempts join_retry_options].
  destruct (retryAttempts cfg) as [|n]; [lia|].
  cbn [Retry.attempts_from].
  unfold join_attempt at 1. rewrite bind_run. unfold addUserToGuild. rewrite bind_run.
  cbn [emit db trace]. rewrite Hjoin. cbn.
  unfold userQueries.logMigrationUser. rewrite bind_run, query_ok. cbn.
  unfold ret, sleep. cbn [db trace]. now rewrite <- !app_assoc.
Qed.

Lemma channel_send_ok (title : string) (e : Event) (s : Store) :
  channel_send w title e s = (inr tt, {| db := db s; trace := trace s ++ [e] |}).
Proof. unfold channel_send. now rewrite no_fault. Qed.

Lemma sendProgressUpdate_ok (counts : Counts) (processed : nat) (s : Store) :
  sendProgressUpdate w counts processed s
  = (inr tt, {| db := db s;
                trace := trace s ++ [EvProgress processed
                                                (percentage processed (total counts))
                                                counts] |}).
Proof. unfold sendProgressUpdate. now rewrite no_fault. Qed.

(** Steps 1 to 4 when the guild has no running run. *)
Lemma resolve_new_run (guildId initiatedBy name : string) (s : Store) :
  guilds_cache w guildId = Some name ->
  userQueries.select_incomplete guildId (db s) = None ->
  userQueries.select_all_verified (db s) <> [] ->
  let users := userQueries.select_all_verified (db s) in
  let run := {| run_id := S (migration_runs_id_seq (db s));
                target_guild_id := guildId;
                initiated_by := initiatedBy;
                started_at := sql_now w CreateMigrationRun;
                completed_at := None;
                total_users := length users;
                added_count := 0;
                already_in_count := 0;
                failed_count := 0;
                skipped_manual := 0;
                token_revoked_count := 0;
                status := "running";
                error_message := None |} in
  resolve w guildId initiatedBy s
  = (inr {| migrationRun := run; alreadyProcessed := [];
            allUsers := users; usersToProcess := users |},
     {| db := {| verified_users := verified_users (db s);
                 migration_runs := migration_runs (db s) ++ [run];
                 migration_runs_id_seq := S (migration_runs_id_seq (db s));
                 migration_user_log := migration_user_log (db s);
                 audit_log := audit_log (db s)
                              ++ [{| audit_action := "migration_start";
                                     actor_id := initiatedBy;
                                     target_id := guildId;
                                     audit_run_id := S (migration_runs_id_seq (db s)) |}] |};
        trace := trace s ++ [EvStartNotice (length users) (length users)
                                           (S (migration_runs_id_seq (db s)))] |}).
Proof.
  intros Hguild Hnone Hsome. cbn zeta. unfold resolve. rewrite Hguild.
  unfold userQueries.getIncompleteMigrationRun, userQueries.getAllVerifiedUsers,
    userQueries.createMigrationRun, userQueries.writeAuditLog.
  rewrite bind_run, query_ok. cbn [fst snd db trace]. rewrite Hnone.
  rewrite bind_run. cbn [ret]. rewrite bind_run, query_ok. cbn [fst snd db trace].
  destruct (userQueries.select_all_verified (db s)) as [|u us] eqn:Husers; [congruence|].
  cbn [length Nat.eqb].
  rewrite bind_run, query_ok. cbn [fst snd db trace].
  rewrite bind_run, query_ok. cbn [fst snd db trace].
  rewrite bind_run, channel_send_ok. cbn [JsMap.size length Nat.ltb Nat.leb]. cbn.
  reflexivity.
Qed.

(** Step 6. *)
Lemma finalize_ok (guildId initiatedBy : string) (r : Resolved)
      (acc : Counts * list string) (s : Store) :
  fst (finalize w guildId initiatedBy r acc s) = inr tt
  /\ migration_user_log (db (snd (finalize w guildId initiatedBy r acc s)))
     = migration_user_log (db s)
  /\ migration_runs (db (snd (finalize w guildId initiatedBy r acc s)))
     = map (userQueries.complete_run (run_id (migrationRun r))
              (sql_now w CompleteMigrationRun)
              (merged_counts (fst acc) (alreadyProcessed r)))
           (migration_runs (db s)).
Proof.
  unfold finalize, userQueries.completeMigrationRun, userQueries.writeAuditLog.
  rewrite bind_run, query_ok. cbn [fst snd db trace].
  rewrite bind_run, query_ok. cbn [fst snd db trace].
  rewrite bind_run, channel_send_ok.
  destruct ((0 <? length (snd acc)) && (length (snd acc) <=? 50));
    [rewrite channel_send_ok; cbn; auto|].
  destruct (50 <? length (snd acc)); [rewrite channel_send_ok; cbn; auto|].
  cbn. auto.
Qed.

(** C8 (as the code has it).  The store holds A with a credential that
    decrypts and stays valid beyond the refresh buffer, B manually authorized
    without a credential, and C revoked; nothing fails and the join of A is
    answered with 201.  A full run then processes A and B only, C being left
    out by the candidate provider: it ends [completed] with the counters
    added 1, already-in 0, skipped-manual 1, token-revoked 0, failed 0 (and a
    total of 2), and the item log holds A as [added] and B as
    [skipped_manual]. *)
Theorem end_to_end_example (name : string) (body : string + MemberBody)
        (token : option string) :
  guilds_cache w Scenario.guild = Some name ->
  (wall_clock w "A" 0 < 3600000)%Z ->
  encryption.decrypt w (access_token Scenario.A) = inr token ->
  members_endpoint w Scenario.guild "A" 1 = Reply 201 body ->
  1 <= retryAttempts cfg ->
  fst (executeMigration w cfg Scenario.guild Scenario.owner
                        (Scenario.fresh [Scenario.A; Scenario.B; Scenario.C])) = inr tt
  /\ Scenario.outcomes
       (migration_user_log
          (db (snd (executeMigration w cfg Scenario.guild Scenario.owner
                                     (Scenario.fresh [Scenario.A; Scenario.B; Scenario.C])))))
     = [("A", "added"); ("B", "skipped_manual")]
  /\ exists run,
      migration_runs
        (db (snd (executeMigration w cfg Scenario.guild Scenario.owner
                                   (Scenario.fresh [Scenario.A; Scenario.B; Scenario.C]))))
      = [run]
      /\ status run = "completed"
      /\ total_users run = 2
      /\ added_count run = 1
      /\ already_in_count run = 0
      /\ skipped_manual run = 1
      /\ token_revoked_count run = 0
      /\ failed_count run = 0.
Proof.
  intros Hguild Hclock Hdecrypts Hjoin Hattempts.
  assert (HfreshA : still_fresh w Scenario.A = true).
  { unfold still_fresh, expiry_ms, Scenario.A, Scenario.user,
      Constants.TOKEN_REFRESH_BUFFER_SECONDS.
    cbn [token_expires_at discord_id]. apply Z.ltb_lt. lia. }
  assert (Hrun : exists s',
             executeMigration w cfg Scenario.guild Scenario.owner
                              (Scenario.fresh [Scenario.A; Scenario.B; Scenario.C])
             = (inr tt, s')
             /\ Scenario.outcomes (migration_user_log (db s'))
                = [("A", "added"); ("B", "skipped_manual")]
             /\ exists run,
                 migration_runs (db s') = [run]
                 /\ status run = "completed"
                 /\ total_users run = 2
                 /\ added_count run = 1
                 /\ already_in_count run = 0
                 /\ skipped_manual run = 1
                 /\ token_revoked_count run = 0
                 /\ failed_count run = 0).
  { rewrite executeMigration_phases.
    rewrite (@resolve_new_run Scenario.guild Scenario.owner name
                              (Scenario.fresh [Scenario.A; Scenario.B; Scenario.C])
                              Hguild eq_refl ltac:(discriminate)).
    change (userQueries.select_all_verified
              (db (Scenario.fresh [Scenario.A; Scenario.B; Scenario.C])))
      with [Scenario.A; Scenario.B].
    unfold process. cbn [migrationRun usersToProcess run_id length].
    cbn [processUsers].
    rewrite bind_run, try_catch_run.
    rewrite (@processSingleUser_adds Scenario.A Scenario.guild _ token body _
               eq_refl eq_refl HfreshA Hdecrypts Hattempts Hjoin).
    cbn [fst snd]. rewrite bind_run. cbn [ret].
    change (tally Constants.ADDED Scenario.A (initial_counts 2, []))
      with (incr_added (initial_counts 2), @nil string).
    rewrite bind_run.
    assert (Hprogress : forall counts processed s0,
               exists t, progress_step w cfg counts processed 2 s0
                         = (inr tt, {| db := db s0; trace := t |})).
    { intros counts processed s0. unfold progress_step.
      destruct (progress_due cfg processed 2).
      - rewrite sendProgressUpdate_ok. eexists. reflexivity.
      - exists (trace s0). now destruct s0. }
    match goal with
    | |- context [progress_step w cfg ?c 1 2 ?s0] =>
        destruct (Hprogress c 1 s0) as (t1 & ->)
    end.
    cbn [fst snd db].
    rewrite bind_run, try_catch_run.
    rewrite (@processSingleUser_skips Scenario.B Scenario.guild _ _ eq_refl eq_refl).
    cbn [fst snd]. rewrite bind_run. cbn [ret].
    change (tally Constants.SKIPPED_MANUAL Scenario.B
                  (incr_added (initial_counts 2), []))
      with (incr_skippedManual (incr_added (initial_counts 2)), @nil string).
    rewrite bind_run.
    match goal with
    | |- context [progress_step w cfg ?c 2 2 ?s0] =>
        destruct (Hprogress c 2 s0) as (t2 & ->)
    end.
    cbn [fst snd db ret].
    match goal with
    | |- context [finalize w ?g ?o ?r ?acc ?s0] =>
        destruct (finalize_ok g o r acc s0) as (Hres & Hlog & Hruns);
        destruct (finalize w g o r acc s0) as [res s']
    end.
    cbn [fst snd] in Hres, Hlog, Hruns. subst res.
    exists s'. split; [reflexivity|]. rewrite Hlog, Hruns. cbn.
    split; [reflexivity|]. eexists. split; [reflexivity|]. cbn. repeat split. }
  destruct Hrun as (s' & -> & Hlog & Hruns). cbn [fst snd]. auto.
Qed.

End HappyPath.


(* ================================================================== *)
(** * Resuming a run *)
(* ================================================================== *)

Section MapFacts.

Lemma JsMap_has_set (k k' v : string) (m : JsMap.t) :
  JsMap.has k (JsMap.set k' v m) = String.eqb k' k || JsMap.has k m.
Proof.
  unfold JsMap.set. destruct (JsMap.has k' m) eqn:Hhas.
  - assert (Hkeys : JsMap.has k (map (fun kv => if String.eqb (fst kv) k' then (k', v) else kv) m)
                    = JsMap.has k m).
    { unfold JsMap.has. clear Hhas. induction m as [|kv m IH]; cbn; [reflexivity|].
      rewrite IH. f_equal.
      destruct (String.eqb (fst kv) k') eqn:E; [|reflexivity].
      apply String.eqb_eq in E. now rewrite E. }
    rewrite Hkeys. destruct (String.eqb k' k) eqn:E; [|reflexivity].
    apply String.eqb_eq in E. subst. now rewrite Hhas.
  - unfold JsMap.has. rewrite existsb_app. cbn. rewrite orb_false_r. apply orb_comm.
Qed.

Lemma JsMap_has_of_entries (k : string) (entries : list (string * string)) :
  JsMap.has k (JsMap.of_entries entries)
  = existsb (fun kv => String.eqb (fst kv) k) entries.
Proof.
  unfold JsMap.of_entries.
  assert (H : forall m,
             JsMap.has k (fold_left (fun m kv => JsMap.set (fst kv) (snd kv) m) entries m)
             = existsb (fun kv => String.eqb (fst kv) k) entries || JsMap.has k m).
  { induction entries as [|kv entries IH]; intros m; cbn [fold_left existsb]; [reflexivity|].
    rewrite IH, JsMap_has_set. now rewrite orb_assoc, (orb_comm (existsb _ _)). }
  rewrite H. cbn. apply orb_false_r.
Qed.

Lemma JsMap_set_nonempty (k v : string) (m : JsMap.t) : JsMap.set k v m <> [].
Proof.
  unfold JsMap.set. destruct (JsMap.has k m) eqn:Hhas.
  - destruct m; [discriminate|]. discriminate.
  - destruct m; discriminate.
Qed.

Lemma JsMap_of_entries_empty (entries : list (string * string)) :
  JsMap.size (JsMap.of_entries entries) = 0 -> entries = [].
Proof.
  unfold JsMap.of_entries, JsMap.size.
  assert (H : forall es m, m <> [] ->
                fold_left (fun m kv => JsMap.set (fst kv) (snd kv) m) es m <> []).
  { induction es as [|kv es IH]; intros m Hm; cbn [fold_left]; [exact Hm|].
    apply IH, JsMap_set_nonempty. }
  destruct entries as [|kv entries]; [reflexivity|].
  cbn [fold_left]. intros Hlen. exfalso.
  apply length_zero_iff_nil in Hlen. revert Hlen.
  apply H, JsMap_set_nonempty.
Qed.

End MapFacts.


Section InvariantFacts.

Import oauthService migrationService Observe.

Variable w : World.
Variable cfg : Config.

Lemma logged_ids_rows (rid : nat) (d : Database) :
  logged_ids rid d
  = map log_discord_id
        (filter (fun r => migration_run_id r =? rid) (migration_user_log d)).
Proof. unfold logged_ids, userQueries.select_processed. now rewrite map_map. Qed.

Lemma existsb_logged (rid : nat) (d : Database) (id : string) :
  existsb (fun kv => String.eqb (fst kv) id) (userQueries.select_processed rid d) = true
  <-> In id (logged_ids rid d).
Proof.
  unfold logged_ids. rewrite existsb_exists. split.
  - intros (kv & Hin & Heq). apply String.eqb_eq in Heq. subst. now apply in_map.
  - intros Hin. apply in_map_iff in Hin. destruct Hin as (kv & <- & Hin).
    exists kv. split; [exact Hin | apply String.eqb_refl].
Qed.

Lemma pending_spec (rid : nat) (d : Database) (u : VerifiedUser) :
  In u (pending rid d)
  <-> In u (userQueries.select_all_verified d) /\ ~ In (discord_id u) (logged_ids rid d).
Proof.
  unfold pending. rewrite filter_In, <- existsb_logged.
  destruct (existsb _ _); cbn; intuition congruence.
Qed.

Lemma where_keeps_ids_distinct (keep : VerifiedUser -> bool) (users : list VerifiedUser) :
  NoDup (map discord_id users) -> NoDup (map discord_id (filter keep users)).
Proof.
  intros Hnd. induction users as [|u users IH]; cbn; [constructor|].
  inversion Hnd as [|? ? Hnot Hrest]; subst.
  destruct (keep u); cbn; [constructor|]; auto.
  intros Hin. apply Hnot. apply in_map_iff in Hin. destruct Hin as (v & Hv & Hin).
  apply filter_In in Hin. rewrite <- Hv. apply in_map. tauto.
Qed.

Lemma pending_NoDup (rid : nat) (d : Database) :
  NoDup (map discord_id (verified_users d)) ->
  NoDup (map discord_id (pending rid d)).
Proof.
  intros Hnd. unfold pending, userQueries.select_all_verified.
  apply where_keeps_ids_distinct.
  eapply Permutation_NoDup.
  - apply Permutation_map, Permutation_sym, order_by_verified_at_perm.
  - now apply where_keeps_ids_distinct.
Qed.

Lemma only_touches_ids (P : string -> Prop) (us us' : list VerifiedUser) :
  only_touches P us us' -> map discord_id us' = map discord_id us.
Proof. induction 1 as [|v v' us us' [Hid _] _ IH]; cbn; congruence. Qed.

Lemma only_touches_keeps (P : string -> Prop) (us us' : list VerifiedUser) (u : VerifiedUser) :
  only_touches P us us' -> In u us -> ~ P (discord_id u) -> In u us'.
Proof.
  induction 1 as [|v v' us us' [_ Hoff] _ IH]; cbn; [auto|].
  intros [Heq|Hin] HP.
  - left. subst v. auto.
  - right. auto.
Qed.

(** Steps 1 to 4 hand the loop exactly the candidates not yet in the item
    log of the run they resolve. *)
Lemma resolve_pending (guildId initiatedBy : string) (s : Store) (r : Resolved) (s1 : Store) :
  well_formed (db s) ->
  resolve w guildId initiatedBy s = (inr r, s1) ->
  usersToProcess r = pending (run_id (migrationRun r)) (db s).
Proof.
  intros (_ & _ & Hrows) Hres.
  pose proof (resolve_effect w guildId initiatedBy s) as H. cbn zeta in H.
  rewrite Hres in H. cbn [fst snd] in H.
  destruct H as (_ & _ & _ & _ & _ & H). destruct (H r eq_refl) as (_ & Hall & Hproc & Hcase).
  rewrite Hproc, Hall. unfold pending.
  assert (Hnone : forall rid, userQueries.select_processed rid (db s) = [] ->
             filter (fun u => negb (existsb (fun kv => String.eqb (fst kv) (discord_id u))
                                            (userQueries.select_processed rid (db s))))
                    (userQueries.select_all_verified (db s))
             = userQueries.select_all_verified (db s)).
  { intros rid E. rewrite E. cbn [existsb negb].
    generalize (userQueries.select_all_verified (db s)).
    intros l. induction l as [|x l IH]; cbn [filter]; congruence. }
  destruct (userQueries.select_incomplete guildId (db s)) as [existing|].
  - destruct Hcase as (-> & -> & _).
    destruct (0 <? JsMap.size (JsMap.of_entries
                                 (userQueries.select_processed (run_id existing) (db s))))
             eqn:Hsize.
    + apply filter_ext. intros u. now rewrite JsMap_has_of_entries.
    + apply Nat.ltb_ge in Hsize. symmetry. apply Hnone.
      apply JsMap_of_entries_empty. lia.
  - destruct Hcase as (-> & _ & Hid & _). cbn. rewrite Hid. symmetry. apply Hnone.
    unfold userQueries.select_processed.
    assert (Hfilter : filter (fun row => migration_run_id row =? S (migration_runs_id_seq (db s)))
                             (migration_user_log (db s)) = []).
    { induction Hrows as [|row rows Hrow _ IH]; cbn; [reflexivity|].
      destruct (migration_run_id row =? S (migration_runs_id_seq (db s))) eqn:E; [|exact IH].
      apply Nat.eqb_eq in E. lia. }
    now rewrite Hfilter.
Qed.


Lemma resolve_well_formed (guildId initiatedBy : string) (s : Store) :
  well_formed (db s) ->
  well_formed (db (snd (resolve w guildId initiatedBy s)))
  /\ (forall r, fst (resolve w guildId initiatedBy s) = inr r ->
                run_id (migrationRun r)
                <= migration_runs_id_seq (db (snd (resolve w guildId initiatedBy s)))).
Proof.
  intros (Hnd & Hruns & Hrows).
  pose proof (resolve_effect w guildId initiatedBy s) as H. cbn zeta in H.
  destruct H as (Husers & Hlog & (created & Hruns' & Hcreated) & Hseq & _ & Hr).
  assert (Hall : Forall (fun run => run_id run
                                    <= migration_runs_id_seq
                                         (db (snd (resolve w guildId initiatedBy s))))
                        (migration_runs (db (snd (resolve w guildId initiatedBy s))))).
  { rewrite Hruns'. apply Forall_app. split.
    - eapply Forall_impl; [|exact Hruns]. cbn. intros. lia.
    - eapply Forall_impl; [|exact Hcreated]. cbn. tauto. }
  split.
  - split; [now rewrite Husers|]. split; [exact Hall|].
    rewrite Hlog. eapply Forall_impl; [|exact Hrows]. cbn. intros. lia.
  - intros r Hres. destruct (Hr r Hres) as (Hin & _).
    rewrite Forall_forall in Hall. now apply Hall.
Qed.

Lemma processUsers_well_formed (guildId : string) (rid toProcess : nat)
      (users : list VerifiedUser) (processed : nat) (acc : Counts * list string) (s : Store) :
  well_formed (db s) -> rid <= migration_runs_id_seq (db s) ->
  well_formed (db (snd (processUsers w cfg guildId rid toProcess users processed acc s))).
Proof.
  intros (Hnd & Hruns & Hrows) Hrid.
  pose proof (processUsers_effect w cfg guildId rid toProcess users processed acc s) as H.
  cbn zeta in H.
  destruct H as (Hruns' & Hseq & _ & Htouch & _ & rows & Hlog & Hnew & _).
  split; [now rewrite (only_touches_ids Htouch)|].
  split; [now rewrite Hruns', Hseq|].
  rewrite Hlog, Hseq. apply Forall_app. split; [exact Hrows|].
  eapply Forall_impl; [|exact Hnew]. cbn. intros row [-> _]. exact Hrid.
Qed.

Lemma finalize_well_formed (guildId initiatedBy : string) (r : Resolved)
      (acc : Counts * list string) (s : Store) :
  well_formed (db s) ->
  well_formed (db (snd (finalize w guildId initiatedBy r acc s))).
Proof.
  intros (Hnd & Hruns & Hrows).
  pose proof (finalize_effect w guildId initiatedBy r acc s) as H. cbn zeta in H.
  destruct H as (Husers & Hlog & Hseq & _ & Hruns').
  split; [now rewrite Husers|]. rewrite Hlog, Hseq. split; [|exact Hrows].
  destruct (fault w CompleteMigrationRun); [now rewrite Hruns'|].
  rewrite Hruns'. apply Forall_map. eapply Forall_impl; [|exact Hruns].
  cbn. intros run Hle. unfold userQueries.complete_run.
  now destruct (run_id run =? run_id (migrationRun r)).
Qed.

(** The loop keeps every principal at most once in the item log of every
    run, when it is given principals with distinct ids that the item log of
    its run does not hold. *)
Lemma processUsers_at_most_once (guildId : string) (rid toProcess : nat)
      (users : list VerifiedUser) (processed : nat) (acc : Counts * list string) (s : Store) :
  NoDup (map discord_id users) ->
  (forall u, In u users -> ~ In (discord_id u) (logged_ids rid (db s))) ->
  at_most_once (db s) ->
  at_most_once (db (snd (processUsers w cfg guildId rid toProcess users processed acc s))).
Proof.
  intros Hnd Hnew Hinv rid'.
  pose proof (processUsers_effect w cfg guildId rid toProcess users processed acc s) as H.
  cbn zeta in H.
  destruct H as (_ & _ & _ & _ & _ & rows & Hlog & Hrows & Hrows_nd & _).
  rewrite logged_ids_rows, Hlog, filter_app, map_app, <- logged_ids_rows.
  destruct (Nat.eq_dec rid' rid) as [->|Hne].
  - assert (Hall : filter (fun r => migration_run_id r =? rid) rows = rows).
    { clear - Hrows. induction Hrows as [|row rows [Hrid _] _ IH]; cbn; [reflexivity|].
      rewrite Hrid, Nat.eqb_refl. now rewrite IH. }
    rewrite Hall. apply NoDup_app; [apply Hinv | now apply Hrows_nd |].
    intros id Hlogged Hin. apply in_map_iff in Hin. destruct Hin as (row & <- & Hin).
    rewrite Forall_forall in Hrows. destruct (Hrows row Hin) as [_ Hu].
    apply in_map_iff in Hu. destruct Hu as (u & Hid & Hu).
    apply (Hnew u Hu). now rewrite Hid.
  - assert (Hnone : filter (fun r => migration_run_id r =? rid') rows = []).
    { clear - Hrows Hne. induction Hrows as [|row rows [Hrid _] _ IH]; cbn; [reflexivity|].
      rewrite Hrid. destruct (rid =? rid') eqn:E; [|exact IH].
      apply Nat.eqb_eq in E. congruence. }
    rewrite Hnone. cbn. rewrite app_nil_r. apply Hinv.
Qed.

Lemma NoDup_firstn (A : Type) (k : nat) (l : list A) : NoDup l -> NoDup (firstn k l).
Proof.
  intros H. rewrite <- (firstn_skipn k l) in H. now apply NoDup_app_remove_r in H.
Qed.

Lemma In_firstn (A : Type) (k : nat) (l : list A) (x : A) : In x (firstn k l) -> In x l.
Proof.
  intros H. rewrite <- (firstn_skipn k l). apply in_or_app. now left.
Qed.

End InvariantFacts.


Section ResumeFacts.

Import oauthService migrationService Observe.

Lemma interrupted_phases (w : World) (cfg : Config) (guildId initiatedBy : string)
      (k : nat) (s : Store) :
  interrupted w cfg guildId initiatedBy k s
  = match resolve w guildId initiatedBy s with
    | (inl e, s1) => (inl e, s1)
    | (inr r, s1) =>
        match processUsers w cfg guildId (run_id (migrationRun r))
                (length (usersToProcess r)) (firstn k (usersToProcess r)) 0
                (initial_counts (length (usersToProcess r)), []) s1 with
        | (inl e, s2) => (inl e, s2)
        | (inr _, s2) => (inr r, s2)
        end
    end.
Proof.
  unfold interrupted. rewrite bind_run.
  destruct (resolve w guildId initiatedBy s) as [[e|r] s1]; [reflexivity|].
  rewrite bind_run. now destruct (processUsers _ _ _ _ _ _ _ _ s1) as [[e|acc] s2].
Qed.

(** Resolving a run and then looping over any part of the users it has to
    process keeps the tables well formed and the item log free of repeated
    principals. *)
Lemma partial_run_invariants (w : World) (cfg : Config) (guildId initiatedBy : string)
      (s : Store) (r : Resolved) (s1 : Store) (users : list VerifiedUser)
      (processed : nat) (acc : Counts * list string) :
  well_formed (db s) -> at_most_once (db s) ->
  resolve w guildId initiatedBy s = (inr r, s1) ->
  NoDup (map discord_id users) ->
  (forall u, In u users -> In u (usersToProcess r)) ->
  let s2 := snd (processUsers w cfg guildId (run_id (migrationRun r))
                   (length (usersToProcess r)) users processed acc s1) in
  well_formed (db s2) /\ at_most_once (db s2).
Proof.
  intros Hwf Hinv Hres Hnd Hsub. cbn zeta.
  destruct (@resolve_well_formed w guildId initiatedBy s Hwf) as (Hwf1 & Hrid).
  rewrite Hres in Hwf1, Hrid. cbn [fst snd] in Hwf1, Hrid. specialize (Hrid r eq_refl).
  pose proof (resolve_effect w guildId initiatedBy s) as H. cbn zeta in H.
  rewrite Hres in H. cbn [fst snd] in H. destruct H as (_ & Hlog1 & _).
  split; [now apply processUsers_well_formed|].
  apply processUsers_at_most_once; [exact Hnd | |].
  - intros u Hu. apply Hsub in Hu.
    rewrite (@resolve_pending w guildId initiatedBy s r s1 Hwf Hres) in Hu. apply pending_spec in Hu.
    rewrite logged_ids_rows, Hlog1, <- logged_ids_rows. tauto.
  - intros rid. rewrite logged_ids_rows, Hlog1, <- logged_ids_rows. apply Hinv.
Qed.

(** A complete run of the engine keeps the tables well formed and the item
    log free of repeated principals, whatever the environment does. *)
Lemma complete_run_invariants (w : World) (cfg : Config)
      (guildId initiatedBy : string) (s : Store) :
  well_formed (db s) -> at_most_once (db s) ->
  well_formed (db (snd (executeMigration w cfg guildId initiatedBy s)))
  /\ at_most_once (db (snd (executeMigration w cfg guildId initiatedBy s))).
Proof.
  intros Hwf Hinv.
  destruct (@resolve_well_formed w guildId initiatedBy s Hwf) as (Hwf1 & _).
  pose proof (resolve_effect w guildId initiatedBy s) as H. cbn zeta in H.
  destruct H as (_ & Hlog1 & _).
  assert (Hinv1 : at_most_once (db (snd (resolve w guildId initiatedBy s)))).
  { intros rid. rewrite logged_ids_rows, Hlog1, <- logged_ids_rows. apply Hinv. }
  rewrite executeMigration_phases.
  destruct (resolve w guildId initiatedBy s) as [[e|r] s1] eqn:Hres; [now split|].
  unfold process.
  assert (Hnd : NoDup (map discord_id (usersToProcess r))).
  { rewrite (@resolve_pending w guildId initiatedBy s r s1 Hwf Hres). apply pending_NoDup, Hwf. }
  pose proof (@partial_run_invariants w cfg guildId initiatedBy s r s1
                (usersToProcess r) 0
                (initial_counts (length (usersToProcess r)), [])
                Hwf Hinv Hres Hnd (fun u H => H)) as (Hwf2 & Hinv2).
  cbn zeta in Hwf2, Hinv2.
  destruct (processUsers _ _ _ _ _ _ _ _ s1) as [[e|acc] s2]; cbn [fst snd] in *;
    [now split|].
  split; [now apply finalize_well_formed|].
  pose proof (finalize_effect w guildId initiatedBy r acc s2) as Hfin. cbn zeta in Hfin.
  destruct Hfin as (_ & Hlog3 & _).
  intros rid. rewrite logged_ids_rows, Hlog3, <- logged_ids_rows. apply Hinv2.
Qed.

(** So does a run that is killed after any number of principals. *)
Lemma killed_run_invariants (w : World) (cfg : Config)
      (guildId initiatedBy : string) (k : nat) (s : Store) :
  well_formed (db s) -> at_most_once (db s) ->
  well_formed (db (snd (interrupted w cfg guildId initiatedBy k s)))
  /\ at_most_once (db (snd (interrupted w cfg guildId initiatedBy k s))).
Proof.
  intros Hwf Hinv.
  destruct (@resolve_well_formed w guildId initiatedBy s Hwf) as (Hwf1 & _).
  pose proof (resolve_effect w guildId initiatedBy s) as H. cbn zeta in H.
  destruct H as (_ & Hlog1 & _).
  assert (Hinv1 : at_most_once (db (snd (resolve w guildId initiatedBy s)))).
  { intros rid. rewrite logged_ids_rows, Hlog1, <- logged_ids_rows. apply Hinv. }
  rewrite interrupted_phases.
  destruct (resolve w guildId initiatedBy s) as [[e|r] s1] eqn:Hres; [now split|].
  assert (Hnd : NoDup (map discord_id (firstn k (usersToProcess r)))).
  { rewrite <- firstn_map. apply NoDup_firstn.
    rewrite (@resolve_pending w guildId initiatedBy s r s1 Hwf Hres). apply pending_NoDup, Hwf. }
  pose proof (@partial_run_invariants w cfg guildId initiatedBy s r s1
                (firstn k (usersToProcess r)) 0
                (initial_counts (length (usersToProcess r)), [])
                Hwf Hinv Hres Hnd (fun u H => @In_firstn _ k _ u H)) as (Hwf2 & Hinv2).
  cbn zeta in Hwf2, Hinv2.
  destruct (processUsers _ _ _ _ _ _ _ _ s1) as [[e|acc] s2]; cbn [fst snd] in *;
    now split.
Qed.

(** X2. At most once, for invocations that do not overlap.  Take any
    number of invocations of the engine, for any guilds and initiators, each
    in a world and under a configuration of its own, each complete or killed
    after any number of principals, and each started on the store the one
    before it left (no two of them run at the same time).  Whatever the
    environment does, they leave well-formed tables well formed, and an item
    log in which, for every run, each principal appears at most once keeps
    that property.  So it is for one invocation alone, complete or killed. *)
Theorem item_log_stays_at_most_once (invocations : list Invocations.Invocation) (s : Store) :
  well_formed (db s) -> at_most_once (db s) ->
  (well_formed (db (Invocations.invoke_all invocations s))
   /\ at_most_once (db (Invocations.invoke_all invocations s)))
  /\ (forall w cfg guildId initiatedBy,
        (well_formed (db (snd (executeMigration w cfg guildId initiatedBy s)))
         /\ at_most_once (db (snd (executeMigration w cfg guildId initiatedBy s))))
        /\ (forall k,
              well_formed (db (snd (interrupted w cfg guildId initiatedBy k s)))
              /\ at_most_once (db (snd (interrupted w cfg guildId initiatedBy k s))))).
Proof.
  intros Hwf Hinv. split.
  - revert s Hwf Hinv. unfold Invocations.invoke_all.
    induction invocations as [|i rest IH]; intros s Hwf Hinv; cbn [fold_left].
    + now split.
    + assert (Hnext : well_formed (db (Invocations.invoke i s))
                      /\ at_most_once (db (Invocations.invoke i s))).
      { unfold Invocations.invoke. destruct (Invocations.ending i) as [|k].
        - now apply complete_run_invariants.
        - now apply killed_run_invariants. }
      destruct Hnext as [Hwf' Hinv']. now apply IH.
  - intros w cfg guildId initiatedBy. split.
    + now apply complete_run_invariants.
    + intros k. now apply killed_run_invariants.
Qed.

(** When no exception leaves [processSingleUser], the loop runs to its end
    and the item log gains one row per principal, in order. *)
Lemma processUsers_all_return (w : World) (cfg : Config) (guildId : string)
      (rid toProcess : nat) (users : list VerifiedUser) (processed : nat)
      (acc : Counts * list string) (s : Store) :
  Forall (returns w cfg guildId rid) users ->
  exists acc' rows,
    fst (processUsers w cfg guildId rid toProcess users processed acc s) = inr acc'
    /\ migration_user_log
         (db (snd (processUsers w cfg guildId rid toProcess users processed acc s)))
       = migration_user_log (db s) ++ rows
    /\ map log_discord_id rows = map discord_id users
    /\ Forall (fun row => migration_run_id row = rid) rows.
Proof.
  intros Hall. revert processed acc s.
  induction Hall as [|user rest Hret _ IH]; intros processed acc s.
  - exists acc, []. cbn. rewrite app_nil_r. auto.
  - cbn [processUsers]. rewrite bind_run, try_catch_run.
    destruct (Hret s) as (status & Hstatus).
    pose proof (processSingleUser_effect w cfg user guildId rid s) as Heff.
    rewrite Hstatus in Heff. destruct Heff as (_ & _ & _ & _ & row & Hlog & Hrid & Hid & _).
    destruct (processSingleUser w cfg user guildId rid s) as [outcome s1].
    cbn [fst snd] in *. subst outcome.
    rewrite bind_run. cbn [ret]. rewrite bind_run.
    assert (Hprog : fst (progress_step w cfg (fst (tally status user acc)) (S processed)
                                       toProcess s1) = inr tt
                    /\ db (snd (progress_step w cfg (fst (tally status user acc)) (S processed)
                                              toProcess s1)) = db s1).
    { unfold progress_step. destruct (progress_due cfg (S processed) toProcess);
        [apply sendProgressUpdate_effect | cbn; auto]. }
    destruct Hprog as (Hp1 & Hp2).
    destruct (progress_step _ _ _ _ _ s1) as [p s2]. cbn [fst snd] in Hp1, Hp2. subst p.
    destruct (IH (S processed) (tally status user acc) s2) as (acc' & rows & Hr & Hl & Hids & Hrids).
    exists acc', (row :: rows). split; [exact Hr|].
    split; [rewrite Hl, Hp2, Hlog, <- app_assoc; reflexivity|].
    split; [cbn; now rewrite Hid, Hids|].
    constructor; auto.
Qed.

Lemma latest_started_none (rows : list MigrationRun) :
  userQueries.latest_started rows = None -> rows = [].
Proof.
  unfold userQueries.latest_started. destruct rows as [|x rows]; [reflexivity|].
  cbn. intros H. exfalso.
  assert (Hsome : forall l b,
             fold_left (fun best r =>
                          match best with
                          | None => Some r
                          | Some b => if (started_at b <? started_at r)%Z
                                      then Some r else Some b
                          end) l (Some b) <> None).
  { induction l as [|y l IHl]; intros b; cbn; [discriminate|].
    destruct (started_at b <? started_at y)%Z; apply IHl. }
  exact (Hsome rows x H).
Qed.

(** The run that an invocation has resolved is the one that the next
    invocation for the same guild finds running. *)
Lemma resolved_run_is_found_again (w : World) (guildId initiatedBy : string)
      (s : Store) (r : Resolved) (s1 : Store) (d : Database) :
  resolve w guildId initiatedBy s = (inr r, s1) ->
  migration_runs d = migration_runs (db s1) ->
  userQueries.select_incomplete guildId d = Some (migrationRun r).
Proof.
  intros Hres Hd.
  pose proof (resolve_effect w guildId initiatedBy s) as H. cbn zeta in H.
  rewrite Hres in H. cbn [fst snd] in H.
  destruct H as (_ & _ & _ & _ & _ & H). destruct (H r eq_refl) as (_ & _ & _ & Hcase).
  unfold userQueries.select_incomplete in *. rewrite Hd.
  destruct (userQueries.latest_started
              (filter (fun r0 => String.eqb (target_guild_id r0) guildId
                                 && String.eqb (status r0) "running")
                      (migration_runs (db s)))) as [existing|] eqn:Hold.
  - destruct Hcase as (-> & _ & ->). exact Hold.
  - destruct Hcase as (_ & -> & _ & Hst & Htarget).
    apply latest_started_none in Hold. rewrite filter_app, Hold. cbn.
    rewrite Htarget, Hst, String.eqb_refl. reflexivity.
Qed.


Lemma logged_ids_app (rid : nat) (d d' : Database) (rows : list MigrationUserLog) :
  migration_user_log d' = migration_user_log d ++ rows ->
  Forall (fun row => migration_run_id row = rid) rows ->
  logged_ids rid d' = logged_ids rid d ++ map log_discord_id rows.
Proof.
  intros Hlog Hrows. rewrite !logged_ids_rows, Hlog, filter_app, map_app. f_equal. f_equal.
  clear Hlog. induction Hrows as [|row rows Hrid _ IH]; cbn; [reflexivity|].
  now rewrite Hrid, Nat.eqb_refl, IH.
Qed.

(** X1. Resume correctness, for runs in which no exception leaves the
    per-item body.  A first invocation resolves a run and is killed after it has
    handled the first [k] of the principals it had to process; a second
    invocation for the same guild runs to completion.  Then the second
    invocation has resolved the same run and processed exactly the candidates
    that the item log of that run did not hold; it has only appended to the
    item log, one row per principal it processed; every candidate of the
    first invocation is in the final item log of the run exactly once; and
    no principal is in it twice. *)
Theorem resume_logs_each_candidate_once
        (w1 w2 : World) (cfg1 cfg2 : Config) (guildId by1 by2 : string) (k : nat)
        (s0 : Store) (r1 : Resolved) (s1 : Store) (t : list Event) (s2 : Store) :
  well_formed (db s0) -> at_most_once (db s0) ->
  interrupted w1 cfg1 guildId by1 k s0 = (inr r1, s1) ->
  Forall (returns w1 cfg1 guildId (run_id (migrationRun r1)))
         (firstn k (usersToProcess r1)) ->
  Forall (returns w2 cfg2 guildId (run_id (migrationRun r1)))
         (pending (run_id (migrationRun r1)) (db s1)) ->
  executeMigration w2 cfg2 guildId by2 {| db := db s1; trace := t |} = (inr tt, s2) ->
  (exists r2 s',
      resolve w2 guildId by2 {| db := db s1; trace := t |} = (inr r2, s')
      /\ migrationRun r2 = migrationRun r1
      /\ usersToProcess r2 = pending (run_id (migrationRun r1)) (db s1))
  /\ (exists rows,
        migration_user_log (db s2) = migration_user_log (db s1) ++ rows
        /\ map log_discord_id rows
           = map discord_id (pending (run_id (migrationRun r1)) (db s1)))
  /\ (forall u, In u (userQueries.select_all_verified (db s0)) ->
                count_occ string_dec (logged_ids (run_id (migrationRun r1)) (db s2))
                          (discord_id u) = 1)
  /\ at_most_once (db s2).
Proof.
  intros Hwf0 Hinv0 Hint Hret1 Hret2 Hexec.
  set (rid := run_id (migrationRun r1)) in *.
  set (s1' := {| db := db s1; trace := t |}) in *.
  (* the first invocation *)
  destruct (@killed_run_invariants w1 cfg1 guildId by1 k s0 Hwf0 Hinv0) as (Hwf1 & Hinv1). rewrite Hint in Hwf1, Hinv1. cbn [snd] in Hwf1, Hinv1.
  rewrite interrupted_phases in Hint.
  destruct (resolve w1 guildId by1 s0) as [[e|r] s01] eqn:Hres1; [discriminate|].
  pose proof (@processUsers_effect w1 cfg1 guildId (run_id (migrationRun r))
                (length (usersToProcess r)) (firstn k (usersToProcess r)) 0
                (initial_counts (length (usersToProcess r)), []) s01) as Hloop1.
  cbn zeta in Hloop1.
  pose proof (fun H => @processUsers_all_return w1 cfg1 guildId (run_id (migrationRun r))
                (length (usersToProcess r)) (firstn k (usersToProcess r)) 0
                (initial_counts (length (usersToProcess r)), []) s01 H) as Hall1.
  destruct (processUsers _ _ _ _ _ _ _ _ s01) as [[e|acc1] s1x]; [discriminate|].
  injection Hint as -> ->. cbn [fst snd] in Hloop1, Hall1.
  destruct Hloop1 as (Hruns1 & _ & _ & Htouch1 & _).
  destruct (Hall1 Hret1) as (_ & rows1 & _ & Hlog1 & Hids1 & Hrid1).
  pose proof (resolve_effect w1 guildId by1 s0) as Hr1. cbn zeta in Hr1.
  rewrite Hres1 in Hr1. cbn [fst snd] in Hr1. destruct Hr1 as (Husers01 & _).
  (* the second invocation *)
  destruct (@complete_run_invariants w2 cfg2 guildId by2 s1' Hwf1 Hinv1) as (_ & Hinv2).
  rewrite Hexec in Hinv2. cbn [snd] in Hinv2.
  rewrite executeMigration_phases in Hexec.
  destruct (resolve w2 guildId by2 s1') as [[e|r2] s1''] eqn:Hres2; [discriminate|].
  pose proof (resolve_effect w2 guildId by2 s1') as Hr2. cbn zeta in Hr2.
  rewrite Hres2 in Hr2. cbn [fst snd] in Hr2.
  destruct Hr2 as (_ & Hlog2 & _ & _ & _ & Hr2). destruct (Hr2 r2 eq_refl) as (_ & _ & _ & Hcase).
  rewrite (@resolved_run_is_found_again w1 guildId by1 s0 r1 s01 (db s1') Hres1
             ltac:(exact Hruns1)) in Hcase.
  destruct Hcase as (Hsame & _).
  pose proof (@resolve_pending w2 guildId by2 s1' r2 s1'' Hwf1 Hres2) as Hpend.
  rewrite Hsame in Hpend. fold rid in Hpend. change (db s1') with (db s1) in Hpend.
  unfold process in Hexec. rewrite Hsame, Hpend in Hexec. fold rid in Hexec.
  pose proof (@processUsers_all_return w2 cfg2 guildId rid
                (length (pending rid (db s1))) (pending rid (db s1)) 0
                (initial_counts (length (pending rid (db s1))), []) s1'' Hret2)
    as (_ & rows2 & _ & Hlog3 & Hids2 & Hrid2).
  destruct (processUsers _ _ _ _ _ _ _ _ s1'') as [[e|acc2] s2'] eqn:Hloop2; [discriminate|].
  cbn [fst snd] in Hlog3.
  pose proof (finalize_effect w2 guildId by2 r2 acc2 s2') as Hfin. cbn zeta in Hfin.
  rewrite Hexec in Hfin. cbn [fst snd] in Hfin. destruct Hfin as (_ & Hlog4 & _).
  assert (Hlog : migration_user_log (db s2) = migration_user_log (db s1) ++ rows2).
  { rewrite Hlog4, Hlog3, Hlog2. reflexivity. }
  split; [exists r2, s1''; auto|].
  split; [exists rows2; auto|].
  split; [|exact Hinv2].
  intros u Hu.
  apply NoDup_count_occ'; [apply Hinv2|].
  rewrite (@logged_ids_app rid _ _ _ Hlog Hrid2), Hids2. apply in_or_app.
  destruct (in_dec string_dec (discord_id u) (logged_ids rid (db s1))) as [Hin|Hnot];
    [now left|right].
  apply in_map, pending_spec. split; [|exact Hnot].
  apply select_all_verified_spec in Hu. destruct Hu as (Hu & Hclear).
  apply select_all_verified_spec. split; [|exact Hclear].
  apply (@only_touches_keeps _ _ _ u Htouch1); [now rewrite Husers01|].
  intros Hprefix. apply Hnot.
  rewrite (@logged_ids_app rid _ _ _ Hlog1 Hrid1), Hids1. apply in_or_app. now right.
Qed.

End ResumeFacts.

(* ================================================================== *)
(** * The properties at work on concrete stores *)
(* ================================================================== *)

Section Instances.

Import oauthService migrationService Observe Scenario.
Local Open Scope Z_scope.

(** A stays valid for two hours, so A's token is returned as stored; E
    expires within the hour, so there is one refresh request (which the calm
    world leaves unanswered).  Where no payload decrypts, E's refresh makes
    no request and throws the error of the decipher. *)
Lemma refresh_buffering_witness :
  ensureFreshToken calm A (fresh [A; E]) = (inr (Some "tokA"), fresh [A; E])
  /\ token_requests (trace (snd (ensureFreshToken calm E (fresh [A; E])))) = 1%nat
  /\ ensureFreshToken corrupted E (fresh [A; E])
     = (inl (JsError "Unsupported state or unable to authenticate data"), fresh [A; E]).
Proof.
  split; [|split].
  - exact (proj1 (proj2 (refresh_buffering calm A (fresh [A; E]))) eq_refl).
  - refine (proj1 (proj2 (proj2 (refresh_buffering calm E (fresh [A; E]))) _)).
    vm_compute. discriminate.
  - refine (proj2 (proj2 (proj2 (refresh_buffering corrupted E (fresh [A; E]))) _)
                  _ eq_refl eq_refl).
    vm_compute. discriminate.
Defined.

(** C4, the statement refuted.  No stored payload decrypts.  A's token is
    valid for two hours, and yet [ensureFreshToken] returns no credential:
    it throws the error of the decipher. *)
Lemma undecryptable_credential_is_not_returned :
  ~ Stated.refresh_is_buffered corrupted A (fresh [A; E]).
Proof.
  intros [Hfresh _].
  destruct (Hfresh eq_refl) as [credential Hrun].
  vm_compute in Hrun. discriminate Hrun.
Qed.

(** E's refresh is refused as Discord refuses it, with [invalid_grant] and
    its description: E's row stays as it was, not revoked and with both
    tokens, and the call throws the refresh error. *)
Lemma described_invalid_grant_is_not_revoked_witness :
  ensureFreshToken describing E (fresh [A; E])
  = (inl (JsError ("Token refresh failed: " ++ invalid_refresh_token)),
     {| db := database [A; E]; trace := [EvTokenRequest (Some "refE")] |}).
Proof.
  apply (@described_invalid_grant_is_not_revoked
           describing E (fresh [A; E]) (Some "refE") 400
           {| body_access_token := None; body_refresh_token := None;
              body_expires_in := 0; body_error := Some "invalid_grant";
              body_error_description := Some invalid_refresh_token |}
           invalid_refresh_token);
    try reflexivity; discriminate.
Defined.

(** The converse slip.  The request to the token endpoint fails because the
    certificate of the server has been revoked: the provider has signalled
    nothing, and yet E is stored as revoked with both tokens cleared, and
    the call throws [TOKEN_REVOKED]. *)
Lemma revoked_certificate_revokes_the_principal :
  exists s2,
    ensureFreshToken mistrusting E (fresh [A; E]) = (inl (JsError "TOKEN_REVOKED"), s2)
    /\ verified_users (db s2)
       = [A; {| discord_id := "E"; access_token := None; refresh_token := None;
                token_expires_at := Some 1800000; manually_verified := false;
                verified_at := 5; token_revoked := true; revoked_at := Some 0 |}].
Proof. eexists. split; vm_compute; reflexivity. Qed.

(** E's refresh is denied with [invalid_grant] alone: E is stored as revoked,
    with both tokens cleared, and the call throws [TOKEN_REVOKED]. *)
Lemma refresh_failure_handling_witness :
  db (snd (refresh_and_store denying E (fresh [A; E]))) = database [A; E]
  /\ exists s2,
      ensureFreshToken denying E (fresh [A; E]) = (inl (JsError "TOKEN_REVOKED"), s2)
      /\ rows_of "E" (verified_users (db s2))
         = [{| discord_id := "E"; access_token := None; refresh_token := None;
               token_expires_at := Some 1800000; manually_verified := false;
               verified_at := 5; token_revoked := true; revoked_at := Some 0 |}]
      /\ rows_of "A" (verified_users (db s2)) = [A].
Proof.
  pose proof (@refresh_failure_handling denying E (fresh [A; E])
                (snd (refresh_and_store denying E (fresh [A; E])))
                "Token refresh failed: invalid_grant" eq_refl eq_refl) as (Hdb & Hrev & _).
  split; [exact Hdb|].
  destruct (Hrev eq_refl eq_refl) as (s2 & Hrun & _ & Husers & _).
  exists s2. split; [exact Hrun|]. rewrite Husers. split; reflexivity.
Defined.

(** C7, the statement refuted.  The database rejects the statement that
    completes the run: [executeMigration] throws with the run on record and
    two items logged, and the run is left [running], not [failed]. *)
Lemma aborted_run_stays_running :
  ~ Stated.aborted_run_is_failed failing_finalize cfg guild owner (fresh [A; B]).
Proof.
  intros H. unfold Stated.aborted_run_is_failed in H.
  assert (Hres : exists r s0,
             resolve failing_finalize guild owner (fresh [A; B]) = (inr r, s0)
             /\ run_id (migrationRun r) = 1%nat)
    by (do 2 eexists; split; vm_compute; reflexivity).
  destruct Hres as (r & s0 & Hres & Hid).
  assert (Hexec : exists s1,
             executeMigration failing_finalize cfg guild owner (fresh [A; B])
             = (inl (JsError "connection terminated"), s1))
    by (eexists; vm_compute; reflexivity).
  destruct Hexec as (s1 & Hexec).
  assert (Hrun : exists run,
             In run (migration_runs
                       (db (snd (messageCreate.pull failing_finalize cfg owner [guild]
                                                    (fresh [A; B])))))
             /\ run_id run = 1%nat /\ status run = "running")
    by (eexists; split; [vm_compute; left; reflexivity | split; reflexivity]).
  destruct Hrun as (run & Hin & Hrid & Hst).
  destruct (H r s0 _ s1 Hres Hexec run Hin ltac:(congruence)) as [Hfailed _].
  rewrite Hst in Hfailed. discriminate.
Qed.

(** The handler at work on the same failure: the owner gets the message, the
    command returns, the tables are as the engine left them. *)
Lemma engine_error_is_reported_not_recorded_witness :
  exists message,
    JsError "connection terminated" = JsError message
    /\ fst (messageCreate.pull failing_finalize cfg owner [guild] (fresh [A; B])) = inr tt
    /\ db (snd (messageCreate.pull failing_finalize cfg owner [guild] (fresh [A; B])))
       = db (snd (executeMigration failing_finalize cfg guild owner (fresh [A; B])))
    /\ trace (snd (messageCreate.pull failing_finalize cfg owner [guild] (fresh [A; B])))
       = trace (snd (executeMigration failing_finalize cfg guild owner (fresh [A; B])))
         ++ [EvReply ("❌ **Migration failed:** " ++ message)].
Proof.
  apply (proj2 (proj2 (engine_error_is_reported_not_recorded
                         failing_finalize cfg owner [guild] (fresh [A; B])))
               guild [] (JsError "connection terminated")
               (snd (executeMigration failing_finalize cfg guild owner (fresh [A; B]))));
    vm_compute; reflexivity.
Defined.

(** C is revoked when the run starts: the run writes no row for C. *)
Lemma revoked_principals_are_never_candidates_witness :
  Forall (fun row => log_discord_id row <> "C")
         (migration_user_log (db (snd (executeMigration calm cfg guild owner
                                                        (fresh [A; B; C]))))).
Proof.
  destruct (revoked_principals_are_never_candidates calm cfg guild owner (fresh [A; B; C]))
    as (_ & _ & rows & Hlog & _ & _ & Hunique).
  rewrite Hlog. cbn [fresh database db migration_user_log app].
  apply (Hunique ltac:(cbn; repeat constructor; cbn; intuition discriminate) C);
    [cbn; auto | reflexivity].
Defined.

(** E's refresh fails for another reason than an invalid grant: the item is
    logged as [refresh_failed] and the completed run counts it as revoked. *)
Lemma refresh_failed_is_counted_as_token_revoked_witness :
  outcomes (migration_user_log (db (snd (executeMigration calm cfg guild owner
                                                          (fresh [A; E])))))
  = [("A", "added"); ("E", "refresh_failed")]
  /\ exists run,
      In run (migration_runs (db (snd (executeMigration calm cfg guild owner
                                                        (fresh [A; E])))))
      /\ status run = "completed"
      /\ token_revoked_count run = 1%nat.
Proof.
  assert (Hphases : exists r s1 acc s2,
             resolve calm guild owner (fresh [A; E]) = (inr r, s1)
             /\ process calm cfg guild r s1 = (inr acc, s2)
             /\ alreadyProcessed r = [])
    by (do 4 eexists; split; [vm_compute; reflexivity | split; vm_compute; reflexivity]).
  destruct Hphases as (r & s1 & acc & s2 & Hres & Hproc & Hnone).
  destruct (proj2 (proj2 (refresh_failed_is_counted_as_token_revoked
                            calm cfg guild owner (fresh [A; E])))
                  r s1 acc s2 Hres Hproc eq_refl)
    as (rows & Hlog & (run & Hin & Hid) & Hall).
  assert (Hrows : outcomes rows = [("A", "added"); ("E", "refresh_failed")]).
  { cbn [fresh database db migration_user_log app] in Hlog. rewrite <- Hlog.
    vm_compute. reflexivity. }
  split.
  - cbn [fresh database db migration_user_log app] in Hlog. rewrite Hlog. exact Hrows.
  - exists run. split; [exact Hin|].
    destruct (Hall run Hin Hid) as (Hst & Hcount & _).
    split; [exact Hst|]. rewrite Hcount, Hnone.
    assert (Hstatuses : map log_status rows = map snd (outcomes rows))
      by (unfold outcomes; rewrite map_map; reflexivity).
    rewrite Hstatuses, Hrows. reflexivity.
Defined.

(** C6 at its failing inputs.  (1) Every join attempt for A is answered with
    429: the exception that leaves [processSingleUser] is caught, A is counted
    as failed and listed, D is processed next and the run completes; but the
    item log has no row for A.  (2) With no attempt allowed to the join call,
    the value thrown is [undefined], the catch block itself throws when it
    reads [err.message], and the run is aborted at the first principal. *)
Theorem unexpected_failure_is_counted_not_logged :
  (fst (executeMigration (rate_limiting "A") cfg guild owner (fresh [A; D])) = inr tt
   /\ outcomes (migration_user_log
                  (db (snd (executeMigration (rate_limiting "A") cfg guild owner
                                             (fresh [A; D])))))
      = [("D", "added")]
   /\ map (fun run => (status run, added_count run, failed_count run))
          (migration_runs (db (snd (executeMigration (rate_limiting "A") cfg guild owner
                                                     (fresh [A; D])))))
      = [("completed", 1%nat, 1%nat)]
   /\ existsb (fun e => match e with
                        | EvFailedUsers ["A"] => true
                        | _ => false
                        end)
              (trace (snd (executeMigration (rate_limiting "A") cfg guild owner
                                            (fresh [A; D])))) = true)
  /\
  (fst (executeMigration calm cfg_no_attempt guild owner (fresh [A; D]))
   = inl (JsError "Cannot read properties of undefined (reading 'message')")
   /\ migration_user_log
        (db (snd (executeMigration calm cfg_no_attempt guild owner (fresh [A; D])))) = []
   /\ map status
          (migration_runs (db (snd (executeMigration calm cfg_no_attempt guild owner
                                                     (fresh [A; D])))))
      = ["running"]).
Proof. vm_compute. repeat split; reflexivity. Qed.

(** C1 at its failing input.  A first invocation over the candidates A and D
    is killed after A has been added.  The next invocation for the same
    guild resolves the running run 1 and skips A; every join attempt for D is
    answered with 429, the exception is caught and D is counted as failed,
    and the run completes: its final item log holds A alone, and the
    candidate D is in no row of it. *)
Theorem resumed_run_loses_a_candidate :
  outcomes (migration_user_log (db after_interruption)) = [("A", "added")]
  /\ map (fun run => (run_id run, status run)) (migration_runs (db after_interruption))
     = [(1%nat, "running")]
  /\ fst (executeMigration (rate_limiting "D") cfg guild owner after_interruption) = inr tt
  /\ outcomes (migration_user_log
                 (db (snd (executeMigration (rate_limiting "D") cfg guild owner
                                            after_interruption))))
     = [("A", "added")]
  /\ map (fun run => (run_id run, status run, added_count run, failed_count run))
         (migration_runs (db (snd (executeMigration (rate_limiting "D") cfg guild owner
                                                    after_interruption))))
     = [(1%nat, "completed", 1%nat, 1%nat)].
Proof. vm_compute. repeat split; reflexivity. Qed.

(** C8, the statement refuted: with C stored as revoked, the completed run
    counts no revoked token. *)
Lemma end_to_end_counts_refuted :
  ~ Stated.end_to_end_counts calm cfg guild owner (fresh [A; B; C]).
Proof.
  intros (run & Hin & _ & _ & _ & _ & Hrevoked & _).
  vm_compute in Hin. destruct Hin as [<-|[]]. discriminate.
Qed.

(** The example in the calm world. *)
Lemma end_to_end_example_witness :
  fst (executeMigration calm cfg guild owner (fresh [A; B; C])) = inr tt
  /\ outcomes (migration_user_log
                 (db (snd (executeMigration calm cfg guild owner (fresh [A; B; C])))))
     = [("A", "added"); ("B", "skipped_manual")]
  /\ exists run,
      migration_runs (db (snd (executeMigration calm cfg guild owner (fresh [A; B; C]))))
      = [run]
      /\ status run = "completed"
      /\ total_users run = 2%nat
      /\ added_count run = 1%nat
      /\ already_in_count run = 0%nat
      /\ skipped_manual run = 1%nat
      /\ token_revoked_count run = 0%nat
      /\ failed_count run = 0%nat.
Proof.
  apply (@end_to_end_example calm cfg (fun _ => eq_refl) "New Guild" (inr no_body)
                             (Some "tokA") eq_refl eq_refl eq_refl eq_refl
                             (le_S _ _ (le_S _ _ (le_n 1)))).
Defined.

End Instances.

Section ResumeInstances.

Import oauthService migrationService Observe Scenario.

Lemma calm_returns (guildId : string) (rid : nat) (u : VerifiedUser) :
  manually_verified u && negb (truthy (access_token u)) = false ->
  token_revoked u = false ->
  still_fresh calm u = true ->
  returns calm cfg guildId rid u.
Proof.
  intros Hmanual Hrevoked Hfresh s.
  assert (Hdecrypts : exists token, encryption.decrypt calm (access_token u) = inr token).
  { unfold encryption.decrypt. destruct (access_token u) as [payload|]; [|eauto].
    destruct (truthy (Some payload)); cbn; eauto. }
  destruct Hdecrypts as (token & Hdecrypts). eexists.
  rewrite (@processSingleUser_adds calm cfg (fun _ => eq_refl) u guildId rid token
             (inr no_body) s Hmanual Hrevoked Hfresh Hdecrypts
             (le_S _ _ (le_S _ _ (le_n 1))) eq_refl).
  reflexivity.
Qed.

Lemma fresh_well_formed : well_formed (db (fresh [A; D])) /\ at_most_once (db (fresh [A; D])).
Proof.
  split.
  - split; [|split; constructor].
    cbn. constructor; [|constructor; [|constructor]]; cbn; intuition discriminate.
  - intros rid. constructor.
Qed.

(** A and D are candidates; the first invocation is killed after A, the
    second one processes D: each of them is once in the item log of run 1. *)
Lemma resume_logs_each_candidate_once_witness :
  exists r1 s1 s2,
    interrupted calm cfg guild owner 1 (fresh [A; D]) = (inr r1, s1)
    /\ executeMigration calm cfg guild owner {| db := db s1; trace := [] |} = (inr tt, s2)
    /\ outcomes (migration_user_log (db s2)) = [("A", "added"); ("D", "added")]
    /\ (forall u, In u (userQueries.select_all_verified (db (fresh [A; D]))) ->
                  count_occ string_dec (logged_ids (run_id (migrationRun r1)) (db s2))
                            (discord_id u) = 1)
    /\ at_most_once (db s2).
Proof.
  destruct fresh_well_formed as (Hwf & Hinv).
  let first := eval vm_compute in (interrupted calm cfg guild owner 1 (fresh [A; D])) in
  lazymatch first with
  | (inr ?r1, ?s1) =>
      let second := eval vm_compute in
                      (executeMigration calm cfg guild owner {| db := db s1; trace := [] |}) in
      lazymatch second with
      | (inr tt, ?s2) => exists r1, s1, s2
      end
  end.
  match goal with
  | |- ?first /\ ?second /\ _ =>
      assert (Hint : first) by (vm_compute; reflexivity);
      assert (Hexec : second) by (vm_compute; reflexivity)
  end.
  split; [exact Hint|]. split; [exact Hexec|]. split; [reflexivity|].
  match type of Hint with
  | _ = (inr ?r1, ?s1) =>
      assert (Hfirst : Forall (returns calm cfg guild (run_id (migrationRun r1)))
                              (firstn 1 (usersToProcess r1)))
        by (apply Forall_cons; [apply calm_returns; reflexivity | apply Forall_nil]);
      assert (Hsecond : Forall (returns calm cfg guild (run_id (migrationRun r1)))
                               (pending (run_id (migrationRun r1)) (db s1)))
        by (apply Forall_cons; [apply calm_returns; reflexivity | apply Forall_nil])
  end.
  destruct (@resume_logs_each_candidate_once calm calm cfg cfg guild owner owner 1
              (fresh [A; D]) _ _ [] _ Hwf Hinv Hint Hfirst Hsecond Hexec)
    as (_ & _ & Hone & Hamo).
  split; assumption.
Defined.

(** Three invocations for the same guild, one after the other: the first is
    killed after one principal, the second meets a database that rejects the
    completing statement, the third runs in a calm world. *)
Lemma item_log_stays_at_most_once_witness :
  let invocations :=
    [ {| Invocations.world := calm; Invocations.config := cfg;
         Invocations.targetGuildId := guild; Invocations.initiatedBy := owner;
         Invocations.ending := Invocations.Killed 1 |};
      {| Invocations.world := failing_finalize; Invocations.config := cfg;
         Invocations.targetGuildId := guild; Invocations.initiatedBy := owner;
         Invocations.ending := Invocations.Completes |};
      {| Invocations.world := calm; Invocations.config := cfg;
         Invocations.targetGuildId := guild; Invocations.initiatedBy := owner;
         Invocations.ending := Invocations.Completes |} ] in
  well_formed (db (Invocations.invoke_all invocations (fresh [A; D])))
  /\ at_most_once (db (Invocations.invoke_all invocations (fresh [A; D])))
  /\ map (fun row => (migration_run_id row, log_discord_id row))
         (migration_user_log (db (Invocations.invoke_all invocations (fresh [A; D]))))
     = [(1%nat, "A"); (1%nat, "D")].
Proof.
  intros invocations.
  destruct (proj1 (@item_log_stays_at_most_once invocations (fresh [A; D])
                     (proj1 fresh_well_formed) (proj2 fresh_well_formed)))
    as [Hwf Hinv].
  split; [exact Hwf|]. split; [exact Hinv|].
  vm_compute. reflexivity.
Defined.

End ResumeInstances.

(* ================================================================== *)
(** * More on the retry executor *)
(* ================================================================== *)

Section RetryBounds.

Import Retry.

Variables S A : Type.
Variable sleep : Q -> S -> S.
Variable random : nat -> Q.
Variable fn : nat -> M S A.
Variable o : Options S.

Lemma attempts_from_calls (remaining attempt : nat) (lastError : Thrown)
      (calls : list nat) (s : S) :
  exists j,
    snd (attempts_from sleep random fn o remaining attempt lastError calls s)
    = calls ++ seq attempt j
    /\ j <= remaining
    /\ (0 < remaining -> 1 <= j).
Proof.
  revert attempt lastError calls s.
  induction remaining as [|remaining IH]; intros attempt lastError calls s.
  - exists 0. cbn. rewrite app_nil_r. repeat split; lia.
  - cbn [attempts_from].
    destruct (fn attempt s) as [[err|v] s1].
    + destruct ((attempt =? maxAttempts o) || negb (retryOn o err)).
      * exists 1. cbn. repeat split; lia.
      * destruct (pause sleep random o err attempt s1) as [[thrown|u] s2].
        -- exists 1. cbn. repeat split; lia.
        -- destruct (IH (Datatypes.S attempt) err (calls ++ [attempt]) s2)
             as (j & Hcalls & Hle & _).
           exists (Datatypes.S j). rewrite Hcalls, <- app_assoc. cbn.
           repeat split; lia.
    + exists 1. cbn. repeat split; lia.
Qed.

(** X3. The attempts of [retryWithBackoff]: [fn] is invoked with the attempt
    numbers 1, 2, ..., k in this order, for some k that does not exceed
    [maxAttempts] and is at least 1 when an attempt is allowed.  When none is
    allowed the executor throws [undefined] without invoking [fn] and without
    touching the store. *)
Theorem retry_attempts_are_bounded (s : S) :
  exists k,
    invocations sleep random fn o s = seq 1 k
    /\ k <= maxAttempts o
    /\ (0 < maxAttempts o -> 1 <= k)
    /\ (maxAttempts o = 0 ->
        k = 0 /\ retryWithBackoff sleep random fn o s = (inl JsUndefined, s)).
Proof.
  unfold invocations, retryWithBackoff.
  destruct (attempts_from_calls (maxAttempts o) 1 JsUndefined [] s) as (k & Hcalls & Hle & Hpos).
  exists k. repeat split; try assumption.
  - lia.
  - destruct (maxAttempts o); [reflexivity | discriminate].
Qed.


End RetryBounds.

(* ================================================================== *)
(** * More on the rate limiter *)
(* ================================================================== *)

Section RateLimiterMore.

Import RateLimiter.
Local Open Scope Z_scope.

Lemma last_nonempty (x : Z) (l : list Z) (d d' : Z) :
  List.last (x :: l) d = List.last (x :: l) d'.
Proof. revert x. induction l as [|y l IH]; intros x; [reflexivity|]. cbn in *. apply IH. Qed.

Lemma drain_fifo (q : list nat) (interval last : Z) (c : Clock) :
  let '(last', c', rel) := drain q interval last c in
  map fst rel = q
  /\ spaced interval (map snd rel)
  /\ match rel with
     | [] => last' = last /\ c' = c
     | first :: _ => last + interval <= snd first /\ last' = List.last (map snd rel) last
     end.
Proof.
  revert last c. induction q as [|ticket q IH]; intros last c; [cbn; auto|].
  cbn [drain]. unfold Date_now.
  set (c1 := advance 0 c).
  set (waitTime := Z.max 0 (interval - (time c1 - last))).
  set (c2 := if 0 <? waitTime then sleep waitTime c1 else c1).
  set (c3 := advance 0 c2).
  assert (Hstamp : last + interval <= time c3).
  { pose proof (advance_waits 0 c2) as H3. fold c3 in H3.
    subst c2. destruct (0 <? waitTime) eqn:Hwait.
    - pose proof (advance_waits waitTime c1) as H2. unfold sleep in *. lia.
    - apply Z.ltb_ge in Hwait. lia. }
  specialize (IH (time c3) c3).
  destruct (drain q interval (time c3) c3) as [[last' c'] rel].
  destruct IH as (Hq & Hsp & Hrel). cbn [map fst snd].
  split; [now rewrite Hq|]. split.
  - cbn [spaced]. split; [|exact Hsp].
    destruct rel as [|first rel]; [exact I|]. cbn [map]. destruct Hrel as [Hrel _]. lia.
  - split; [exact Hstamp|].
    destruct rel as [|first rel]; [now destruct Hrel|].
    destruct Hrel as [_ ->]. cbn [map].
    change (List.last (time c3 :: snd first :: map snd rel) last)
      with (List.last (snd first :: map snd rel) last).
    apply last_nonempty.
Qed.

(** X5. Callers queued on the limiter are released first in, first out: one
    pass of [_process] over a limiter that is not being processed resolves
    every queued caller once, in the order of the queue, consecutive releases
    at least [minInterval] apart and the first one at least [minInterval]
    after the last release before; it leaves the queue empty and the limiter
    ready, with [lastRequestTime] at the last release. *)
Theorem queued_callers_are_released_in_order (l : t) (c : Clock) :
  processing l = false ->
  let '(l', c', rel) := _process l c in
  map fst rel = queue l
  /\ spaced (minInterval l) (map snd rel)
  /\ Forall (fun release => lastRequestTime l + minInterval l <= release) (firstn 1 (map snd rel))
  /\ queue l' = []
  /\ processing l' = false
  /\ minInterval l' = minInterval l
  /\ lastRequestTime l' = List.last (map snd rel) (lastRequestTime l).
Proof.
  intros Hidle. unfold _process. rewrite Hidle.
  pose proof (drain_fifo (queue l) (minInterval l) (lastRequestTime l) c) as H.
  destruct (drain (queue l) (minInterval l) (lastRequestTime l) c) as [[last' c'] rel].
  destruct H as (Hq & Hsp & Hrel). cbn [queue processing minInterval lastRequestTime].
  repeat split; try assumption.
  - destruct rel as [|first rel]; cbn; [constructor|].
    constructor; [tauto | constructor].
  - destruct rel as [|first rel]; [tauto|]. now destruct Hrel.
Qed.

(** X6. No needless waiting: when at least [minInterval] has passed since the
    last release, [acquire] on an idle limiter resolves without sleeping.  The
    clock is read twice and the caller is released at the second reading. *)
Theorem acquire_does_not_wait_after_the_interval (ticket : nat) (l : t) (c : Clock) :
  idle l ->
  lastRequestTime l + minInterval l <= time c ->
  let release := time c + Z.of_N (lag c (seen c)) + Z.of_N (lag c (Datatypes.S (seen c))) in
  acquire ticket l c
  = ({| minInterval := minInterval l; burstSize := burstSize l;
        lastRequestTime := release; queue := []; processing := false |},
     {| time := release; lag := lag c; seen := Datatypes.S (Datatypes.S (seen c)) |},
     [(ticket, release)]).
Proof.
  intros [Hq Hp] Hpassed. cbn zeta.
  unfold acquire, _process. cbn [processing queue minInterval burstSize lastRequestTime].
  rewrite Hp, Hq. cbn [app drain]. unfold Date_now.
  set (c1 := advance 0 c).
  assert (Hwait : Z.max 0 (minInterval l - (time c1 - lastRequestTime l)) = 0).
  { subst c1. cbn [advance time]. lia. }
  rewrite Hwait. cbn [Z.ltb Z.compare].
  subst c1. unfold advance. cbn [time lag seen].
  rewrite !Z.add_0_r. reflexivity.
Qed.

(** Two limiters that differ at most in [burstSize]. *)
Lemma acquire_same_schedule (ticket : nat) (l1 l2 : t) (c : Clock) :
  minInterval l1 = minInterval l2 -> lastRequestTime l1 = lastRequestTime l2 ->
  queue l1 = queue l2 -> processing l1 = processing l2 ->
  let '(l1', c1', rel1) := acquire ticket l1 c in
  let '(l2', c2', rel2) := acquire ticket l2 c in
  c1' = c2' /\ rel1 = rel2
  /\ minInterval l1' = minInterval l2' /\ lastRequestTime l1' = lastRequestTime l2'
  /\ queue l1' = queue l2' /\ processing l1' = processing l2'.
Proof.
  intros Hi Hl Hq Hp. unfold acquire, _process.
  cbn [processing queue minInterval burstSize lastRequestTime].
  rewrite Hi, Hl, Hq, Hp.
  destruct (processing l2); [cbn; repeat split; reflexivity|].
  destruct (drain (queue l2 ++ [ticket]) (minInterval l2) (lastRequestTime l2) c)
    as [[last' c'] rel].
  cbn. repeat split; reflexivity.
Qed.

Lemma acquire_seq_same_schedule (n ticket : nat) (l1 l2 : t) (c : Clock) :
  minInterval l1 = minInterval l2 -> lastRequestTime l1 = lastRequestTime l2 ->
  queue l1 = queue l2 -> processing l1 = processing l2 ->
  acquire_seq n ticket l1 c = acquire_seq n ticket l2 c.
Proof.
  revert ticket l1 l2 c. induction n as [|n IH]; intros ticket l1 l2 c Hi Hl Hq Hp;
    [reflexivity|].
  cbn [acquire_seq].
  pose proof (acquire_same_schedule ticket l1 l2 c Hi Hl Hq Hp) as H.
  destruct (acquire ticket l1 c) as [[l1' c1'] rel1].
  destruct (acquire ticket l2 c) as [[l2' c2'] rel2].
  destruct H as (-> & -> & Hi' & Hl' & Hq' & Hp').
  f_equal. now apply IH.
Qed.

(** X7. The burst size is stored and never read: two limiters of the same
    rate release any sequence of callers at the same times, whatever burst
    sizes they were built with. *)
Theorem burst_size_is_ignored (requestsPerSecond burst1 burst2 : Z) (n ticket : nat)
        (c : Clock) :
  acquire_seq n ticket (new requestsPerSecond burst1) c
  = acquire_seq n ticket (new requestsPerSecond burst2) c.
Proof. apply acquire_seq_same_schedule; reflexivity. Qed.

End RateLimiterMore.

(* ================================================================== *)
(** * More on the engine *)
(* ================================================================== *)

Section EngineMore.

Import oauthService migrationService Observe.

Variable w : World.
Variable cfg : Config.

Lemma order_by_verified_at_nil (rows : list VerifiedUser) :
  userQueries.order_by_verified_at rows = [] -> rows = [].
Proof.
  intros H. pose proof (order_by_verified_at_perm rows) as Hp. rewrite H in Hp.
  now apply Permutation_nil.
Qed.

Lemma resolve_without_candidates (guildId initiatedBy : string) (s : Store) :
  userQueries.select_all_verified (db s) = [] ->
  exists err s',
    resolve w guildId initiatedBy s = (inl err, s')
    /\ db s' = db s
    /\ (guilds_cache w guildId <> None -> (forall op, fault w op = None) ->
        err = JsError "No verified users found in the database.").
Proof.
  intros Hnone. unfold resolve.
  unfold userQueries.getIncompleteMigrationRun, userQueries.getProcessedUsersForRun,
    userQueries.getAllVerifiedUsers, channel_send.
  js_unfold.
  destruct (guilds_cache w guildId) as [name|];
    [|do 2 eexists; repeat split; intros H; now contradiction H].
  destruct (fault w GetIncompleteMigrationRun) eqn:F1;
    [do 2 eexists; repeat split; intros _ Hok; rewrite Hok in F1; discriminate|].
  cbn [db trace].
  destruct (userQueries.select_incomplete guildId (db s)) as [existing|].
  - destruct (fault w GetProcessedUsersForRun) eqn:F2;
      [do 2 eexists; repeat split; intros _ Hok; rewrite Hok in F2; discriminate|].
    cbn [db trace].
    destruct (fault w (ChannelSend "🔄 Resuming Interrupted Migration")) eqn:F3;
      [do 2 eexists; repeat split; intros _ Hok; rewrite Hok in F3; discriminate|].
    cbn [db trace].
    destruct (fault w GetAllVerifiedUsers) eqn:F4;
      [do 2 eexists; repeat split; intros _ Hok; rewrite Hok in F4; discriminate|].
    cbn [db trace]. rewrite Hnone. cbn. do 2 eexists. repeat split.
  - destruct (fault w GetAllVerifiedUsers) eqn:F4;
      [do 2 eexists; repeat split; intros _ Hok; rewrite Hok in F4; discriminate|].
    cbn [db trace]. rewrite Hnone. cbn. do 2 eexists. repeat split.
Qed.

(** X8. Nothing to do, nothing recorded.  When the bot is not in the target
    guild the engine throws before it has made any query or sent any
    message.  When no verified principal is left to migrate it throws as
    well, and the tables are as they were: no run is created for an empty
    candidate set; if moreover nothing fails, the error is the one that says
    so. *)
Theorem no_candidates_no_run (guildId initiatedBy : string) (s : Store) :
  (guilds_cache w guildId = None ->
   executeMigration w cfg guildId initiatedBy s
   = (inl (JsError ("Bot is not in guild `" ++ guildId ++
                    "`. Invite the bot first, then retry.")), s))
  /\ (userQueries.select_all_verified (db s) = [] ->
      exists err,
        fst (executeMigration w cfg guildId initiatedBy s) = inl err
        /\ db (snd (executeMigration w cfg guildId initiatedBy s)) = db s
        /\ (guilds_cache w guildId <> None -> (forall op, fault w op = None) ->
            err = JsError "No verified users found in the database.")).
Proof.
  split.
  - intros Hguild. rewrite executeMigration_phases. unfold resolve. now rewrite Hguild.
  - intros Hnone. rewrite executeMigration_phases.
    destruct (resolve_without_candidates guildId initiatedBy s Hnone)
      as (err & s' & -> & Hdb & Hmsg).
    exists err. cbn. auto.
Qed.

Lemma latest_started_in (rows : list MigrationRun) (run : MigrationRun) :
  userQueries.latest_started rows = Some run -> In run rows.
Proof.
  unfold userQueries.latest_started.
  assert (H : forall l best,
             fold_left (fun best r =>
                          match best with
                          | None => Some r
                          | Some b => if (started_at b <? started_at r)%Z
                                      then Some r else Some b
                          end) l best = Some run ->
             best = Some run \/ In run l).
  { induction l as [|y l IHl]; intros best Hbest; cbn in *; [now left|].
    apply IHl in Hbest. destruct Hbest as [Hbest|Hin]; [|now right; right].
    destruct best as [b|].
    - destruct (started_at b <? started_at y)%Z.
      + injection Hbest as ->. now right; left.
      + now left.
    - injection Hbest as ->. now right; left. }
  intros Hrun. apply H in Hrun. destruct Hrun as [Hrun|Hin]; [discriminate | exact Hin].
Qed.

(** The runs that [getIncompleteMigrationRun] chooses from. *)
Lemma select_incomplete_in (guildId : string) (d : Database) (run : MigrationRun) :
  userQueries.select_incomplete guildId d = Some run ->
  In run (migration_runs d) /\ target_guild_id run = guildId /\ status run = "running".
Proof.
  unfold userQueries.select_incomplete. intros H. apply latest_started_in in H.
  apply filter_In in H. destruct H as (Hin & Hrun).
  apply andb_prop in Hrun. destruct Hrun as (Hg & Hst).
  apply String.eqb_eq in Hg, Hst. auto.
Qed.

Lemma complete_run_status (rid : nat) (now : Z) (counts : Counts) (run : MigrationRun) :
  status (userQueries.complete_run rid now counts run) = "running" ->
  run_id run <> rid /\ userQueries.complete_run rid now counts run = run.
Proof.
  unfold userQueries.complete_run.
  destruct (run_id run =? rid) eqn:E; cbn; [discriminate|].
  intros _. apply Nat.eqb_neq in E. auto.
Qed.

(** X9. A completed run is not resumed.  After an invocation that ran to its
    end, the run it resolved is stored as [completed]; the next look-up of an
    incomplete run for the guild never returns it, and returns nothing at
    all when the invocation had created the run or had found at most one
    run of the guild still [running]. *)
Theorem completed_run_is_not_resumed (guildId initiatedBy : string) (s : Store)
        (r : Resolved) (s1 s' : Store) :
  resolve w guildId initiatedBy s = (inr r, s1) ->
  executeMigration w cfg guildId initiatedBy s = (inr tt, s') ->
  (forall run, In run (migration_runs (db s')) ->
               run_id run = run_id (migrationRun r) -> status run = "completed")
  /\ (forall next, userQueries.select_incomplete guildId (db s') = Some next ->
                   run_id next <> run_id (migrationRun r) /\ In next (migration_runs (db s)))
  /\ (length (filter (fun run => String.eqb (target_guild_id run) guildId
                                 && String.eqb (status run) "running")
                     (migration_runs (db s))) <= 1 ->
      userQueries.select_incomplete guildId (db s') = None).
Proof.
  intros Hres Hexec.
  rewrite executeMigration_phases, Hres in Hexec. unfold process in Hexec.
  pose proof (processUsers_effect w cfg guildId (run_id (migrationRun r))
                (length (usersToProcess r)) (usersToProcess r) 0
                (initial_counts (length (usersToProcess r)), []) s1) as Hloop.
  cbn zeta in Hloop. destruct Hloop as (Hruns2 & _).
  destruct (processUsers _ _ _ _ _ _ _ _ s1) as [[e|acc] s2]; [discriminate|].
  cbn [fst snd] in Hruns2.
  pose proof (finalize_effect w guildId initiatedBy r acc s2) as Hfin. cbn zeta in Hfin.
  rewrite Hexec in Hfin. cbn [fst snd] in Hfin. destruct Hfin as (_ & _ & _ & _ & Hruns3).
  assert (Hok : fault w CompleteMigrationRun = None).
  { unfold finalize, userQueries.completeMigrationRun in Hexec.
    rewrite bind_run in Hexec. unfold query in Hexec.
    destruct (fault w CompleteMigrationRun); [discriminate | reflexivity]. }
  rewrite Hok, Hruns2 in Hruns3.
  pose proof (resolve_effect w guildId initiatedBy s) as Hr. cbn zeta in Hr.
  rewrite Hres in Hr. cbn [fst snd] in Hr.
  destruct Hr as (_ & _ & _ & _ & _ & Hr). destruct (Hr r eq_refl) as (_ & _ & _ & Hcase).
  set (rid := run_id (migrationRun r)) in *.
  set (complete := userQueries.complete_run rid (sql_now w CompleteMigrationRun)
                     (merged_counts (fst acc) (alreadyProcessed r))) in *.
  assert (Hstill : forall run, In run (migration_runs (db s')) -> status run = "running" ->
                               run_id run <> rid /\ In run (migration_runs (db s1))).
  { intros run Hin Hst. rewrite Hruns3 in Hin. apply in_map_iff in Hin.
    destruct Hin as (old & <- & Hin). subst complete.
    apply complete_run_status in Hst. destruct Hst as (Hid & Heq).
    rewrite Heq. auto. }
  assert (Hfilter : forall rows,
             filter (fun run => String.eqb (target_guild_id run) guildId
                                && String.eqb (status run) "running")
                    (map complete rows)
             = filter (fun run => negb (run_id run =? rid))
                      (filter (fun run => String.eqb (target_guild_id run) guildId
                                          && String.eqb (status run) "running") rows)).
  { induction rows as [|row rows IH]; [reflexivity|]. cbn [map filter]. rewrite IH.
    destruct (run_id row =? rid) eqn:E.
    - assert (Hdone : status (complete row) = "completed")
        by (subst complete; unfold userQueries.complete_run; now rewrite E).
      rewrite Hdone, andb_false_r.
      destruct (String.eqb (target_guild_id row) guildId && String.eqb (status row) "running");
        [cbn [filter]; rewrite E; reflexivity|reflexivity].
    - assert (Hsame : complete row = row)
        by (subst complete; unfold userQueries.complete_run; now rewrite E).
      rewrite Hsame.
      destruct (String.eqb (target_guild_id row) guildId && String.eqb (status row) "running");
        [cbn [filter]; rewrite E; reflexivity|reflexivity]. }
  split; [|split].
  - intros run Hin Hid. rewrite Hruns3 in Hin. apply in_map_iff in Hin.
    destruct Hin as (old & <- & Hin). subst complete. unfold userQueries.complete_run in *.
    destruct (run_id old =? rid) eqn:E; [reflexivity|].
    apply Nat.eqb_neq in E. contradiction.
  - intros next Hnext. apply select_incomplete_in in Hnext.
    destruct Hnext as (Hin & _ & Hst). destruct (Hstill next Hin Hst) as (Hid & Hin1).
    split; [exact Hid|].
    destruct (userQueries.select_incomplete guildId (db s)) as [existing|].
    + destruct Hcase as (_ & _ & <-). exact Hin1.
    + destruct Hcase as (_ & Hruns1 & Hnew & _). rewrite Hruns1 in Hin1.
      apply in_app_or in Hin1. destruct Hin1 as [Hin1|[<-|[]]]; [exact Hin1|].
      now contradiction Hid.
  - intros Hone. unfold userQueries.select_incomplete. rewrite Hruns3, Hfilter.
    destruct (userQueries.select_incomplete guildId (db s)) as [existing|] eqn:Hexisting.
    + destruct Hcase as (Hsame & _ & ->).
      unfold userQueries.select_incomplete in Hexisting.
      apply latest_started_in in Hexisting.
      destruct (filter (fun run => String.eqb (target_guild_id run) guildId
                                   && String.eqb (status run) "running")
                       (migration_runs (db s))) as [|x [|y rest]];
        [reflexivity| |cbn in Hone; lia].
      destruct Hexisting as [->|[]]. cbn [filter]. subst rid. rewrite Hsame, Nat.eqb_refl.
      reflexivity.
    + destruct Hcase as (_ & -> & _). rewrite filter_app.
      unfold userQueries.select_incomplete in Hexisting.
      apply latest_started_none in Hexisting. rewrite Hexisting. cbn [app filter].
      destruct (String.eqb (target_guild_id (migrationRun r)) guildId
                && String.eqb (status (migrationRun r)) "running"); [|reflexivity].
      cbn [filter]. subst rid. rewrite Nat.eqb_refl. reflexivity.
Qed.

End EngineMore.

(* ================================================================== *)
(** * The map of processed principals *)
(* ================================================================== *)

Section ProcessedMap.

Import Observe Measure.

Variable w : World.

Lemma JsMap_get_set (k k' v : string) (m : JsMap.t) :
  JsMap.get k (JsMap.set k' v m) = if String.eqb k' k then Some v else JsMap.get k m.
Proof.
  unfold JsMap.set, JsMap.get, JsMap.has.
  destruct (existsb (fun kv => String.eqb (fst kv) k') m) eqn:Hhas.
  - induction m as [|kv m IH]; [discriminate|].
    cbn [map find existsb] in *.
    destruct (String.eqb (fst kv) k') eqn:E1.
    + apply String.eqb_eq in E1. cbn [fst]. destruct (String.eqb k' k) eqn:E2.
      * reflexivity.
      * rewrite E1, E2.
        destruct (existsb (fun kv0 => String.eqb (fst kv0) k') m) eqn:Hrest.
        -- now apply IH.
        -- clear IH Hhas. induction m as [|kv' m IHm]; [reflexivity|].
           cbn [map find existsb] in *. apply orb_false_elim in Hrest.
           destruct Hrest as (Hne & Hrest). rewrite Hne. 
           destruct (String.eqb (fst kv') k); [reflexivity | now apply IHm].
    + cbn [orb] in Hhas.
      destruct (String.eqb (fst kv) k) eqn:E2.
      * destruct (String.eqb k' k) eqn:E3; [|reflexivity].
        apply String.eqb_eq in E2, E3. subst. rewrite String.eqb_refl in E1. discriminate.
      * now apply IH.
  - induction m as [|kv m IH]; cbn [app find existsb fst snd] in *.
    + destruct (String.eqb k' k); reflexivity.
    + apply orb_false_elim in Hhas. destruct Hhas as (Hne & Hhas).
      destruct (String.eqb (fst kv) k) eqn:E2.
      * destruct (String.eqb k' k) eqn:E3; [|reflexivity].
        apply String.eqb_eq in E2, E3. subst. rewrite String.eqb_refl in Hne. discriminate.
      * now apply IH.
Qed.

Lemma JsMap_of_entries_snoc (entries : list (string * string)) (kv : string * string) :
  JsMap.of_entries (entries ++ [kv]) = JsMap.set (fst kv) (snd kv) (JsMap.of_entries entries).
Proof. unfold JsMap.of_entries. now rewrite fold_left_app. Qed.

(** [new Map(entries).get(k)]: the value of the last entry with that key. *)
Lemma JsMap_get_of_entries (k : string) (entries : list (string * string)) :
  JsMap.get k (JsMap.of_entries entries)
  = option_map snd (find (fun kv => String.eqb (fst kv) k) (rev entries)).
Proof.
  induction entries as [|kv entries IH] using rev_ind; [reflexivity|].
  rewrite JsMap_of_entries_snoc, JsMap_get_set, rev_app_distr. cbn [rev app find].
  destruct (String.eqb (fst kv) k); [reflexivity | exact IH].
Qed.

Lemma JsMap_set_keys (k v : string) (m : JsMap.t) :
  NoDup (map fst m) -> NoDup (map fst (JsMap.set k v m)).
Proof.
  intros Hnd. unfold JsMap.set. destruct (JsMap.has k m) eqn:Hhas.
  - replace (map fst (map (fun kv => if String.eqb (fst kv) k then (k, v) else kv) m))
      with (map fst m); [exact Hnd|].
    rewrite map_map. apply map_ext. intros kv.
    destruct (String.eqb (fst kv) k) eqn:E; [|reflexivity].
    apply String.eqb_eq in E. now rewrite E.
  - rewrite map_app. cbn. apply NoDup_app; [exact Hnd | repeat constructor; intros [] |].
    intros key Hin [<-|[]]. apply in_map_iff in Hin. destruct Hin as (kv & Hk & Hin).
    unfold JsMap.has in Hhas. 
    assert (Hex : existsb (fun kv0 => String.eqb (fst kv0) (fst kv)) m = true).
    { apply existsb_exists. exists kv. split; [exact Hin | apply String.eqb_refl]. }
    rewrite Hk in Hex. rewrite Hex in Hhas. discriminate.
Qed.

Lemma JsMap_of_entries_keys (entries : list (string * string)) :
  NoDup (map fst (JsMap.of_entries entries)).
Proof.
  induction entries as [|kv entries IH] using rev_ind; [constructor|].
  rewrite JsMap_of_entries_snoc. now apply JsMap_set_keys.
Qed.

(** X10. What a resumed run knows of its past.  When the query goes through,
    [getProcessedUsersForRun] leaves the store as it is and returns a map in
    which no principal is twice, holding exactly the principals that the item
    log has under the run, each with the status of the row logged last for it;
    when the query is rejected, the call throws the error of the database. *)
Theorem processed_map_holds_last_outcomes (rid : nat) (s : Store) :
  match fault w GetProcessedUsersForRun with
  | Some reason =>
      userQueries.getProcessedUsersForRun w rid s = (inl (JsError reason), s)
  | None =>
      exists m,
        userQueries.getProcessedUsersForRun w rid s = (inr m, s)
        /\ NoDup (map fst m)
        /\ (forall id, JsMap.has id m = true <-> In id (logged_ids rid (db s)))
        /\ (forall id, JsMap.get id m = last_outcome rid id (db s))
  end.
Proof.
  unfold userQueries.getProcessedUsersForRun, query.
  destruct (fault w GetProcessedUsersForRun); [reflexivity|].
  eexists. split; [destruct s; reflexivity|].
  split; [apply JsMap_of_entries_keys|]. split.
  - intros id. rewrite JsMap_has_of_entries. apply existsb_logged.
  - intros id. rewrite JsMap_get_of_entries. unfold last_outcome, userQueries.select_processed.
    rewrite <- map_rev, <- filter_rev.
    induction (rev (migration_user_log (db s))) as [|row rows IH]; [reflexivity|].
    cbn [filter]. destruct (migration_run_id row =? rid) eqn:E.
    + cbn [map find fst]. rewrite E. cbn [andb].
      destruct (String.eqb (log_discord_id row) id); [reflexivity | exact IH].
    + cbn [find]. rewrite E. exact IH.
Qed.

End ProcessedMap.

(* ================================================================== *)
(** * More on the token life cycle *)
(* ================================================================== *)

Section RefreshMore.

Import oauthService Observe Measure.
Local Open Scope Z_scope.

Variable w : World.

(** X11. A successful refresh is persisted.  When the token of a principal
    is due, its stored refresh token decrypts and the token endpoint answers
    the refresh grant with 200, the call stores the new pair, encrypted, for
    the rows of that principal, together with the new expiry (the clock plus
    [expires_in] seconds), leaves every other row and table alone, and
    returns the new access token as the endpoint gave it.  If the database rejects the update with an error that
    does not read as an invalid grant, the call throws that error and the
    tables are as before: the new pair is lost. *)
Theorem refresh_success_is_persisted (user : VerifiedUser) (refresh : option string)
        (data : TokenBody) (s : Store) :
  still_fresh w user = false ->
  encryption.decrypt w (refresh_token user) = inr refresh ->
  token_endpoint w refresh = Reply 200 (inr data) ->
  let asked := trace s ++ [EvTokenRequest refresh] in
  match fault w (UpdateTokens (discord_id user)) with
  | None =>
      ensureFreshToken w user s
      = (inr (body_access_token data),
         {| db := userQueries.set_users (db s)
                    (map (userQueries.update_tokens (discord_id user)
                            (encryption.encrypt w (body_access_token data))
                            (encryption.encrypt w (body_refresh_token data))
                            (wall_clock w (discord_id user) 1 + body_expires_in data * 1000))
                         (verified_users (db s)));
            trace := asked |})
      /\ only_touches (eq (discord_id user)) (verified_users (db s))
                      (verified_users (db (snd (ensureFreshToken w user s))))
  | Some reason =>
      grant_is_invalid reason = false ->
      ensureFreshToken w user s = (inl (JsError reason), {| db := db s; trace := asked |})
  end.
Proof.
  intros Hdue Hdecrypts Hreply. cbn zeta.
  assert (Hbody : refresh_and_store w user s
                  = match fault w (UpdateTokens (discord_id user)) with
                    | None =>
                        (inr (body_access_token data),
                         {| db := userQueries.set_users (db s)
                                    (map (userQueries.update_tokens (discord_id user)
                                            (encryption.encrypt w (body_access_token data))
                                            (encryption.encrypt w (body_refresh_token data))
                                            (wall_clock w (discord_id user) 1
                                             + body_expires_in data * 1000))
                                         (verified_users (db s)));
                            trace := trace s ++ [EvTokenRequest refresh] |})
                    | Some reason =>
                        (inl (JsError reason),
                         {| db := db s;
                            trace := trace s ++ [EvTokenRequest refresh] |})
                    end).
  { unfold refresh_and_store, refreshToken. rewrite !bind_run.
    unfold lift_exc at 1. rewrite Hdecrypts. cbn [emit].
    rewrite Hreply. cbn [Z.eqb Pos.eqb negb ret].
    rewrite bind_run. unfold userQueries.updateTokens, query. cbn [db trace accessToken
      refreshToken_ expiresIn].
    destruct (fault w (UpdateTokens (discord_id user))); reflexivity. }
  unfold ensureFreshToken. rewrite Hdue, bind_run, try_catch_run, Hbody.
  destruct (fault w (UpdateTokens (discord_id user))) as [reason|].
  - intros Hother. cbn [fst snd]. rewrite bind_run. cbn [message_of lift_exc].
    now rewrite Hother.
  - cbn [fst snd ret]. split; [reflexivity|]. cbn [db userQueries.set_users verified_users].
    apply update_tokens_touch.
Qed.

End RefreshMore.

(* ================================================================== *)
(** * The requests of a run *)
(* ================================================================== *)

Section RequestBounds.

Import oauthService migrationService Observe Measure.

Variable w : World.
Variable cfg : Config.

Lemma grows_by_refl (t : list Event) : grows_by 0 0 t t.
Proof. exists []. rewrite app_nil_r. cbn. auto. Qed.

Lemma grows_by_trans (p1 g1 p2 g2 : nat) (t1 t2 t3 : list Event) :
  grows_by p1 g1 t1 t2 -> grows_by p2 g2 t2 t3 -> grows_by (p1 + p2) (g1 + g2) t1 t3.
Proof.
  intros (a1 & -> & Hp1 & Hg1) (a2 & -> & Hp2 & Hg2). exists (a1 ++ a2).
  rewrite app_assoc. split; [reflexivity|].
  unfold member_puts, token_requests in *. rewrite !filter_app, !length_app. lia.
Qed.

Lemma grows_by_weaken (p g p' g' : nat) (t t' : list Event) :
  grows_by p g t t' -> p <= p' -> g <= g' -> grows_by p' g' t t'.
Proof. intros (a & -> & Hp & Hg) Hp' Hg'. exists a. repeat split; lia. Qed.

Lemma grows_by_one (e : Event) (t : list Event) :
  grows_by (member_puts [e]) (token_requests [e]) t (t ++ [e]).
Proof. exists [e]. auto. Qed.

Lemma query_trace (A : Type) (op : Op) (run : Database -> A * Database) (s : Store) :
  trace (snd (query w op run s)) = trace s.
Proof. unfold query. destruct (fault w op); [reflexivity|]. now destruct (run (db s)). Qed.

Lemma ensureFreshToken_requests (user : VerifiedUser) (s : Store) :
  grows_by 0 1 (trace s) (trace (snd (ensureFreshToken w user s))).
Proof.
  unfold ensureFreshToken. destruct (still_fresh w user).
  - cbn [lift_exc snd]. apply (grows_by_weaken (grows_by_refl (trace s))); lia.
  - rewrite bind_run, try_catch_run.
    destruct (refresh_and_store_effect w user s) as (Htrace & _).
    cbn [fst snd].
    assert (Hgrown : grows_by 0 1 (trace s) (trace (snd (refresh_and_store w user s)))).
    { destruct (encryption.decrypt w (refresh_token user)) as [err|refresh]; rewrite Htrace.
      - cbn [snd]. apply (grows_by_weaken (grows_by_refl (trace s))); lia.
      - apply (grows_by_one (EvTokenRequest refresh)). }
    destruct (fst (refresh_and_store w user s)) as [err|token]; [|exact Hgrown].
    rewrite bind_run. destruct err as [m|]; cbn [message_of lift_exc]; [|exact Hgrown].
    destruct (grant_is_invalid m); [|exact Hgrown].
    rewrite bind_run. unfold userQueries.markTokenRevoked.
    pose proof (query_trace (MarkTokenRevoked (discord_id user))
                  (fun d => (tt, userQueries.set_users d
                                   (map (userQueries.mark_revoked (discord_id user)
                                           (sql_now w (MarkTokenRevoked (discord_id user))))
                                        (verified_users d))))
                  (snd (refresh_and_store w user s))) as Hq.
    destruct (query _ _ _ _) as [[e|u] s2]; cbn [snd throw] in *; now rewrite Hq.
Qed.

Lemma join_attempt_requests (guildId id : string) (token : option string) (n : nat)
      (s : Store) :
  grows_by 1 0 (trace s) (trace (snd (join_attempt w guildId id token n s))).
Proof.
  unfold join_attempt, addUserToGuild. rewrite !bind_run. cbn [emit].
  assert (Hput : grows_by 1 0 (trace s) (trace s ++ [EvMemberPut guildId id token]))
    by apply (grows_by_one (EvMemberPut guildId id token)).
  assert (Hslept : forall ms, grows_by 1 0 (trace s)
                                       ((trace s ++ [EvMemberPut guildId id token])
                                          ++ [EvSleep ms])).
  { intros ms. apply (grows_by_trans Hput (grows_by_one (EvSleep ms) _)). }
  destruct (members_endpoint w guildId id n) as [m|statusCode json]; [exact Hput|].
  repeat (split_match; cbn [ret throw fst snd trace sleep db]; try rewrite bind_run;
          try exact Hput; try apply Hslept).
Qed.

Lemma join_retry_requests (guildId id : string) (token : option string)
      (remaining attempt : nat) (lastError : Thrown) (calls : list nat) (s : Store) :
  grows_by remaining 0 (trace s)
    (trace (snd (fst (Retry.attempts_from sleep (Math_random w id)
                        (join_attempt w guildId id token) (join_retry_options cfg)
                        remaining attempt lastError calls s)))).
Proof.
  revert attempt lastError calls s.
  induction remaining as [|remaining IH]; intros attempt lastError calls s.
  - apply grows_by_refl.
  - cbn [Retry.attempts_from].
    pose proof (join_attempt_requests guildId id token attempt s) as Hone.
    destruct (join_attempt w guildId id token attempt s) as [[err|v] s1]; cbn [fst snd] in *.
    + destruct ((attempt =? Retry.maxAttempts (join_retry_options cfg))
                || negb (Retry.retryOn (join_retry_options cfg) err)).
      * apply (grows_by_weaken Hone); lia.
      * unfold Retry.pause. rewrite !bind_run. cbn [Retry.onRetry join_retry_options ret].
        destruct err as [m|]; cbn [message_of lift_exc fst snd].
        -- specialize (IH (S attempt) (JsError m) (calls ++ [attempt]) (sleep
             (Retry.jittered (Math_random w id) (join_retry_options cfg) attempt) s1)).
           cbn [sleep trace] in IH.
           assert (Hslept : grows_by 1 0 (trace s)
                              (trace s1 ++ [EvSleep (Retry.jittered (Math_random w id)
                                                       (join_retry_options cfg) attempt)])).
           { apply (grows_by_trans Hone (grows_by_one (EvSleep _) _)). }
           apply (grows_by_weaken (grows_by_trans Hslept IH)); lia.
        -- apply (grows_by_weaken Hone); lia.
    + apply (grows_by_weaken Hone); lia.
Qed.

Lemma logMigrationUser_trace (rid : nat) (id status : string) (detail : option string)
      (s : Store) :
  trace (snd (userQueries.logMigrationUser w rid id status detail s)) = trace s.
Proof. apply query_trace. Qed.

Lemma processSingleUser_requests (user : VerifiedUser) (guildId : string) (rid : nat)
      (s : Store) :
  grows_by (retryAttempts cfg) 1 (trace s)
           (trace (snd (processSingleUser w cfg user guildId rid s)))
  /\ (manually_verified user && negb (truthy (access_token user)) = true ->
      trace (snd (processSingleUser w cfg user guildId rid s)) = trace s).
Proof.
  assert (Hlogged : forall status detail (s' : Store) (k : JS string),
             (forall s'', trace (snd (k s'')) = trace s'') ->
             trace (snd ((userQueries.logMigrationUser w rid (discord_id user) status detail
                          ;; k) s')) = trace s').
  { intros status detail s' k Hk. rewrite bind_run.
    pose proof (logMigrationUser_trace rid (discord_id user) status detail s') as Hq.
    destruct (userQueries.logMigrationUser _ _ _ _ _ _) as [[e|u] s2]; cbn [snd] in *;
      [exact Hq | now rewrite Hk]. }
  unfold processSingleUser.
  destruct (manually_verified user && negb (truthy (access_token user))).
  { rewrite Hlogged by reflexivity. split; [|reflexivity].
    apply (grows_by_weaken (grows_by_refl _)); lia. }
  split; [|discriminate].
  destruct (token_revoked user).
  { rewrite Hlogged by reflexivity. apply (grows_by_weaken (grows_by_refl _)); lia. }
  rewrite bind_run, try_catch_run.
  pose proof (ensureFreshToken_requests user s) as Hfresh.
  destruct (ensureFreshToken w user s) as [[err|token] s1]; cbn [fst snd] in *.
  - rewrite bind_run. destruct err as [m|]; cbn [message_of lift_exc].
    + destruct (String.eqb m "TOKEN_REVOKED"); rewrite Hlogged by reflexivity;
        apply (grows_by_weaken Hfresh); lia.
    + apply (grows_by_weaken Hfresh); lia.
  - rewrite bind_run. cbn [emit]. rewrite bind_run. unfold Retry.retryWithBackoff.
    pose proof (join_retry_requests guildId (discord_id user) token
                  (Retry.maxAttempts (join_retry_options cfg)) 1 JsUndefined []
                  {| db := db s1; trace := trace s1 ++ [EvAcquire] |}) as Hjoin.
    cbn [trace Retry.maxAttempts join_retry_options] in Hjoin.
    assert (Hsofar : grows_by (retryAttempts cfg) 1 (trace s)
                       (trace (snd (fst (Retry.attempts_from sleep
                                           (Math_random w (discord_id user))
                                           (join_attempt w guildId (discord_id user) token)
                                           (join_retry_options cfg)
                                           (Retry.maxAttempts (join_retry_options cfg)) 1
                                           JsUndefined []
                                           {| db := db s1;
                                              trace := trace s1 ++ [EvAcquire] |}))))).
    { apply (grows_by_weaken
               (grows_by_trans (grows_by_trans Hfresh (grows_by_one EvAcquire _)) Hjoin));
        cbn; lia. }
    destruct (fst (Retry.attempts_from _ _ _ _ _ _ _ _ _)) as [[e|result] s2];
      cbn [fst snd] in *; [exact Hsofar|].
    rewrite bind_run.
    pose proof (logMigrationUser_trace rid (discord_id user) (join_status result)
                  (js_or (join_error result) None) s2) as Hq.
    destruct (userQueries.logMigrationUser _ _ _ _ _ _) as [[e|u] s3]; cbn [snd] in *;
      [now rewrite Hq|].
    rewrite bind_run. cbn [ret snd sleep trace]. rewrite Hq.
    apply (grows_by_weaken (grows_by_trans Hsofar (grows_by_one (EvSleep _) _))); cbn; lia.
Qed.

Lemma quiet_bind (A B : Type) (c : JS A) (k : A -> JS B) (s : Store) :
  grows_by 0 0 (trace s) (trace (snd (c s))) ->
  (forall a s1, grows_by 0 0 (trace s1) (trace (snd (k a s1)))) ->
  grows_by 0 0 (trace s) (trace (snd (bind c k s))).
Proof.
  intros Hc Hk. rewrite bind_run. destruct (c s) as [[e|a] s1]; cbn [snd] in *; [exact Hc|].
  apply (grows_by_trans Hc (Hk a s1)).
Qed.

Lemma quiet_query (A : Type) (op : Op) (run : Database -> A * Database) (s : Store) :
  grows_by 0 0 (trace s) (trace (snd (query w op run s))).
Proof. rewrite query_trace. apply grows_by_refl. Qed.

Lemma quiet_send (title : string) (e : Event) (s : Store) :
  member_puts [e] = 0 -> token_requests [e] = 0 ->
  grows_by 0 0 (trace s) (trace (snd (channel_send w title e s))).
Proof.
  intros Hp Hg. unfold channel_send.
  destruct (fault w (ChannelSend title)); [apply grows_by_refl|].
  cbn [emit snd trace]. exists [e]. rewrite Hp, Hg. auto.
Qed.

Lemma resolve_requests (guildId initiatedBy : string) (s : Store) :
  grows_by 0 0 (trace s) (trace (snd (resolve w guildId initiatedBy s))).
Proof.
  unfold resolve, userQueries.getIncompleteMigrationRun, userQueries.getProcessedUsersForRun,
    userQueries.getAllVerifiedUsers, userQueries.createMigrationRun, userQueries.writeAuditLog.
  destruct (guilds_cache w guildId); [|apply grows_by_refl].
  apply quiet_bind; [apply quiet_query | intros existing s1].
  apply quiet_bind.
  { destruct existing as [run|]; [|apply grows_by_refl].
    apply quiet_bind; [apply quiet_query | intros m s2].
    apply quiet_bind; [now apply quiet_send | intros; apply grows_by_refl]. }
  intros already s2.
  apply quiet_bind; [apply quiet_query | intros users s3].
  destruct (length users =? 0); [apply grows_by_refl|].
  apply quiet_bind.
  { destruct existing; [apply grows_by_refl | apply quiet_query]. }
  intros run s4.
  apply quiet_bind; [apply quiet_query | intros ? s5].
  apply quiet_bind; [now apply quiet_send | intros; apply grows_by_refl].
Qed.

Lemma finalize_requests (guildId initiatedBy : string) (r : Resolved)
      (acc : Counts * list string) (s : Store) :
  grows_by 0 0 (trace s) (trace (snd (finalize w guildId initiatedBy r acc s))).
Proof.
  unfold finalize, userQueries.completeMigrationRun, userQueries.writeAuditLog.
  apply quiet_bind; [apply quiet_query | intros ? s1].
  apply quiet_bind; [apply quiet_query | intros ? s2].
  apply quiet_bind; [now apply quiet_send | intros ? s3].
  destruct ((0 <? length (snd acc)) && (length (snd acc) <=? 50)); [now apply quiet_send|].
  destruct (50 <? length (snd acc)); [now apply quiet_send | apply grows_by_refl].
Qed.

Lemma progress_step_requests (counts : Counts) (processed toProcess : nat) (s : Store) :
  grows_by 0 0 (trace s) (trace (snd (progress_step w cfg counts processed toProcess s))).
Proof.
  unfold progress_step, sendProgressUpdate.
  destruct (progress_due cfg processed toProcess); [|apply grows_by_refl].
  destruct (fault w (StatusMessageEdit processed)); [apply grows_by_refl|].
  cbn [emit snd trace]. eexists. split; [reflexivity|]. cbn. auto.
Qed.

Lemma processUsers_requests (guildId : string) (rid toProcess : nat)
      (users : list VerifiedUser) (processed : nat) (acc : Counts * list string)
      (s : Store) :
  grows_by (length users * retryAttempts cfg) (length users) (trace s)
           (trace (snd (processUsers w cfg guildId rid toProcess users processed acc s))).
Proof.
  revert processed acc s. induction users as [|user users IH]; intros processed acc s.
  - apply grows_by_refl.
  - cbn [processUsers]. rewrite bind_run, try_catch_run.
    destruct (processSingleUser_requests user guildId rid s) as (Hitem & _).
    destruct (processSingleUser w cfg user guildId rid s) as [outcome s1]; cbn [fst snd] in *.
    rewrite bind_run.
    assert (Hcont : forall acc1 s',
               trace s' = trace s1 ->
               grows_by (length (user :: users) * retryAttempts cfg) (length (user :: users))
                        (trace s)
                        (trace (snd ((progress_step w cfg (fst acc1) (S processed) toProcess ;;
                                      processUsers w cfg guildId rid toProcess users
                                                   (S processed) acc1) s')))).
    { intros acc1 s' Hsame. rewrite bind_run.
      pose proof (progress_step_requests (fst acc1) (S processed) toProcess s') as Hstep.
      rewrite Hsame in Hstep.
      destruct (progress_step w cfg (fst acc1) (S processed) toProcess s') as [[e|u] s2];
        cbn [snd] in *.
      - apply (grows_by_weaken (grows_by_trans Hitem Hstep)); cbn; lia.
      - apply (grows_by_weaken (grows_by_trans (grows_by_trans Hitem Hstep)
                                               (IH (S processed) acc1 s2))); cbn; lia. }
    destruct outcome as [err|result].
    + rewrite bind_run. destruct err as [m|]; cbn [message_of lift_exc ret].
      * now apply Hcont.
      * cbn [snd]. apply (grows_by_weaken Hitem); cbn; lia.
    + cbn [ret]. now apply Hcont.
Qed.

Lemma filter_length_le (A : Type) (keep : A -> bool) (l : list A) :
  length (filter keep l) <= length l.
Proof. induction l as [|x l IH]; cbn; [lia|]. destruct (keep x); cbn; lia. Qed.

(** X12. The requests of a run are bounded.  Whatever the environment does,
    an invocation of the engine sends, for every candidate it found, at most
    [retryAttempts] join requests and at most one refresh grant: its trace
    grows by no more than that.  A principal that is manually verified and
    has no access token causes no request and no other event at all. *)
Theorem requests_are_bounded (guildId initiatedBy : string) (s : Store) :
  grows_by (length (userQueries.select_all_verified (db s)) * retryAttempts cfg)
           (length (userQueries.select_all_verified (db s)))
           (trace s)
           (trace (snd (executeMigration w cfg guildId initiatedBy s)))
  /\ (forall user rid s',
        manually_verified user && negb (truthy (access_token user)) = true ->
        trace (snd (processSingleUser w cfg user guildId rid s')) = trace s').
Proof.
  split; [|intros user rid s'; apply processSingleUser_requests].
  rewrite executeMigration_phases.
  pose proof (resolve_requests guildId initiatedBy s) as Hres.
  pose proof (resolve_effect w guildId initiatedBy s) as Hr. cbn zeta in Hr.
  destruct Hr as (_ & _ & _ & _ & _ & Hr).
  destruct (resolve w guildId initiatedBy s) as [[e|r] s1]; cbn [fst snd] in *.
  { apply (grows_by_weaken Hres); lia. }
  destruct (Hr r eq_refl) as (_ & Hall & Hto & _).
  assert (Hlen : length (usersToProcess r)
                 <= length (userQueries.select_all_verified (db s))).
  { rewrite Hto, <- Hall. destruct (0 <? JsMap.size (alreadyProcessed r)); [|lia].
    apply filter_length_le. }
  unfold process.
  pose proof (processUsers_requests guildId (run_id (migrationRun r))
                (length (usersToProcess r)) (usersToProcess r) 0
                (initial_counts (length (usersToProcess r)), []) s1) as Hloop.
  destruct (processUsers _ _ _ _ _ _ _ _ s1) as [[e|acc] s2]; cbn [snd] in *.
  { apply (grows_by_weaken (grows_by_trans Hres Hloop)); cbn; nia. }
  pose proof (finalize_requests guildId initiatedBy r acc s2) as Hfin.
  apply (grows_by_weaken (grows_by_trans (grows_by_trans Hres Hloop) Hfin)); cbn; nia.
Qed.

End RequestBounds.

(* ================================================================== *)
(** * HTML escaping *)
(* ================================================================== *)

Section EscapeFacts.

Import oauthRoutes.

Lemma list_ascii_app (s1 s2 : string) :
  list_ascii_of_string (s1 ++ s2) = list_ascii_of_string s1 ++ list_ascii_of_string s2.
Proof. induction s1 as [|c s1 IH]; cbn; [reflexivity | now rewrite IH]. Qed.

Lemma entity_cases (c : ascii) :
  (c = amp /\ entity c = Some "&amp;")
  \/ (c = lt /\ entity c = Some "&lt;")
  \/ (c = gt /\ entity c = Some "&gt;")
  \/ (c = quot /\ entity c = Some "&quot;")
  \/ (c = apos /\ entity c = Some "&#039;")
  \/ (c <> amp /\ c <> lt /\ c <> gt /\ c <> quot /\ c <> apos /\ entity c = None).
Proof.
  unfold entity.
  destruct (Ascii.eqb_spec c amp) as [->|H1]; [now left|].
  destruct (Ascii.eqb_spec c lt) as [->|H2]; [now right; left|].
  destruct (Ascii.eqb_spec c gt) as [->|H3]; [now right; right; left|].
  destruct (Ascii.eqb_spec c quot) as [->|H4]; [now right; right; right; left|].
  destruct (Ascii.eqb_spec c apos) as [->|H5]; [now right; right; right; right; left|].
  now repeat right.
Qed.

(** X13. Escaped text carries no markup.  Whatever the input, the output
    of [escapeHtml] contains no less-than sign, no greater-than sign, no
    double quote and no apostrophe; an input without any of the five special
    characters comes out unchanged; and two different inputs never have the
    same output. *)
Theorem escaped_text_has_no_markup (str : string) :
  (forall c, In c (list_ascii_of_string (escapeHtml str)) ->
             c <> lt /\ c <> gt /\ c <> quot /\ c <> apos)
  /\ ((forall c, In c (list_ascii_of_string str) -> entity c = None) ->
      escapeHtml str = str)
  /\ (forall other, escapeHtml str = escapeHtml other -> str = other).
Proof.
  induction str as [|c rest (IHsafe & IHsame & IHinj)].
  - split; [intros c []|]. split; [reflexivity|].
    intros [|c' other]; [reflexivity|]. cbn [escapeHtml].
    destruct (entity_cases c') as [(-> & ->)|[(-> & ->)|[(-> & ->)|[(-> & ->)|[(-> & ->)|
      (_ & _ & _ & _ & _ & ->)]]]]]; discriminate.
  - cbn [escapeHtml list_ascii_of_string]. split; [|split].
    + intros x Hx.
      destruct (entity_cases c) as [(-> & E)|[(-> & E)|[(-> & E)|[(-> & E)|[(-> & E)|
        (H1 & H2 & H3 & H4 & H5 & E)]]]]]; rewrite E in Hx;
        try (rewrite list_ascii_app in Hx; apply in_app_or in Hx;
             destruct Hx as [Hx|Hx]; [|now apply IHsafe];
             cbn in Hx; repeat (destruct Hx as [<-|Hx]; [repeat split; discriminate|]);
             contradiction).
      cbn in Hx. destruct Hx as [<-|Hx]; [auto | now apply IHsafe].
    + intros Hplain. rewrite (Hplain c (or_introl eq_refl)).
      rewrite IHsame; [reflexivity|]. intros x Hx. apply Hplain. now right.
    + intros [|c' other]; cbn [escapeHtml].
      * destruct (entity_cases c) as [(-> & ->)|[(-> & ->)|[(-> & ->)|[(-> & ->)|[(-> & ->)|
          (_ & _ & _ & _ & _ & ->)]]]]]; discriminate.
      * destruct (entity_cases c) as [(-> & ->)|[(-> & ->)|[(-> & ->)|[(-> & ->)|[(-> & ->)|
          (H1 & H2 & H3 & H4 & H5 & ->)]]]]];
        destruct (entity_cases c') as [(-> & ->)|[(-> & ->)|[(-> & ->)|[(-> & ->)|[(-> & ->)|
          (H1' & H2' & H3' & H4' & H5' & ->)]]]]];
        cbn; intros Heq; try discriminate;
          try (injection Heq as Heq; apply IHinj in Heq; now subst);
          try (injection Heq as Hhead Heq; apply IHinj in Heq; now subst);
          try (injection Heq as Hhead Heq; unfold amp in *; congruence).
Qed.

End EscapeFacts.

(* ================================================================== *)
(** * The progress bar *)
(* ================================================================== *)

Section ProgressBarFacts.

Import progressBar.

Lemma string_app_assoc (s1 s2 s3 : string) :
  ((s1 ++ s2) ++ s3 = s1 ++ (s2 ++ s3))%string.
Proof. induction s1 as [|c s1 IH]; cbn; [reflexivity | now rewrite IH]. Qed.

Lemma count_cells_plain (cell : string) (c0 : ascii) (cell' plain rest : string) :
  cell = String c0 cell' ->
  (forall c, In c (list_ascii_of_string plain) -> c <> c0) ->
  count_cells cell (plain ++ rest) = count_cells cell rest.
Proof.
  intros -> Hplain. induction plain as [|c plain IH]; [reflexivity|].
  cbn [append count_cells starts_with].
  destruct (Ascii.eqb_spec c0 c) as [->|Hne].
  - exfalso. apply (Hplain c); [now left | reflexivity].
  - rewrite IH; [reflexivity|]. intros x Hx. apply Hplain. now right.
Qed.

Lemma count_full_full (rest : string) :
  count_cells full (full ++ rest) = S (count_cells full rest).
Proof. unfold full. cbn. destruct rest; reflexivity. Qed.

Lemma count_full_hollow (rest : string) :
  count_cells full (hollow ++ rest) = count_cells full rest.
Proof. unfold full, hollow. cbn. reflexivity. Qed.

Lemma count_hollow_hollow (rest : string) :
  count_cells hollow (hollow ++ rest) = S (count_cells hollow rest).
Proof. unfold hollow. cbn. destruct rest; reflexivity. Qed.

Lemma count_hollow_full (rest : string) :
  count_cells hollow (full ++ rest) = count_cells hollow rest.
Proof. unfold full, hollow. cbn. reflexivity. Qed.

Lemma count_in_cells (f e : nat) (rest : string) :
  count_cells full (repeat_cell full f ++ repeat_cell hollow e ++ rest)
  = f + count_cells full rest
  /\ count_cells hollow (repeat_cell full f ++ repeat_cell hollow e ++ rest)
     = e + count_cells hollow rest.
Proof.
  induction f as [|f [IHf IHh]].
  - cbn [repeat_cell append]. induction e as [|e [IHf IHh]]; [split; reflexivity|].
    cbn [repeat_cell]. rewrite !string_app_assoc, count_full_hollow, count_hollow_hollow.
    rewrite IHf, IHh. split; reflexivity.
  - cbn [repeat_cell]. rewrite !string_app_assoc, count_full_full, count_hollow_full.
    rewrite IHf, IHh. split; reflexivity.
Qed.

Lemma uint_digits (u : Decimal.uint) (c : ascii) :
  In c (list_ascii_of_string (NilEmpty.string_of_uint u)) ->
  (48 <= nat_of_ascii c <= 57).
Proof.
  induction u; cbn; intros H; try contradiction;
    (destruct H as [<-|H]; [cbn; lia | now apply IHu]).
Qed.

(** The text that follows the cells holds neither of them. *)
Lemma count_in_label (cell : string) (c0 : ascii) (cell' : string) (n : nat) :
  cell = String c0 cell' -> 128 <= nat_of_ascii c0 ->
  count_cells cell ("] " ++ decimal n ++ "%") = 0.
Proof.
  intros Hcell Hhigh.
  assert (Hplain : forall plain rest,
             (forall c, In c (list_ascii_of_string plain) -> nat_of_ascii c < 128) ->
             count_cells cell (plain ++ rest) = count_cells cell rest).
  { intros plain rest H. apply (@count_cells_plain cell c0 cell' plain rest Hcell).
    intros c Hc ->. apply H in Hc. lia. }
  rewrite (Hplain "] ").
  2:{ intros c [<-|[<-|[]]]; cbn; lia. }
  rewrite (Hplain (decimal n)).
  2:{ intros c Hc. apply uint_digits in Hc. lia. }
  subst cell. cbn. destruct (Ascii.eqb_spec c0 "%"%char) as [->|_]; [cbn in Hhigh; lia|].
  reflexivity.
Qed.

(** X14. The progress bar.  For a percentage up to 102 the bar is drawn
    with exactly twenty cells, of which the rounded fifth of the percentage
    are full and the others hollow, followed by the percentage itself; from
    103 on the count of hollow cells would be negative and the call throws
    instead of returning a bar. *)
Theorem progress_bar_has_twenty_cells (percentage : nat) :
  match createProgressBar percentage with
  | inr bar =>
      percentage <= 102
      /\ count_cells full bar = (percentage + 2) / 5
      /\ count_cells full bar + count_cells hollow bar = 20
      /\ bar = ("[" ++ repeat_cell full (count_cells full bar)
                    ++ repeat_cell hollow (count_cells hollow bar)
                    ++ "] " ++ decimal percentage ++ "%")%string
  | inl thrown =>
      103 <= percentage
      /\ thrown = JsError ("Invalid count value: -" ++ decimal ((percentage + 2) / 5 - 20))
  end.
Proof.
  unfold createProgressBar, fifth.
  destruct (20 <? (percentage + 2) / 5) eqn:Hover.
  - apply Nat.ltb_lt in Hover. split; [|reflexivity].
    destruct (Nat.le_gt_cases 103 percentage) as [|Hlow]; [assumption|].
    assert ((percentage + 2) / 5 <= 104 / 5) by (apply Nat.Div0.div_le_mono; lia).
    change (104 / 5) with 20 in *. lia.
  - apply Nat.ltb_ge in Hover.
    set (filled := (percentage + 2) / 5) in *.
    assert (Hcount : count_cells full
                       ("[" ++ repeat_cell full filled ++ repeat_cell hollow (20 - filled)
                            ++ "] " ++ decimal percentage ++ "%") = filled
                     /\ count_cells hollow
                          ("[" ++ repeat_cell full filled ++ repeat_cell hollow (20 - filled)
                               ++ "] " ++ decimal percentage ++ "%") = 20 - filled).
    { destruct (count_in_cells filled (20 - filled) ("] " ++ decimal percentage ++ "%"))
        as (Hf & Hh).
      rewrite (@count_in_label full _ _ percentage eq_refl) in Hf by (cbn; lia).
      rewrite (@count_in_label hollow _ _ percentage eq_refl) in Hh by (cbn; lia).
      split.
      - change ("[" ++ ?x)%string with (String "["%char x). cbn [count_cells starts_with].
        unfold full at 1. cbn [starts_with Ascii.eqb Bool.eqb andb]. rewrite Hf. lia.
      - change ("[" ++ ?x)%string with (String "["%char x). cbn [count_cells starts_with].
        unfold hollow at 1. cbn [starts_with Ascii.eqb Bool.eqb andb]. rewrite Hh. lia. }
    destruct Hcount as (Hf & Hh). rewrite Hf, Hh.
    split; [|split; [reflexivity|split; [lia|reflexivity]]].
    destruct (Nat.le_gt_cases percentage 102) as [|Hhigh]; [assumption|].
    assert (105 / 5 <= filled) by (apply Nat.Div0.div_le_mono; lia).
    change (105 / 5) with 21 in *. lia.
Qed.

End ProgressBarFacts.

(* ================================================================== *)
(** * Verified users *)
(* ================================================================== *)

Section AccountFacts.

Import verifiedUsers Measure.
Local Open Scope Z_scope.

Variable pg : Postgres.

Lemma find_has_id (id : string) (rows : list Account) (a : Account) :
  NoDup (map account_id rows) -> In a rows -> account_id a = id ->
  find (has_id id) rows = Some a.
Proof.
  intros Hnd Hin Hid. induction rows as [|b rows IH]; [contradiction|].
  cbn [find]. unfold has_id at 1. cbn [map] in Hnd. inversion Hnd as [|? ? Hnot Hrest]; subst.
  destruct Hin as [->|Hin].
  - now rewrite String.eqb_refl.
  - destruct (String.eqb_spec (account_id b) (account_id a)) as [Heq|Hne].
    + exfalso. apply Hnot. rewrite Heq. now apply in_map.
    + now apply IH.
Qed.

Lemma existsb_has_id (id : string) (rows : list Account) :
  existsb (has_id id) rows = true <-> In id (map account_id rows).
Proof.
  rewrite existsb_exists. split.
  - intros (a & Hin & Ha). apply String.eqb_eq in Ha. rewrite <- Ha. now apply in_map.
  - intros Hin. apply in_map_iff in Hin. destruct Hin as (a & Ha & Hin).
    exists a. split; [exact Hin|]. now apply String.eqb_eq.
Qed.

Lemma replace_ids (id : string) (row : Account -> Account) (rows : list Account) :
  (forall a, account_id (row a) = account_id a) ->
  map account_id (map (fun a => if has_id id a then row a else a) rows)
  = map account_id rows.
Proof.
  intros Hrow. rewrite map_map. apply map_ext. intros a.
  destruct (has_id id a); [apply Hrow | reflexivity].
Qed.

Lemma upsert_ids (now : Z) (v : Verification) (rows : list Account) :
  map account_id (upsert now v rows)
  = if existsb (has_id (discordId v)) rows
    then map account_id rows
    else map account_id rows ++ [discordId v].
Proof.
  unfold upsert. destruct (existsb (has_id (discordId v)) rows) eqn:Hex.
  - rewrite map_map. apply map_ext_in. intros a Hin.
    destruct (has_id (discordId v) a) eqn:Ha; [|reflexivity].
    apply String.eqb_eq in Ha. now rewrite Ha.
  - now rewrite map_app.
Qed.

Lemma keys_after_insert (id : string) (rows : list Account) :
  NoDup (map account_id rows) -> existsb (has_id id) rows = false ->
  NoDup (map account_id rows ++ [id]).
Proof.
  intros Hnd Hex. apply NoDup_app; [exact Hnd | repeat constructor; intros [] |].
  intros x Hx [<-|[]]. apply existsb_has_id in Hx. rewrite Hx in Hex. discriminate.
Qed.

(** X15. Verification through OAuth stores a clean candidate.  When the
    database accepts the upsert, the table holds exactly one row for the
    principal, the one that the call returns: it carries the new tokens,
    expiry, profile and scopes, it is neither manual nor revoked (whatever
    the principal's row was before) and its revocation time is cleared; the
    rows of the other principals and the OAuth states are untouched, the
    primary key still holds, and the principal is among the candidates of
    the migration. *)
Theorem verified_account_is_a_candidate (v : Verification) (t : Tables) :
  rejects pg (UpsertVerifiedUser (discordId v)) = None ->
  NoDup (map account_id (accounts t)) ->
  let row := verified_row (NOW pg) v in
  exists t',
    upsertVerifiedUser pg v t = (inr row, t')
    /\ find (has_id (discordId v)) (accounts t') = Some row
    /\ (forall a, In a (accounts t') <->
                  a = row \/ (In a (accounts t) /\ account_id a <> discordId v))
    /\ NoDup (map account_id (accounts t'))
    /\ oauth_states t' = oauth_states t
    /\ manually_verified (principal row) = false
    /\ token_revoked (principal row) = false
    /\ revoked_at (principal row) = None
    /\ (forall d, shows d t' -> In (principal row) (userQueries.select_all_verified d)).
Proof.
  intros Hok Hnd. cbn zeta. unfold upsertVerifiedUser, statement. rewrite Hok.
  eexists. split; [reflexivity|]. cbn [accounts set_accounts oauth_states].
  assert (Hids : NoDup (map account_id (upsert (NOW pg) v (accounts t)))).
  { rewrite upsert_ids. destruct (existsb (has_id (discordId v)) (accounts t)) eqn:Hex;
      [exact Hnd | now apply keys_after_insert]. }
  assert (Hin : forall a, In a (upsert (NOW pg) v (accounts t)) <->
                          a = verified_row (NOW pg) v
                          \/ (In a (accounts t) /\ account_id a <> discordId v)).
  { intros a. unfold upsert.
    destruct (existsb (has_id (discordId v)) (accounts t)) eqn:Hex.
    - rewrite in_map_iff. split.
      + intros (b & Hb & Hin). destruct (has_id (discordId v) b) eqn:E.
        * left. now symmetry.
        * right. subst b. split; [exact Hin|]. intros Heq.
          unfold has_id in E. rewrite Heq, String.eqb_refl in E. discriminate.
      + intros [->|(Hin & Hne)].
        * apply existsb_exists in Hex. destruct Hex as (b & Hin & Hb).
          exists b. now rewrite Hb.
        * exists a. split; [|exact Hin].
          destruct (has_id (discordId v) a) eqn:E; [|reflexivity].
          apply String.eqb_eq in E. contradiction.
    - rewrite in_app_iff. cbn [In]. split.
      + intros [Hin|[<-|[]]]; [right|now left]. split; [exact Hin|].
        intros Heq. assert (Hex' : existsb (has_id (discordId v)) (accounts t) = true).
        { apply existsb_exists. exists a. split; [exact Hin|]. now apply String.eqb_eq. }
        rewrite Hex' in Hex. discriminate.
      + intros [->|(Hin & _)]; [right; now left | now left]. }
  split; [|split; [exact Hin|split; [exact Hids|]]].
  - apply find_has_id; [exact Hids | apply Hin; now left | reflexivity].
  - repeat split. intros d Hshows. apply select_all_verified_spec.
    split; [|reflexivity]. rewrite Hshows. cbn [accounts set_accounts].
    apply in_map, Hin. now left.
Qed.

Lemma verify_manually_ids (now : Z) (id : string) (rows : list Account) :
  map account_id (verify_manually now id rows)
  = if existsb (has_id id) rows
    then map account_id rows
    else map account_id rows ++ [id].
Proof.
  unfold verify_manually. destruct (existsb (has_id id) rows).
  - now apply replace_ids.
  - now rewrite map_app.
Qed.

(** X16. Manual verification touches the flag and the date only.  When the
    database accepts the statement, the principal has exactly one row
    afterwards, marked manual and verified now.  If the principal had a row,
    its tokens, their expiry, its profile and its revocation (flag and time)
    are as before, so that a revoked principal stays revoked and is still
    reported as not verified; if it had none, the new row has no tokens and
    is not revoked.  No other row and no OAuth state changes. *)
Theorem manual_verification_keeps_revocation (id : string) (t : Tables) :
  rejects pg (ManuallyVerifyUser id) = None ->
  NoDup (map account_id (accounts t)) ->
  exists row t',
    manuallyVerifyUser pg id t = (inr (Some row), t')
    /\ find (has_id id) (accounts t') = Some row
    /\ account_id row = id
    /\ manually_verified (principal row) = true
    /\ verified_at (principal row) = NOW pg
    /\ match find (has_id id) (accounts t) with
       | Some old =>
           access_token (principal row) = access_token (principal old)
           /\ refresh_token (principal row) = refresh_token (principal old)
           /\ token_expires_at (principal row) = token_expires_at (principal old)
           /\ token_revoked (principal row) = token_revoked (principal old)
           /\ revoked_at (principal row) = revoked_at (principal old)
           /\ username row = username old
           /\ discriminator row = discriminator old
           /\ scopes row = scopes old
           /\ length (accounts t') = length (accounts t)
       | None =>
           row = manual_row (NOW pg) id
           /\ accounts t' = accounts t ++ [row]
       end
    /\ (forall a, account_id a <> id -> (In a (accounts t') <-> In a (accounts t)))
    /\ NoDup (map account_id (accounts t'))
    /\ oauth_states t' = oauth_states t
    /\ (forall pg', rejects pg' (IsUserVerified id) = None ->
                    isUserVerified pg' id t'
                    = (inr (negb (token_revoked (principal row))), t')).
Proof.
  intros Hok Hnd. unfold manuallyVerifyUser, statement. rewrite Hok.
  set (rows := verify_manually (NOW pg) id (accounts t)).
  assert (Hids : NoDup (map account_id rows)).
  { subst rows. rewrite verify_manually_ids.
    destruct (existsb (has_id id) (accounts t)) eqn:Hex;
      [exact Hnd | now apply keys_after_insert]. }
  assert (Hverified : forall row, find (has_id id) rows = Some row ->
             forall pg', rejects pg' (IsUserVerified id) = None ->
                         isUserVerified pg' id (set_accounts t rows)
                         = (inr (negb (token_revoked (principal row))), set_accounts t rows)).
  { intros row Hrow pg' Hok'. unfold isUserVerified, statement. rewrite Hok'.
    cbn [accounts set_accounts]. f_equal. f_equal.
    clear - Hids Hrow. induction rows as [|a rows IH]; [discriminate|].
    cbn [find existsb] in *. cbn [map] in Hids. inversion Hids as [|? ? Hnot Hrest]; subst.
    destruct (has_id id a) eqn:Ha.
    - injection Hrow as <-. cbn [andb].
      destruct (negb (token_revoked (principal a))); [reflexivity|]. cbn [orb].
      apply not_true_is_false. intros Hex. apply existsb_exists in Hex.
      destruct Hex as (b & Hin & Hb). apply andb_prop in Hb. destruct Hb as (Hb & _).
      apply Hnot. apply String.eqb_eq in Ha, Hb. rewrite Ha, <- Hb. now apply in_map.
    - cbn [andb orb]. now apply IH. }
  destruct (find (has_id id) (accounts t)) as [old|] eqn:Hold.
  - assert (Hex : existsb (has_id id) (accounts t) = true).
    { apply existsb_exists. exists old. apply find_some in Hold. exact Hold. }
    assert (Hrows : rows = map (fun a => if has_id id a then mark_manual (NOW pg) a else a)
                               (accounts t))
      by (subst rows; unfold verify_manually; now rewrite Hex).
    assert (Hnew : find (has_id id) rows = Some (mark_manual (NOW pg) old)).
    { apply find_some in Hold. destruct Hold as (Hin & Hid).
      apply find_has_id; [exact Hids | | apply String.eqb_eq in Hid; exact Hid].
      rewrite Hrows. apply in_map_iff. exists old. now rewrite Hid. }
    exists (mark_manual (NOW pg) old), (set_accounts t rows).
    rewrite Hnew. cbn [accounts set_accounts oauth_states].
    split; [reflexivity|]. split; [exact Hnew|].
    apply find_some in Hold. destruct Hold as (Hin & Hid). apply String.eqb_eq in Hid.
    split; [exact Hid|]. split; [reflexivity|]. split; [reflexivity|].
    split; [repeat split; rewrite Hrows; apply length_map|].
    split; [|split; [exact Hids|split; [reflexivity|now apply Hverified]]].
    intros a Ha. rewrite Hrows, in_map_iff. split.
    + intros (b & Hb & Hinb). destruct (has_id id b) eqn:E.
      * apply String.eqb_eq in E. subst a. now contradiction Ha.
      * now subst b.
    + intros Hina. exists a. split; [|exact Hina].
      destruct (has_id id a) eqn:E; [|reflexivity].
      apply String.eqb_eq in E. contradiction.
  - assert (Hex : existsb (has_id id) (accounts t) = false).
    { apply not_true_is_false. intros Hex. apply existsb_exists in Hex.
      destruct Hex as (a & Hin & Ha). apply (find_none _ _ Hold) in Hin.
      rewrite Hin in Ha. discriminate. }
    assert (Hrows : rows = accounts t ++ [manual_row (NOW pg) id])
      by (subst rows; unfold verify_manually; now rewrite Hex).
    assert (Hnew : find (has_id id) rows = Some (manual_row (NOW pg) id)).
    { apply find_has_id; [exact Hids | | reflexivity].
      rewrite Hrows. apply in_or_app. right. now left. }
    exists (manual_row (NOW pg) id), (set_accounts t rows).
    rewrite Hnew. cbn [accounts set_accounts oauth_states].
    split; [reflexivity|]. split; [exact Hnew|]. split; [reflexivity|].
    split; [reflexivity|]. split; [reflexivity|]. split; [now split|].
    split; [|split; [exact Hids|split; [reflexivity|now apply Hverified]]].
    intros a Ha. rewrite Hrows, in_app_iff. cbn [In]. split; [|now left].
    intros [Hin|[<-|[]]]; [exact Hin|]. now contradiction Ha.
Qed.

Lemma insert_sorted (u : VerifiedUser) (l : list VerifiedUser) :
  StronglySorted by_time l -> StronglySorted by_time (userQueries.insert_by_verified_at u l).
Proof.
  induction 1 as [|v l Hl IH Hv]; cbn; [repeat constructor|].
  destruct (verified_at v <=? verified_at u) eqn:E.
  - apply Z.leb_le in E. constructor; [exact IH|].
    apply Forall_forall. intros x Hx.
    apply (Permutation_in _ (insert_by_verified_at_perm u l)) in Hx.
    destruct Hx as [<-|Hx]; [exact E|]. rewrite Forall_forall in Hv. now apply Hv.
  - apply Z.leb_gt in E. constructor; [now constructor|].
    constructor; [unfold by_time; lia|].
    eapply Forall_impl; [|exact Hv]. unfold by_time. intros x Hx. lia.
Qed.

Lemma fold_insert_sorted (l acc : list VerifiedUser) :
  StronglySorted by_time acc ->
  StronglySorted by_time
    (fold_left (fun sorted u => userQueries.insert_by_verified_at u sorted) l acc).
Proof.
  revert acc. induction l as [|u l IH]; intros acc Hacc; [exact Hacc|].
  cbn. apply IH. now apply insert_sorted.
Qed.

Lemma insert_before_later (u : VerifiedUser) (l : list VerifiedUser) :
  Forall (fun v => verified_at u < verified_at v) l ->
  userQueries.insert_by_verified_at u l = u :: l.
Proof.
  intros H. destruct l as [|v l]; [reflexivity|]. cbn.
  inversion H as [|? ? Hv _]; subst.
  destruct (verified_at v <=? verified_at u) eqn:E; [|reflexivity].
  apply Z.leb_le in E. lia.
Qed.

Lemma filter_insert (keep : VerifiedUser -> bool) (u : VerifiedUser)
      (l : list VerifiedUser) :
  StronglySorted by_time l ->
  filter keep (userQueries.insert_by_verified_at u l)
  = if keep u then userQueries.insert_by_verified_at u (filter keep l) else filter keep l.
Proof.
  induction 1 as [|v l Hl IH Hv]; cbn [userQueries.insert_by_verified_at filter].
  - destruct (keep u); reflexivity.
  - destruct (verified_at v <=? verified_at u) eqn:E.
    + cbn [filter]. rewrite IH. destruct (keep v), (keep u); try reflexivity.
      cbn [userQueries.insert_by_verified_at]. now rewrite E.
    + change ((if keep u then u :: filter keep (v :: l) else filter keep (v :: l))
              = if keep u
                then userQueries.insert_by_verified_at u (filter keep (v :: l))
                else filter keep (v :: l)).
      destruct (keep u); [|reflexivity].
      symmetry. apply insert_before_later. apply Z.leb_gt in E.
      apply Forall_forall. intros x Hx. apply filter_In in Hx. destruct Hx as [[<-|Hx] _];
        [exact E|].
      rewrite Forall_forall in Hv. specialize (Hv x Hx). unfold by_time in Hv. lia.
Qed.

Lemma order_filter (keep : VerifiedUser -> bool) (l : list VerifiedUser) :
  userQueries.order_by_verified_at (filter keep l)
  = filter keep (userQueries.order_by_verified_at l).
Proof.
  unfold userQueries.order_by_verified_at.
  change (@nil VerifiedUser) with (filter keep []) at 1.
  assert (H : forall acc, StronglySorted by_time acc ->
             fold_left (fun sorted u => userQueries.insert_by_verified_at u sorted)
                       (filter keep l) (filter keep acc)
             = filter keep (fold_left (fun sorted u =>
                                         userQueries.insert_by_verified_at u sorted) l acc)).
  { induction l as [|u l IH]; intros acc Hacc; [reflexivity|].
    cbn [filter fold_left]. rewrite <- IH by now apply insert_sorted.
    rewrite filter_insert by exact Hacc. destruct (keep u); reflexivity. }
  apply H. constructor.
Qed.

Lemma order_accounts (rows : list Account) :
  map principal (order_by_verified_at rows)
  = userQueries.order_by_verified_at (map principal rows).
Proof.
  unfold order_by_verified_at, userQueries.order_by_verified_at.
  change (@nil VerifiedUser) with (map principal []).
  generalize (@nil Account) as acc.
  induction rows as [|a rows IH]; intros acc; [reflexivity|].
  cbn [fold_left map]. rewrite IH. f_equal.
  clear. induction acc as [|b acc IHacc]; [reflexivity|].
  cbn. destruct (verified_at (principal b) <=? verified_at (principal a));
    cbn; [now rewrite IHacc | reflexivity].
Qed.

Lemma filter_principal (keep : VerifiedUser -> bool) (rows : list Account) :
  map principal (filter (fun a => keep (principal a)) rows)
  = filter keep (map principal rows).
Proof.
  induction rows as [|a rows IH]; [reflexivity|]. cbn.
  destruct (keep (principal a)); cbn; now rewrite IH.
Qed.

Lemma existsb_perm (A : Type) (f : A -> bool) (l l' : list A) :
  Permutation l l' -> existsb f l = existsb f l'.
Proof.
  intros Hp. apply eq_true_iff_eq. rewrite !existsb_exists. split.
  - intros (x & Hin & Hx). exists x. split; [now apply (Permutation_in _ Hp) | exact Hx].
  - intros (x & Hin & Hx). exists x.
    split; [now apply (Permutation_in _ (Permutation_sym Hp)) | exact Hx].
Qed.

(** X17. The read queries agree on who is verified.  On a table that shows
    the engine the same principals, and when the database accepts the
    statements: [countVerifiedUsers] is the number of candidates that
    [getAllVerifiedUsers] returns, [isUserVerified] holds of exactly their
    ids, and [getOAuthVerifiedUsers] returns exactly those of them that are
    not manual, in the same order.  None of the three changes a table. *)
Theorem read_queries_agree (d : Database) (t : Tables) :
  shows d t ->
  (rejects pg CountVerifiedUsers = None ->
   countVerifiedUsers pg t = (inr (length (userQueries.select_all_verified d)), t))
  /\ (forall id, rejects pg (IsUserVerified id) = None ->
                 isUserVerified pg id t
                 = (inr (existsb (fun u => String.eqb (discord_id u) id)
                                 (userQueries.select_all_verified d)), t))
  /\ (rejects pg GetOAuthVerifiedUsers = None ->
      exists rows,
        getOAuthVerifiedUsers pg t = (inr rows, t)
        /\ map principal rows
           = filter (fun u => negb (manually_verified u))
                    (userQueries.select_all_verified d)).
Proof.
  intros Hshows. unfold shows in Hshows. unfold userQueries.select_all_verified.
  rewrite Hshows. split; [|split].
  - intros Hok. unfold countVerifiedUsers, statement. rewrite Hok. f_equal. f_equal.
    rewrite (Permutation_length (order_by_verified_at_perm _)).
    rewrite <- (filter_principal (fun u => negb (token_revoked u))). now rewrite length_map.
  - intros id Hok. unfold isUserVerified, statement. rewrite Hok. f_equal. f_equal.
    rewrite (existsb_perm _ (order_by_verified_at_perm _)). clear Hshows.
    induction (accounts t) as [|a rows IH]; [reflexivity|].
    cbn [map filter existsb]. rewrite IH. unfold has_id, account_id.
    destruct (token_revoked (principal a)); cbn [negb existsb andb orb].
    + now rewrite andb_false_r.
    + now rewrite andb_true_r.
  - intros Hok. unfold getOAuthVerifiedUsers, statement. rewrite Hok.
    eexists. split; [reflexivity|].
    rewrite order_accounts, <- order_filter. f_equal.
    rewrite (filter_principal (fun u => negb (manually_verified u) && negb (token_revoked u))).
    clear Hshows. induction (map principal (accounts t)) as [|u us IH]; [reflexivity|].
    simpl. destruct (token_revoked u); simpl; destruct (manually_verified u); simpl;
      now rewrite ?IH.
Qed.

End AccountFacts.

(* ================================================================== *)
(** * OAuth states *)
(* ================================================================== *)

Section StateFacts.

Import verifiedUsers.
Local Open Scope Z_scope.

Lemma consumable_spec (now : Z) (st : string) (row : OAuthState) :
  consumable now st row = true <-> state row = st /\ used row = false /\ now < expires_at row.
Proof.
  unfold consumable. rewrite !andb_true_iff, String.eqb_eq, negb_true_iff, Z.ltb_lt. tauto.
Qed.

Lemma consume_keeps_states (now : Z) (st : string) (rows : list OAuthState) :
  map state (map (fun row => if consumable now st row then mark_used row else row) rows)
  = map state rows.
Proof.
  rewrite map_map. apply map_ext. intros row. now destruct (consumable now st row).
Qed.

Lemma find_nothing (A : Type) (f : A -> bool) (l : list A) :
  (forall x, In x l -> f x = false) -> find f l = None.
Proof.
  induction l as [|x l IH]; intros H; [reflexivity|]. cbn.
  rewrite (H x (or_introl eq_refl)). apply IH. intros y Hy. apply H. now right.
Qed.

Lemma find_past (A : Type) (f : A -> bool) (l l' : list A) :
  (forall x, In x l -> f x = false) -> find f (l ++ l') = find f l'.
Proof.
  induction l as [|x l IH]; intros H; [reflexivity|]. cbn.
  rewrite (H x (or_introl eq_refl)). apply IH. intros y Hy. apply H. now right.
Qed.

Lemma nothing_to_consume (now : Z) (st : string) (t : Tables) :
  (forall row, In row (oauth_states t) -> consumable now st row = false) ->
  set_states t (map (fun row => if consumable now st row then mark_used row else row)
                    (oauth_states t)) = t.
Proof.
  intros Hnone. destruct t as [accs rows]. unfold set_states. cbn [accounts oauth_states] in *.
  f_equal. rewrite <- (map_id rows) at 2. apply map_ext_in. intros row Hin.
  now rewrite (Hnone row Hin).
Qed.

Lemma same_state_same_row (rows : list OAuthState) (r1 r2 : OAuthState) :
  NoDup (map state rows) -> In r1 rows -> In r2 rows -> state r1 = state r2 -> r1 = r2.
Proof.
  induction rows as [|r rows IH]; intros Hnd H1 H2 Heq; [contradiction|].
  cbn [map] in Hnd. inversion Hnd as [|? ? Hnot Hrest]; subst.
  destruct H1 as [<-|H1], H2 as [<-|H2].
  - reflexivity.
  - exfalso. apply Hnot. rewrite Heq. now apply in_map.
  - exfalso. apply Hnot. rewrite <- Heq. now apply in_map.
  - now apply IH.
Qed.

(** X18. An OAuth state is good for one callback.  When the database accepts
    the statement, [consumeOAuthState] returns a row only for a state that is
    stored, unused and not yet expired, and returns it marked as used; it
    adds and removes no row and touches no account.  Otherwise it returns
    nothing and changes nothing.  Once a state has been returned, no later
    call returns it again, whenever that call is made. *)
Theorem oauth_state_is_single_use (pg : Postgres) (st : string) (t : Tables) :
  rejects pg (ConsumeOAuthState st) = None ->
  NoDup (map state (oauth_states t)) ->
  exists result t',
    consumeOAuthState pg st t = (inr result, t')
    /\ accounts t' = accounts t
    /\ map state (oauth_states t') = map state (oauth_states t)
    /\ match result with
       | Some row =>
           exists old,
             In old (oauth_states t)
             /\ state old = st /\ used old = false /\ NOW pg < expires_at old
             /\ row = mark_used old
             /\ In row (oauth_states t')
             /\ forall pg', rejects pg' (ConsumeOAuthState st) = None ->
                            consumeOAuthState pg' st t' = (inr None, t')
       | None =>
           t' = t
           /\ forall old, In old (oauth_states t) -> state old = st ->
                          used old = true \/ expires_at old <= NOW pg
       end.
Proof.
  intros Hok Hnd. unfold consumeOAuthState, statement. rewrite Hok.
  destruct (find (consumable (NOW pg) st) (oauth_states t)) as [old|] eqn:Hfind;
    cbn [option_map].
  - do 2 eexists. split; [reflexivity|]. cbn [accounts oauth_states set_states].
    split; [reflexivity|]. split; [apply consume_keeps_states|].
    apply find_some in Hfind. destruct Hfind as (Hin & Hold).
    pose proof Hold as Hc. apply consumable_spec in Hc. destruct Hc as (Hst & Hunused & Hlive).
    exists old. repeat split; try assumption.
    + apply in_map_iff. exists old. now rewrite Hold.
    + intros pg' Hok'. rewrite Hok'.
      set (rows' := map (fun row => if consumable (NOW pg) st row then mark_used row else row)
                        (oauth_states t)).
      assert (Hnone : forall row', In row' rows' -> consumable (NOW pg') st row' = false).
      { intros row' Hin'. subst rows'.
        apply in_map_iff in Hin'. destruct Hin' as (row & <- & Hrow).
        destruct (consumable (NOW pg) st row) eqn:E.
        - unfold consumable. cbn. now rewrite andb_false_r.
        - unfold consumable. destruct (String.eqb_spec (state row) st) as [Heq|]; [|reflexivity].
          assert (row = old) by (apply (@same_state_same_row (oauth_states t)); congruence).
          subst row. congruence. }
      rewrite (find_nothing _ _ Hnone). cbn [option_map]. f_equal.
      apply (@nothing_to_consume (NOW pg') st (set_states t rows')). exact Hnone.
  - pose proof (find_none _ _ Hfind) as Hnone.
    exists None, t. rewrite nothing_to_consume by exact Hnone.
    split; [reflexivity|]. split; [reflexivity|]. split; [reflexivity|].
    split; [reflexivity|]. intros old Hin Hst. specialize (Hnone old Hin).
    unfold consumable in Hnone. rewrite Hst, String.eqb_refl in Hnone. cbn in Hnone.
    destruct (used old); [now left|]. right. cbn in Hnone. now apply Z.ltb_ge.
Qed.

(** X19. A state lives for ten minutes.  The insert of [createOAuthState]
    throws on a state that is already stored and otherwise adds one row,
    unused.  A state that was created can then be consumed when the check
    comes less than ten minutes later, with the guild and the user it was
    created for, and not at all from ten minutes on. *)
Theorem created_state_lives_ten_minutes (pg : Postgres) (st : string)
        (discordId guildId : option string) (t : Tables) :
  rejects pg (CreateOAuthState st) = None ->
  if existsb (fun row => String.eqb (state row) st) (oauth_states t)
  then createOAuthState pg st discordId guildId t = (inl (JsError duplicate_state), t)
  else
    exists t0,
      createOAuthState pg st discordId guildId t = (inr tt, t0)
      /\ accounts t0 = accounts t
      /\ (exists row, oauth_states t0 = oauth_states t ++ [row]
                      /\ state row = st /\ used row = false)
      /\ (NoDup (map state (oauth_states t)) -> NoDup (map state (oauth_states t0)))
      /\ forall later, rejects later (ConsumeOAuthState st) = None ->
           (NOW later < NOW pg + TEN_MINUTES ->
            exists row t1,
              consumeOAuthState later st t0 = (inr (Some row), t1)
              /\ state row = st
              /\ state_discord_id row = discordId
              /\ state_guild_id row = guildId)
           /\ (NOW pg + TEN_MINUTES <= NOW later ->
               consumeOAuthState later st t0 = (inr None, t0)).
Proof.
  intros Hok. unfold createOAuthState. rewrite Hok.
  destruct (existsb (fun row => String.eqb (state row) st) (oauth_states t)) eqn:Hex;
    [reflexivity|].
  eexists. split; [reflexivity|]. cbn [accounts oauth_states set_states].
  assert (Hfresh : forall row, In row (oauth_states t) -> state row <> st).
  { intros row Hin Heq.
    assert (existsb (fun row => String.eqb (state row) st) (oauth_states t) = true).
    { apply existsb_exists. exists row. split; [exact Hin|]. now apply String.eqb_eq. }
    congruence. }
  assert (Hold : forall now row, In row (oauth_states t) -> consumable now st row = false).
  { intros now row Hin. unfold consumable.
    destruct (String.eqb_spec (state row) st) as [Heq|]; [|reflexivity].
    now apply Hfresh in Hin. }
  split; [reflexivity|]. split; [eexists; repeat split|]. split.
  { intros Hnd. rewrite map_app. cbn [map state].
    apply NoDup_app; [exact Hnd | repeat constructor; intros [] |].
    intros x Hx [<-|[]]. apply in_map_iff in Hx. destruct Hx as (row & Hrow & Hin).
    now apply Hfresh in Hin. }
  intros later Hlater. unfold consumeOAuthState, statement. rewrite Hlater.
  cbn [accounts oauth_states set_states].
  set (new := {| state := st; state_discord_id := discordId; state_guild_id := guildId;
                 created_at := NOW pg; expires_at := NOW pg + TEN_MINUTES; used := false |}).
  assert (Hfind : find (consumable (NOW later) st) (oauth_states t ++ [new])
                  = if NOW later <? NOW pg + TEN_MINUTES then Some new else None).
  { rewrite find_past by apply Hold. cbn. unfold consumable. cbn.
    now rewrite String.eqb_refl. }
  rewrite Hfind. split.
  - intros Hlive. apply Z.ltb_lt in Hlive. rewrite Hlive. cbn [option_map].
    do 2 eexists. split; [reflexivity|]. repeat split.
  - intros Hdead. apply Z.ltb_ge in Hdead. rewrite Hdead. cbn [option_map].
    f_equal.
    rewrite <- (@nothing_to_consume (NOW later) st
                  {| accounts := accounts t; oauth_states := oauth_states t ++ [new] |}) at 2.
    + reflexivity.
    + cbn [oauth_states]. intros row Hin. apply in_app_or in Hin.
      destruct Hin as [Hin|[<-|[]]]; [now apply Hold|].
      unfold consumable. cbn. now rewrite Hdead, andb_false_r.
Qed.

(** X20. The periodic cleanup deletes what is stale and nothing else.  When
    the database accepts the call, [cleanupExpiredStates] returns the number
    of rows it deleted; the rows that stay are, in their order, the rows
    that were unused and had not expired before the time of the call, so
    that a state is consumable after the cleanup at a given moment exactly
    when it was before; and no account is touched. *)
Theorem cleanup_deletes_stale_states_only (pg : Postgres) (t : Tables) :
  rejects pg CleanupExpiredStates = None ->
  exists count t',
    cleanupExpiredStates pg t = (inr count, t')
    /\ accounts t' = accounts t
    /\ (length (oauth_states t) = count + length (oauth_states t'))%nat
    /\ (forall row, In row (oauth_states t') <->
                    In row (oauth_states t) /\ used row = false /\ NOW pg <= expires_at row)
    /\ (forall st later, NOW pg <= NOW later ->
          find (consumable (NOW later) st) (oauth_states t')
          = find (consumable (NOW later) st) (oauth_states t)).
Proof.
  intros Hok. unfold cleanupExpiredStates, statement. rewrite Hok.
  do 2 eexists. split; [reflexivity|]. cbn [accounts oauth_states set_states].
  split; [reflexivity|]. split; [|split].
  - induction (oauth_states t) as [|row rows IH]; [reflexivity|].
    cbn [filter length]. destruct (stale (NOW pg) row); cbn [negb length]; lia.
  - intros row. rewrite filter_In. unfold stale.
    rewrite negb_true_iff, orb_false_iff, Z.ltb_ge. tauto.
  - intros st later Hlater. induction (oauth_states t) as [|row rows IH]; [reflexivity|].
    cbn [filter find]. destruct (stale (NOW pg) row) eqn:Hstale; cbn [negb find].
    + assert (Hno : consumable (NOW later) st row = false).
      { unfold consumable. unfold stale in Hstale.
        destruct (used row); [now rewrite andb_false_r|].
        rewrite orb_false_r in Hstale. apply Z.ltb_lt in Hstale.
        assert (Hlt : (NOW later <? expires_at row) = false) by (apply Z.ltb_ge; lia).
        now rewrite Hlt, andb_false_r. }
      now rewrite Hno.
    + destruct (consumable (NOW later) st row); [reflexivity | exact IH].
Qed.

End StateFacts.

(* ================================================================== *)
(** * Schema migrations *)
(* ================================================================== *)

Section MigrateFacts.

Import migrate.

Variable env : Environment.

Lemma step_run (st : Step) (s : State) :
  step env st s = match fails env st with
                  | Some m => (inl (JsError m), s)
                  | None => (inr tt, s)
                  end.
Proof. reflexivity. Qed.

Lemma transaction_run (file sql : string) (s : State) :
  transaction env file sql s
  = let s1 := {| database := database s; released := released s;
                 sent := sent s ++ [file] |} in
    match fails env (Script file) with
    | Some m => (inl (JsError m), s1)
    | None =>
        if existsb (String.eqb file) (recorded (database s))
        then (inl (JsError duplicate_filename), s1)
        else
          match fails env (Insert file) with
          | Some m => (inl (JsError m), s1)
          | None =>
              match fails env (Commit file) with
              | Some m => (inl (JsError m), s1)
              | None =>
                  (inr tt,
                   {| database := {| _migrations := Some (recorded (database s) ++ [file]);
                                     schema := schema (database s) ++ [sql] |};
                      released := released s;
                      sent := sent s ++ [file] |})
              end
          end
    end.
Proof.
  unfold transaction, bind, step. cbv beta iota zeta.
  destruct (fails env (Script file)); [reflexivity|]. cbn [database released sent].
  destruct (existsb (String.eqb file) (recorded (database s))); [reflexivity|].
  destruct (fails env (Insert file)); [reflexivity|].
  destruct (fails env (Commit file)); reflexivity.
Qed.

(** One file: either the transaction commits, and the file is recorded with
    its script, or the call throws and the database is as it was. *)
Lemma apply_file_effect (file : string) (s : State) :
  let out := apply_file env file s in
  released (snd out) = released s
  /\ ((fst out = inr tt
       /\ existsb (String.eqb file) (recorded (database s)) = false
       /\ database (snd out)
          = {| _migrations := Some (recorded (database s) ++ [file]);
               schema := schema (database s) ++ [contents env file] |}
       /\ sent (snd out) = sent s ++ [file])
      \/ ((exists err, fst out = inl err)
          /\ database (snd out) = database s
          /\ (sent (snd out) = sent s \/ sent (snd out) = sent s ++ [file]))).
Proof.
  cbn zeta. unfold apply_file. rewrite bind_run, step_run.
  destruct (fails env (ReadFile file)); [cbn; split; [reflexivity|right; eauto]|].
  rewrite bind_run, step_run.
  destruct (fails env (Begin file)); [cbn; split; [reflexivity|right; eauto]|].
  rewrite bind_run, try_catch_run.
  assert (Ht : let t := transaction env file (contents env file) s in
               released (snd t) = released s
               /\ sent (snd t) = sent s ++ [file]
               /\ match fst t with
                  | inr _ =>
                      existsb (String.eqb file) (recorded (database s)) = false
                      /\ database (snd t)
                         = {| _migrations := Some (recorded (database s) ++ [file]);
                              schema := schema (database s) ++ [contents env file] |}
                  | inl err => database (snd t) = database s
                  end).
  { rewrite transaction_run. cbn zeta.
    destruct (fails env (Script file)); [cbn; auto|].
    destruct (existsb (String.eqb file) (recorded (database s))); [cbn; auto|].
    destruct (fails env (Insert file)); [cbn; auto|].
    destruct (fails env (Commit file)); cbn; auto. }
  cbn zeta in Ht. destruct (transaction env file (contents env file) s) as [[err|u] s1].
  - cbn [fst snd] in *. destruct Ht as (Hrel & Hsent & Hdb).
    rewrite bind_run, step_run.
    destruct (fails env (Rollback file)).
    + cbn. split; [exact Hrel|]. right. eauto.
    + rewrite bind_run. destruct err as [m|]; cbn; (split; [exact Hrel|]); right; eauto.
  - cbn [fst snd ret] in *. destruct Ht as (Hrel & Hsent & Hnew & Hdb).
    split; [exact Hrel|]. left. auto.
Qed.

Lemma apply_all_effect (executedSet todo : list string) (s : State) :
  (forall f, In f executedSet -> In f (recorded (database s))) ->
  let new := filter (fun f => negb (existsb (String.eqb f) executedSet)) todo in
  let out := apply_all env executedSet todo s in
  released (snd out) = released s
  /\ exists k extra,
      database (snd out)
      = match firstn k new with
        | [] => database s
        | done => {| _migrations := Some (recorded (database s) ++ done);
                     schema := schema (database s) ++ map (contents env) done |}
        end
      /\ sent (snd out) = sent s ++ firstn k new ++ extra
      /\ (forall f, In f extra -> In f new)
      /\ (fst out = inr tt -> firstn k new = new /\ extra = []).
Proof.
  revert s. induction todo as [|file rest IH]; intros s Hsub; cbn zeta.
  - cbn. split; [reflexivity|]. exists 0, []. cbn. rewrite app_nil_r. auto.
  - cbn [apply_all filter]. rewrite bind_run.
    destruct (existsb (String.eqb file) executedSet) eqn:Hdone; cbn [negb ret].
    + apply (IH s Hsub).
    + pose proof (apply_file_effect file s) as Hfile. cbn zeta in Hfile.
      destruct (apply_file env file s) as [[err|u] s1]; cbn [fst snd] in *.
      * destruct Hfile as (Hrel & [(Hok & _)|(_ & Hdb & Hsent)]); [discriminate|].
        split; [exact Hrel|]. exists 0. cbn [firstn]. rewrite Hdb.
        destruct Hsent as [->| ->].
        -- exists []. rewrite app_nil_r. split; [reflexivity|]. split; [reflexivity|].
           split; [intros f []|]. intros H. discriminate H.
        -- exists [file]. split; [reflexivity|]. split; [reflexivity|].
           split; [intros f [<-|[]]; now left|]. intros H. discriminate H.
      * destruct Hfile as (Hrel & [(_ & Hnew & Hdb & Hsent)|((err & Herr) & _)]);
          [|discriminate].
        assert (Hsub1 : forall f, In f executedSet -> In f (recorded (database s1))).
        { intros f Hf. rewrite Hdb. cbn. apply in_or_app. left. now apply Hsub. }
        destruct (IH s1 Hsub1) as (Hrel1 & k & extra & Hdb1 & Hsent1 & Hextra & Hall).
        split; [now rewrite Hrel1|]. exists (S k), extra. cbn [firstn].
        split; [|split; [|split]].
        -- rewrite Hdb1, Hdb. cbn [recorded _migrations schema].
           destruct (firstn k (filter _ rest)) as [|f done].
           ++ reflexivity.
           ++ rewrite <- !app_assoc. cbn [map app]. reflexivity.
        -- rewrite Hsent1, Hsent, <- !app_assoc. reflexivity.
        -- intros f Hf. right. now apply Hextra.
        -- intros Hok. destruct (Hall Hok) as (-> & ->). auto.
Qed.

Lemma apply_all_nothing (e : Environment) (executedSet todo : list string) (s : State) :
  (forall f, In f todo -> existsb (String.eqb f) executedSet = true) ->
  apply_all e executedSet todo s = (inr tt, s).
Proof.
  induction todo as [|file rest IH]; intros Hall; [reflexivity|].
  cbn [apply_all]. rewrite bind_run, (Hall file (or_introl eq_refl)). cbn [ret].
  apply IH. intros f Hf. apply Hall. now right.
Qed.

Lemma body_run (e : Environment) (s : State) :
  (create_table e ;;
   executed <- select_executed e ;;
   step e ReadDir ;;
   apply_all e executed (files e)) s
  = match fails e CreateTable with
    | Some m => (inl (JsError m), s)
    | None =>
        match fails e SelectExecuted with
        | Some m => (inl (JsError m), created s)
        | None =>
            match fails e ReadDir with
            | Some m => (inl (JsError m), created s)
            | None => apply_all e (recorded (database s)) (files e) (created s)
            end
        end
    end.
Proof.
  unfold create_table, select_executed, bind, step, created. cbv beta iota zeta.
  destruct (fails e CreateTable); [reflexivity|].
  destruct (fails e SelectExecuted); [reflexivity|].
  destruct (fails e ReadDir); [reflexivity|].
  cbn [database recorded _migrations].
  now destruct (apply_all e (recorded (database s)) (files e) _) as [[err|u] s1].
Qed.

Lemma runMigrations_effect (s : State) :
  let out := runMigrations env s in
  let todo := pending env (database s) in
  released (snd out) = released s + match fails env Connect with Some _ => 0 | None => 1 end
  /\ exists k extra,
      recorded (database (snd out)) = recorded (database s) ++ firstn k todo
      /\ schema (database (snd out))
         = schema (database s) ++ map (contents env) (firstn k todo)
      /\ sent (snd out) = sent s ++ firstn k todo ++ extra
      /\ (forall f, In f extra -> In f todo)
      /\ (fst out = inr tt ->
          firstn k todo = todo /\ extra = []
          /\ _migrations (database (snd out)) = Some (recorded (database (snd out)))).
Proof.
  cbn zeta. unfold runMigrations. rewrite bind_run, step_run.
  destruct (fails env Connect).
  { cbn [fst snd]. split; [lia|]. exists 0, []. cbn [firstn map]. rewrite !app_nil_r.
    split; [reflexivity|]. split; [reflexivity|]. split; [reflexivity|].
    split; [intros f []|]. intros H. discriminate H. }
  rewrite bind_run, try_catch_run. rewrite bind_run. cbn [fst snd].
  set (body := (create_table env ;;
                executed <- select_executed env ;;
                step env ReadDir ;;
                apply_all env executed (files env)) s).
  assert (Hbody : released (snd body) = released s
                  /\ exists k extra,
                      recorded (database (snd body))
                      = recorded (database s) ++ firstn k (pending env (database s))
                      /\ schema (database (snd body))
                         = schema (database s)
                           ++ map (contents env) (firstn k (pending env (database s)))
                      /\ sent (snd body)
                         = sent s ++ firstn k (pending env (database s)) ++ extra
                      /\ (forall f, In f extra -> In f (pending env (database s)))
                      /\ (fst body = inr tt ->
                          firstn k (pending env (database s)) = pending env (database s)
                          /\ extra = []
                          /\ _migrations (database (snd body))
                             = Some (recorded (database (snd body))))).
  { subst body. rewrite body_run.
    assert (Hstop : forall (e : Thrown) (s' : State),
               recorded (database s') = recorded (database s) ->
               schema (database s') = schema (database s) ->
               sent s' = sent s -> released s' = released s ->
               released (snd (@inl Thrown unit e, s')) = released s
               /\ exists k extra,
                   recorded (database (snd (@inl Thrown unit e, s')))
                   = recorded (database s) ++ firstn k (pending env (database s))
                   /\ schema (database (snd (@inl Thrown unit e, s')))
                      = schema (database s)
                        ++ map (contents env) (firstn k (pending env (database s)))
                   /\ sent (snd (@inl Thrown unit e, s'))
                      = sent s ++ firstn k (pending env (database s)) ++ extra
                   /\ (forall f, In f extra -> In f (pending env (database s)))
                   /\ (fst (@inl Thrown unit e, s') = inr tt ->
                       firstn k (pending env (database s)) = pending env (database s)
                       /\ extra = []
                       /\ _migrations (database (snd (@inl Thrown unit e, s')))
                          = Some (recorded (database (snd (@inl Thrown unit e, s')))))).
    { intros e s' H1 H2 H3 H4. cbn [fst snd]. split; [exact H4|]. exists 0, [].
      cbn [firstn map]. rewrite !app_nil_r.
      split; [exact H1|]. split; [exact H2|]. split; [exact H3|].
      split; [intros f []|]. intros H. discriminate H. }
    destruct (fails env CreateTable); [now apply Hstop|].
    destruct (fails env SelectExecuted); [now apply Hstop|].
    destruct (fails env ReadDir); [now apply Hstop|].
    set (s0 := created s).
    pose proof (@apply_all_effect (recorded (database s)) (files env) s0 (fun f H => H))
      as (Hrel & k & extra & Hdb & Hsent & Hextra & Hall).
    fold (pending env (database s)) in Hdb, Hsent, Hextra, Hall.
    split; [exact Hrel|]. exists k, extra.
    assert (Hrec : recorded (database (snd (apply_all env (recorded (database s))
                                                      (files env) s0)))
                   = recorded (database s) ++ firstn k (pending env (database s))
                   /\ schema (database (snd (apply_all env (recorded (database s))
                                                       (files env) s0)))
                      = schema (database s)
                        ++ map (contents env) (firstn k (pending env (database s)))
                   /\ _migrations (database (snd (apply_all env (recorded (database s))
                                                            (files env) s0)))
                      = Some (recorded (database s)
                              ++ firstn k (pending env (database s)))).
    { rewrite Hdb. destruct (firstn k (pending env (database s))) as [|f done];
        cbn; rewrite ?app_nil_r; auto. }
    destruct Hrec as (Hrec & Hschema & Htable).
    split; [exact Hrec|]. split; [exact Hschema|]. split; [exact Hsent|].
    split; [exact Hextra|]. intros Hok. destruct (Hall Hok) as (Hk & Hnil).
    split; [exact Hk|]. split; [exact Hnil|]. now rewrite Htable, Hrec. }
  destruct body as [r s1]. cbn [fst snd] in *.
  destruct Hbody as (Hrel & k & extra & Hrec & Hschema & Hsent & Hextra & Hall).
  split; [cbn; destruct r; cbn; lia|].
  exists k, extra. destruct r as [e|[]]; cbn [lift_exc fst snd database sent].
  - split; [exact Hrec|]. split; [exact Hschema|]. split; [exact Hsent|].
    split; [exact Hextra|]. intros H. discriminate H.
  - split; [exact Hrec|]. split; [exact Hschema|]. split; [exact Hsent|].
    split; [exact Hextra|]. intros _. now apply Hall.
Qed.

(** X21. Migrations are applied once.  When [runMigrations] returns, every
    [.sql] file of the directory that the table did not hold has been sent
    to the server once, in the order of the sorted listing, its script has
    taken effect and its name is recorded after the names that were there,
    and the client has been released.  Nothing is left to apply: a further
    call over the same directory sends no script and leaves the database as
    it is, provided it can connect, query the table and read the
    directory. *)
Theorem migrations_are_applied_once (s s' : State) :
  runMigrations env s = (inr tt, s') ->
  database s' = {| _migrations := Some (recorded (database s) ++ pending env (database s));
                   schema := schema (database s)
                             ++ map (contents env) (pending env (database s)) |}
  /\ sent s' = sent s ++ pending env (database s)
  /\ released s' = S (released s)
  /\ forall again,
      readdir again = readdir env -> sort again = sort env ->
      fails again Connect = None -> fails again CreateTable = None ->
      fails again SelectExecuted = None -> fails again ReadDir = None ->
      runMigrations again s'
      = (inr tt, {| database := database s'; released := S (released s'); sent := sent s' |}).
Proof.
  intros Hrun. pose proof (runMigrations_effect s) as H. cbn zeta in H.
  rewrite Hrun in H. cbn [fst snd] in H.
  destruct H as (Hrel & k & extra & Hrec & Hschema & Hsent & _ & Hall).
  destruct (Hall eq_refl) as (Hk & -> & Htable). rewrite Hk in *. rewrite app_nil_r in Hsent.
  assert (Hconn : fails env Connect = None).
  { unfold runMigrations in Hrun. rewrite bind_run, step_run in Hrun.
    destruct (fails env Connect); [discriminate | reflexivity]. }
  rewrite Hconn in Hrel.
  assert (Hdb : database s'
                = {| _migrations := Some (recorded (database s) ++ pending env (database s));
                     schema := schema (database s)
                               ++ map (contents env) (pending env (database s)) |}).
  { destruct (database s') as [table sch]. cbn [_migrations schema] in *.
    rewrite Hrec in Htable. now rewrite Htable, Hschema. }
  split; [exact Hdb|]. split; [exact Hsent|]. split; [lia|].
  intros again Hdir Hsort H1 H2 H3 H4.
  unfold runMigrations. rewrite bind_run. unfold step at 1. rewrite H1.
  rewrite bind_run, try_catch_run.
  assert (Hbody : (create_table again ;;
                   executed <- select_executed again ;;
                   step again ReadDir ;;
                   apply_all again executed (files again)) s' = (inr tt, s')).
  { rewrite body_run, H2, H3, H4.
    assert (Hsame : created s' = s').
    { unfold created. destruct s' as [[table sch] rel snt]. cbn in *. now rewrite Htable. }
    rewrite Hsame. apply apply_all_nothing.
    intros f Hf. unfold files in Hf. rewrite Hdir, Hsort in Hf. fold (files env) in Hf.
    apply existsb_exists. exists f. split; [|apply String.eqb_refl].
    rewrite Hrec.
    destruct (existsb (String.eqb f) (recorded (database s))) eqn:Hold.
    - apply existsb_exists in Hold. destruct Hold as (g & Hg & Heq).
      apply String.eqb_eq in Heq. subst g. apply in_or_app. now left.
    - apply in_or_app. right. unfold pending. apply filter_In. now rewrite Hold. }
  rewrite Hbody. cbn [fst snd]. rewrite bind_run. reflexivity.
Qed.

(** X22. A failed migration leaves no half-applied file.  Whatever fails
    and wherever, after a call the names recorded are those recorded before
    followed by a first part of the files that were pending, in order, and
    the scripts in effect have grown by exactly the scripts of those files:
    on a database where every script in effect is recorded, this stays so.
    No file that was recorded is sent again, and the client is released
    once if and only if the connection was obtained. *)
Theorem failed_migration_is_rolled_back (s : State) :
  consistent env (database s) ->
  let s' := snd (runMigrations env s) in
  consistent env (database s')
  /\ (exists k, recorded (database s')
                = recorded (database s) ++ firstn k (pending env (database s)))
  /\ (exists attempted, sent s' = sent s ++ attempted
                        /\ forall f, In f attempted ->
                                     In f (files env) /\ ~ In f (recorded (database s)))
  /\ released s' = released s + match fails env Connect with Some _ => 0 | None => 1 end.
Proof.
  intros Hcons. cbn zeta. pose proof (runMigrations_effect s) as H. cbn zeta in H.
  destruct H as (Hrel & k & extra & Hrec & Hschema & Hsent & Hextra & _).
  split; [|split; [|split]].
  - unfold consistent in *. rewrite Hschema, Hrec, Hcons, map_app. reflexivity.
  - now exists k.
  - exists (firstn k (pending env (database s)) ++ extra). split; [exact Hsent|].
    assert (Hpend : forall f, In f (pending env (database s)) ->
                              In f (files env) /\ ~ In f (recorded (database s))).
    { intros f Hf. unfold pending in Hf. apply filter_In in Hf. destruct Hf as (Hin & Hnew).
      split; [exact Hin|]. intros Hold. apply negb_true_iff in Hnew.
      assert (existsb (String.eqb f) (recorded (database s)) = true).
      { apply existsb_exists. exists f. split; [exact Hold | apply String.eqb_refl]. }
      congruence. }
    intros f Hf. apply in_app_or in Hf. destruct Hf as [Hf|Hf].
    + apply Hpend. exact (@In_firstn _ k _ f Hf).
    + apply Hpend, Hextra, Hf.
  - exact Hrel.
Qed.

End MigrateFacts.

(* ================================================================== *)
(** * The mass ban command *)
(* ================================================================== *)

Section MassBanFacts.

Import guildMessage.

Variable d : Discord.

Lemma say_keeps_bans (n : Notice) (ch : Channel) :
  banned (snd (say d n ch)) = banned ch.
Proof. unfold say. destruct (say_fails d n); reflexivity. Qed.

Lemma say_adds (n : Notice) (ch : Channel) (r : Exc unit) (ch' : Channel) :
  say d n ch = (r, ch') ->
  banned ch' = banned ch
  /\ (forall other, In other (said ch) -> In other (said ch'))
  /\ (r = inr tt -> said ch' = said ch ++ [n]).
Proof.
  unfold say. destruct (say_fails d n); intros H; injection H as <- <-; cbn.
  - split; [reflexivity | split; [auto | discriminate]].
  - split; [reflexivity | split; [intros other Hin; apply in_or_app; now left | reflexivity]].
Qed.

(** One turn of the loop. *)
Lemma ban_each_step (m : GuildMember) (rest : list GuildMember) (success failed : nat)
      (ch : Channel) :
  ban_each d (m :: rest) success failed ch
  = if String.eqb (member_id m) (ownerId d) then ban_each d rest success failed ch
    else if String.eqb (member_id m) (botId d) then ban_each d rest success failed ch
    else match ban d (member_id m) with
         | None =>
             ban_each d rest (S success) failed
                      {| banned := banned ch ++ [member_id m]; said := said ch;
                         pauses := S (pauses ch) |}
         | Some err =>
             match message_of err with
             | inl thrown => (inl thrown, ch)
             | inr _ =>
                 ban_each d rest success (S failed)
                          {| banned := banned ch; said := said ch; pauses := S (pauses ch) |}
             end
         end.
Proof.
  cbn [ban_each].
  destruct (String.eqb (member_id m) (ownerId d)); [reflexivity|].
  destruct (String.eqb (member_id m) (botId d)); [reflexivity|].
  unfold bind, try_catch, ban_member, lift_exc, pause.
  destruct (ban d (member_id m)) as [err|]; [destruct (message_of err)|]; reflexivity.
Qed.

(** The loop: what it bans, and how it counts. *)
Lemma ban_each_effect (members : list GuildMember) :
  forall (success failed : nat) (ch : Channel),
  exists new,
    banned (snd (ban_each d members success failed ch)) = banned ch ++ new
    /\ said (snd (ban_each d members success failed ch)) = said ch
    /\ (forall id, In id new ->
                   In id (map member_id members) /\ id <> ownerId d /\ id <> botId d
                   /\ ban d id = None)
    /\ (NoDup (map member_id members) -> NoDup new)
    /\ (forall counts, fst (ban_each d members success failed ch) = inr counts ->
                       fst counts = success + length new
                       /\ failed <= snd counts
                       /\ fst counts + snd counts <= success + failed + length members
                       /\ (snd counts = failed ->
                           forall m, In m members ->
                                     member_id m <> ownerId d -> member_id m <> botId d ->
                                     In (member_id m) new)).
Proof.
  induction members as [|m rest IH]; intros success failed ch.
  - exists []. cbn. rewrite app_nil_r.
    split; [reflexivity|]. split; [reflexivity|]. split; [intros id []|].
    split; [intros _; constructor|].
    intros counts Hcounts. injection Hcounts as <-. cbn.
    split; [lia|]. split; [lia|]. split; [lia|]. intros _ m [].
  - rewrite ban_each_step.
    assert (Hskip : forall ch0 success0 failed0,
               (member_id m = ownerId d \/ member_id m = botId d) ->
               (exists new,
                   banned (snd (ban_each d rest success0 failed0 ch0)) = banned ch0 ++ new
                   /\ said (snd (ban_each d rest success0 failed0 ch0)) = said ch0
                   /\ (forall id, In id new ->
                                  In id (map member_id (m :: rest)) /\ id <> ownerId d
                                  /\ id <> botId d /\ ban d id = None)
                   /\ (NoDup (map member_id (m :: rest)) -> NoDup new)
                   /\ (forall counts, fst (ban_each d rest success0 failed0 ch0) = inr counts ->
                                      fst counts = success0 + length new
                                      /\ failed0 <= snd counts
                                      /\ fst counts + snd counts
                                         <= success0 + failed0 + length (m :: rest)
                                      /\ (snd counts = failed0 ->
                                          forall m0, In m0 (m :: rest) ->
                                                     member_id m0 <> ownerId d ->
                                                     member_id m0 <> botId d ->
                                                     In (member_id m0) new)))).
    { intros ch0 success0 failed0 Hm.
      destruct (IH success0 failed0 ch0) as (new & Hb & Hs & Hin & Hnd & Hc).
      exists new. split; [exact Hb|]. split; [exact Hs|]. split; [|split].
      - intros id Hid. destruct (Hin id Hid) as (H1 & H2 & H3 & H4).
        repeat split; try assumption. cbn. now right.
      - intros Hnodup. apply Hnd. now inversion Hnodup.
      - intros counts Hcounts. destruct (Hc counts Hcounts) as (H1 & H0 & H2 & H3).
        split; [exact H1|]. split; [exact H0|]. split; [cbn [length]; lia|].
        intros Hsame m0 [<-|Hm0] Hno Hnb.
        + destruct Hm as [Hm|Hm]; contradiction.
        + now apply H3. }
    destruct (String.eqb (member_id m) (ownerId d)) eqn:Eowner.
    { apply Hskip. left. now apply String.eqb_eq. }
    destruct (String.eqb (member_id m) (botId d)) eqn:Ebot.
    { apply Hskip. right. now apply String.eqb_eq. }
    apply String.eqb_neq in Eowner, Ebot.
    destruct (ban d (member_id m)) as [err|] eqn:Eban.
    + (* the ban is refused *)
      destruct (message_of err) as [thrown|text].
      * exists []. cbn. rewrite app_nil_r.
        split; [reflexivity|]. split; [reflexivity|]. split; [intros id []|].
        split; [intros _; constructor|]. intros counts Hcounts. discriminate Hcounts.
      * destruct (IH success (S failed)
                     {| banned := banned ch; said := said ch; pauses := S (pauses ch) |})
          as (new & Hb & Hs & Hin & Hnd & Hc).
        exists new. split; [exact Hb|]. split; [exact Hs|]. split; [|split].
        -- intros id Hid. destruct (Hin id Hid) as (H1 & H2 & H3 & H4).
           repeat split; try assumption. cbn. now right.
        -- intros Hnodup. apply Hnd. now inversion Hnodup.
        -- intros counts Hcounts. destruct (Hc counts Hcounts) as (H1 & H0 & H2 & H3).
           split; [exact H1|]. split; [lia|]. split; [cbn [length]; lia|].
           intros Hsame. exfalso. lia.
    + (* the member is banned *)
      destruct (IH (S success) failed
                   {| banned := banned ch ++ [member_id m]; said := said ch;
                      pauses := S (pauses ch) |})
        as (new & Hb & Hs & Hin & Hnd & Hc).
      exists (member_id m :: new). cbn [banned said] in Hb, Hs.
      split; [rewrite Hb, <- app_assoc; reflexivity|]. split; [exact Hs|].
      split; [|split].
      * intros id [<-|Hid].
        -- repeat split; try assumption. cbn. now left.
        -- destruct (Hin id Hid) as (H1 & H2 & H3 & H4).
           repeat split; try assumption. cbn. now right.
      * intros Hnodup. inversion Hnodup as [|? ? Hnotin Hrest]; subst.
        constructor; [|now apply Hnd].
        intros Hid. apply Hnotin. now destruct (Hin _ Hid).
      * intros counts Hcounts. destruct (Hc counts Hcounts) as (H1 & H0 & H2 & H3).
        split; [cbn [length]; lia|]. split; [exact H0|]. split; [cbn [length]; lia|].
        intros Hsame m0 [<-|Hm0] Hno Hnb; [now left|].
        right. now apply H3.
Qed.

Lemma role_holders_distinct (roleId : string) (members : list GuildMember) :
  NoDup (map member_id members) ->
  NoDup (map member_id (filter (has_role roleId) members)).
Proof.
  induction members as [|m rest IH]; intros Hnodup; [constructor|].
  inversion Hnodup as [|? ? Hnotin Hrest]; subst. cbn [filter].
  destruct (has_role roleId m); [|now apply IH].
  cbn [map]. constructor; [|now apply IH].
  intros Hin. apply Hnotin. apply in_map_iff in Hin. destruct Hin as (m' & Hid & Hm').
  apply filter_In in Hm'. apply in_map_iff. exists m'. tauto.
Qed.

Lemma prefetch_run (ch : Channel) :
  (exists thrown, prefetch d ch = (inl thrown, ch))
  \/ prefetch d ch = (inr (reachable d), ch).
Proof.
  unfold prefetch, reachable. destruct (members_fetch d) as [err|members]; [|now right].
  unfold bind, lift_exc. destruct (message_of err) as [thrown|text]; [left; eauto | now right].
Qed.

Lemma confirmation_run (ch : Channel) :
  (awaitMessages d = Some (Some "CONFIRM") /\ confirmation d ch = (inr true, ch))
  \/ (exists r ch', confirmation d ch = (r, ch') /\ r <> inr true /\ banned ch' = banned ch).
Proof.
  unfold confirmation.
  assert (Hcancel : exists r ch', (say d Cancelled ;; ret false) ch = (r, ch')
                                  /\ r <> inr true /\ banned ch' = banned ch).
  { unfold bind, say. destruct (say_fails d Cancelled); eexists _, _;
      (split; [reflexivity | split; [discriminate | reflexivity]]). }
  destruct (awaitMessages d) as [[answer|]|].
  - destruct (String.eqb answer "CONFIRM") eqn:Eanswer; cbn [negb].
    + apply String.eqb_eq in Eanswer. subst answer. left. split; reflexivity.
    + right. exact Hcancel.
  - right. exact Hcancel.
  - right. exists (inl JsUndefined), ch. split; [reflexivity | split; [discriminate | reflexivity]].
Qed.

(** X23. The mass ban is confined.  Whatever Discord answers, the members
    that the command bans are members of the guild that hold the given role
    in the member cache after the fetch, never the owner of the guild and
    never the bot, each of them once.  Anyone is banned only if the author is
    an owner, staff or an administrator, the argument is a snowflake that
    names a role of the guild, the bot may ban, the number of members
    concerned was announced and the answer collected was CONFIRM; and when
    the command then returns, its last message reports the number of members
    banned, which with the failures does not exceed the number announced;
    if it reports no failure, every member with the role other than the
    owner and the bot has been banned. *)
Theorem mass_ban_is_confined (isOwner staff admin : bool) (args : list string)
        (ch : Channel) :
  let result := massBan d isOwner staff admin args ch in
  exists new,
    banned (snd result) = banned ch ++ new
    /\ (forall id, In id new ->
                   exists roleId m,
                     hd_error args = Some roleId
                     /\ In m (reachable d) /\ member_id m = id
                     /\ has_role roleId m = true
                     /\ id <> ownerId d /\ id <> botId d)
    /\ (NoDup (map member_id (reachable d)) -> NoDup new)
    /\ (new <> [] ->
        isOwner || staff || admin = true
        /\ me d = Some true
        /\ awaitMessages d = Some (Some "CONFIRM")
        /\ exists roleId,
            let total := length (filter (has_role roleId) (reachable d)) in
            hd_error args = Some roleId
            /\ messageCreate.is_snowflake roleId = true
            /\ get_role roleId (roles_cache d) <> None
            /\ In (Confirm total roleId) (said (snd result))
            /\ (fst result = inr tt ->
                exists before failed,
                  said (snd result) = before ++ [Finished (length new) total failed roleId]
                  /\ length new + failed <= total
                  /\ (failed = 0 ->
                      forall m, In m (reachable d) -> has_role roleId m = true ->
                                member_id m <> ownerId d -> member_id m <> botId d ->
                                In (member_id m) new))).
Proof.
  cbv zeta. destruct (massBan d isOwner staff admin args ch) as [r ch'] eqn:Hrun.
  cbn [fst snd]. unfold massBan in Hrun.
  assert (Hquiet : banned ch' = banned ch ->
                   exists new,
                     banned ch' = banned ch ++ new
                     /\ (forall id, In id new ->
                                    exists roleId m,
                                      hd_error args = Some roleId
                                      /\ In m (reachable d) /\ member_id m = id
                                      /\ has_role roleId m = true
                                      /\ id <> ownerId d /\ id <> botId d)
                     /\ (NoDup (map member_id (reachable d)) -> NoDup new)
                     /\ (new <> [] ->
                         isOwner || staff || admin = true
                         /\ me d = Some true
                         /\ awaitMessages d = Some (Some "CONFIRM")
                         /\ exists roleId,
                             hd_error args = Some roleId
                             /\ messageCreate.is_snowflake roleId = true
                             /\ get_role roleId (roles_cache d) <> None
                             /\ In (Confirm (length (filter (has_role roleId) (reachable d)))
                                            roleId) (said ch')
                             /\ (r = inr tt ->
                                 exists before failed,
                                   said ch'
                                   = before
                                     ++ [Finished (length new)
                                                  (length (filter (has_role roleId)
                                                                  (reachable d)))
                                                  failed roleId]
                                   /\ length new + failed
                                      <= length (filter (has_role roleId) (reachable d))
                                   /\ (failed = 0 ->
                                       forall m, In m (reachable d) ->
                                                 has_role roleId m = true ->
                                                 member_id m <> ownerId d ->
                                                 member_id m <> botId d ->
                                                 In (member_id m) new)))).
  { intros Hkept. exists []. rewrite app_nil_r.
    split; [exact Hkept|]. split; [intros id []|]. split; [intros _; constructor|].
    intros Hne. now contradiction Hne. }
  assert (Hallowed : isOwner || staff || admin = negb (negb isOwner && negb staff && negb admin))
    by (destruct isOwner, staff, admin; reflexivity).
  destruct (negb isOwner && negb staff && negb admin);
    [apply Hquiet; injection Hrun as <- <-; reflexivity|].
  cbn [negb] in Hallowed.
  destruct args as [|roleId rest];
    [apply Hquiet; now destruct (say_adds _ _ Hrun)|].
  destruct (String.eqb roleId "");
    [apply Hquiet; now destruct (say_adds _ _ Hrun)|].
  destruct (messageCreate.is_snowflake roleId) eqn:Eflake; cbn [negb] in Hrun;
    [|apply Hquiet; now destruct (say_adds _ _ Hrun)].
  destruct (get_role roleId (roles_cache d)) as [name|] eqn:Erole;
    [|apply Hquiet; now destruct (say_adds _ _ Hrun)].
  destruct (me d) as [[|]|] eqn:Eme;
    [| apply Hquiet; now destruct (say_adds _ _ Hrun)
     | apply Hquiet; now destruct (say_adds _ _ Hrun)].
  rewrite bind_run in Hrun.
  destruct (prefetch_run ch) as [(thrown & Efetch)|Efetch]; rewrite Efetch in Hrun;
    [apply Hquiet; injection Hrun as <- <-; reflexivity|].
  destruct (Nat.eqb (length (filter (has_role roleId) (reachable d))) 0);
    [apply Hquiet; now destruct (say_adds _ _ Hrun)|].
  rewrite bind_run in Hrun.
  destruct (say d (Confirm (length (filter (has_role roleId) (reachable d))) roleId) ch)
    as [[thrown|[]] ch1] eqn:Easked;
    destruct (say_adds _ _ Easked) as (Hb1 & _ & Hs1);
    [apply Hquiet; injection Hrun as <- <-; exact Hb1|].
  specialize (Hs1 eq_refl).
  rewrite bind_run, try_catch_run in Hrun.
  destruct (confirmation_run ch1) as [(Eanswer & Econfirmed)|(r0 & ch2 & Econfirmed & Hr & Hb2)];
    rewrite Econfirmed in Hrun; cbn [fst snd] in Hrun.
  2: { apply Hquiet. destruct r0 as [thrown|[|]].
       - destruct (say_adds _ _ Hrun) as (Hb3 & _). congruence.
       - now contradiction Hr.
       - injection Hrun as <- <-. congruence. }
  rewrite bind_run in Hrun.
  destruct (say d (Starting (length (filter (has_role roleId) (reachable d))) roleId) ch1)
    as [[thrown|[]] ch3] eqn:Estarted;
    destruct (say_adds _ _ Estarted) as (Hb3 & Hs3 & _);
    [apply Hquiet; injection Hrun as <- <-; congruence|].
  rewrite bind_run in Hrun.
  destruct (ban_each_effect (filter (has_role roleId) (reachable d)) 0 0 ch3)
    as (new & Hb & Hs & Hin & Hnd & Hc).
  destruct (ban_each d (filter (has_role roleId) (reachable d)) 0 0 ch3)
    as [[thrown|counts] ch4] eqn:Eloop; cbn [fst snd] in Hb, Hs, Hc.
  all: assert (Hasked : In (Confirm (length (filter (has_role roleId) (reachable d))) roleId)
                           (said ch4))
    by (rewrite Hs; apply Hs3; rewrite Hs1; apply in_or_app; right; now left).
  all: exists new.
  all: assert (Hwho : forall id, In id new ->
                                 exists roleId0 m,
                                   hd_error (roleId :: rest) = Some roleId0
                                   /\ In m (reachable d) /\ member_id m = id
                                   /\ has_role roleId0 m = true
                                   /\ id <> ownerId d /\ id <> botId d)
    by (intros id Hid; destruct (Hin id Hid) as (Hmem & Hno & Hnb & _);
        apply in_map_iff in Hmem; destruct Hmem as (m & Hm & Hmem);
        apply filter_In in Hmem; exists roleId, m; cbn [hd_error]; tauto).
  all: assert (Honce : NoDup (map member_id (reachable d)) -> NoDup new)
    by (intros Hnodup; apply Hnd; now apply role_holders_distinct).
  - (* the loop throws *)
    injection Hrun as <- <-.
    split; [congruence|]. split; [exact Hwho|]. split; [exact Honce|].
    intros _. split; [exact Hallowed|]. split; [reflexivity|]. split; [exact Eanswer|].
    exists roleId. split; [reflexivity|]. split; [exact Eflake|].
    split; [rewrite Erole; discriminate|]. split; [exact Hasked|].
    intros Habsurd. discriminate Habsurd.
  - (* the loop returns *)
    destruct (say_adds _ _ Hrun) as (Hb5 & Hs5 & Hlast).
    destruct (Hc counts eq_refl) as (Hcount & _ & Hbound & Hall).
    cbn [Nat.add] in Hcount, Hbound.
    split; [congruence|]. split; [exact Hwho|]. split; [exact Honce|].
    intros _. split; [exact Hallowed|]. split; [reflexivity|]. split; [exact Eanswer|].
    exists roleId. split; [reflexivity|]. split; [exact Eflake|].
    split; [rewrite Erole; discriminate|]. split; [apply Hs5; exact Hasked|].
    intros Hreturned. exists (said ch4), (snd counts).
    rewrite (Hlast Hreturned), Hcount. split; [reflexivity|].
    split; [rewrite <- Hcount; exact Hbound|].
    intros Hnone m Hm Hrole. apply (Hall Hnone). apply filter_In. now split.
Qed.

End MassBanFacts.

(* ================================================================== *)
(** * The message handler *)
(* ================================================================== *)

Section ExecuteFacts.

Import guildMessage.

Variable w : World.
Variable cfg : Config.
Variable d : Discord.

Lemma pull_by_stranger (authorId : string) (args : list string) (s : Store) :
  existsb (String.eqb authorId) (ownerIds cfg) = false ->
  messageCreate.pull w cfg authorId args s = (inr tt, s).
Proof. intros Hstranger. unfold messageCreate.pull. now rewrite Hstranger. Qed.

(** X24. The staff check stops every member that has a role.  A message of
    a bot, outside a guild or without the prefix is ignored.  For any other
    message whose author comes with a member object holding at least one
    role, the handler throws a [TypeError] while it computes [isStaff], as
    the configuration has no [staffRoleIds]: no command runs, nothing is
    sent and nothing is stored.  So the handler changes the store of the
    migration only for [?pull] from an owner, and bans only for the mass ban
    command from an owner or an administrator, in both cases an author
    without a member object or without any role. *)
Theorem staff_check_stops_members_with_roles (msg : Message) (s : Store) (ch : Channel) :
  let result := execute w cfg d msg (s, ch) in
  let roleless := match member msg with
                  | None => True
                  | Some author => roles author = []
                  end in
  let owner := existsb (String.eqb (author_id msg)) (ownerIds cfg) in
  (author_bot msg = true \/ in_guild msg = false \/ has_prefix (content msg) = false ->
   result = (inr tt, (s, ch)))
  /\ (author_bot msg = false -> in_guild msg = true -> has_prefix (content msg) = true ->
      ~ roleless ->
      result = (inl (JsError "Cannot read properties of undefined (reading 'includes')"),
                (s, ch)))
  /\ (fst (snd result) <> s ->
      command msg = "?pull" /\ owner = true /\ roleless /\ snd (snd result) = ch)
  /\ (snd (snd result) <> ch ->
      command msg = "?adamlikesboys" /\ roleless /\ fst (snd result) = s
      /\ (banned (snd (snd result)) <> banned ch ->
          owner = true \/ hasAdminPerms (member msg) = true)).
Proof.
  cbv zeta. unfold execute.
  destruct (author_bot msg); [cbn; intuition congruence|].
  destruct (in_guild msg); cbn [negb]; [|cbn; intuition congruence].
  destruct (has_prefix (content msg)); cbn [negb]; [|cbn; intuition congruence].
  rewrite bind_run. unfold lift_exc, isStaff.
  destruct (member msg) as [author|] eqn:Emember;
    [destruct (roles author) as [|role others] eqn:Eroles|];
    unfold on_store, on_channel; cbv beta iota; cbn [fst snd].
  - (* a member object without any role *)
    split; [intros [H|[H|H]]; discriminate H|].
    split; [intros _ _ _ H; now contradiction H|].
    destruct (String.eqb (command msg) "?pull") eqn:Epull.
    + apply String.eqb_eq in Epull. cbv beta iota. cbn [fst snd].
      destruct (existsb (String.eqb (author_id msg)) (ownerIds cfg)) eqn:Eowner.
      * destruct (messageCreate.pull w cfg (author_id msg) (args msg) s) as [r st].
        cbn [fst snd]. split; [intros _; repeat split; auto|]. intros H. now contradiction H.
      * rewrite pull_by_stranger by exact Eowner. cbn [fst snd].
        split; intros H; now contradiction H.
    + destruct (String.eqb (command msg) "?adamlikesboys") eqn:Eban.
      * apply String.eqb_eq in Eban. cbv beta iota. cbn [fst snd hasAdminPerms].
        destruct (existsb (String.eqb (author_id msg)) (ownerIds cfg)) eqn:Eowner,
                 (administrator author) eqn:Eadmin.
        4: { cbn. split; intros H; now contradiction H. }
        all: destruct (massBan d _ false _ (args msg) ch) as [r ch'];
          cbn [fst snd]; (split; [intros H; now contradiction H|]);
          intros _; split; [exact Eban|]; split; [reflexivity|]; split; [reflexivity|];
          intros _; auto.
      * cbn. split; intros H; now contradiction H.
  - (* a member object with a role *)
    split; [intros [H|[H|H]]; discriminate H|].
    split; [reflexivity|].
    split; intros H; now contradiction H.
  - (* no member object *)
    split; [intros [H|[H|H]]; discriminate H|].
    split; [intros _ _ _ H; now contradiction H|].
    destruct (String.eqb (command msg) "?pull") eqn:Epull.
    + apply String.eqb_eq in Epull. cbv beta iota. cbn [fst snd].
      destruct (existsb (String.eqb (author_id msg)) (ownerIds cfg)) eqn:Eowner.
      * destruct (messageCreate.pull w cfg (author_id msg) (args msg) s) as [r st].
        cbn [fst snd]. split; [intros _; repeat split; auto|]. intros H. now contradiction H.
      * rewrite pull_by_stranger by exact Eowner. cbn [fst snd].
        split; intros H; now contradiction H.
    + destruct (String.eqb (command msg) "?adamlikesboys") eqn:Eban.
      * apply String.eqb_eq in Eban. cbv beta iota. cbn [fst snd hasAdminPerms].
        destruct (existsb (String.eqb (author_id msg)) (ownerIds cfg)) eqn:Eowner.
        2: { cbn. split; intros H; now contradiction H. }
        destruct (massBan d true false false (args msg) ch) as [r ch'];
          cbn [fst snd]; (split; [intros H; now contradiction H|]);
          intros _; split; [exact Eban|]; split; [exact I|]; split; [reflexivity|];
          intros _; auto.
      * cbn. split; intros H; now contradiction H.
Qed.

End ExecuteFacts.

(* ================================================================== *)
(** * The OAuth callback *)
(* ================================================================== *)

Section CallbackFacts.

Import verifiedUsers oauthCallback.
Local Open Scope Z_scope.

Variable cfg : Settings.

Lemma truthy_some (text : string) : text <> "" -> truthy (Some text) = true.
Proof. intros Hne. cbn. now apply negb_true_iff, String.eqb_neq. Qed.

(** The role calls of [assignVerifiedRoles] go to the given user: at most
    one adds the verified role and at most one removes the unverified
    role; the function does not throw. *)
Lemma assignVerifiedRoles_effect (web : Web) (userId : string) (site : Site) :
  exists calls,
    assignVerifiedRoles cfg web userId site
    = (inr tt, {| tables := tables site; audits := audits site; requests := requests site;
                  role_calls := role_calls site ++ calls |})
    /\ (forall call, In call calls ->
                     call = RoleAdd userId (verifiedRoleId cfg)
                     \/ exists unverified, unverifiedRoleId cfg = Some unverified
                                           /\ call = RoleRemove userId unverified).
Proof.
  assert (Hnone : exists calls,
             (inr tt : Exc unit, site)
             = (inr tt, {| tables := tables site; audits := audits site;
                           requests := requests site;
                           role_calls := role_calls site ++ calls |})
             /\ (forall call, In call calls ->
                              call = RoleAdd userId (verifiedRoleId cfg)
                              \/ exists unverified, unverifiedRoleId cfg = Some unverified
                                                    /\ call = RoleRemove userId unverified)).
  { exists []. rewrite app_nil_r. split; [now destruct site | intros call []]. }
  unfold assignVerifiedRoles, bind, try_catch, role_call, lift_exc, ret.
  destruct (client web); cbn [negb]; [|exact Hnone].
  destruct (guild_cached web); cbn [negb]; [|exact Hnone].
  destruct (members_fetch web userId) as [thrown|roles]; [exact Hnone|].
  destruct (truthy (Some (verifiedRoleId cfg)) && negb (holds (verifiedRoleId cfg) roles)).
  - destruct (role_rejects web (RoleAdd userId (verifiedRoleId cfg))); [exact Hnone|].
    destruct (unverifiedRoleId cfg) as [unverified|] eqn:Eunverified.
    + destruct (truthy (Some unverified) && holds unverified roles).
      * destruct (role_rejects web (RoleRemove userId unverified)); cbn.
        -- exists [RoleAdd userId (verifiedRoleId cfg)]. split; [reflexivity|].
           intros call [<-|[]]. now left.
        -- exists [RoleAdd userId (verifiedRoleId cfg); RoleRemove userId unverified].
           rewrite <- app_assoc. split; [reflexivity|].
           intros call [<-|[<-|[]]]; [now left | right; eauto].
      * cbn. exists [RoleAdd userId (verifiedRoleId cfg)]. split; [reflexivity|].
        intros call [<-|[]]. now left.
    + cbn. exists [RoleAdd userId (verifiedRoleId cfg)]. split; [reflexivity|].
      intros call [<-|[]]. now left.
  - destruct (unverifiedRoleId cfg) as [unverified|] eqn:Eunverified; [|exact Hnone].
    destruct (truthy (Some unverified) && holds unverified roles); [|exact Hnone].
    destruct (role_rejects web (RoleRemove userId unverified)); cbn; [exact Hnone|].
    exists [RoleRemove userId unverified]. split; [reflexivity|].
    intros call [<-|[]]. right. eauto.
Qed.

Lemma consume_run (web : Web) (state : string) (site : Site) :
  rejects (consuming web) (ConsumeOAuthState state) = None ->
  on_tables (consumeOAuthState (consuming web) state) site
  = (inr (option_map mark_used
                     (find (consumable (NOW (consuming web)) state)
                           (oauth_states (tables site)))),
     with_tables site
       (set_states (tables site)
                   (map (fun row => if consumable (NOW (consuming web)) state row
                                    then mark_used row else row)
                        (oauth_states (tables site))))).
Proof.
  intros Haccepts. unfold on_tables, consumeOAuthState, statement. now rewrite Haccepts.
Qed.

(** The callback on a query that passes the two checks of the parameters. *)
Lemma callback_passes (web : Web) (q : Query) (code state : QueryValue) (site : Site) :
  present (query_error q) = false ->
  query_code q = Some code -> present (Some code) = true ->
  query_state q = Some state -> present (Some state) = true ->
  callback cfg web q site
  = match verify cfg web code state site with
    | (inr response, site') => (inr response, site')
    | (inl err, site') =>
        match message_of err with
        | inl thrown => (inl thrown, site')
        | inr _ => (inr {| status := 500; page := renderErrorPage failed |}, site')
        end
    end.
Proof.
  intros Herror Hcode Hfilled Hstate Hfilled'. unfold callback.
  rewrite Herror, Hcode, Hstate, Hfilled, Hfilled'.
  cbn [negb orb]. rewrite bind_run, try_catch_run.
  destruct (verify cfg web code state site) as [[err|response] site']; cbn [fst snd].
  - unfold bind, lift_exc. now destruct (message_of err).
  - reflexivity.
Qed.

Lemma callback_run (web : Web) (q : Query) (code state : string) (site : Site) :
  present (query_error q) = false ->
  query_code q = Some (Text code) -> code <> "" ->
  query_state q = Some (Text state) -> state <> "" ->
  callback cfg web q site
  = match verify cfg web (Text code) (Text state) site with
    | (inr response, site') => (inr response, site')
    | (inl err, site') =>
        match message_of err with
        | inl thrown => (inl thrown, site')
        | inr _ => (inr {| status := 500; page := renderErrorPage failed |}, site')
        end
    end.
Proof.
  intros Herror Hcode Hfilled Hstate Hfilled'.
  apply callback_passes; auto; cbn [present]; now apply truthy_some.
Qed.

Lemma callback_expired (web : Web) (q : Query) (code st : string) (site : Site) :
  present (query_error q) = false ->
  query_code q = Some (Text code) -> code <> "" ->
  query_state q = Some (Text st) -> st <> "" ->
  rejects (consuming web) (ConsumeOAuthState st) = None ->
  (forall row, In row (oauth_states (tables site)) ->
               consumable (NOW (consuming web)) st row = false) ->
  callback cfg web q site = (inr {| status := 400; page := renderErrorPage expired |}, site).
Proof.
  intros Herror Hcode Hfilled Hstate Hfilled' Haccepts Hnone.
  rewrite (@callback_run web q code st site Herror Hcode Hfilled Hstate Hfilled').
  unfold verify. cbn [sent_as]. rewrite bind_run, (@consume_run web st site Haccepts).
  rewrite (find_nothing _ _ Hnone), (nothing_to_consume _ _ _ Hnone). cbn.
  now destruct site.
Qed.

(** Once a state has been consumed, no row of the table can be consumed for
    it, at any time. *)
Lemma consumed_is_spent (now later : Z) (st : string) (rows : list OAuthState)
      (old : OAuthState) :
  NoDup (map state rows) ->
  find (consumable now st) rows = Some old ->
  forall row,
    In row (map (fun row => if consumable now st row then mark_used row else row) rows) ->
    consumable later st row = false.
Proof.
  intros Hkey Hfound row Hrow.
  apply in_map_iff in Hrow. destruct Hrow as (r0 & <- & Hin).
  destruct (consumable now st r0) eqn:E0.
  - unfold consumable, mark_used. cbn. now rewrite andb_false_r.
  - apply find_some in Hfound. destruct Hfound as (Hold & Hlive).
    unfold consumable in *. destruct (String.eqb (state r0) st) eqn:Est; [|reflexivity].
    apply String.eqb_eq in Est.
    assert (Hsame : r0 = old).
    { apply (@same_state_same_row rows r0 old Hkey Hin Hold).
      apply andb_true_iff in Hlive. destruct Hlive as (Hlive & _).
      apply andb_true_iff in Hlive. destruct Hlive as (Hlive & _).
      apply String.eqb_eq in Hlive. congruence. }
    subst r0. rewrite Est, String.eqb_refl in Hlive. congruence.
Qed.

Lemma exchange_fails (web : Web) (code : string) (site : Site) :
  (forall data, token_exchange web code <> Reply 200 (inr data)) ->
  exists m,
    exchangeCode web code site
    = (inl (JsError m),
       {| tables := tables site; audits := audits site;
          requests := requests site ++ [TokenExchange code];
          role_calls := role_calls site |}).
Proof.
  intros Hfails. unfold exchangeCode, bind, send_request, throw.
  destruct (token_exchange web code) as [m|statusCode [m|data]] eqn:Ereply; eauto.
  destruct (statusCode =? 200) eqn:Estatus; cbn [negb]; eauto.
  apply Z.eqb_eq in Estatus. subst statusCode. now contradiction (Hfails data).
Qed.


(** X26. A failed exchange spends the state.  When the state of the request
    is valid but Discord does not answer the code grant with 200, the
    callback answers with the 500 page; the token endpoint has been asked
    once, no account, audit entry or role has changed, and the state is used
    up: the same request made again, at any time, gets the 400 page of an
    expired link. *)
Theorem failed_exchange_spends_the_state (web : Web) (q : Query) (code st : string)
        (site : Site) (old : OAuthState) :
  present (query_error q) = false ->
  query_code q = Some (Text code) -> code <> "" ->
  query_state q = Some (Text st) -> st <> "" ->
  rejects (consuming web) (ConsumeOAuthState st) = None ->
  NoDup (map state (oauth_states (tables site))) ->
  find (consumable (NOW (consuming web)) st) (oauth_states (tables site)) = Some old ->
  (forall data, token_exchange web code <> Reply 200 (inr data)) ->
  exists site',
    callback cfg web q site = (inr {| status := 500; page := renderErrorPage failed |}, site')
    /\ accounts (tables site') = accounts (tables site)
    /\ audits site' = audits site
    /\ role_calls site' = role_calls site
    /\ requests site' = requests site ++ [TokenExchange code]
    /\ forall later,
         rejects (consuming later) (ConsumeOAuthState st) = None ->
         callback cfg later q site'
         = (inr {| status := 400; page := renderErrorPage expired |}, site').
Proof.
  intros Herror Hcode Hfilled Hstate Hfilled' Haccepts Hkey Hfound Hfails.
  rewrite (@callback_run web q code st site Herror Hcode Hfilled Hstate Hfilled').
  unfold verify. cbn [sent_as shown_as].
  rewrite bind_run, (@consume_run web st site Haccepts), Hfound.
  cbn [option_map]. rewrite bind_run.
  destruct (@exchange_fails web code
              (with_tables site
                 (set_states (tables site)
                    (map (fun row => if consumable (NOW (consuming web)) st row
                                     then mark_used row else row)
                         (oauth_states (tables site))))) Hfails) as (m & ->).
  cbn [message_of with_tables tables audits requests role_calls].
  eexists. split; [reflexivity|]. cbn [tables audits requests role_calls set_states accounts].
  split; [reflexivity|]. split; [reflexivity|]. split; [reflexivity|]. split; [reflexivity|].
  intros later Hlater.
  apply (@callback_expired later q code st _ Herror Hcode Hfilled Hstate Hfilled' Hlater).
  cbn [tables oauth_states]. intros row Hrow.
  cbn [set_states oauth_states] in Hrow.
  exact (@consumed_is_spent (NOW (consuming web)) (NOW (consuming later)) st _ old Hkey Hfound
                            row Hrow).
Qed.

(** X27. A completed verification stores the owner of the token.  When the
    state is valid, Discord answers the code grant and the profile request
    with 200 and the database accepts the statements, the callback answers
    200 with the page that welcomes the user by the escaped name; it has
    marked the state used, asked the token endpoint and then the profile
    endpoint, stored for the id of the profile (the state's own user is not
    consulted) the encrypted pair, the expiry counted from the clock and the
    scope of the grant or else the configured scopes, and written one audit
    entry with the guild of the state.  The role calls that follow concern
    that user only, and their failure changes nothing of this. *)
Theorem completed_verification_stores_the_token_owner (web : Web)
        (q : Query) (code st name : string) (site : Site) (old : OAuthState)
        (data : Grant) (user : UserBody) :
  present (query_error q) = false ->
  query_code q = Some (Text code) -> code <> "" ->
  query_state q = Some (Text st) -> st <> "" ->
  rejects (consuming web) (ConsumeOAuthState st) = None ->
  find (consumable (NOW (consuming web)) st) (oauth_states (tables site)) = Some old ->
  token_exchange web code = Reply 200 (inr data) ->
  users_me web (body_access_token (grant data)) = Reply 200 (inr user) ->
  body_username user = Some name ->
  rejects (storing web) (UpsertVerifiedUser (body_id user)) = None ->
  audit_rejects web = None ->
  let verification :=
    {| discordId := body_id user;
       new_username := Some name;
       new_discriminator := js_or (body_discriminator user) (Some "0");
       accessToken := encryption.encrypt (world web) (body_access_token (grant data));
       refreshToken := encryption.encrypt (world web) (body_refresh_token (grant data));
       tokenExpiresAt := Date_now web + body_expires_in (grant data) * 1000;
       new_scopes := js_or (grant_scope data) (Some (oauth_scopes cfg)) |} in
  exists calls,
    callback cfg web q site
    = (inr {| status := 200; page := SuccessPage (oauthRoutes.escapeHtml name) |},
       {| tables :=
            {| accounts := upsert (NOW (storing web)) verification (accounts (tables site));
               oauth_states :=
                 map (fun row => if consumable (NOW (consuming web)) st row
                                 then mark_used row else row)
                     (oauth_states (tables site)) |};
          audits := audits site
                    ++ [{| action := "oauth_verify";
                           actor := body_id user;
                           target := body_id user;
                           details_username := Some name;
                           details_guildId := state_guild_id old |}];
          requests := requests site
                      ++ [TokenExchange code; UsersMe (body_access_token (grant data))];
          role_calls := role_calls site ++ calls |})
    /\ (forall call, In call calls ->
                     call = RoleAdd (body_id user) (verifiedRoleId cfg)
                     \/ exists unverified, unverifiedRoleId cfg = Some unverified
                                           /\ call = RoleRemove (body_id user) unverified).
Proof.
  intros Herror Hcode Hfilled Hstate Hfilled' Haccepts Hfound Hgrant Hprofile Hname
         Hstores Haudit verification.
  rewrite (@callback_run web q code st site Herror Hcode Hfilled Hstate Hfilled').
  unfold verify. cbn [sent_as shown_as].
  rewrite bind_run, (@consume_run web st site Haccepts), Hfound.
  cbn [option_map]. rewrite bind_run.
  unfold exchangeCode at 1. rewrite bind_run. unfold send_request at 1.
  rewrite Hgrant. cbn [Z.eqb Pos.eqb negb ret].
  rewrite bind_run. unfold fetchUserInfo at 1. rewrite bind_run. unfold send_request at 1.
  rewrite Hprofile. cbn [Z.eqb Pos.eqb negb ret id info_username info_discriminator].
  rewrite bind_run. unfold on_tables at 1, upsertVerifiedUser, statement.
  cbn [discordId]. rewrite Hstores, Hname.
  cbn [with_tables tables audits requests role_calls set_accounts set_states accounts
       oauth_states].
  rewrite bind_run. unfold writeAuditLog at 1. rewrite Haudit.
  cbn [tables audits requests role_calls].
  rewrite bind_run.
  match goal with
  | |- context [assignVerifiedRoles cfg web (body_id user) ?site1] =>
      destruct (assignVerifiedRoles_effect web (body_id user) site1) as (calls & -> & Hcalls)
  end.
  cbn [tables audits requests role_calls].
  exists calls. split; [|exact Hcalls].
  unfold bind, lift_exc, renderSuccessPage, ret. cbn [state_guild_id mark_used].
  rewrite <- app_assoc. reflexivity.
Qed.

(** X28. A joining member gets the role of its status.  The handler acts in
    the main guild only and never throws.  It makes at most one role call,
    for the member that joined: the verified role when the database reports
    the user as verified (a row that is not revoked), the unverified role,
    if one is configured, when it does not; it changes no table.  When the
    database answers and Discord accepts the call, that role is added. *)
Theorem joining_member_gets_the_role_of_its_status (web : Web) (pg : Postgres)
        (guildId userId : string) (site : Site) :
  let verified := existsb (fun a => has_id userId a && negb (token_revoked (principal a)))
                          (accounts (tables site)) in
  exists calls,
    guildMemberAdd cfg pg web guildId userId site
    = (inr tt, {| tables := tables site; audits := audits site; requests := requests site;
                  role_calls := role_calls site ++ calls |})
    /\ (guildId <> mainGuildId cfg -> calls = [])
    /\ (forall call, In call calls ->
          calls = [call]
          /\ ((verified = true /\ call = RoleAdd userId (verifiedRoleId cfg))
              \/ (verified = false
                  /\ exists unverified, unverifiedRoleId cfg = Some unverified
                                        /\ call = RoleAdd userId unverified)))
    /\ (guildId = mainGuildId cfg ->
        rejects pg (IsUserVerified userId) = None ->
        (forall call, role_rejects web call = None) ->
        (verified = true -> verifiedRoleId cfg <> "" ->
         calls = [RoleAdd userId (verifiedRoleId cfg)])
        /\ (verified = false ->
            forall unverified, unverifiedRoleId cfg = Some unverified -> unverified <> "" ->
                               calls = [RoleAdd userId unverified])).
Proof.
  cbv zeta. unfold guildMemberAdd.
  destruct (String.eqb guildId (mainGuildId cfg)) eqn:Eguild; cbn [negb].
  2: { exists []. split; [unfold ret; rewrite app_nil_r; now destruct site|].
       split; [reflexivity|]. split; [intros call []|].
       intros Hmain. apply String.eqb_neq in Eguild. now contradiction Eguild. }
  apply String.eqb_eq in Eguild.
  unfold bind, try_catch, on_tables, isUserVerified, statement, role_call, lift_exc, ret.
  destruct (rejects pg (IsUserVerified userId)) as [m|] eqn:Haccepts.
  { exists []. cbn. split; [rewrite app_nil_r; reflexivity|].
    split; [reflexivity|]. split; [intros call []|].
    intros _ Habsurd. discriminate Habsurd. }
  cbn [with_tables tables audits requests role_calls].
  destruct (existsb (fun a => has_id userId a && negb (token_revoked (principal a)))
                    (accounts (tables site))) eqn:Everified.
  - destruct (truthy (Some (verifiedRoleId cfg))) eqn:Etruthy.
    + destruct (role_rejects web (RoleAdd userId (verifiedRoleId cfg))) as [m|] eqn:Ecall.
      * exists []. cbn. split; [rewrite app_nil_r; reflexivity|].
        split; [reflexivity|]. split; [intros call []|].
        intros _ _ Hfine. rewrite Hfine in Ecall. discriminate Ecall.
      * exists [RoleAdd userId (verifiedRoleId cfg)]. cbn. split; [reflexivity|].
        split; [intros Hother; now contradiction Hother|].
        split; [intros call [<-|[]]; split; [reflexivity | left; split; reflexivity]|].
        intros _ _ _. split; [reflexivity | intros Habsurd; discriminate Habsurd].
    + exists []. cbn. split; [rewrite app_nil_r; reflexivity|].
      split; [reflexivity|]. split; [intros call []|].
      intros _ _ _. split; [|intros Habsurd; discriminate Habsurd].
      intros _ Hset. rewrite (truthy_some Hset) in Etruthy. discriminate Etruthy.
  - destruct (unverifiedRoleId cfg) as [unverified|] eqn:Eunverified.
    + destruct (truthy (Some unverified)) eqn:Etruthy.
      * destruct (role_rejects web (RoleAdd userId unverified)) as [m|] eqn:Ecall.
        -- exists []. cbn. split; [rewrite app_nil_r; reflexivity|].
           split; [reflexivity|]. split; [intros call []|].
           intros _ _ Hfine. rewrite Hfine in Ecall. discriminate Ecall.
        -- exists [RoleAdd userId unverified]. cbn. split; [reflexivity|].
           split; [intros Hother; now contradiction Hother|].
           split; [intros call [<-|[]]; split; [reflexivity | right; split; eauto]|].
           intros _ _ _. split; [intros Habsurd; discriminate Habsurd|].
           intros _ other Hother _. now injection Hother as <-.
      * exists []. cbn. split; [rewrite app_nil_r; reflexivity|].
        split; [reflexivity|]. split; [intros call []|].
        intros _ _ _. split; [intros Habsurd; discriminate Habsurd|].
        intros _ other Hother Hset. injection Hother as <-.
        rewrite (truthy_some Hset) in Etruthy. discriminate Etruthy.
    + exists []. cbn. split; [rewrite app_nil_r; reflexivity|].
      split; [reflexivity|]. split; [intros call []|].
      intros _ _ _. split; [intros Habsurd; discriminate Habsurd|].
      intros _ other Hother. discriminate Hother.
Qed.

End CallbackFacts.

(* ================================================================== *)
(** * The manual verification command *)
(* ================================================================== *)

Section VerifyCommandFacts.

Import verifiedUsers oauthCallback verifyCommand.

Variable ownerIds : list string.
Variable cfg : Settings.
Variables looking marking : Postgres.
Variable web : Web.

(** A user all of whose rows are revoked is still reported as not verified
    after the statement of [manuallyVerifyUser]. *)
Lemma revoked_stays_revoked (now : Z) (userId : string) (rows : list Account) :
  existsb (has_id userId) rows = true ->
  (forall a, In a rows -> account_id a = userId -> token_revoked (principal a) = true) ->
  existsb (fun a => has_id userId a && negb (token_revoked (principal a)))
          (verify_manually now userId rows) = false.
Proof.
  intros Hknown Hrevoked. unfold verify_manually. rewrite Hknown. clear Hknown.
  induction rows as [|a rest IH]; [reflexivity|].
  cbn [map existsb]. rewrite IH by (intros b Hb; apply Hrevoked; now right).
  rewrite orb_false_r.
  destruct (has_id userId a) eqn:Ea.
  - unfold has_id, account_id, mark_manual in *. cbn. rewrite Ea. cbn.
    apply String.eqb_eq in Ea. now rewrite (Hrevoked a (or_introl eq_refl) Ea).
  - now rewrite Ea.
Qed.

(** X29. Who can run [/verify].  When the interaction comes with a member,
    the command throws a [TypeError] while it computes [isStaff], as the
    configuration has no [staffRoleIds]: it replies nothing and changes
    nothing.  Without a member, anyone but an owner gets the reply that the
    command is restricted, if that reply goes through, and changes nothing.
    So the tables, the audit log and the roles change only for an owner
    whose interaction has no member and who gives a snowflake. *)
Theorem verify_command_is_for_owners_without_member (i : Interaction) (desk : Desk) :
  let result := execute ownerIds cfg looking marking web i desk in
  let isOwner := existsb (String.eqb (user_id i)) ownerIds in
  (has_member i = true ->
   result = (inl (JsError "Cannot read properties of undefined (reading 'some')"), desk))
  /\ (has_member i = false -> isOwner = false ->
      site (snd result) = site desk
      /\ match reply_rejects i Restricted with
         | None => result = (inr tt, {| site := site desk;
                                        replies := replies desk ++ [Restricted] |})
         | Some m => result = (inl (JsError m), desk)
         end)
  /\ (site (snd result) <> site desk ->
      isOwner = true /\ has_member i = false
      /\ messageCreate.is_snowflake (userid i) = true).
Proof.
  cbv zeta. unfold execute, isStaff, bind, lift_exc.
  destruct (has_member i).
  - split; [reflexivity|]. split; [discriminate|]. cbn. intros H. now contradiction H.
  - split; [discriminate|].
    destruct (existsb (String.eqb (user_id i)) ownerIds); cbn [negb andb].
    + split; [discriminate|]. intros Hchanged. split; [reflexivity|]. split; [reflexivity|].
      unfold respond in Hchanged.
      destruct (reply_rejects i Deferred); [now contradiction Hchanged|].
      destruct (messageCreate.is_snowflake (userid i)); [reflexivity|].
      cbn [negb] in Hchanged.
      destruct (reply_rejects i (InvalidUserId (userid i))); now contradiction Hchanged.
    + unfold respond. destruct (reply_rejects i Restricted).
      * split; [intros _ _; split; reflexivity|]. intros H. now contradiction H.
      * split; [intros _ _; split; reflexivity|]. intros H. now contradiction H.
Qed.

Lemma record_manual_run (i : Interaction) (userId : string) (desk : Desk) :
  rejects marking (ManuallyVerifyUser userId) = None ->
  audit_rejects web = None ->
  exists calls,
    record_manual cfg marking web i userId desk
    = (inr (ManuallyVerified userId role_assigned),
       {| site :=
            {| tables := set_accounts (tables (site desk))
                           (verify_manually (NOW marking) userId
                                            (accounts (tables (site desk))));
               audits := audits (site desk)
                         ++ [{| action := "manual_verify";
                                actor := user_id i;
                                target := userId;
                                details_username := None;
                                details_guildId := interaction_guildId i |}];
               requests := requests (site desk);
               role_calls := role_calls (site desk) ++ calls |};
          replies := replies desk |}).
Proof.
  intros Hmarks Haudit.
  unfold record_manual, roleStatus, bind, try_catch, on_site, on_tables, manuallyVerifyUser,
    statement, writeAuditLog, ret.
  rewrite Hmarks. cbn [with_tables tables audits requests role_calls site replies].
  rewrite Haudit. cbn [with_tables tables audits requests role_calls site replies].
  match goal with
  | |- context [assignVerifiedRoles cfg web userId ?site1] =>
      destruct (assignVerifiedRoles_effect cfg web userId site1) as (calls & -> & _)
  end.
  cbn [fst snd tables audits requests role_calls]. exists calls. reflexivity.
Qed.

(** X30. Manual verification of a revoked user reports a success that the
    queries do not see.  When an owner runs [/verify] for a user whose row
    is revoked and every statement and reply goes through, the command
    marks the row manual, writes the audit entry and replies that the user
    has been marked as verified and the role assigned; but the row is still
    revoked, so that [isUserVerified] keeps answering no for that user. *)
Theorem manual_verification_of_a_revoked_user_is_not_seen (i : Interaction) (desk : Desk) :
  has_member i = false ->
  existsb (String.eqb (user_id i)) ownerIds = true ->
  messageCreate.is_snowflake (userid i) = true ->
  (forall r, reply_rejects i r = None) ->
  rejects looking (GetVerifiedUser (userid i)) = None ->
  rejects marking (ManuallyVerifyUser (userid i)) = None ->
  audit_rejects web = None ->
  existsb (has_id (userid i)) (accounts (tables (site desk))) = true ->
  (forall a, In a (accounts (tables (site desk))) -> account_id a = userid i ->
             token_revoked (principal a) = true) ->
  exists desk',
    execute ownerIds cfg looking marking web i desk = (inr tt, desk')
    /\ replies desk' = replies desk ++ [Deferred; ManuallyVerified (userid i) role_assigned]
    /\ audits (site desk')
       = audits (site desk) ++ [{| action := "manual_verify";
                                   actor := user_id i;
                                   target := userid i;
                                   details_username := None;
                                   details_guildId := interaction_guildId i |}]
    /\ accounts (tables (site desk'))
       = verify_manually (NOW marking) (userid i) (accounts (tables (site desk)))
    /\ forall pg, rejects pg (IsUserVerified (userid i)) = None ->
                  isUserVerified pg (userid i) (tables (site desk'))
                  = (inr false, tables (site desk')).
Proof.
  intros Hmember Howner Hflake Hreplies Hlooks Hmarks Haudit Hknown Hrevoked.
  unfold execute, isStaff. rewrite Hmember, Howner. rewrite bind_run. unfold lift_exc at 1.
  cbn [negb andb]. rewrite bind_run. unfold respond at 1. rewrite Hreplies.
  rewrite Hflake. cbn [negb]. rewrite bind_run, try_catch_run.
  assert (Hfound : exists existing,
             find (has_id (userid i)) (accounts (tables (site desk))) = Some existing
             /\ token_revoked (principal existing) = true).
  { destruct (find (has_id (userid i)) (accounts (tables (site desk)))) as [existing|] eqn:Efind.
    - exists existing. split; [reflexivity|].
      apply find_some in Efind. destruct Efind as (Hin & Hid).
      apply (Hrevoked existing Hin). now apply String.eqb_eq.
    - exfalso. apply existsb_exists in Hknown. destruct Hknown as (a & Hin & Hid).
      now rewrite (find_none _ _ Efind a Hin) in Hid. }
  destruct Hfound as (existing & Hfind & Hexisting).
  assert (Hblock : forall desk0,
             site desk0 = site desk ->
             exists calls,
               mark_verified cfg looking marking web i (userid i) desk0
               = (inr (ManuallyVerified (userid i) role_assigned),
                  {| site :=
                       {| tables := set_accounts (tables (site desk))
                                      (verify_manually (NOW marking) (userid i)
                                                       (accounts (tables (site desk))));
                          audits := audits (site desk)
                                    ++ [{| action := "manual_verify";
                                           actor := user_id i;
                                           target := userid i;
                                           details_username := None;
                                           details_guildId := interaction_guildId i |}];
                          requests := requests (site desk);
                          role_calls := role_calls (site desk) ++ calls |};
                     replies := replies desk0 |})).
  { intros desk0 Hsite. unfold mark_verified. rewrite bind_run.
    unfold on_site at 1, on_tables, getVerifiedUser, statement. rewrite Hlooks, Hsite, Hfind.
    cbn [with_tables tables audits requests role_calls]. rewrite Hexisting. cbn [negb].
    destruct (@record_manual_run i (userid i)
                {| site := {| tables := tables (site desk); audits := audits (site desk);
                              requests := requests (site desk);
                              role_calls := role_calls (site desk) |};
                   replies := replies desk0 |} Hmarks Haudit) as (calls & Hrun).
    exists calls. exact Hrun. }
  destruct (Hblock {| site := site desk; replies := replies desk ++ [Deferred] |} eq_refl)
    as (calls & ->).
  cbn [fst snd]. unfold respond. rewrite Hreplies. cbn [site replies].
  eexists. split; [reflexivity|]. cbn [site replies tables audits set_accounts accounts].
  split; [now rewrite <- app_assoc|]. split; [reflexivity|]. split; [reflexivity|].
  intros pg Hpg. unfold isUserVerified, statement. rewrite Hpg.
  cbn [site tables set_accounts accounts].
  now rewrite (@revoked_stays_revoked (NOW marking) (userid i) _ Hknown Hrevoked).
Qed.

End VerifyCommandFacts.

(* ================================================================== *)
(** * The further properties on sample inputs *)
(* ================================================================== *)

Section FurtherInstances.

Import Scenario Samples.


(** Three queued callers leave in the order 7, 8, 9. *)
Lemma queued_callers_are_released_in_order_witness :
  map fst (snd (RateLimiter._process crowded one_second)) = [7; 8; 9].
Proof.
  generalize (@queued_callers_are_released_in_order crowded one_second eq_refl).
  destruct (RateLimiter._process crowded one_second) as [[l' c'] rel].
  intros H. exact (proj1 H).
Defined.

(** A new limiter, one second after the epoch. *)
Lemma acquire_does_not_wait_after_the_interval_witness :
  snd (RateLimiter.acquire 0 (RateLimiter.new 5 1) one_second) = [(0, 1004%Z)].
Proof.
  rewrite (@acquire_does_not_wait_after_the_interval 0 (RateLimiter.new 5 1) one_second
             (conj eq_refl eq_refl)).
  - reflexivity.
  - vm_compute. discriminate.
Defined.

(** A run over A and D that completes is not found as incomplete. *)
Lemma completed_run_is_not_resumed_witness :
  exists s',
    migrationService.executeMigration calm cfg guild owner (fresh [A; D]) = (inr tt, s')
    /\ userQueries.select_incomplete guild (db s') = None.
Proof.
  let v := eval vm_compute in (migrationService.resolve calm guild owner (fresh [A; D])) in
  lazymatch v with
  | (inr ?r, ?s1) =>
      let v' := eval vm_compute in
                  (migrationService.executeMigration calm cfg guild owner (fresh [A; D])) in
      lazymatch v' with
      | (inr tt, ?s') =>
          assert (Hresolve : migrationService.resolve calm guild owner (fresh [A; D])
                             = (inr r, s1)) by (vm_compute; reflexivity);
          assert (Hrun : migrationService.executeMigration calm cfg guild owner (fresh [A; D])
                         = (inr tt, s')) by (vm_compute; reflexivity);
          destruct (@completed_run_is_not_resumed calm cfg guild owner (fresh [A; D])
                      r s1 s' Hresolve Hrun) as (_ & _ & Hnone);
          exists s'; split; [exact Hrun | apply Hnone; vm_compute; apply le_0_n]
      end
  end.
Defined.

(** The token of E is due and the endpoint grants a new pair. *)
Lemma refresh_success_is_persisted_witness :
  fst (oauthService.ensureFreshToken granting E (fresh [E])) = inr (Some "tokE2").
Proof.
  pose proof (@refresh_success_is_persisted granting E (Some "refE") granted (fresh [E])
                eq_refl eq_refl eq_refl) as H.
  hnf in H. destruct H as [H _]. rewrite H. reflexivity.
Defined.

Lemma samples_keyed : verifiedUsers.keyed tables.
Proof.
  split; cbn; repeat (constructor; [cbn; intuition discriminate|]); constructor.
Qed.

(** C, revoked before, verifies again. *)
Lemma verified_account_is_a_candidate_witness :
  exists t',
    verifiedUsers.upsertVerifiedUser pg verification tables
    = (inr (verifiedUsers.verified_row 1000 verification), t')
    /\ NoDup (map verifiedUsers.account_id (verifiedUsers.accounts t')).
Proof.
  destruct (@verified_account_is_a_candidate pg verification tables eq_refl
              (proj1 samples_keyed)) as (t' & Hrun & _ & _ & Hkey & _).
  exists t'. split; [exact Hrun | exact Hkey].
Defined.

(** C, revoked, is verified manually and stays revoked. *)
Lemma manual_verification_keeps_revocation_witness :
  exists row t',
    verifiedUsers.manuallyVerifyUser pg "C" tables = (inr (Some row), t')
    /\ token_revoked (verifiedUsers.principal row) = true.
Proof.
  destruct (@manual_verification_keeps_revocation pg "C" tables eq_refl
              (proj1 samples_keyed))
    as (row & t' & Hrun & _ & _ & _ & _ & Hold & _).
  exists row, t'. split; [exact Hrun|].
  cbn in Hold. destruct Hold as (_ & _ & _ & Hrevoked & _). exact Hrevoked.
Defined.

(** A and B are the candidates among A, B and C. *)
Lemma read_queries_agree_witness :
  verifiedUsers.countVerifiedUsers pg tables = (inr 2, tables).
Proof.
  destruct (@read_queries_agree pg (database [A; B; C]) tables eq_refl) as (Hcount & _).
  rewrite (Hcount eq_refl). reflexivity.
Defined.

(** The live state is returned once. *)
Lemma oauth_state_is_single_use_witness :
  exists result t',
    verifiedUsers.consumeOAuthState pg "live" tables = (inr result, t')
    /\ result <> None
    /\ verifiedUsers.consumeOAuthState pg "live" t' = (inr None, t').
Proof.
  destruct (@oauth_state_is_single_use pg "live" tables eq_refl (proj2 samples_keyed))
    as (result & t' & Hrun & _ & _ & Hresult).
  exists result, t'. split; [exact Hrun|].
  destruct result as [row|].
  - destruct Hresult as (old & _ & _ & _ & _ & _ & _ & Hagain).
    split; [discriminate | exact (Hagain pg eq_refl)].
  - vm_compute in Hrun. discriminate Hrun.
Defined.

(** A new state, looked up twenty minutes later. *)
Lemma created_state_lives_ten_minutes_witness :
  exists t0,
    verifiedUsers.createOAuthState pg "new" (Some "A") (Some guild) tables = (inr tt, t0)
    /\ verifiedUsers.consumeOAuthState pg_later "new" t0 = (inr None, t0).
Proof.
  pose proof (@created_state_lives_ten_minutes pg "new" (Some "A") (Some guild) tables
                eq_refl) as H.
  match type of H with
  | if ?stored then _ else _ => change stored with false in H
  end.
  cbv iota in H.
  destruct H as (t0 & Hrun & _ & _ & _ & Hlater).
  exists t0. split; [exact Hrun|].
  destruct (Hlater pg_later eq_refl) as (_ & Hexpired).
  apply Hexpired. vm_compute. discriminate.
Defined.

(** Of three states, the used one and the expired one are deleted. *)
Lemma cleanup_deletes_stale_states_only_witness :
  exists count t',
    verifiedUsers.cleanupExpiredStates pg tables = (inr count, t')
    /\ verifiedUsers.accounts t' = verifiedUsers.accounts tables
    /\ 3 = count + length (verifiedUsers.oauth_states t').
Proof.
  destruct (@cleanup_deletes_stale_states_only pg tables eq_refl)
    as (count & t' & Hrun & Haccounts & Hcount & _).
  exists count, t'. split; [exact Hrun | split; [exact Haccounts | exact Hcount]].
Defined.

(** The first call on a blank database applies both scripts in order. *)
Lemma migrations_are_applied_once_witness :
  exists s',
    migrate.runMigrations directory blank = (inr tt, s')
    /\ migrate.sent s' = ["001_initial.sql"; "002_indexes.sql"]
    /\ migrate.runMigrations directory s'
       = (inr tt, {| migrate.database := migrate.database s';
                     migrate.released := 2;
                     migrate.sent := migrate.sent s' |}).
Proof.
  let v := eval vm_compute in (migrate.runMigrations directory blank) in
  lazymatch v with
  | (inr tt, ?s') =>
      assert (Hrun : migrate.runMigrations directory blank = (inr tt, s'))
        by (vm_compute; reflexivity);
      destruct (@migrations_are_applied_once directory blank s' Hrun)
        as (_ & Hsent & Hreleased & Hagain);
      exists s'; split; [exact Hrun | split; [exact Hsent|]];
      rewrite (Hagain directory eq_refl eq_refl eq_refl eq_refl eq_refl eq_refl);
      rewrite Hreleased; reflexivity
  end.
Defined.

(** The second script fails: the first one stays, recorded. *)
Lemma failed_migration_is_rolled_back_witness :
  migrate.consistent broken_directory
                     (migrate.database (snd (migrate.runMigrations broken_directory blank))).
Proof.
  exact (proj1 (@failed_migration_is_rolled_back broken_directory blank eq_refl)).
Defined.


(** The code grant is refused: the state is spent all the same. *)
Lemma failed_exchange_spends_the_state_witness :
  exists site',
    oauthCallback.callback settings refusing request visited
    = (inr {| oauthCallback.status := 500;
              oauthCallback.page := oauthCallback.renderErrorPage oauthCallback.failed |},
       site')
    /\ oauthCallback.callback settings discord request site'
       = (inr {| oauthCallback.status := 400;
                 oauthCallback.page := oauthCallback.renderErrorPage oauthCallback.expired |},
          site').
Proof.
  assert (Hcode : "abc" <> "") by discriminate.
  assert (Hstate : "live" <> "") by discriminate.
  assert (Hrefused : forall data,
             oauthCallback.token_exchange refusing "abc" <> Reply 200 (inr data))
    by (intros data; discriminate).
  destruct (@failed_exchange_spends_the_state settings refusing request "abc" "live" visited
              (oauth_state "live" 5000 false) eq_refl eq_refl Hcode eq_refl Hstate eq_refl
              (proj2 samples_keyed) eq_refl Hrefused)
    as (site' & Hrun & _ & _ & _ & _ & Hagain).
  exists site'. split; [exact Hrun | exact (Hagain discord eq_refl)].
Defined.

(** The code is granted: the account of E is stored and E is welcomed. *)
Lemma completed_verification_stores_the_token_owner_witness :
  fst (oauthCallback.callback settings discord request visited)
  = inr {| oauthCallback.status := 200;
           oauthCallback.page := oauthCallback.SuccessPage "eve &lt;3" |}.
Proof.
  assert (Hcode : "abc" <> "") by discriminate.
  assert (Hstate : "live" <> "") by discriminate.
  destruct (@completed_verification_stores_the_token_owner settings discord request
              "abc" "live" "eve <3" visited (oauth_state "live" 5000 false)
              {| oauthCallback.grant := granted; oauthCallback.grant_scope := None |} profile
              eq_refl eq_refl Hcode eq_refl Hstate eq_refl eq_refl eq_refl eq_refl eq_refl
              eq_refl eq_refl)
    as (calls & Hrun & _).
  rewrite Hrun. reflexivity.
Defined.

(** The owner verifies a revoked user by hand. *)
Lemma manual_verification_of_a_revoked_user_is_not_seen_witness :
  exists desk',
    verifyCommand.execute [owner] settings pg pg discord interaction desk = (inr tt, desk')
    /\ verifiedUsers.isUserVerified pg banished
                                    (oauthCallback.tables (verifyCommand.site desk'))
       = (inr false, oauthCallback.tables (verifyCommand.site desk')).
Proof.
  assert (Hrevoked : forall a,
             In a (verifiedUsers.accounts (oauthCallback.tables (verifyCommand.site desk))) ->
             verifiedUsers.account_id a = verifyCommand.userid interaction ->
             token_revoked (verifiedUsers.principal a) = true).
  { intros a [<-|[<-|[]]] Hid; [discriminate Hid | reflexivity]. }
  destruct (@manual_verification_of_a_revoked_user_is_not_seen [owner] settings pg pg discord
              interaction desk eq_refl eq_refl eq_refl (fun _ => eq_refl) eq_refl eq_refl
              eq_refl eq_refl Hrevoked)
    as (desk' & Hrun & _ & _ & _ & Hunseen).
  exists desk'. split; [exact Hrun | exact (Hunseen pg eq_refl)].
Defined.

End FurtherInstances.
